(** * Amp manager: the instance supervision engine

    A shallow embedding of the TypeScript sources of the manager
    ([TmuxManager], [AmpLogMonitor], [AmpCliHelpers], the
    [toggle_auto_restart] request of [ControlSocket]) and the properties
    of the supervision engine stated over it.

    Conventions.
    - A JavaScript [Date] is its epoch time in milliseconds, a [Z]; the
      [Invalid Date] that [new Date(x)] can produce is [None] where it can
      occur (the log monitor).
    - Counters and thresholds are JavaScript numbers holding integers: [Z].
    - An optional property ([x?: T]) is an [option]; [undefined] is [None].
    - Strings are byte strings; [toLowerCase] acts on the ASCII letters.
    - An [async] method runs to completion before the next one starts:
      the interleaving of two methods at their [await] points is not
      modelled.  What the process host (tmux, the file system, the clock)
      answers is an oracle, the [Host]. *)

From Stdlib Require Import ZArith List String Ascii Bool Lia.
From stdpp Require Import base list strings.
Import ListNotations.

Local Open Scope string_scope.
Local Open Scope Z_scope.

(** ** JavaScript strings and arrays *)

Module Js.

Definition lower_ascii (c : ascii) : ascii :=
  let n := nat_of_ascii c in
  if ((65 <=? n)%nat && (n <=? 90)%nat)%bool then ascii_of_nat (n + 32) else c.

(** [s.toLowerCase()] *)
Fixpoint toLowerCase (s : string) : string :=
  match s with
  | EmptyString => EmptyString
  | String c r => String (lower_ascii c) (toLowerCase r)
  end.

(** [s.includes(sub)] *)
Definition includes (s sub : string) : bool :=
  match String.index 0 sub s with
  | Some _ => true
  | None => false
  end.

(** [s.startsWith(p)] *)
Definition startsWith (s p : string) : bool := String.prefix p s.

Definition is_space (c : ascii) : bool :=
  let n := nat_of_ascii c in
  ((n =? 32)%nat || ((9 <=? n)%nat && (n <=? 13)%nat))%bool.

Fixpoint trimStart (s : string) : string :=
  match s with
  | EmptyString => EmptyString
  | String c r => if is_space c then trimStart r else s
  end.

Fixpoint trimEnd (s : string) : string :=
  match s with
  | EmptyString => EmptyString
  | String c r =>
      match trimEnd r with
      | EmptyString => if is_space c then EmptyString else String c EmptyString
      | r' => String c r'
      end
  end.

(** [s.trim()] *)
Definition trim (s : string) : string := trimEnd (trimStart s).

(** [s.split(c)] for a one-character separator: the empty string gives
    one empty piece. *)
Fixpoint split (c : ascii) (s : string) : list string :=
  match s with
  | EmptyString => [EmptyString]
  | String a r =>
      if Ascii.eqb a c then EmptyString :: split c r
      else match split c r with
           | [] => [String a EmptyString]
           | p :: ps => String a p :: ps
           end
  end.

(** [a.join(sep)] *)
Fixpoint join (sep : string) (a : list string) : string :=
  match a with
  | [] => EmptyString
  | [x] => x
  | x :: r => x +:+ sep +:+ join sep r
  end.

(** [a.slice(-n)]: the last [n] elements, all of them when there are
    fewer. *)
Definition slice_last {A} (n : nat) (a : list A) : list A :=
  skipn (length a - n) a.

(** [s.slice(0, n)] *)
Definition slice0 (n : nat) (s : string) : string := String.substring 0 n s.

(** [a.some(p)] *)
Definition some {A} (p : A -> bool) (a : list A) : bool := existsb p a.

Definition newline : ascii := ascii_of_nat 10.

(** A number in a template literal, for integers. *)
Definition digit (n : nat) : ascii := ascii_of_nat (48 + n).

Fixpoint digits (fuel : nat) (n : N) (acc : string) : string :=
  match fuel with
  | O => acc
  | S f =>
      let acc' := String (digit (N.to_nat (n mod 10))) acc in
      if (n <? 10)%N then acc' else digits f (n / 10)%N acc'
  end.

Definition ofZ (z : Z) : string :=
  let n := Z.abs_N z in
  let d := digits (S (N.to_nat (N.log2 n))) n EmptyString in
  if (z <? 0)%Z then String "-" d else d.

End Js.

(** ** The data model ([types/AmpInstance.ts]) *)

Definition Date := Z.

(** [a || b] on an optional value whose present values are all truthy. *)
Definition or_else {A} (a : option A) (b : A) : A :=
  match a with Some x => x | None => b end.

(** [{ ...a, ...b }] at one key: the key of [b] wins when it is there. *)
Definition spread_key {A} (a b : option A) : option A :=
  match b with Some _ => b | None => a end.

Module Status.
Inductive t :=
  idle | running | error | stopped | waiting_approval | authenticating.
#[global] Instance eq_dec : EqDecision t.
Proof. solve_decision. Defined.
End Status.

Module AuthStatus.
Inductive t := authenticated | pending | failed | unknown.
#[global] Instance eq_dec : EqDecision t.
Proof. solve_decision. Defined.
End AuthStatus.

Module LogLevel.
Inductive t := debug | info | warn | error.
Definition to_string (l : t) : string :=
  match l with
  | debug => "debug" | info => "info" | warn => "warn" | error => "error"
  end.
End LogLevel.

Module Severity.
Inductive t := info | warn | error | critical.
End Severity.

Module AmpSettings.
Record t := mk {
  notifications_enabled : option bool;   (* 'amp.notifications.enabled' *)
  mcpServers : option (list (string * (string * list string)));
  mcp_disable : option (list string);    (* 'amp.mcp.disable' *)
  tools_disable : option (list string);  (* 'amp.tools.disable' *)
  commands_allowlist : option (list string) (* 'amp.commands.allowlist' *)
}.

Definition empty : t := mk None None None None None.

(** [{ ...a, ...b }] *)
Definition spread (a b : t) : t :=
  mk (spread_key (notifications_enabled a) (notifications_enabled b))
     (spread_key (mcpServers a) (mcpServers b))
     (spread_key (mcp_disable a) (mcp_disable b))
     (spread_key (tools_disable a) (tools_disable b))
     (spread_key (commands_allowlist a) (commands_allowlist b)).
End AmpSettings.

Module InstanceConfig.
Record t := mk {
  name : option string;
  workingDirectory : option string;
  initialPrompt : option string;
  environment : option (list (string * string));
  autoRestart : option bool;
  inactivityThreshold : option Z;
  requireApproval : option bool;
  errorPatterns : option (list string);
  logLevel : option LogLevel.t;
  threadId : option string;
  ampSettings : option AmpSettings.t;
  commandAllowlist : option (list string)
}.

(** [{}] *)
Definition empty : t :=
  mk None None None None None None None None None None None None.

Definition set_autoRestart (v : option bool) (c : t) : t :=
  mk (name c) (workingDirectory c) (initialPrompt c) (environment c) v
     (inactivityThreshold c) (requireApproval c) (errorPatterns c)
     (logLevel c) (threadId c) (ampSettings c) (commandAllowlist c).
End InstanceConfig.

Module PendingCommand.
Record t := mk {
  command : string;
  requiresApproval : bool;
  timestamp : Date
}.
End PendingCommand.

Module Stats.
Record t := mk {
  promptsExecuted : Z;
  tokensUsed : Z;
  uptime : Z;
  restartCount : Z;
  lastRestart : option Date
}.

Definition set_promptsExecuted (v : Z) (s : t) : t :=
  mk v (tokensUsed s) (uptime s) (restartCount s) (lastRestart s).
Definition set_restartCount (v : Z) (s : t) : t :=
  mk (promptsExecuted s) (tokensUsed s) (uptime s) v (lastRestart s).
Definition set_lastRestart (v : option Date) (s : t) : t :=
  mk (promptsExecuted s) (tokensUsed s) (uptime s) (restartCount s) v.
End Stats.

Module AmpInstance.
Record t := mk {
  id : string;
  name : string;
  tmuxPane : string;
  status : Status.t;
  createdAt : Date;
  lastActivity : Date;
  lastInactivityCheck : Date;
  workingDirectory : option string;
  logFile : option string;
  output : list string;
  currentPrompt : option string;
  threadId : option string;
  authStatus : AuthStatus.t;
  pendingCommand : option PendingCommand.t;
  stats : Stats.t;
  config : InstanceConfig.t;
  errorPatterns : list string;
  inactivityThreshold : Z;
  ampSettings : option AmpSettings.t
}.

(** [instance.f = v], one function per assigned property. *)
Definition set_status (v : Status.t) (i : t) : t :=
  mk (id i) (name i) (tmuxPane i) v (createdAt i) (lastActivity i)
     (lastInactivityCheck i) (workingDirectory i) (logFile i) (output i)
     (currentPrompt i) (threadId i) (authStatus i) (pendingCommand i)
     (stats i) (config i) (errorPatterns i) (inactivityThreshold i)
     (ampSettings i).
Definition set_lastActivity (v : Date) (i : t) : t :=
  mk (id i) (name i) (tmuxPane i) (status i) (createdAt i) v
     (lastInactivityCheck i) (workingDirectory i) (logFile i) (output i)
     (currentPrompt i) (threadId i) (authStatus i) (pendingCommand i)
     (stats i) (config i) (errorPatterns i) (inactivityThreshold i)
     (ampSettings i).
Definition set_lastInactivityCheck (v : Date) (i : t) : t :=
  mk (id i) (name i) (tmuxPane i) (status i) (createdAt i) (lastActivity i)
     v (workingDirectory i) (logFile i) (output i)
     (currentPrompt i) (threadId i) (authStatus i) (pendingCommand i)
     (stats i) (config i) (errorPatterns i) (inactivityThreshold i)
     (ampSettings i).
Definition set_output (v : list string) (i : t) : t :=
  mk (id i) (name i) (tmuxPane i) (status i) (createdAt i) (lastActivity i)
     (lastInactivityCheck i) (workingDirectory i) (logFile i) v
     (currentPrompt i) (threadId i) (authStatus i) (pendingCommand i)
     (stats i) (config i) (errorPatterns i) (inactivityThreshold i)
     (ampSettings i).
Definition set_currentPrompt (v : option string) (i : t) : t :=
  mk (id i) (name i) (tmuxPane i) (status i) (createdAt i) (lastActivity i)
     (lastInactivityCheck i) (workingDirectory i) (logFile i) (output i)
     v (threadId i) (authStatus i) (pendingCommand i)
     (stats i) (config i) (errorPatterns i) (inactivityThreshold i)
     (ampSettings i).
Definition set_threadId (v : option string) (i : t) : t :=
  mk (id i) (name i) (tmuxPane i) (status i) (createdAt i) (lastActivity i)
     (lastInactivityCheck i) (workingDirectory i) (logFile i) (output i)
     (currentPrompt i) v (authStatus i) (pendingCommand i)
     (stats i) (config i) (errorPatterns i) (inactivityThreshold i)
     (ampSettings i).
Definition set_authStatus (v : AuthStatus.t) (i : t) : t :=
  mk (id i) (name i) (tmuxPane i) (status i) (createdAt i) (lastActivity i)
     (lastInactivityCheck i) (workingDirectory i) (logFile i) (output i)
     (currentPrompt i) (threadId i) v (pendingCommand i)
     (stats i) (config i) (errorPatterns i) (inactivityThreshold i)
     (ampSettings i).
Definition set_pendingCommand (v : option PendingCommand.t) (i : t) : t :=
  mk (id i) (name i) (tmuxPane i) (status i) (createdAt i) (lastActivity i)
     (lastInactivityCheck i) (workingDirectory i) (logFile i) (output i)
     (currentPrompt i) (threadId i) (authStatus i) v
     (stats i) (config i) (errorPatterns i) (inactivityThreshold i)
     (ampSettings i).
Definition set_stats (v : Stats.t) (i : t) : t :=
  mk (id i) (name i) (tmuxPane i) (status i) (createdAt i) (lastActivity i)
     (lastInactivityCheck i) (workingDirectory i) (logFile i) (output i)
     (currentPrompt i) (threadId i) (authStatus i) (pendingCommand i)
     v (config i) (errorPatterns i) (inactivityThreshold i)
     (ampSettings i).
Definition set_config (v : InstanceConfig.t) (i : t) : t :=
  mk (id i) (name i) (tmuxPane i) (status i) (createdAt i) (lastActivity i)
     (lastInactivityCheck i) (workingDirectory i) (logFile i) (output i)
     (currentPrompt i) (threadId i) (authStatus i) (pendingCommand i)
     (stats i) v (errorPatterns i) (inactivityThreshold i)
     (ampSettings i).
End AmpInstance.

(** The state the log monitor derives ([AmpState] of [AmpLogMonitor.ts]).
    [lastActivity] is [None] for an [Invalid Date]. *)
Module AmpState.
Inductive kind :=
  awaiting_user_message | awaiting_agent | checking_agent_file | initial
| unknown.
#[global] Instance kind_eq_dec : EqDecision kind.
Proof. solve_decision. Defined.

Record t := mk {
  type : kind;
  statusMessage : option string;
  inferenceState : option string;
  lastActivity : option Date
}.

Definition set_type (v : kind) (s : t) : t :=
  mk v (statusMessage s) (inferenceState s) (lastActivity s).
Definition set_statusMessage (v : option string) (s : t) : t :=
  mk (type s) v (inferenceState s) (lastActivity s).
Definition set_inferenceState (v : option string) (s : t) : t :=
  mk (type s) (statusMessage s) v (lastActivity s).
Definition set_lastActivity (v : option Date) (s : t) : t :=
  mk (type s) (statusMessage s) (inferenceState s) v.
End AmpState.

(** [ThreadInfo] of [types/AmpInstance.ts]. *)
Module ThreadInfo.
Record t := mk {
  id : string;
  title : option string;
  shared : bool;
  createdAt : Date;
  lastActivity : Date
}.
End ThreadInfo.

(** What a [throw] carries. *)
Inductive JsError :=
| Error (message : string)   (* [new Error(message)] *)
| TypeError                  (* thrown by the runtime, e.g. a call on [undefined] *)
| SyntaxError.               (* thrown by [JSON.parse] *)

(** The [data] of an event is an object literal: its properties in the
    order they are written. *)
Inductive Value :=
| VString (s : string)
| VInteger (n : Z)
| VSeconds (milliseconds : Z)   (* the number [milliseconds / 1000] *)
| VStatus (s : Status.t)
| VAmpState (s : AmpState.t)
| VError (e : JsError)
| VUndefined.

Module AgentEvent.
Inductive kind :=
  prompt_sent | command_executed | error_detected | restart_triggered
| inactivity_detected | approval_required | status_changed | thread_created
| auth_status_changed | tool_used | thread_switched.
#[global] Instance kind_eq_dec : EqDecision kind.
Proof. solve_decision. Defined.

Record t := mk {
  instanceId : string;
  timestamp : Date;
  type : kind;
  data : list (string * Value);
  severity : Severity.t
}.
End AgentEvent.

(** ** Completions and the state monad of a method

    A method of a class reads and writes the fields of its object and
    either returns or throws; what it wrote before it threw stays
    written. *)

Inductive Completion (A : Type) :=
| Normal (a : A)
| Thrown (e : JsError).
Arguments Normal {A} a.
Arguments Thrown {A} e.

Definition M (S A : Type) : Type := S -> Completion A * S.

Definition ret {S A} (a : A) : M S A := fun s => (Normal a, s).
Definition throw {S A} (e : JsError) : M S A := fun s => (Thrown e, s).
Definition bind {S A B} (m : M S A) (k : A -> M S B) : M S B :=
  fun s => match m s with
           | (Normal a, s') => k a s'
           | (Thrown e, s') => (Thrown e, s')
           end.
Definition get {S} : M S S := fun s => (Normal s, s).
Definition put {S} (s : S) : M S unit := fun _ => (Normal tt, s).
Definition modify {S} (f : S -> S) : M S unit := fun s => (Normal tt, f s).

(** [try { body } catch (e) { handler(e) }] *)
Definition try_catch {S A} (body : M S A) (handler : JsError -> M S A) : M S A :=
  fun s => match body s with
           | (Normal a, s') => (Normal a, s')
           | (Thrown e, s') => handler e s'
           end.

Notation "x <- m ;; k" := (bind m (fun x => k))
  (at level 100, m at next level, right associativity).
Notation "m ;;; k" := (bind m (fun _ => k))
  (at level 100, right associativity).

(** [for (const x of l) { body(x) }], without [break]. *)
Fixpoint for_each {S A} (l : list A) (body : A -> M S unit) : M S unit :=
  match l with
  | [] => ret tt
  | x :: r => body x ;;; for_each r body
  end.

(** ** JSON values and the regular expressions of the log monitor *)

#[warnings="-register-all"]
Inductive Json :=
| JNull
| JBool (b : bool)
| JNumber (text : string)      (* the number as JavaScript prints it *)
| JString (s : string)
| JArray (items : list Json)
| JObject (props : list (string * Json)).

Module JsonOps.

(** [o[key]] on an object parsed from JSON; a key written twice keeps
    its last value. *)
Fixpoint lookup (key : string) (props : list (string * Json)) : option Json :=
  match props with
  | [] => None
  | (k, v) :: r =>
      match lookup key r with
      | Some w => Some w
      | None => if String.eqb k key then Some v else None
      end
  end.

(** [v.key] for a value that is not [null]: [undefined] on everything
    but an object with that key. *)
Definition prop (key : string) (v : Json) : option Json :=
  match v with
  | JObject props => lookup key props
  | _ => None
  end.

(** [key in v] for a [v] with [typeof v === 'object'] that is not
    [null] (the keys asked for are no array properties). *)
Definition has (key : string) (v : Json) : bool :=
  match prop key v with Some _ => true | None => false end.

(** [typeof v === 'object' && v] *)
Definition is_object (v : Json) : bool :=
  match v with
  | JObject _ | JArray _ => true
  | _ => false
  end.

(** [String(v)], [None] when it throws.  An object is converted by its
    [toString]; an object that has a [toString] of its own has, after
    [JSON.parse], one that is no function, and then nothing converts it:
    a [TypeError].  An array joins its elements, converted in the same
    way, [null] as the empty string. *)
Fixpoint toString (v : Json) : option string :=
  match v with
  | JNull => Some "null"
  | JBool true => Some "true"
  | JBool false => Some "false"
  | JNumber t => Some t
  | JString s => Some s
  | JArray items =>
      option_map (Js.join ",")
        ((fix elements (l : list Json) : option (list string) :=
            match l with
            | [] => Some []
            | x :: r =>
                match match x with JNull => Some "" | _ => toString x end with
                | Some piece =>
                    match elements r with
                    | Some pieces => Some (piece :: pieces)
                    | None => None
                    end
                | None => None
                end
            end) items)
  | JObject props =>
      match lookup "toString" props with
      | Some _ => None
      | None => Some "[object Object]"
      end
  end.

Definition hex (n : nat) : ascii :=
  if (n <? 10)%nat then ascii_of_nat (48 + n) else ascii_of_nat (87 + n).

(** The characters [JSON.stringify] escapes in a string. *)
Definition escape_char (c : ascii) : string :=
  let n := nat_of_ascii c in
  if (n =? 34)%nat then "\" +:+ String c ""
  else if (n =? 92)%nat then "\\"
  else if (n =? 8)%nat then "\b"
  else if (n =? 9)%nat then "\t"
  else if (n =? 10)%nat then "\n"
  else if (n =? 12)%nat then "\f"
  else if (n =? 13)%nat then "\r"
  else if (n <? 32)%nat
       then "\u00" +:+ String (hex (n / 16)) (String (hex (n mod 16)) "")
       else String c "".

Fixpoint escape (s : string) : string :=
  match s with
  | EmptyString => EmptyString
  | String c r => escape_char c +:+ escape r
  end.

Definition quote (s : string) : string :=
  String (ascii_of_nat 34) (escape s) +:+ String (ascii_of_nat 34) "".

(** [JSON.stringify(v)] *)
Fixpoint stringify (v : Json) : string :=
  match v with
  | JNull => "null"
  | JBool true => "true"
  | JBool false => "false"
  | JNumber t => t
  | JString s => quote s
  | JArray items => "[" +:+ Js.join "," (map stringify items) +:+ "]"
  | JObject props =>
      "{" +:+
      Js.join ","
        (map (fun kv => quote (fst kv) +:+ ":" +:+ stringify (snd kv)) props)
      +:+ "}"
  end.

End JsonOps.

(** The fragment of regular expressions the monitor uses: character
    classes, greedy repetition of a class, sequence, capture groups. *)
Module RegExp.

Inductive t :=
| Chr (p : ascii -> bool)
| Star (p : ascii -> bool)
| Seq (a b : t)
| Group (i : nat) (a : t).

Definition Plus (p : ascii -> bool) : t := Seq (Chr p) (Star p).

Definition char (c : ascii) : ascii -> bool := Ascii.eqb c.

(** [\w] *)
Definition word (c : ascii) : bool :=
  let n := nat_of_ascii c in
  (((48 <=? n)%nat && (n <=? 57)%nat) || ((65 <=? n)%nat && (n <=? 90)%nat)
   || ((97 <=? n)%nat && (n <=? 122)%nat) || (n =? 95)%nat)%bool.

(** [[-\w]] *)
Definition word_or_dash (c : ascii) : bool := (word c || char "-" c)%bool.

(** [\s] *)
Definition space : ascii -> bool := Js.is_space.

Definition Captures := list (nat * string).

Fixpoint star (p : ascii -> bool) (s : string)
    (k : string -> option Captures) : option Captures :=
  match s with
  | String c r =>
      if p c
      then match star p r k with
           | Some m => Some m
           | None => k s
           end
      else k s
  | EmptyString => k s
  end.

Definition consumed (s rest : string) : string :=
  String.substring 0 (String.length s - String.length rest) s.

(** Backtracking match of [r] at the start of [s]. *)
Fixpoint exec_at (r : t) (s : string) (caps : Captures)
    (k : string -> Captures -> option Captures) : option Captures :=
  match r with
  | Chr p =>
      match s with
      | String c rest => if p c then k rest caps else None
      | EmptyString => None
      end
  | Star p => star p s (fun rest => k rest caps)
  | Seq a b => exec_at a s caps (fun rest caps' => exec_at b rest caps' k)
  | Group i a =>
      exec_at a s caps (fun rest caps' => k rest ((i, consumed s rest) :: caps'))
  end.

(** [s.match(r)]: the captures of the leftmost match. *)
Fixpoint exec (r : t) (s : string) : option Captures :=
  match exec_at r s [] (fun _ caps => Some caps) with
  | Some caps => Some caps
  | None =>
      match s with
      | String _ rest => exec r rest
      | EmptyString => None
      end
  end.

Fixpoint group (i : nat) (caps : Captures) : option string :=
  match caps with
  | [] => None
  | (j, g) :: r => if (i =? j)%nat then Some g else group i r
  end.

Fixpoint literal (s : string) (rest : t) : t :=
  match s with
  | EmptyString => rest
  | String c r => Seq (Chr (char c)) (literal r rest)
  end.

(** The pattern of [processLogEntry] for a state transition,
    [name + event -> name]: a name is word characters followed by word
    characters and dashes, the event is word characters and dashes, white
    space is optional around [+] and [->]; group 2 is the second name. *)
Definition stateTransition : t :=
  Seq (Group 1 (Seq (Plus word) (Star word_or_dash)))
  (Seq (Star space) (Seq (Chr (char "+")) (Seq (Star space)
  (Seq (Plus word_or_dash) (Seq (Star space) (Seq (Chr (char "-"))
  (Seq (Chr (char ">")) (Seq (Star space)
  (Group 2 (Seq (Plus word) (Star word_or_dash))))))))))).

Definition dquote : ascii := ascii_of_nat 34.

(** The pattern of [processLogEntry] for the inference state: the quoted
    key [inferenceState], a colon, and a quoted non-empty value without a
    quote in it, which is group 1. *)
Definition inferenceState : t :=
  Seq (Chr (char dquote))
    (literal "inferenceState"
      (Seq (Chr (char dquote)) (Seq (Chr (char ":")) (Seq (Chr (char dquote))
      (Seq (Group 1 (Plus (fun c => negb (char dquote c))))
           (Chr (char dquote))))))).

(** [p{n}] followed by [rest]. *)
Fixpoint times (n : nat) (p : ascii -> bool) (rest : t) : t :=
  match n with
  | O => rest
  | S n' => Seq (Chr p) (times n' p rest)
  end.

(** [[a-f0-9-]] under the flag [i]. *)
Definition hex_or_dash (c : ascii) : bool :=
  let n := nat_of_ascii c in
  (((48 <=? n)%nat && (n <=? 57)%nat) || ((97 <=? n)%nat && (n <=? 102)%nat)
   || ((65 <=? n)%nat && (n <=? 70)%nat) || (n =? 45)%nat)%bool.

(** The pattern of [createThread] for a thread id: eight or more
    hexadecimal digits and dashes, which are group 1. *)
Definition threadId : t := Group 1 (times 8 hex_or_dash (Star hex_or_dash)).

(** A letter of a pattern under the flag [i]. *)
Definition letter (c : ascii) : ascii -> bool :=
  fun x => Ascii.eqb (Js.lower_ascii x) (Js.lower_ascii c).

Fixpoint letters (s : string) (rest : t) : t :=
  match s with
  | EmptyString => rest
  | String c r => Seq (Chr (letter c)) (letters r rest)
  end.

(** [[:\s]] *)
Definition colon_or_space (c : ascii) : bool := (char ":" c || space c)%bool.

(** The patterns of [parseThreadId], [words[:\s]+([a-f0-9-]{8,})] under
    the flag [i]. *)
Definition threadAfter (words : string) : t :=
  letters words (Seq (Plus colon_or_space) threadId).

End RegExp.

(** What the JavaScript runtime provides and the sources call:
    [JSON.parse] on a line ([None] when it throws) and [new Date(v)] on
    a property of the parsed value ([None] for the [undefined] of a missing
    property; the result is [None] for an [Invalid Date]). *)
Record Runtime := {
  JSON_parse : string -> option Json;
  Date_of : option Json -> option Date
}.

(** ** The log monitor ([services/AmpLogMonitor.ts]) *)

Module AmpLogMonitor.

(** What the monitor hands to [emit]. *)
Inductive Emitted :=
| monitoring_started
| monitoring_stopped
| state_changed (oldState newState : AmpState.t) (logEntry : Json)
| amp_started
| amp_idle.

Record t := mk {
  logFile : string;
  isMonitoring : bool;
  currentState : AmpState.t;
  lastLogPosition : Z;
  monitorInterval : bool;       (* the polling timer is set *)
  emitted : list Emitted        (* the calls of [emit], oldest first *)
}.

Definition set_isMonitoring (v : bool) (m : t) : t :=
  mk (logFile m) v (currentState m) (lastLogPosition m) (monitorInterval m)
     (emitted m).
Definition set_currentState (v : AmpState.t) (m : t) : t :=
  mk (logFile m) (isMonitoring m) v (lastLogPosition m) (monitorInterval m)
     (emitted m).
Definition set_lastLogPosition (v : Z) (m : t) : t :=
  mk (logFile m) (isMonitoring m) (currentState m) v (monitorInterval m)
     (emitted m).
Definition set_monitorInterval (v : bool) (m : t) : t :=
  mk (logFile m) (isMonitoring m) (currentState m) (lastLogPosition m) v
     (emitted m).

Definition emit (e : Emitted) : M t unit :=
  modify (fun m =>
    mk (logFile m) (isMonitoring m) (currentState m) (lastLogPosition m)
       (monitorInterval m) (emitted m ++ [e])).

(** [this.currentState.f = v] *)
Definition update_state (f : AmpState.t -> AmpState.t) : M t unit :=
  modify (fun m => set_currentState (f (currentState m)) m).

(** Statements that write [this.currentState] and may throw. *)
Definition on_state {A} (step : M AmpState.t A) : M t A :=
  fun m =>
    let '(c, s) := step (currentState m) in (c, set_currentState s m).

(** [new AmpLogMonitor(logFile)] at time [now]. *)
Definition new (file : string) (now : Date) : t :=
  mk file false (AmpState.mk AmpState.unknown None None (Some now)) 0 false [].

(** [now.getTime() - lastActivity.getTime() < 10000]; a comparison with
    the [NaN] of an invalid date is false. *)
Definition recent (lastActivity : option Date) (now : Date) : bool :=
  match lastActivity with
  | Some t => now - t <? 10000
  | None => false
  end.

Definition wasRunning (state : AmpState.t) (now : Date) : bool :=
  bool_decide (AmpState.type state = AmpState.awaiting_agent)
  || bool_decide (AmpState.statusMessage state = Some "Thinking...")
  || (recent (AmpState.lastActivity state) now
      && negb (bool_decide (AmpState.type state = AmpState.awaiting_user_message))).

Definition isRunning (m : t) (now : Date) : bool :=
  bool_decide (AmpState.type (currentState m) = AmpState.awaiting_agent)
  || bool_decide (AmpState.statusMessage (currentState m) = Some "Thinking...")
  || (recent (AmpState.lastActivity (currentState m)) now
      && negb (bool_decide
                 (AmpState.type (currentState m) = AmpState.awaiting_user_message))).

Definition getCurrentState (m : t) : AmpState.t := currentState m.

Definition hasStateChanged (oldState newState : AmpState.t) : bool :=
  negb (bool_decide (AmpState.type oldState = AmpState.type newState))
  || negb (bool_decide
             (AmpState.statusMessage oldState = AmpState.statusMessage newState))
  || negb (bool_decide
             (AmpState.inferenceState oldState = AmpState.inferenceState newState)).

(** The steps of [processLogEntry] on the message of an entry, in the
    order of the source. *)

Definition stateTransition (message : string) (s : AmpState.t) : AmpState.t :=
  match RegExp.exec RegExp.stateTransition message with
  | Some caps =>
      match RegExp.group 2 caps with
      | Some newState =>
          if String.eqb newState "awaiting-user-message" then
            AmpState.set_statusMessage None
              (AmpState.set_type AmpState.awaiting_user_message s)
          else if String.eqb newState "awaiting-agent" then
            AmpState.set_statusMessage (Some "Thinking...")
              (AmpState.set_type AmpState.awaiting_agent s)
          else if String.eqb newState "checking-agent-file" then
            AmpState.set_type AmpState.checking_agent_file s
          else s
      | None => s
      end
  | None => s
  end.

Definition directMention (message : string) (s : AmpState.t) : AmpState.t :=
  if Js.includes message "awaiting-user-message"
     || Js.includes message "ready for input" then
    AmpState.set_statusMessage None
      (AmpState.set_type AmpState.awaiting_user_message s)
  else if Js.includes message "awaiting-agent"
          || Js.includes message "processing" then
    AmpState.set_statusMessage (Some "Thinking...")
      (AmpState.set_type AmpState.awaiting_agent s)
  else if Js.includes message "checking-agent-file" then
    AmpState.set_type AmpState.checking_agent_file s
  else if Js.includes message "initial" || Js.includes message "started" then
    AmpState.set_type AmpState.initial s
  else s.

Definition promptMention (message : string) (s : AmpState.t) : AmpState.t :=
  if Js.includes message "Type" && Js.includes message "Enter" then
    AmpState.set_statusMessage (Some "Ready for input")
      (AmpState.set_type AmpState.awaiting_user_message s)
  else if Js.includes message "Interrupt" && Js.includes message "Ctrl+C" then
    AmpState.set_statusMessage (Some "Ready for input")
      (AmpState.set_type AmpState.awaiting_user_message s)
  else s.

(** [this.currentState.statusMessage = String(v)] *)
Definition setStatusMessage (v : Json) : M AmpState.t unit :=
  match JsonOps.toString v with
  | Some text => modify (AmpState.set_statusMessage (Some text))
  | None => throw TypeError
  end.

Definition nestedStatus (entry : Json) : M AmpState.t unit :=
  match JsonOps.prop "data" entry with
  | Some data =>
      if JsonOps.is_object data then
        match JsonOps.prop "statusMessage" data with
        | Some v => setStatusMessage v
        | None => ret tt
        end ;;;
        match JsonOps.prop "event" data with
        | Some eventData =>
            if JsonOps.is_object eventData then
              match JsonOps.prop "statusMessage" eventData with
              | Some v => setStatusMessage v
              | None => ret tt
              end
            else ret tt
        | None => ret tt
        end
      else ret tt
  | None => ret tt
  end.

Definition workerState (message : string) (entry : Json) (s : AmpState.t)
    : AmpState.t :=
  if Js.includes message "worker-state" then
    match RegExp.exec RegExp.inferenceState (JsonOps.stringify entry) with
    | Some caps =>
        match RegExp.group 1 caps with
        | Some v => AmpState.set_inferenceState (Some v) s
        | None => s
        end
    | None => s
    end
  else s.

Definition userMessage (message : string) (s : AmpState.t) : AmpState.t :=
  if Js.includes message "Processing user message:"
     || Js.includes message "received user input" then
    AmpState.set_statusMessage (Some "Processing...")
      (AmpState.set_type AmpState.awaiting_agent s)
  else s.

Definition completion (message : string) (s : AmpState.t) : AmpState.t :=
  if Js.includes message "completed" || Js.includes message "finished" then
    AmpState.set_statusMessage (Some "Ready for input")
      (AmpState.set_type AmpState.awaiting_user_message s)
  else s.

Definition processLogEntry (rt : Runtime) (now : Date) (entry : Json)
    : M t unit :=
  m0 <- get ;;
  let oldState := currentState m0 in
  match entry with
  | JNull => throw TypeError            (* [entry.timestamp] on [null] *)
  | _ =>
      update_state
        (AmpState.set_lastActivity
           (Date_of rt (JsonOps.prop "timestamp" entry))) ;;;
      match JsonOps.prop "message" entry with
      | Some (JString message) =>
          update_state (stateTransition message) ;;;
          update_state (directMention message) ;;;
          update_state (promptMention message) ;;;
          on_state (nestedStatus entry) ;;;
          update_state (workerState message entry) ;;;
          update_state (userMessage message) ;;;
          update_state (completion message) ;;;
          m1 <- get ;;
          (if hasStateChanged oldState (currentState m1)
           then emit (state_changed oldState (currentState m1) entry)
           else ret tt) ;;;
          m2 <- get ;;
          if negb (Bool.eqb (isRunning m2 now) (wasRunning oldState now))
          then emit (if isRunning m2 now then amp_started else amp_idle)
          else ret tt
      | _ => throw TypeError            (* [message.match] is no function *)
      end
  end.

(** [JSON.parse(line)] followed by [processLogEntry], inside the [try]. *)
Definition parseLine (rt : Runtime) (now : Date) (line : string) : M t unit :=
  match JSON_parse rt line with
  | Some logEntry => processLogEntry rt now logEntry
  | None => throw SyntaxError
  end.

(** [content.split('\n').filter(line => line.trim())] *)
Definition nonblank_lines (content : string) : list string :=
  filter (fun line => negb (String.eqb (Js.trim line) "")) (Js.split Js.newline content).

Definition parseLogContent (rt : Runtime) (now : Date) (content : string)
    : M t unit :=
  for_each (nonblank_lines content)
    (fun line => try_catch (parseLine rt now line) (fun _ => ret tt)).

(** [startMonitoring()]; [size] is the size of the log file, [None] when
    it does not exist. *)
Definition startMonitoring (size : option Z) : M t unit :=
  m <- get ;;
  if isMonitoring m then ret tt
  else
    modify (set_isMonitoring true) ;;;
    modify (set_lastLogPosition (or_else size 0)) ;;;
    modify (set_monitorInterval true) ;;;
    emit monitoring_started.

Definition stopMonitoring : M t unit :=
  m <- get ;;
  if negb (isMonitoring m) then ret tt
  else
    modify (set_isMonitoring false) ;;;
    modify (set_monitorInterval false) ;;;
    emit monitoring_stopped.

(** What reading the new bytes of the log gives. *)
Inductive ReadOutcome :=
| ReadFailed             (* the file cannot be opened or read *)
| Read (text : string)   (* the bytes were read and the file was closed *)
| CloseFailed.           (* the bytes were read and [fd.close()] rejected *)

(** [readNewLogContent(currentSize)]; [read] is what reading the new
    bytes gives.  The position is written when the bytes are read; the
    file is closed after that, in the [finally], and when that fails the
    [catch] returns [null] for the text. *)
Definition readNewLogContent (currentSize : Z) (read : ReadOutcome)
    : M t (option string) :=
  match read with
  | Read text => modify (set_lastLogPosition currentSize) ;;; ret (Some text)
  | CloseFailed => modify (set_lastLogPosition currentSize) ;;; ret None
  | ReadFailed => ret None
  end.

(** One tick of the polling timer. *)
Definition checkForLogUpdates (rt : Runtime) (now : Date) (size : option Z)
    (read : ReadOutcome) : M t unit :=
  match size with
  | None => ret tt
  | Some sz =>
      try_catch
        (m <- get ;;
         if lastLogPosition m <? sz then
           newContent <- readNewLogContent sz read ;;
           match newContent with
           | Some text =>
               if String.eqb text "" then ret tt
               else parseLogContent rt now text
           | None => ret tt
           end
         else ret tt)
        (fun _ => ret tt)
  end.

(** [refreshState()]; [content] is the whole file, [None] when it does
    not exist. *)
Definition refreshState (rt : Runtime) (now : Date) (content : option string)
    : M t unit :=
  match content with
  | None => ret tt
  | Some text =>
      let lines := Js.slice_last 10 (nonblank_lines text) in
      modify (set_currentState
                (AmpState.mk AmpState.unknown None None (Some now))) ;;;
      for_each lines
        (fun line => try_catch (parseLine rt now line) (fun _ => ret tt))
  end.

End AmpLogMonitor.

(** ** A JavaScript [Map] with string keys

    The entries in insertion order; [set] on a key that is there keeps
    its place. *)

Module JsMap.

Fixpoint get {V} (k : string) (m : list (string * V)) : option V :=
  match m with
  | [] => None
  | (k', v) :: r => if String.eqb k' k then Some v else get k r
  end.

Fixpoint set {V} (k : string) (v : V) (m : list (string * V))
    : list (string * V) :=
  match m with
  | [] => [(k, v)]
  | (k', v') :: r =>
      if String.eqb k' k then (k', v) :: r else (k', v') :: set k v r
  end.

Fixpoint delete {V} (k : string) (m : list (string * V)) : list (string * V) :=
  match m with
  | [] => []
  | (k', v') :: r => if String.eqb k' k then delete k r else (k', v') :: delete k r
  end.

Definition keys {V} (m : list (string * V)) : list string := map fst m.
Definition values {V} (m : list (string * V)) : list V := map snd m.

(** [const o = m.get(k); if (o) mutate(o)]: the object is changed in
    place. *)
Definition update {V} (k : string) (f : V -> V) (m : list (string * V))
    : list (string * V) :=
  match get k m with
  | Some v => set k (f v) m
  | None => m
  end.

End JsMap.

(** ** The process host

    What [spawn('tmux', args)] ends with, what the file system answers,
    what [uuidv4()] draws.  The answers are indexed by the number of calls
    made before. *)

Inductive TmuxExit :=
| Closed (code : Z) (stdout stderr : string)   (* the 'close' event *)
| SpawnError (e : JsError).                    (* the 'error' event *)

Inductive SysCall :=
| Tmux (args : list string)
| Mkdir (path : string)
| WriteFile (path : string) (settings : AmpSettings.t)
| Stat (path : string).

Record Host := {
  tmux : nat -> list string -> TmuxExit;
  fs_error : nat -> SysCall -> option JsError;   (* [None]: the call succeeds *)
  fs_size : nat -> string -> option Z;           (* [None]: no such file *)
  elapsed : nat -> N;                            (* milliseconds a call takes *)
  uuidv4 : nat -> string;
  cwd : string;
  HOME : option string
}.

(** ** The manager ([services/TmuxManager.ts]) *)

Module TmuxManager.

Record t := mk {
  sessionName : string;
  instances : list (string * AmpInstance.t);
  sessionExists : bool;
  outputMonitors : list string;     (* the ids with an output timer *)
  logMonitors : list (string * AmpLogMonitor.t);
  watchdogInterval : bool;
  globalAmpSettings : AmpSettings.t;
  settingsDir : string;
  (* the surroundings of the object *)
  events : list AgentEvent.t;       (* handed to the callbacks, oldest first *)
  clock : Date;                     (* what [new Date()] reads *)
  calls : list SysCall;             (* host calls made, oldest first *)
  drawn : nat                       (* number of ids drawn *)
}.

Definition set_instances (v : list (string * AmpInstance.t)) (w : t) : t :=
  mk (sessionName w) v (sessionExists w) (outputMonitors w) (logMonitors w)
     (watchdogInterval w) (globalAmpSettings w) (settingsDir w) (events w)
     (clock w) (calls w) (drawn w).
Definition set_sessionExists (v : bool) (w : t) : t :=
  mk (sessionName w) (instances w) v (outputMonitors w) (logMonitors w)
     (watchdogInterval w) (globalAmpSettings w) (settingsDir w) (events w)
     (clock w) (calls w) (drawn w).
Definition set_outputMonitors (v : list string) (w : t) : t :=
  mk (sessionName w) (instances w) (sessionExists w) v (logMonitors w)
     (watchdogInterval w) (globalAmpSettings w) (settingsDir w) (events w)
     (clock w) (calls w) (drawn w).
Definition set_logMonitors (v : list (string * AmpLogMonitor.t)) (w : t) : t :=
  mk (sessionName w) (instances w) (sessionExists w) (outputMonitors w) v
     (watchdogInterval w) (globalAmpSettings w) (settingsDir w) (events w)
     (clock w) (calls w) (drawn w).
Definition set_events (v : list AgentEvent.t) (w : t) : t :=
  mk (sessionName w) (instances w) (sessionExists w) (outputMonitors w)
     (logMonitors w) (watchdogInterval w) (globalAmpSettings w) (settingsDir w)
     v (clock w) (calls w) (drawn w).
Definition set_clock (v : Date) (w : t) : t :=
  mk (sessionName w) (instances w) (sessionExists w) (outputMonitors w)
     (logMonitors w) (watchdogInterval w) (globalAmpSettings w) (settingsDir w)
     (events w) v (calls w) (drawn w).
Definition set_calls (v : list SysCall) (w : t) : t :=
  mk (sessionName w) (instances w) (sessionExists w) (outputMonitors w)
     (logMonitors w) (watchdogInterval w) (globalAmpSettings w) (settingsDir w)
     (events w) (clock w) v (drawn w).
Definition set_drawn (v : nat) (w : t) : t :=
  mk (sessionName w) (instances w) (sessionExists w) (outputMonitors w)
     (logMonitors w) (watchdogInterval w) (globalAmpSettings w) (settingsDir w)
     (events w) (clock w) (calls w) v.

(** [path.join(a, b)] for two plain segments. *)
Definition join (a b : string) : string := a +:+ "/" +:+ b.

(** [new TmuxManager(sessionName)] at time [now]; the settings file is
    read later. *)
Definition new (host : Host) (name : string) (now : Date) : t :=
  mk name [] false [] [] true AmpSettings.empty
     (join (join (or_else
                    (match HOME host with Some "" => None | h => h end) "/tmp")
                 ".config") "amp-manager")
     [] now [] 0.

Section Methods.

Variable host : Host.

(** [new Date()] *)
Definition now : M t Date := fun w => (Normal (clock w), w).

(** [await new Promise(resolve => setTimeout(resolve, ms))] *)
Definition sleep (ms : Z) : M t unit :=
  modify (fun w => set_clock (clock w + ms) w).

(** A call of the host: it is recorded and takes its time. *)
Definition call (c : SysCall) : M t nat :=
  fun w =>
    let n := length (calls w) in
    (Normal n,
     set_clock (clock w + Z.of_N (elapsed host n)) (set_calls (calls w ++ [c]) w)).

Definition emitEvent (instanceId : string) (type : AgentEvent.kind)
    (data : list (string * Value)) (severity : Severity.t) : M t unit :=
  modify (fun w =>
    set_events
      (events w ++ [AgentEvent.mk instanceId (clock w) type data severity]) w).

Definition runTmuxCommand (args : list string) : M t string :=
  n <- call (Tmux args) ;;
  match tmux host n args with
  | Closed code stdout stderr =>
      if code =? 0 then ret (Js.trim stdout)
      else throw (Error ("Tmux command failed: " +:+
                         (if String.eqb stderr "" then stdout else stderr)))
  | SpawnError e => throw e
  end.

Definition fs_mkdir (path : string) : M t unit :=
  n <- call (Mkdir path) ;;
  match fs_error host n (Mkdir path) with
  | None => ret tt
  | Some e => throw e
  end.

Definition fs_writeFile (path : string) (settings : AmpSettings.t) : M t unit :=
  n <- call (WriteFile path settings) ;;
  match fs_error host n (WriteFile path settings) with
  | None => ret tt
  | Some e => throw e
  end.

(** [this.instances.get(id)] *)
Definition lookup (instanceId : string) : M t (option AmpInstance.t) :=
  fun w => (Normal (JsMap.get instanceId (instances w)), w).

(** A write to the instance object registered under [instanceId]. *)
Definition mutate (instanceId : string) (f : AmpInstance.t -> AmpInstance.t)
    : M t unit :=
  modify (fun w => set_instances (JsMap.update instanceId f (instances w)) w).

Definition target (instance : AmpInstance.t) (w : t) : string :=
  sessionName w +:+ ":" +:+ AmpInstance.name instance.

Definition send_keys (instance : AmpInstance.t) (keys : list string)
    : M t unit :=
  w <- get ;;
  runTmuxCommand (["send-keys"; "-t"; target instance w] ++ keys)%list ;;;
  ret tt.

Definition buildAmpCommand (instance : AmpInstance.t) : string :=
  let c0 := "amp" in
  let c1 := match AmpInstance.threadId instance with
            | Some "" | None => c0
            | Some th => c0 +:+ " --thread-id " +:+ th
            end in
  let c2 := match InstanceConfig.logLevel (AmpInstance.config instance) with
            | Some l => c1 +:+ " --log-level " +:+ LogLevel.to_string l
            | None => c1
            end in
  let c3 := match AmpInstance.logFile instance with
            | Some "" | None => c2
            | Some f => c2 +:+ " --log-file " +:+ f
            end in
  match AmpInstance.ampSettings instance with
  | Some s =>
      match AmpSettings.notifications_enabled s with
      | Some false => c3 +:+ " --no-notifications"
      | _ => c3
      end
  | None => c3
  end.

Definition dquote : string := String (ascii_of_nat 34) "".

Definition export (key value : string) : string :=
  "export " +:+ key +:+ "=" +:+ dquote +:+ value +:+ dquote.

Definition setupInstanceEnvironment (instance : AmpInstance.t) : M t unit :=
  w <- get ;;
  let logFileVar := match AmpInstance.logFile instance with
                    | Some "" | None => []
                    | Some f => [export "AMP_LOG_FILE" f]
                    end in
  let logLevel := or_else (InstanceConfig.logLevel (AmpInstance.config instance))
                          LogLevel.debug in
  let instanceSettingsFile :=
    join (settingsDir w) (AmpInstance.name instance +:+ "-settings.json") in
  let custom := match InstanceConfig.environment (AmpInstance.config instance) with
                | Some env => map (fun kv => export (fst kv) (snd kv)) env
                | None => []
                end in
  let envVars :=
    (logFileVar ++ [export "AMP_LOG_LEVEL" (LogLevel.to_string logLevel)]
     ++ [export "AMP_SETTINGS_FILE" instanceSettingsFile] ++ custom)%list in
  for_each envVars (fun envVar => send_keys instance [envVar; "Enter"]) ;;;
  match AmpInstance.ampSettings instance with
  | Some s => fs_writeFile instanceSettingsFile s
  | None => ret tt
  end ;;;
  sleep 200.

Definition startAmpCLI (instance : AmpInstance.t) : M t unit :=
  send_keys instance [buildAmpCommand instance; "Enter"] ;;;
  sleep 1000.

Definition not_found (instanceId : string) : JsError :=
  Error ("Instance " +:+ instanceId +:+ " not found").

Definition getInstanceOutput (instanceId : string) : M t (list string) :=
  found <- lookup instanceId ;;
  match found with
  | None => throw (not_found instanceId)
  | Some instance =>
      try_catch
        (w <- get ;;
         output <- runTmuxCommand
                     ["capture-pane"; "-t"; target instance w; "-S"; "-50"; "-p"] ;;
         ret (filter (fun line => negb (String.eqb (Js.trim line) ""))
                     (Js.split Js.newline output)))
        (fun _ => ret [])
  end.

Definition checkAuthStatus (instance : AmpInstance.t) : M t AmpInstance.t :=
  let instance1 := AmpInstance.set_status Status.authenticating instance in
  try_catch
    (emitEvent (AmpInstance.id instance) AgentEvent.auth_status_changed
       [("status", VString "checking")] Severity.info ;;;
     sleep 2000 ;;;
     send_keys instance ["help"; "Enter"] ;;;
     (* the timer of [updateAuthStatusFromOutput] is set here *)
     ret instance1)
    (fun e =>
       emitEvent (AmpInstance.id instance) AgentEvent.auth_status_changed
         [("status", VString "failed"); ("error", VError e)] Severity.error ;;;
       ret (AmpInstance.set_authStatus AuthStatus.failed instance1)).

Definition set_auth (a : AuthStatus.t) (s : Status.t) (i : AmpInstance.t)
    : AmpInstance.t :=
  AmpInstance.set_status s (AmpInstance.set_authStatus a i).

(** The body of the timer set by [checkAuthStatus]. *)
Definition updateAuthStatusFromOutput (instanceId : string) : M t unit :=
  found <- lookup instanceId ;;
  match found with
  | None => ret tt
  | Some _ =>
      try_catch
        (output <- getInstanceOutput instanceId ;;
         let recentOutput :=
           Js.toLowerCase (Js.join " " (Js.slice_last 10 output)) in
         if Js.includes recentOutput "authentication failed"
            || Js.includes recentOutput "not authenticated"
            || Js.includes recentOutput "please authenticate" then
           mutate instanceId (set_auth AuthStatus.failed Status.error) ;;;
           emitEvent instanceId AgentEvent.auth_status_changed
             [("status", VString "failed")] Severity.error
         else if Js.includes recentOutput "out of free credits"
                 || Js.includes recentOutput "insufficient credits" then
           mutate instanceId (set_auth AuthStatus.failed Status.error) ;;;
           emitEvent instanceId AgentEvent.auth_status_changed
             [("status", VString "out_of_credits")] Severity.error
         else
           (* both remaining branches of the source do the same *)
           mutate instanceId (set_auth AuthStatus.authenticated Status.idle) ;;;
           emitEvent instanceId AgentEvent.auth_status_changed
             [("status", VString "authenticated")] Severity.info)
        (fun _ =>
           mutate instanceId (set_auth AuthStatus.authenticated Status.idle))
  end.

(** *** Output and log monitoring *)

Definition startOutputMonitoring (instanceId : string) : M t unit :=
  found <- lookup instanceId ;;
  match found with
  | None => ret tt
  | Some _ =>
      modify (fun w =>
        set_outputMonitors
          (if existsb (String.eqb instanceId) (outputMonitors w)
           then outputMonitors w
           else (outputMonitors w ++ [instanceId])%list) w)
  end.

Definition stopOutputMonitoring (instanceId : string) : M t unit :=
  modify (fun w =>
    set_outputMonitors
      (filter (fun k => negb (String.eqb instanceId k)) (outputMonitors w)) w).

(** One tick of the output timer of an instance. *)
Definition outputTick (instanceId : string) : M t unit :=
  try_catch
    (currentOutput <- getInstanceOutput instanceId ;;
     existingInstance <- lookup instanceId ;;
     match existingInstance with
     | Some existing =>
         if (length (AmpInstance.output existing) <? length currentOutput)%nat
         then
           t0 <- now ;;
           mutate instanceId
             (fun i => AmpInstance.set_lastActivity t0
                         (AmpInstance.set_output currentOutput i))
         else ret tt
     | None => ret tt
     end)
    (fun _ => stopOutputMonitoring instanceId).

(** The listeners [startLogMonitoring] registers. *)
Definition on_amp_started (instanceId : string) : M t unit :=
  found <- lookup instanceId ;;
  match found with
  | Some inst =>
      if negb (bool_decide (AmpInstance.status inst = Status.running)) then
        mutate instanceId (AmpInstance.set_status Status.running) ;;;
        emitEvent instanceId AgentEvent.status_changed
          [("status", VStatus Status.running)] Severity.info
      else ret tt
  | None => ret tt
  end.

Definition on_amp_idle (instanceId : string) : M t unit :=
  found <- lookup instanceId ;;
  match found with
  | Some inst =>
      if negb (bool_decide (AmpInstance.status inst = Status.idle)) then
        mutate instanceId
          (fun i => AmpInstance.set_currentPrompt None
                      (AmpInstance.set_status Status.idle i)) ;;;
        emitEvent instanceId AgentEvent.status_changed
          [("status", VStatus Status.idle)] Severity.info
      else ret tt
  | None => ret tt
  end.

(** The listener of 'state-changed'.  It runs inside [emit], when the
    state of the monitor is the [newState] of the event: that is what
    [logMonitor.isRunning()] reads. *)
Definition on_state_changed (instanceId : string) (newState : AmpState.t)
    : M t unit :=
  found <- lookup instanceId ;;
  match found with
  | Some inst =>
      t0 <- now ;;
      mutate instanceId (AmpInstance.set_lastActivity t0) ;;;
      let newStatus :=
        if AmpLogMonitor.wasRunning newState t0
        then Status.running else Status.idle in
      if negb (bool_decide (AmpInstance.status inst = newStatus)) then
        mutate instanceId (AmpInstance.set_status newStatus) ;;;
        (if bool_decide (newStatus = Status.idle)
         then mutate instanceId (AmpInstance.set_currentPrompt None)
         else ret tt) ;;;
        emitEvent instanceId AgentEvent.status_changed
          [("status", VStatus newStatus); ("ampState", VAmpState newState)]
          Severity.info
      else ret tt
  | None => ret tt
  end.

Definition listener (instanceId : string) (e : AmpLogMonitor.Emitted)
    : M t unit :=
  match e with
  | AmpLogMonitor.amp_started => on_amp_started instanceId
  | AmpLogMonitor.amp_idle => on_amp_idle instanceId
  | AmpLogMonitor.state_changed _ newState _ => on_state_changed instanceId newState
  | _ => ret tt
  end.

(** A method of the log monitor of an instance runs and what it emits
    reaches the listeners, in order. *)
Definition withLogMonitor (instanceId : string)
    (method : Date -> M AmpLogMonitor.t unit) : M t unit :=
  w <- get ;;
  match JsMap.get instanceId (logMonitors w) with
  | None => ret tt
  | Some monitor =>
      let before := length (AmpLogMonitor.emitted monitor) in
      let monitor' := snd (method (clock w) monitor) in
      modify (fun w => set_logMonitors
                         (JsMap.set instanceId monitor' (logMonitors w)) w) ;;;
      for_each (skipn before (AmpLogMonitor.emitted monitor'))
               (listener instanceId)
  end.

Definition startLogMonitoring (instanceId : string) : M t unit :=
  found <- lookup instanceId ;;
  match found with
  | None => ret tt
  | Some instance =>
      match AmpInstance.logFile instance with
      | None | Some "" => ret tt
      | Some file =>
          t0 <- now ;;
          n <- call (Stat file) ;;
          let logMonitor :=
            snd (AmpLogMonitor.startMonitoring (fs_size host n file)
                   (AmpLogMonitor.new file t0)) in
          (* [refreshState()] is started here and ends later: [logRefresh] *)
          modify (fun w => set_logMonitors
                             (JsMap.set instanceId logMonitor (logMonitors w)) w)
      end
  end.

Definition stopLogMonitoring (instanceId : string) : M t unit :=
  modify (fun w => set_logMonitors (JsMap.delete instanceId (logMonitors w)) w).

(** The end of the [refreshState()] of [startLogMonitoring], and one tick
    of the polling timer of a log monitor. *)
Definition logRefresh (rt : Runtime) (instanceId : string)
    (content : option string) : M t unit :=
  withLogMonitor instanceId
    (fun t0 => AmpLogMonitor.refreshState rt t0 content).

Definition logPoll (rt : Runtime) (instanceId : string) (size : option Z)
    (read : AmpLogMonitor.ReadOutcome) : M t unit :=
  withLogMonitor instanceId
    (fun t0 => AmpLogMonitor.checkForLogUpdates rt t0 size read).

(** *** Restart and the watchdog *)

Definition reset (t0 : Date) (i : AmpInstance.t) : AmpInstance.t :=
  AmpInstance.set_stats
    (Stats.set_lastRestart (Some t0)
       (Stats.set_restartCount
          (Stats.restartCount (AmpInstance.stats i) + 1) (AmpInstance.stats i)))
    (AmpInstance.set_output []
       (AmpInstance.set_pendingCommand None
          (AmpInstance.set_currentPrompt None
             (AmpInstance.set_lastInactivityCheck t0
                (AmpInstance.set_lastActivity t0
                   (AmpInstance.set_status Status.idle i)))))).

Definition restartInstance (instanceId : string) (reason : option string)
    : M t unit :=
  found <- lookup instanceId ;;
  match found with
  | None => throw (not_found instanceId)
  | Some instance =>
      emitEvent instanceId AgentEvent.restart_triggered
        [("reason", match reason with Some r => VString r | None => VUndefined end)]
        Severity.warn ;;;
      stopOutputMonitoring instanceId ;;;
      stopLogMonitoring instanceId ;;;
      send_keys instance ["C-c"] ;;;
      sleep 500 ;;;
      send_keys instance ["clear"; "Enter"] ;;;
      t0 <- now ;;
      mutate instanceId (reset t0) ;;;
      restarted <- lookup instanceId ;;
      let instance' := or_else restarted instance in
      setupInstanceEnvironment instance' ;;;
      startAmpCLI instance' ;;;
      startOutputMonitoring instanceId ;;;
      startLogMonitoring instanceId ;;;
      emitEvent instanceId AgentEvent.status_changed
        [("status", VStatus Status.idle);
         ("restartCount", VInteger (Stats.restartCount (AmpInstance.stats instance')))]
        Severity.info
  end.

(** The loop of [checkForErrorPatterns]; the [break] after a restart
    ends it. *)
Fixpoint scanErrorPatterns (instanceId : string) (instance : AmpInstance.t)
    (recentOutput : string) (patterns : list string) : M t unit :=
  match patterns with
  | [] => ret tt
  | pattern :: rest =>
      if Js.includes recentOutput pattern then
        emitEvent instanceId AgentEvent.error_detected
          [("pattern", VString pattern);
           ("output", VString (Js.slice0 200 recentOutput))] Severity.error ;;;
        if negb (bool_decide
                   (InstanceConfig.autoRestart (AmpInstance.config instance)
                    = Some false))
        then restartInstance instanceId
               (Some ("Error pattern detected: " +:+ pattern))
        else scanErrorPatterns instanceId instance recentOutput rest
      else scanErrorPatterns instanceId instance recentOutput rest
  end.

Definition checkForErrorPatterns (instanceId : string) : M t unit :=
  found <- lookup instanceId ;;
  match found with
  | None => ret tt
  | Some instance =>
      match AmpInstance.output instance with
      | [] => ret tt
      | _ =>
          let recentOutput :=
            Js.join " " (Js.slice_last 10 (AmpInstance.output instance)) in
          scanErrorPatterns instanceId instance recentOutput
            (AmpInstance.errorPatterns instance)
      end
  end.

(** The two conditions of the inactivity check.  The source compares
    [ms / 1000 > 60] and [ms / 1000 > inactivityThreshold]; for an integer
    number of milliseconds and an integer bound that is [ms > 1000 * bound]. *)
Definition inactivityDue (t0 : Date) (instance : AmpInstance.t) : bool :=
  let inactivity := t0 - AmpInstance.lastActivity instance in
  let lastCheck := t0 - AmpInstance.lastInactivityCheck instance in
  (1000 * 60 <? lastCheck)
  && (1000 * AmpInstance.inactivityThreshold instance <? inactivity).

(** The body of the loop of [checkInstanceHealth] for one instance, with
    its [try]. *)
Definition checkInstance (t0 : Date) (instanceId : string) : M t unit :=
  try_catch
    (found <- lookup instanceId ;;
     match found with
     | None => ret tt
     | Some instance =>
         let inactivity := t0 - AmpInstance.lastActivity instance in
         (if inactivityDue t0 instance then
            mutate instanceId (AmpInstance.set_lastInactivityCheck t0) ;;;
            emitEvent instanceId AgentEvent.inactivity_detected
              [("inactivitySeconds", VSeconds inactivity);
               ("threshold", VInteger (AmpInstance.inactivityThreshold instance))]
              Severity.warn ;;;
            if negb (bool_decide
                       (InstanceConfig.autoRestart (AmpInstance.config instance)
                        = Some false))
            then restartInstance instanceId
                   (Some ("Inactivity detected: " +:+ Js.ofZ (inactivity / 1000)
                          +:+ "s"))
            else ret tt
          else ret tt) ;;;
         checkForErrorPatterns instanceId
     end)
    (fun _ => ret tt).

(** One run of the watchdog timer. *)
Definition checkInstanceHealth : M t unit :=
  t0 <- now ;;
  w <- get ;;
  for_each (JsMap.keys (instances w)) (checkInstance t0).

Definition removeInstance (id : string) : M t unit :=
  found <- lookup id ;;
  match found with
  | None => throw (not_found id)
  | Some instance =>
      emitEvent id AgentEvent.status_changed
        [("status", VStatus Status.stopped)] Severity.info ;;;
      stopOutputMonitoring id ;;;
      stopLogMonitoring id ;;;
      try_catch
        (w <- get ;;
         runTmuxCommand ["kill-window"; "-t"; target instance w] ;;;
         ret tt)
        (fun _ => ret tt) ;;;
      modify (fun w => set_instances (JsMap.delete id (instances w)) w)
  end.

(** *** Prompts and approval *)

Definition hold (prompt : string) (t0 : Date) (i : AmpInstance.t)
    : AmpInstance.t :=
  AmpInstance.set_pendingCommand (Some (PendingCommand.mk prompt true t0))
    (AmpInstance.set_status Status.waiting_approval i).

(** The keystrokes of a prompt: every line, a continuation after each
    line but the last, [Enter] after the last. *)
Fixpoint sendLines (instance : AmpInstance.t) (lines : list string)
    : M t unit :=
  match lines with
  | [] => ret tt
  | [line] =>
      send_keys instance [line] ;;;
      send_keys instance ["Enter"]
  | line :: rest =>
      send_keys instance [line] ;;;
      send_keys instance [" \"; "Enter"] ;;;
      sleep 100 ;;;
      sendLines instance rest
  end.

Definition isAllowed (instance : AmpInstance.t) (prompt : string) : bool :=
  let allowlist :=
    match AmpInstance.ampSettings instance with
    | Some s => or_else (AmpSettings.commands_allowlist s) []
    | None => []
    end in
  Js.some (fun allowed =>
             Js.includes (Js.toLowerCase prompt) (Js.toLowerCase allowed))
          allowlist.

Definition requiresApproval (instance : AmpInstance.t) : bool :=
  bool_decide
    (InstanceConfig.requireApproval (AmpInstance.config instance) = Some true).

Definition run (prompt : string) (t0 : Date) (i : AmpInstance.t)
    : AmpInstance.t :=
  AmpInstance.set_stats
    (Stats.set_promptsExecuted
       (Stats.promptsExecuted (AmpInstance.stats i) + 1) (AmpInstance.stats i))
    (AmpInstance.set_lastActivity t0
       (AmpInstance.set_currentPrompt (Some prompt)
          (AmpInstance.set_status Status.running i))).

Definition executePrompt (instanceId prompt : string) : M t unit :=
  found <- lookup instanceId ;;
  match found with
  | None => ret tt
  | Some instance =>
      if negb (isAllowed instance prompt) && requiresApproval instance then
        t0 <- now ;;
        mutate instanceId (hold prompt t0) ;;;
        emitEvent instanceId AgentEvent.approval_required
          [("prompt", VString prompt)] Severity.warn
      else
        t0 <- now ;;
        mutate instanceId (run prompt t0) ;;;
        emitEvent instanceId AgentEvent.prompt_sent
          [("prompt", VString (Js.slice0 100 prompt))] Severity.info ;;;
        sendLines instance (Js.split Js.newline prompt) ;;;
        emitEvent instanceId AgentEvent.command_executed
          [("prompt", VString (Js.slice0 100 prompt))] Severity.info
  end.

Definition sendPrompt (instanceId prompt : string) : M t unit :=
  found <- lookup instanceId ;;
  match found with
  | None => throw (not_found instanceId)
  | Some instance =>
      if requiresApproval instance then
        t0 <- now ;;
        mutate instanceId (hold prompt t0) ;;;
        emitEvent instanceId AgentEvent.approval_required
          [("prompt", VString prompt)] Severity.warn
      else executePrompt instanceId prompt
  end.

Definition no_pending (instanceId : string) : JsError :=
  Error ("No pending command for instance " +:+ instanceId).

Definition approveCommand (instanceId : string) : M t unit :=
  found <- lookup instanceId ;;
  match found with
  | None => throw (no_pending instanceId)
  | Some instance =>
      match AmpInstance.pendingCommand instance with
      | None => throw (no_pending instanceId)
      | Some pending =>
          let prompt := PendingCommand.command pending in
          mutate instanceId (AmpInstance.set_pendingCommand None) ;;;
          executePrompt instanceId prompt
      end
  end.

Definition cancelCommand (instanceId : string) : M t unit :=
  found <- lookup instanceId ;;
  match found with
  | None => throw (not_found instanceId)
  | Some _ =>
      mutate instanceId
        (fun i => AmpInstance.set_status Status.idle
                    (AmpInstance.set_pendingCommand None i)) ;;;
      emitEvent instanceId AgentEvent.status_changed
        [("status", VStatus Status.idle)] Severity.info
  end.

(** *** Creation and listing *)

Definition defaultErrorPatterns : list string :=
  ["prompt is too long";
   "after property name in JSON at";
   "exceed context limit:";
   "Shutting down...";
   "Error:";
   "ERROR:";
   "Fatal:";
   "FATAL:";
   "timeout";
   "connection refused";
   "authentication failed";
   "Out of free credits";
   "Amp update failed";
   "update failed";
   "network error";
   "connection timeout"].

(** [s || d] for an optional string: the empty string is falsy. *)
Definition or_string (s : option string) (d : string) : string :=
  match s with
  | Some "" | None => d
  | Some x => x
  end.

Definition createInstance (config : option InstanceConfig.t)
    : M t AmpInstance.t :=
  w0 <- get ;;
  if negb (sessionExists w0) then throw (Error "Tmux session not initialized")
  else
    let id := uuidv4 host (drawn w0) in
    modify (fun w => set_drawn (S (drawn w)) w) ;;;
    let cfg := or_else config InstanceConfig.empty in
    let name := or_string (InstanceConfig.name cfg)
                          ("amp-" +:+ Js.slice0 8 id) in
    let paneId := sessionName w0 +:+ ":" +:+ name in
    let workingDir := or_string (InstanceConfig.workingDirectory cfg) (cwd host) in
    let logDir := "/tmp/amp-manager" in
    fs_mkdir logDir ;;;
    let logFile := join logDir (name +:+ ".log") in
    runTmuxCommand
      ["new-window"; "-t"; sessionName w0; "-n"; name; "-c"; workingDir] ;;;
    t0 <- now ;;
    w1 <- get ;;
    let instance :=
      AmpInstance.mk id name paneId Status.idle t0 t0 t0 (Some workingDir)
        (Some logFile) [] None (InstanceConfig.threadId cfg) AuthStatus.unknown
        None (Stats.mk 0 0 0 0 None) cfg
        (or_else (InstanceConfig.errorPatterns cfg) defaultErrorPatterns)
        (match InstanceConfig.inactivityThreshold cfg with
         | Some 0 | None => 120
         | Some n => n
         end)
        (Some (AmpSettings.spread (globalAmpSettings w1)
                 (or_else (InstanceConfig.ampSettings cfg) AmpSettings.empty))) in
    setupInstanceEnvironment instance ;;;
    startAmpCLI instance ;;;
    instance' <- checkAuthStatus instance ;;
    match InstanceConfig.initialPrompt cfg with
    | Some "" | None => ret tt
    | Some prompt => sendPrompt id prompt
    end ;;;
    modify (fun w => set_instances (JsMap.set id instance' (instances w)) w) ;;;
    startOutputMonitoring id ;;;
    startLogMonitoring id ;;;
    emitEvent id AgentEvent.status_changed
      [("status", VStatus Status.idle); ("name", VString name)] Severity.info ;;;
    ret instance'.

(** [listInstances()]: one record per registered instance, its fields
    copied.  (Which of the objects behind the fields are shared with the
    registered instance is the subject of the module [Heap].) *)
Definition listInstances : M t (list AmpInstance.t) :=
  w <- get ;;
  ret (JsMap.values (instances w)).

(** The [toggle_auto_restart] request of the control socket: it writes
    the [config] of the record it finds in [listInstances()], which is the
    [config] object of the registered instance. *)
Definition toggleAutoRestart (instanceId : string) : M t unit :=
  all <- listInstances ;;
  match List.find (fun i => String.eqb (AmpInstance.id i) instanceId) all with
  | Some targetInstance =>
      let flipped :=
        negb (bool_decide
                (InstanceConfig.autoRestart (AmpInstance.config targetInstance)
                 = Some true)) in
      mutate (AmpInstance.id targetInstance)
        (fun i => AmpInstance.set_config
                    (InstanceConfig.set_autoRestart (Some flipped)
                       (AmpInstance.config i)) i)
  | None => ret tt
  end.

(** [initialize()] *)
Definition initialize : M t unit :=
  w <- get ;;
  try_catch
    (runTmuxCommand ["has-session"; "-t"; sessionName w] ;;;
     modify (set_sessionExists true))
    (fun _ =>
       runTmuxCommand ["new-session"; "-d"; "-s"; sessionName w] ;;;
       modify (set_sessionExists true)).

(** *** Threads and tools *)

(** [createThread(instanceId)]: [null] is [None]. *)
Definition createThread (instanceId : string) : M t (option string) :=
  found <- lookup instanceId ;;
  match found with
  | None => throw (not_found instanceId)
  | Some instance =>
      try_catch
        (send_keys instance ["C-c"] ;;;
         sleep 500 ;;;
         send_keys instance ["amp threads new"; "Enter"] ;;;
         sleep 3000 ;;;
         output <- getInstanceOutput instanceId ;;
         match RegExp.exec RegExp.threadId (Js.join " " output) with
         | Some threadMatch =>
             match RegExp.group 1 threadMatch with
             | Some threadId =>
                 mutate instanceId (AmpInstance.set_threadId (Some threadId)) ;;;
                 send_keys instance ["amp --thread-id " +:+ threadId; "Enter"] ;;;
                 emitEvent instanceId AgentEvent.thread_created
                   [("threadId", VString threadId)] Severity.info ;;;
                 ret (Some threadId)
             | None =>
                 (* group 1 takes part in every match of the pattern *)
                 mutate instanceId (AmpInstance.set_threadId None) ;;;
                 send_keys instance ["amp --thread-id undefined"; "Enter"] ;;;
                 emitEvent instanceId AgentEvent.thread_created
                   [("threadId", VUndefined)] Severity.info ;;;
                 ret None
             end
         | None =>
             send_keys instance ["amp"; "Enter"] ;;;
             ret None
         end)
        (fun _ =>
           emitEvent instanceId AgentEvent.error_detected
             [("error", VString "Failed to create thread")] Severity.error ;;;
           ret None)
  end.

Definition switchThread (instanceId threadId : string) : M t unit :=
  found <- lookup instanceId ;;
  match found with
  | None => throw (not_found instanceId)
  | Some instance =>
      try_catch
        (send_keys instance ["C-c"] ;;;
         sleep 500 ;;;
         send_keys instance ["amp --thread-id " +:+ threadId; "Enter"] ;;;
         mutate instanceId (AmpInstance.set_threadId (Some threadId)) ;;;
         emitEvent instanceId AgentEvent.thread_switched
           [("threadId", VString threadId)] Severity.info)
        (fun _ =>
           emitEvent instanceId AgentEvent.error_detected
             [("error", VString "Failed to switch thread")] Severity.error)
  end.

(** [listThreads(instanceId)]: the list the method builds is never
    filled. *)
Definition listThreads (instanceId : string) : M t (list ThreadInfo.t) :=
  found <- lookup instanceId ;;
  match found with
  | None => throw (not_found instanceId)
  | Some instance =>
      try_catch
        (send_keys instance ["C-c"] ;;;
         sleep 500 ;;;
         send_keys instance ["amp threads list"; "Enter"] ;;;
         sleep 3000 ;;;
         output <- getInstanceOutput instanceId ;;
         let threads : list ThreadInfo.t := [] in
         send_keys instance ["amp"; "Enter"] ;;;
         ret threads)
        (fun _ => ret [])
  end.

Definition getTools (instanceId : string) : M t (list string) :=
  found <- lookup instanceId ;;
  match found with
  | None => throw (not_found instanceId)
  | Some instance =>
      try_catch
        (send_keys instance ["C-c"] ;;;
         sleep 500 ;;;
         send_keys instance ["amp tools show"; "Enter"] ;;;
         sleep 3000 ;;;
         output <- getInstanceOutput instanceId ;;
         let tools : list string := [] in
         send_keys instance ["amp"; "Enter"] ;;;
         ret tools)
        (fun _ => ret [])
  end.

(** *** The end of the manager *)

Definition set_watchdogInterval (v : bool) (w : t) : t :=
  mk (sessionName w) (instances w) (sessionExists w) (outputMonitors w)
     (logMonitors w) v (globalAmpSettings w) (settingsDir w) (events w)
     (clock w) (calls w) (drawn w).

(** [cleanup()]: the timers are stopped and the session is killed; a
    failure of [kill-session] is logged and dropped. *)
Definition cleanup : M t unit :=
  modify (set_watchdogInterval false) ;;;
  w <- get ;;
  for_each (outputMonitors w) stopOutputMonitoring ;;;
  w <- get ;;
  for_each (JsMap.keys (logMonitors w)) stopLogMonitoring ;;;
  w <- get ;;
  if sessionExists w then
    try_catch
      (runTmuxCommand ["kill-session"; "-t"; sessionName w] ;;; ret tt)
      (fun _ => ret tt)
  else ret tt.

End Methods.

End TmuxManager.

(** ** The allowlist helper ([services/AmpCliHelpers.ts]) *)

Module AmpCliHelpers.

Definition isCommandAllowed (prompt : string) (allowlist : list string) : bool :=
  let normalizedPrompt := Js.trim (Js.toLowerCase prompt) in
  Js.some (fun allowed =>
             let normalizedAllowed := Js.toLowerCase allowed in
             Js.includes normalizedPrompt normalizedAllowed
             || Js.startsWith normalizedPrompt normalizedAllowed)
          allowlist.

(** [s.replace(/c/g, '\\c')]: a backslash is put before every [c]. *)
Fixpoint escape (c : ascii) (s : string) : string :=
  match s with
  | EmptyString => EmptyString
  | String a r =>
      if Ascii.eqb a c then String "\" (String a (escape c r))
      else String a (escape c r)
  end.

Definition formatPromptForNonInteractive (prompt : string) : string :=
  escape "$" (escape "`" (escape RegExp.dquote prompt)).

(** The test of [extractErrors] on a trimmed line; [/^error:/i] asks for
    the letters at the start of the line in either case. *)
Definition isErrorLine (trimmed : string) : bool :=
  Js.startsWith (Js.toLowerCase trimmed) "error:"
  || Js.startsWith (Js.toLowerCase trimmed) "fatal:"
  || Js.includes trimmed "authentication failed"
  || Js.includes trimmed "out of free credits"
  || Js.includes trimmed "exceed context limit".

Definition extractErrors (output : string) : list string :=
  fold_left
    (fun errors line =>
       let trimmed := Js.trim line in
       if isErrorLine trimmed then (errors ++ [trimmed])%list else errors)
    (Js.split Js.newline output) [].

(** [parseThreadId]: the first of the three patterns that matches gives
    its group 1. *)
Fixpoint firstMatch (patterns : list RegExp.t) (output : string)
    : option string :=
  match patterns with
  | [] => None
  | pattern :: rest =>
      match RegExp.exec pattern output with
      | Some caps => RegExp.group 1 caps
      | None => firstMatch rest output
      end
  end.

Definition parseThreadId (output : string) : option string :=
  firstMatch
    [RegExp.threadAfter "thread"; RegExp.threadAfter "created thread";
     RegExp.threadAfter "thread id"]
    output.

(** [[^\s]+] at the start of [s]: the longest run of characters that are
    no white space, and what follows it. *)
Fixpoint mentioned (s : string) : string * string :=
  match s with
  | String c r =>
      if Js.is_space c then (EmptyString, s)
      else let '(name, rest) := mentioned r in (String c name, rest)
  | EmptyString => (EmptyString, EmptyString)
  end.

(** [prompt.replace(/@([^\s]+)/g, f)]: the text is read from the left;
    an [@] with a name behind it is replaced by what [f] gives for the
    name and the reading goes on behind the name, every other character
    is copied.  There are no more matches than characters, which is what
    [fuel] counts. *)
Fixpoint replaceMentions (f : string -> string) (fuel : nat) (s : string)
    : string :=
  match fuel with
  | O => s
  | S fuel' =>
      match s with
      | EmptyString => EmptyString
      | String c r =>
          if Ascii.eqb c "@" then
            match mentioned r with
            | (EmptyString, _) => String c (replaceMentions f fuel' r)
            | (filename, rest) => f filename +:+ replaceMentions f fuel' rest
            end
          else String c (replaceMentions f fuel' r)
      end
  end.

Definition formatFileMentions (prompt workingDir : string) : string :=
  replaceMentions
    (fun filename =>
       if Js.includes filename "/" then "@" +:+ filename
       else "@" +:+ filename)
    (String.length prompt) prompt.

End AmpCliHelpers.

(** ** What happens to a manager

    The requests of the control socket, the timers of the manager and of
    its monitors, and the passing of time. *)

Module Supervisor.

Inductive Op :=
| Initialize
| CreateInstance (config : option InstanceConfig.t)
| RemoveInstance (instanceId : string)
| RestartInstance (instanceId : string) (reason : option string)
| SendPrompt (instanceId prompt : string)
| ApproveCommand (instanceId : string)
| CancelCommand (instanceId : string)
| ToggleAutoRestart (instanceId : string)
| WatchdogTick
| OutputTick (instanceId : string)
| AuthTimer (instanceId : string)
| LogRefresh (instanceId : string) (content : option string)
| LogPoll (instanceId : string) (size : option Z)
    (read : AmpLogMonitor.ReadOutcome)
| Elapse (ms : N).

Definition discard {A} (m : M TmuxManager.t A) : M TmuxManager.t unit :=
  bind m (fun _ => ret tt).

Definition step (rt : Runtime) (host : Host) (op : Op) : M TmuxManager.t unit :=
  match op with
  | Initialize => TmuxManager.initialize host
  | CreateInstance config => discard (TmuxManager.createInstance host config)
  | RemoveInstance id => TmuxManager.removeInstance host id
  | RestartInstance id reason => TmuxManager.restartInstance host id reason
  | SendPrompt id prompt => TmuxManager.sendPrompt host id prompt
  | ApproveCommand id => TmuxManager.approveCommand host id
  | CancelCommand id => TmuxManager.cancelCommand id
  | ToggleAutoRestart id => TmuxManager.toggleAutoRestart id
  | WatchdogTick => TmuxManager.checkInstanceHealth host
  | OutputTick id => TmuxManager.outputTick host id
  | AuthTimer id => TmuxManager.updateAuthStatusFromOutput host id
  | LogRefresh id content => TmuxManager.logRefresh rt id content
  | LogPoll id size read => TmuxManager.logPoll rt id size read
  | Elapse ms => TmuxManager.sleep (Z.of_N ms)
  end.

(** A run: what an operation throws goes back to its caller, and the
    manager goes on. *)
Fixpoint run (rt : Runtime) (host : Host) (ops : list Op) (w : TmuxManager.t)
    : TmuxManager.t :=
  match ops with
  | [] => w
  | op :: rest => run rt host rest (snd (step rt host op w))
  end.

End Supervisor.

(** ** The control socket ([services/ControlSocket.ts])

    The answer of [handleMessage] to [get_status]. *)

Module ControlSocket.

(** An entry of [instances] in the answer; [pendingCommand] is [null]
    when no command is pending. *)
Record InstanceStatus := mkInstanceStatus {
  id : string;
  name : string;
  status : Status.t;
  authStatus : AuthStatus.t;
  threadId : option string;
  uptime : Z;
  promptsExecuted : Z;
  restartCount : Z;
  pendingCommand : option (string * Date)
}.

Record StatusReport := mkStatusReport {
  instanceCount : nat;
  runningCount : nat;
  idleCount : nat;
  errorCount : nat;
  waitingApprovalCount : nat;
  authenticatingCount : nat;
  instances : list InstanceStatus
}.

(** [instances.filter(i => i.status === s).length] *)
Definition count (s : Status.t) (instances : list AmpInstance.t) : nat :=
  length (List.filter (fun i => bool_decide (AmpInstance.status i = s)) instances).

Definition instanceStatus (now : Date) (i : AmpInstance.t) : InstanceStatus :=
  mkInstanceStatus (AmpInstance.id i) (AmpInstance.name i) (AmpInstance.status i)
    (AmpInstance.authStatus i) (AmpInstance.threadId i)
    (now - AmpInstance.createdAt i)
    (Stats.promptsExecuted (AmpInstance.stats i))
    (Stats.restartCount (AmpInstance.stats i))
    (match AmpInstance.pendingCommand i with
     | Some p => Some (Js.slice0 100 (PendingCommand.command p),
                       PendingCommand.timestamp p)
     | None => None
     end).

Definition get_status : M TmuxManager.t StatusReport :=
  instances <- TmuxManager.listInstances ;;
  now <- TmuxManager.now ;;
  ret (mkStatusReport (length instances)
         (count Status.running instances)
         (count Status.idle instances)
         (count Status.error instances)
         (count Status.waiting_approval instances)
         (count Status.authenticating instances)
         (map (instanceStatus now) instances)).

(** *** The requests

    A frame of a client is what [JSON.parse] made of it, whatever that
    is. *)

(** The types of request that [handleMessage] knows. *)
Inductive Kind :=
| list_instances
| create_instance
| destroy_instance
| send_prompt
| approve_command
| cancel_command
| restart_instance
| create_thread
| switch_thread
| list_threads
| fork_thread
| get_tools
| update_settings
| toggle_auto_restart
| set_global_auto_restart
| get_agent_stream
| request_status.                      (* [get_status] *)

Definition kinds : list (string * Kind) :=
  [("list_instances", list_instances); ("create_instance", create_instance);
   ("destroy_instance", destroy_instance); ("send_prompt", send_prompt);
   ("approve_command", approve_command); ("cancel_command", cancel_command);
   ("restart_instance", restart_instance); ("create_thread", create_thread);
   ("switch_thread", switch_thread); ("list_threads", list_threads);
   ("fork_thread", fork_thread); ("get_tools", get_tools);
   ("update_settings", update_settings);
   ("toggle_auto_restart", toggle_auto_restart);
   ("set_global_auto_restart", set_global_auto_restart);
   ("get_agent_stream", get_agent_stream); ("get_status", request_status)].

(** The [case] that [message.type] selects: a [case] is selected by a
    string that is its label. *)
Definition kind_of (type : option Json) : option Kind :=
  match type with
  | Some (JString label) => JsMap.get label kinds
  | _ => None
  end.

(** Whether a value counts as true. *)
Definition truthy (v : option Json) : bool :=
  match v with
  | None | Some JNull => false
  | Some (JBool b) => b
  | Some (JNumber text) => negb (String.eqb text "0")
  | Some (JString s) => negb (String.eqb s "")
  | Some (JArray _) | Some (JObject _) => true
  end.

(** The [result] of a request. *)
Inductive Result :=
| Instances (l : list AmpInstance.t)
| Created (instance : AmpInstance.t)
| Done                                 (* [{ success: true }] *)
| Thread (threadId : option string) (created : bool)
| Threads (l : list ThreadInfo.t)
| Tools (l : list string)
| Failure (error : string)             (* [{ error }] *)
| AutoRestart (instanceId : string) (autoRestart : bool) (message : string)
| GlobalAutoRestart (globalAutoRestart : option Json) (message : string)
| Streaming (streaming : bool) (message : string)
| Report (report : StatusReport).

(** The [error] of a response: a text, or the message of what was
    caught. *)
Inductive ErrorText :=
| Text (s : string)
| MessageOf (e : JsError).

Record ControlResponse := mkResponse {
  success : bool;
  data : option Result;
  error : option ErrorText;
  requestId : option Json
}.

(** The socket server: its manager, the clients that asked for the
    events, and the responses that were sent, oldest first.  A client is
    a number. *)
Record t := mk {
  tmuxManager : option TmuxManager.t;
  eventStreams : list (nat * bool);
  sent : list (nat * ControlResponse)
}.

Definition set_tmuxManager (v : option TmuxManager.t) (s : t) : t :=
  mk v (eventStreams s) (sent s).
Definition set_eventStreams (v : list (nat * bool)) (s : t) : t :=
  mk (tmuxManager s) v (sent s).
Definition set_sent (v : list (nat * ControlResponse)) (s : t) : t :=
  mk (tmuxManager s) (eventStreams s) v.

(** [eventStreams.get(ws)] and [eventStreams.set(ws, v)] *)
Fixpoint stream (ws : nat) (m : list (nat * bool)) : option bool :=
  match m with
  | [] => None
  | (k, v) :: r => if (k =? ws)%nat then Some v else stream ws r
  end.

Fixpoint set_stream (ws : nat) (v : bool) (m : list (nat * bool))
    : list (nat * bool) :=
  match m with
  | [] => [(ws, v)]
  | (k, v') :: r =>
      if (k =? ws)%nat then (k, v) :: r else (k, v') :: set_stream ws v r
  end.

(** [v.key] for a value of a frame: a [TypeError] on [null], nothing
    on what is no object. *)
Definition member (key : string) (v : Json) : M t (option Json) :=
  match v with
  | JNull => throw TypeError
  | _ => ret (JsonOps.prop key v)
  end.

(** [v.key] for what a property gave: [undefined] has no properties
    either. *)
Definition member_of (key : string) (v : option Json) : M t (option Json) :=
  match v with
  | Some x => member key x
  | None => throw TypeError
  end.

(** A value in a template literal, [None] when converting it throws. *)
Definition interpolate (v : option Json) : option string :=
  match v with
  | None => Some "undefined"
  | Some x => JsonOps.toString x
  end.

Definition text_of (v : option Json) : M t string :=
  match interpolate v with
  | Some text => ret text
  | None => throw TypeError
  end.

Section Requests.

Variable host : Host.

(** The manager is written for arguments of the types it declares, and
    so is its model.  What a method does with an argument of another
    type, which a frame can carry, is outside the model: [foreign] stands
    for it, the method by its name and the arguments as they came; and
    [configOf] is the configuration that a payload of [create_instance]
    is, when it is one. *)
Variable foreign : forall A : Type, string -> list (option Json) -> M TmuxManager.t A.
Variable configOf : Json -> option InstanceConfig.t.

(** [ws] is the client and [open] says that its [readyState] is [OPEN]. *)
Variable ws : nat.
Variable open : bool.

Definition sendResponse (response : ControlResponse) : M t unit :=
  if open then modify (fun s => set_sent (sent s ++ [(ws, response)])%list s)
  else ret tt.

(** A method of [this.tmuxManager]. *)
Definition manager {A} (method : M TmuxManager.t A) : M t A :=
  fun s =>
    match tmuxManager s with
    | Some w => let '(c, w') := method w in (c, set_tmuxManager (Some w') s)
    | None => (Thrown TypeError, s)
    end.

(** A method that takes the id of an instance, called with
    [message.payload.instanceId]. *)
Definition with_instance {A} (name : string) (message : Json)
    (method : string -> M TmuxManager.t A) : M t A :=
  payload <- member "payload" message ;;
  instanceId <- member_of "instanceId" payload ;;
  match instanceId with
  | Some (JString id) => manager (method id)
  | _ => manager (foreign A name [instanceId])
  end.

(** The [switch] of [handleMessage]. *)
Definition dispatch (message : Json) : M t Result :=
  type <- member "type" message ;;
  match kind_of type with
  | Some list_instances =>
      result <- manager TmuxManager.listInstances ;; ret (Instances result)
  | Some create_instance =>
      payload <- member "payload" message ;;
      (* [createInstance] reads [config?.name] and the like and keeps
         [config || {}]: a payload that counts as false is no
         configuration *)
      result <-
        match payload with
        | Some config =>
            if truthy payload then
              match configOf config with
              | Some typed =>
                  manager (TmuxManager.createInstance host (Some typed))
              | None => manager (foreign _ "createInstance" [payload])
              end
            else manager (TmuxManager.createInstance host None)
        | None => manager (TmuxManager.createInstance host None)
        end ;;
      ret (Created result)
  | Some destroy_instance =>
      with_instance "removeInstance" message (TmuxManager.removeInstance host) ;;;
      ret Done
  | Some send_prompt =>
      payload <- member "payload" message ;;
      instanceId <- member_of "instanceId" payload ;;
      prompt <- member_of "prompt" payload ;;
      match instanceId, prompt with
      | Some (JString id), Some (JString text) =>
          manager (TmuxManager.sendPrompt host id text)
      | _, _ => manager (foreign unit "sendPrompt" [instanceId; prompt])
      end ;;;
      ret Done
  | Some approve_command =>
      with_instance "approveCommand" message (TmuxManager.approveCommand host) ;;;
      ret Done
  | Some cancel_command =>
      with_instance "cancelCommand" message TmuxManager.cancelCommand ;;;
      ret Done
  | Some restart_instance =>
      payload <- member "payload" message ;;
      instanceId <- member_of "instanceId" payload ;;
      reason <- member_of "reason" payload ;;
      match instanceId, reason with
      | Some (JString id), None =>
          manager (TmuxManager.restartInstance host id None)
      | Some (JString id), Some (JString text) =>
          manager (TmuxManager.restartInstance host id (Some text))
      | _, _ => manager (foreign unit "restartInstance" [instanceId; reason])
      end ;;;
      ret Done
  | Some create_thread =>
      threadId <-
        with_instance "createThread" message (TmuxManager.createThread host) ;;
      ret (Thread threadId
             (match threadId with Some _ => true | None => false end))
  | Some switch_thread =>
      payload <- member "payload" message ;;
      instanceId <- member_of "instanceId" payload ;;
      threadId <- member_of "threadId" payload ;;
      match instanceId, threadId with
      | Some (JString id), Some (JString thread) =>
          manager (TmuxManager.switchThread host id thread)
      | _, _ => manager (foreign unit "switchThread" [instanceId; threadId])
      end ;;;
      ret Done
  | Some list_threads =>
      result <-
        with_instance "listThreads" message (TmuxManager.listThreads host) ;;
      ret (Threads result)
  | Some fork_thread => ret (Failure "Fork thread not yet implemented")
  | Some get_tools =>
      result <- with_instance "getTools" message (TmuxManager.getTools host) ;;
      ret (Tools result)
  | Some update_settings => ret (Failure "Update settings not yet implemented")
  | Some toggle_auto_restart =>
      instance <- manager TmuxManager.listInstances ;;
      (* [instance.find(i => i.id === message.payload.instanceId)]: the
         payload is read when there is an instance to compare *)
      found <-
        match instance with
        | [] => ret None
        | _ :: _ =>
            payload <- member "payload" message ;;
            instanceId <- member_of "instanceId" payload ;;
            ret (List.find
                   (fun i =>
                      match instanceId with
                      | Some (JString id) => String.eqb (AmpInstance.id i) id
                      | _ => false
                      end) instance)
        end ;;
      match found with
      | Some targetInstance =>
          let flipped :=
            negb (bool_decide
                    (InstanceConfig.autoRestart
                       (AmpInstance.config targetInstance) = Some true)) in
          manager
            (TmuxManager.mutate (AmpInstance.id targetInstance)
               (fun i => AmpInstance.set_config
                           (InstanceConfig.set_autoRestart (Some flipped)
                              (AmpInstance.config i)) i)) ;;;
          ret (AutoRestart (AmpInstance.id targetInstance) flipped
                 ("Auto-restart "
                  +:+ (if flipped then "enabled" else "disabled")
                  +:+ " for " +:+ AmpInstance.name targetInstance))
      | None => ret (Failure "Instance not found")
      end
  | Some set_global_auto_restart =>
      payload <- member "payload" message ;;
      enabled <- member_of "enabled" payload ;;
      ret (GlobalAutoRestart enabled
             ("Global auto-restart "
              +:+ (if truthy enabled then "enabled" else "disabled")))
  | Some get_agent_stream =>
      payload <- member "payload" message ;;
      enabled <- member_of "enabled" payload ;;
      modify (fun s =>
        set_eventStreams
          (set_stream ws
             (match enabled with Some (JBool false) => false | _ => true end)
             (eventStreams s)) s) ;;;
      s <- get ;;
      let streaming := or_else (stream ws (eventStreams s)) false in
      ret (Streaming streaming
             (if streaming then "Event streaming enabled"
              else "Event streaming disabled"))
  | Some request_status => result <- manager get_status ;; ret (Report result)
  | None =>
      text <- text_of type ;;
      throw (Error ("Unknown command type: " +:+ text))
  end.

(** [handleMessage(ws, message)]; [message.requestId] is read when a
    response is made. *)
Definition handleMessage (message : Json) : M t unit :=
  s <- get ;;
  match tmuxManager s with
  | None =>
      requestId <- member "requestId" message ;;
      sendResponse
        (mkResponse false None (Some (Text "TmuxManager not available"))
           requestId)
  | Some _ =>
      try_catch
        (result <- dispatch message ;;
         requestId <- member "requestId" message ;;
         sendResponse (mkResponse true (Some result) None requestId))
        (fun e =>
           requestId <- member "requestId" message ;;
           sendResponse (mkResponse false None (Some (MessageOf e)) requestId))
  end.

End Requests.

End ControlSocket.

(** ** The objects behind an instance

    [listInstances] builds new records out of the registered ones.  Which
    objects a new record shares with the registered one is a question of
    references: here the objects live in a heap and the properties that
    hold objects hold their locations. *)

Module Heap.

Definition loc := nat.

Record StatsObj := mkStats {
  promptsExecuted : Z;
  tokensUsed : Z;
  uptime : Z;
  restartCount : Z;
  lastRestart : option loc          (* a [Date] *)
}.

Record PendingObj := mkPending {
  command : string;
  requiresApproval : bool;
  timestamp : loc                   (* a [Date] *)
}.

Record InstanceObj := mkInstance {
  id : string;
  name : string;
  tmuxPane : string;
  status : Status.t;
  createdAt : loc;                  (* a [Date] *)
  lastActivity : loc;               (* a [Date] *)
  lastInactivityCheck : loc;        (* a [Date] *)
  workingDirectory : option string;
  logFile : option string;
  output : loc;                     (* an array of strings *)
  currentPrompt : option string;
  threadId : option string;
  authStatus : AuthStatus.t;
  pendingCommand : option loc;
  stats : loc;
  config : loc;
  errorPatterns : loc;              (* an array of strings *)
  inactivityThreshold : Z;
  ampSettings : option loc
}.

(** [r.status = v] *)
Definition set_status (v : Status.t) (i : InstanceObj) : InstanceObj :=
  mkInstance (id i) (name i) (tmuxPane i) v (createdAt i) (lastActivity i)
    (lastInactivityCheck i) (workingDirectory i) (logFile i) (output i)
    (currentPrompt i) (threadId i) (authStatus i) (pendingCommand i) (stats i)
    (config i) (errorPatterns i) (inactivityThreshold i) (ampSettings i).

Inductive Obj :=
| ODate (time : Z)
| OArray (items : list string)
| OConfig (c : InstanceConfig.t)
| OSettings (s : AmpSettings.t)
| OStats (s : StatsObj)
| OPending (p : PendingObj)
| OInstance (i : InstanceObj).

Definition heap := list Obj.

(** A new object gets the next location. *)
Definition alloc (o : Obj) : M heap loc :=
  fun h => (Normal (length h), (h ++ [o])%list).

Definition read (l : loc) : M heap Obj :=
  fun h => match h !! l with
           | Some o => (Normal o, h)
           | None => (Thrown TypeError, h)
           end.

Definition write (l : loc) (o : Obj) : M heap unit :=
  fun h => (Normal tt, <[l := o]> h).

Definition readStats (l : loc) : M heap StatsObj :=
  o <- read l ;; match o with OStats s => ret s | _ => throw TypeError end.
Definition readPending (l : loc) : M heap PendingObj :=
  o <- read l ;; match o with OPending p => ret p | _ => throw TypeError end.
Definition readInstance (l : loc) : M heap InstanceObj :=
  o <- read l ;; match o with OInstance i => ret i | _ => throw TypeError end.

(** The record [listInstances] builds for one instance: the spread copies
    every property, the dates are [Date] objects and are kept, [stats] and
    [pendingCommand] are new objects with the properties of the old. *)
Definition copyInstance (l : loc) : M heap loc :=
  instance <- readInstance l ;;
  s <- readStats (stats instance) ;;
  stats' <- alloc (OStats (mkStats (promptsExecuted s) (tokensUsed s) (uptime s)
                             (restartCount s) (lastRestart s))) ;;
  pending' <- match pendingCommand instance with
              | Some pl =>
                  p <- readPending pl ;;
                  l' <- alloc (OPending (mkPending (command p) (requiresApproval p)
                                           (timestamp p))) ;;
                  ret (Some l')
              | None => ret None
              end ;;
  alloc (OInstance
           (mkInstance (id instance) (name instance) (tmuxPane instance)
              (status instance) (createdAt instance) (lastActivity instance)
              (lastInactivityCheck instance) (workingDirectory instance)
              (logFile instance) (output instance) (currentPrompt instance)
              (threadId instance) (authStatus instance) pending' stats'
              (config instance) (errorPatterns instance)
              (inactivityThreshold instance) (ampSettings instance))).

Fixpoint copyAll (ls : list loc) : M heap (list loc) :=
  match ls with
  | [] => ret []
  | l :: rest =>
      r <- copyInstance l ;;
      rs <- copyAll rest ;;
      ret (r :: rs)
  end.

(** [listInstances()] over a registry of instance objects. *)
Definition listInstances (registry : list (string * loc)) : M heap (list loc) :=
  copyAll (JsMap.values registry).

(** What an instance object and the objects it refers to hold: the
    instance as a value. *)
Definition date_at (h : heap) (l : loc) : option Z :=
  match h !! l with Some (ODate t) => Some t | _ => None end.
Definition array_at (h : heap) (l : loc) : option (list string) :=
  match h !! l with Some (OArray a) => Some a | _ => None end.
Definition config_at (h : heap) (l : loc) : option InstanceConfig.t :=
  match h !! l with Some (OConfig c) => Some c | _ => None end.
Definition settings_at (h : heap) (l : loc) : option AmpSettings.t :=
  match h !! l with Some (OSettings s) => Some s | _ => None end.

Definition stats_at (h : heap) (l : loc) : option Stats.t :=
  match h !! l with
  | Some (OStats s) =>
      match lastRestart s with
      | Some d =>
          match date_at h d with
          | Some t => Some (Stats.mk (promptsExecuted s) (tokensUsed s) (uptime s)
                              (restartCount s) (Some t))
          | None => None
          end
      | None => Some (Stats.mk (promptsExecuted s) (tokensUsed s) (uptime s)
                        (restartCount s) None)
      end
  | _ => None
  end.

Definition pending_at (h : heap) (l : loc) : option PendingCommand.t :=
  match h !! l with
  | Some (OPending p) =>
      match date_at h (timestamp p) with
      | Some t => Some (PendingCommand.mk (command p) (requiresApproval p) t)
      | None => None
      end
  | _ => None
  end.

(** [Some None]: the property is [undefined]; [None]: it refers to
    nothing of the right kind. *)
Definition optional {A} (at_ : heap -> loc -> option A) (h : heap)
    (l : option loc) : option (option A) :=
  match l with
  | Some x => match at_ h x with Some a => Some (Some a) | None => None end
  | None => Some None
  end.

Definition deep_read (h : heap) (l : loc) : option AmpInstance.t :=
  match h !! l with
  | Some (OInstance i) =>
      match date_at h (createdAt i), date_at h (lastActivity i),
            date_at h (lastInactivityCheck i), array_at h (output i),
            optional pending_at h (pendingCommand i), stats_at h (stats i),
            config_at h (config i), array_at h (errorPatterns i),
            optional settings_at h (ampSettings i) with
      | Some created, Some active, Some checked, Some out, Some pend,
        Some st, Some cfg, Some patterns, Some settings =>
          Some (AmpInstance.mk (id i) (name i) (tmuxPane i) (status i) created
                  active checked (workingDirectory i) (logFile i) out
                  (currentPrompt i) (threadId i) (authStatus i) pend st cfg
                  patterns (inactivityThreshold i) settings)
      | _, _, _, _, _, _, _, _, _ => None
      end
  | _ => None
  end.

(** A write through a record [r]: an assignment to a property of [r]
    itself, or to a property of an object that a property of [r] holds. *)
Inductive Write :=
| Top (f : InstanceObj -> InstanceObj)          (* [r.p = v] *)
| InStats (f : StatsObj -> StatsObj)            (* [r.stats.p = v] *)
| InPending (f : PendingObj -> PendingObj)      (* [r.pendingCommand.p = v] *)
| InConfig (f : InstanceConfig.t -> InstanceConfig.t)  (* [r.config.p = v] *)
| InOutput (f : list string -> list string)     (* [r.output.push(x)], ... *)
| InErrorPatterns (f : list string -> list string)
| InAmpSettings (f : AmpSettings.t -> AmpSettings.t)
| InCreatedAt (time : Z)                        (* [r.createdAt.setTime(t)] *)
| InLastActivity (time : Z)
| InLastInactivityCheck (time : Z)
| InLastRestart (time : Z)                      (* [r.stats.lastRestart.setTime(t)] *)
| InPendingTimestamp (time : Z).

Definition modify_at (l : loc) (f : Obj -> Obj) (h : heap) : heap :=
  match h !! l with
  | Some o => <[l := f o]> h
  | None => h
  end.

Definition apply_write (r : loc) (wr : Write) (h : heap) : heap :=
  match h !! r with
  | Some (OInstance i) =>
      match wr with
      | Top f => <[r := OInstance (f i)]> h
      | InStats f =>
          modify_at (stats i)
            (fun o => match o with OStats s => OStats (f s) | _ => o end) h
      | InPending f =>
          match pendingCommand i with
          | Some pl =>
              modify_at pl
                (fun o => match o with OPending p => OPending (f p) | _ => o end) h
          | None => h
          end
      | InConfig f =>
          modify_at (config i)
            (fun o => match o with OConfig c => OConfig (f c) | _ => o end) h
      | InOutput f =>
          modify_at (output i)
            (fun o => match o with OArray a => OArray (f a) | _ => o end) h
      | InErrorPatterns f =>
          modify_at (errorPatterns i)
            (fun o => match o with OArray a => OArray (f a) | _ => o end) h
      | InAmpSettings f =>
          match ampSettings i with
          | Some sl =>
              modify_at sl
                (fun o => match o with OSettings s => OSettings (f s) | _ => o end) h
          | None => h
          end
      | InCreatedAt t => modify_at (createdAt i) (fun _ => ODate t) h
      | InLastActivity t => modify_at (lastActivity i) (fun _ => ODate t) h
      | InLastInactivityCheck t =>
          modify_at (lastInactivityCheck i) (fun _ => ODate t) h
      | InLastRestart t =>
          match h !! stats i with
          | Some (OStats s) =>
              match lastRestart s with
              | Some d => modify_at d (fun _ => ODate t) h
              | None => h
              end
          | _ => h
          end
      | InPendingTimestamp t =>
          match pendingCommand i with
          | Some pl =>
              match h !! pl with
              | Some (OPending p) => modify_at (timestamp p) (fun _ => ODate t) h
              | _ => h
              end
          | None => h
          end
      end
  | _ => h
  end.

(** The writes that stay inside the objects [listInstances] creates:
    assignments to properties of the record, of its [stats] and of its
    [pendingCommand]. *)
Definition local (wr : Write) : bool :=
  match wr with
  | Top _ | InStats _ | InPending _ => true
  | _ => false
  end.

(** An instance object for a value, with new objects behind all its
    properties. *)
Definition store (v : AmpInstance.t) : M heap loc :=
  created <- alloc (ODate (AmpInstance.createdAt v)) ;;
  active <- alloc (ODate (AmpInstance.lastActivity v)) ;;
  checked <- alloc (ODate (AmpInstance.lastInactivityCheck v)) ;;
  out <- alloc (OArray (AmpInstance.output v)) ;;
  pend <- match AmpInstance.pendingCommand v with
          | Some p =>
              d <- alloc (ODate (PendingCommand.timestamp p)) ;;
              l <- alloc (OPending (mkPending (PendingCommand.command p)
                                      (PendingCommand.requiresApproval p) d)) ;;
              ret (Some l)
          | None => ret None
          end ;;
  restarted <- match Stats.lastRestart (AmpInstance.stats v) with
               | Some t => d <- alloc (ODate t) ;; ret (Some d)
               | None => ret None
               end ;;
  st <- alloc (OStats (mkStats (Stats.promptsExecuted (AmpInstance.stats v))
                         (Stats.tokensUsed (AmpInstance.stats v))
                         (Stats.uptime (AmpInstance.stats v))
                         (Stats.restartCount (AmpInstance.stats v)) restarted)) ;;
  cfg <- alloc (OConfig (AmpInstance.config v)) ;;
  patterns <- alloc (OArray (AmpInstance.errorPatterns v)) ;;
  settings <- match AmpInstance.ampSettings v with
              | Some s => l <- alloc (OSettings s) ;; ret (Some l)
              | None => ret None
              end ;;
  alloc (OInstance
           (mkInstance (AmpInstance.id v) (AmpInstance.name v)
              (AmpInstance.tmuxPane v) (AmpInstance.status v) created active
              checked (AmpInstance.workingDirectory v) (AmpInstance.logFile v)
              out (AmpInstance.currentPrompt v) (AmpInstance.threadId v)
              (AmpInstance.authStatus v) pend st cfg patterns
              (AmpInstance.inactivityThreshold v) settings)).

End Heap.

(** ** A runtime to run the monitor on

    [JSON.parse] for the JSON grammar (a number keeps its literal, the
    escapes of a string are decoded to bytes), [new Date(v)] for an integer
    number of milliseconds and for the format [toISOString()] writes. *)

Module Reference.

Definition code (c : ascii) : nat := nat_of_ascii c.

Definition is_digit (c : ascii) : bool :=
  ((48 <=? code c)%nat && (code c <=? 57)%nat)%bool.

(** The white space of JSON. *)
Definition json_space (c : ascii) : bool :=
  ((code c =? 32)%nat || (code c =? 9)%nat || (code c =? 10)%nat
   || (code c =? 13)%nat)%bool.

Fixpoint skip_ws (s : string) : string :=
  match s with
  | String c r => if json_space c then skip_ws r else s
  | EmptyString => s
  end.

(** The longest prefix of characters in a class, and the rest. *)
Fixpoint span (p : ascii -> bool) (s : string) : string * string :=
  match s with
  | String c r =>
      if p c then let '(a, b) := span p r in (String c a, b)
      else (EmptyString, s)
  | EmptyString => (EmptyString, EmptyString)
  end.

Definition hex_value (c : ascii) : option nat :=
  let n := code c in
  if ((48 <=? n) && (n <=? 57))%nat then Some (n - 48)%nat
  else if ((97 <=? n) && (n <=? 102))%nat then Some (n - 87)%nat
  else if ((65 <=? n) && (n <=? 70))%nat then Some (n - 55)%nat
  else None.

(** The bytes (UTF-8) of a character given by its number. *)
Definition utf8 (n : nat) : string :=
  if (n <? 128)%nat then String (ascii_of_nat n) ""
  else if (n <? 2048)%nat then
    String (ascii_of_nat (192 + n / 64)) (String (ascii_of_nat (128 + n mod 64)) "")
  else
    String (ascii_of_nat (224 + n / 4096))
      (String (ascii_of_nat (128 + (n / 64) mod 64))
         (String (ascii_of_nat (128 + n mod 64)) "")).

(** The characters of a string literal after its opening quote, up to
    the closing quote. *)
Fixpoint string_body (s : string) : option (string * string) :=
  match s with
  | EmptyString => None
  | String c r =>
      if (code c =? 34)%nat then Some (EmptyString, r)
      else if (code c =? 92)%nat then
        match r with
        | String e r1 =>
            let simple (b : nat) :=
              match string_body r1 with
              | Some (t, rest) => Some (String (ascii_of_nat b) t, rest)
              | None => None
              end in
            if (code e =? 34)%nat then simple 34%nat
            else if (code e =? 92)%nat then simple 92%nat
            else if (code e =? 47)%nat then simple 47%nat
            else if (code e =? 98)%nat then simple 8%nat
            else if (code e =? 102)%nat then simple 12%nat
            else if (code e =? 110)%nat then simple 10%nat
            else if (code e =? 114)%nat then simple 13%nat
            else if (code e =? 116)%nat then simple 9%nat
            else if (code e =? 117)%nat then
              match r1 with
              | String h1 (String h2 (String h3 (String h4 r2))) =>
                  match hex_value h1, hex_value h2, hex_value h3, hex_value h4,
                        string_body r2 with
                  | Some a, Some b, Some c', Some d, Some (t, rest) =>
                      Some (utf8 (((a * 16 + b) * 16 + c') * 16 + d) +:+ t, rest)
                  | _, _, _, _, _ => None
                  end
              | _ => None
              end
            else None
        | EmptyString => None
        end
      else if (code c <? 32)%nat then None
      else match string_body r with
           | Some (t, rest) => Some (String c t, rest)
           | None => None
           end
  end.

(** A number literal at the start of [s]. *)
Definition number (s : string) : option (string * string) :=
  let '(sign, s1) := match s with
                     | String "-" r => ("-", r)
                     | _ => (EmptyString, s)
                     end in
  let '(int, s2) := span is_digit s1 in
  let int_ok := match int with
                | EmptyString => false
                | String "0" (String _ _) => false
                | _ => true
                end in
  if negb int_ok then None
  else
    let frac :=
      match s2 with
      | String "." r =>
          let '(d, rest) := span is_digit r in
          match d with
          | EmptyString => None
          | _ => Some ("." +:+ d, rest)
          end
      | _ => Some (EmptyString, s2)
      end in
    match frac with
    | None => None
    | Some (f, s3) =>
        let exp :=
          match s3 with
          | String e r =>
              if ((code e =? 101) || (code e =? 69))%nat then
                let '(sg, r1) := match r with
                                 | String "+" r' => ("+", r')
                                 | String "-" r' => ("-", r')
                                 | _ => (EmptyString, r)
                                 end in
                let '(d, rest) := span is_digit r1 in
                match d with
                | EmptyString => None
                | _ => Some (String e sg +:+ d, rest)
                end
              else Some (EmptyString, s3)
          | EmptyString => Some (EmptyString, s3)
          end in
        match exp with
        | None => None
        | Some (x, rest) => Some (sign +:+ int +:+ f +:+ x, rest)
        end
    end.

Definition keyword (k : string) (v : Json) (s : string) : option (Json * string) :=
  if String.prefix k s
  then Some (v, String.substring (String.length k)
                                 (String.length s - String.length k) s)
  else None.

(** A value at the start of [s], after white space; [fuel] bounds the
    number of values and separators. *)
Fixpoint value (fuel : nat) (s : string) : option (Json * string) :=
  match fuel with
  | O => None
  | S f =>
      match skip_ws s with
      | EmptyString => None
      | String c r as s' =>
          if (code c =? 123)%nat then
            match skip_ws r with
            | String "}" rest => Some (JObject [], rest)
            | _ => match members f r with
                   | Some (ps, rest) => Some (JObject ps, rest)
                   | None => None
                   end
            end
          else if (code c =? 91)%nat then
            match skip_ws r with
            | String "]" rest => Some (JArray [], rest)
            | _ => match elements f r with
                   | Some (vs, rest) => Some (JArray vs, rest)
                   | None => None
                   end
            end
          else if (code c =? 34)%nat then
            match string_body r with
            | Some (t, rest) => Some (JString t, rest)
            | None => None
            end
          else if (code c =? 116)%nat then keyword "true" (JBool true) s'
          else if (code c =? 102)%nat then keyword "false" (JBool false) s'
          else if (code c =? 110)%nat then keyword "null" JNull s'
          else match number s' with
               | Some (t, rest) => Some (JNumber t, rest)
               | None => None
               end
      end
  end
with elements (fuel : nat) (s : string) : option (list Json * string) :=
  match fuel with
  | O => None
  | S f =>
      match value f s with
      | Some (v, rest) =>
          match skip_ws rest with
          | String "]" rest' => Some ([v], rest')
          | String "," rest' =>
              match elements f rest' with
              | Some (vs, rest'') => Some (v :: vs, rest'')
              | None => None
              end
          | _ => None
          end
      | None => None
      end
  end
with members (fuel : nat) (s : string) : option (list (string * Json) * string) :=
  match fuel with
  | O => None
  | S f =>
      match skip_ws s with
      | String c r =>
          if (code c =? 34)%nat then
            match string_body r with
            | Some (k, rest) =>
                match skip_ws rest with
                | String ":" rest1 =>
                    match value f rest1 with
                    | Some (v, rest2) =>
                        match skip_ws rest2 with
                        | String "}" rest3 => Some ([(k, v)], rest3)
                        | String "," rest3 =>
                            match members f rest3 with
                            | Some (ps, rest4) => Some ((k, v) :: ps, rest4)
                            | None => None
                            end
                        | _ => None
                        end
                    | None => None
                    end
                | _ => None
                end
            | None => None
            end
          else None
      | EmptyString => None
      end
  end.

Definition JSON_parse (s : string) : option Json :=
  match value (2 * String.length s + 2) s with
  | Some (v, rest) =>
      match skip_ws rest with
      | EmptyString => Some v
      | _ => None
      end
  | None => None
  end.

(** Decimal digits as a number. *)
Fixpoint decimal (acc : Z) (s : string) : option Z :=
  match s with
  | EmptyString => Some acc
  | String c r =>
      if is_digit c then decimal (10 * acc + Z.of_nat (code c - 48)) r
      else None
  end.

Definition field (from len : nat) (s : string) : option Z :=
  let t := String.substring from len s in
  if (String.length t =? len)%nat then decimal 0 t else None.

(** Days from 1970-01-01 to a date of the Gregorian calendar. *)
Definition days_from_civil (y m d : Z) : Z :=
  let y' := if m <=? 2 then y - 1 else y in
  let era := y' / 400 in
  let yoe := y' - era * 400 in
  let doy := (153 * (if 2 <? m then m - 3 else m + 9) + 2) / 5 + d - 1 in
  let doe := yoe * 365 + yoe / 4 - yoe / 100 + doy in
  era * 146097 + doe - 719468.

(** [YYYY-MM-DDTHH:mm:ss.sssZ] *)
Definition iso (s : string) : option Date :=
  if negb ((String.length s =? 24)%nat
           && String.eqb (String.substring 4 1 s) "-"
           && String.eqb (String.substring 7 1 s) "-"
           && String.eqb (String.substring 10 1 s) "T"
           && String.eqb (String.substring 13 1 s) ":"
           && String.eqb (String.substring 16 1 s) ":"
           && String.eqb (String.substring 19 1 s) "."
           && String.eqb (String.substring 23 1 s) "Z")
  then None
  else
    match field 0 4 s, field 5 2 s, field 8 2 s, field 11 2 s, field 14 2 s,
          field 17 2 s, field 20 3 s with
    | Some y, Some mo, Some d, Some h, Some mi, Some sec, Some ms =>
        if (1 <=? mo) && (mo <=? 12) && (1 <=? d) && (d <=? 31) && (h <=? 23)
           && (mi <=? 59) && (sec <=? 59)
        then Some ((((days_from_civil y mo d * 24 + h) * 60 + mi) * 60 + sec)
                   * 1000 + ms)
        else None
    | _, _, _, _, _, _, _ => None
    end.

Definition Date_of (v : option Json) : option Date :=
  match v with
  | Some (JString s) => iso s
  | Some (JNumber t) =>
      match t with
      | String "-" r => match decimal 0 r with
                        | Some n => Some (- n)
                        | None => None
                        end
      | _ => decimal 0 t
      end
  | Some JNull => Some 0
  | Some (JBool b) => Some (if b then 1 else 0)
  | _ => None
  end.

Definition runtime : Runtime :=
  Build_Runtime JSON_parse Date_of.

(** The text of a log line, written with an apostrophe where the line has
    a double quote. *)
Fixpoint text (s : string) : string :=
  match s with
  | EmptyString => EmptyString
  | String c r =>
      String (if (code c =? 39)%nat then ascii_of_nat 34 else c) (text r)
  end.

End Reference.

(** ** Hosts and managers to run the methods on *)

Module Scenario.

Definition uuid (n : nat) : string :=
  "0000000" +:+ Js.ofZ (Z.of_nat n) +:+ "-0000-4000-8000-000000000000".

(** A host on which every command succeeds with no output; a call takes
    5 ms. *)
Definition host_ok : Host :=
  {| tmux := fun _ _ => Closed 0 "" "";
     fs_error := fun _ _ => None;
     fs_size := fun _ _ => None;
     elapsed := fun _ => 5%N;
     uuidv4 := uuid;
     cwd := "/work";
     HOME := Some "/home/amp" |}.

(** A host whose tmux fails on the commands that satisfy [bad]. *)
Definition host_failing (bad : list string -> bool) : Host :=
  {| tmux := fun _ args =>
               if bad args then Closed 1 "" "can't find window"
               else Closed 0 "" "";
     fs_error := fun _ _ => None;
     fs_size := fun _ _ => None;
     elapsed := fun _ => 5%N;
     uuidv4 := uuid;
     cwd := "/work";
     HOME := Some "/home/amp" |}.

(** [send-keys ... key]: the command that types [key] alone. *)
Definition types (key : string) (args : list string) : bool :=
  match args with
  | [c; _; _; k] => String.eqb c "send-keys" && String.eqb k key
  | [c; _; _; k; _] => String.eqb c "send-keys" && String.eqb k key
  | _ => false
  end.

(** A host whose panes show [lines]. *)
Definition host_showing (lines : string) : Host :=
  {| tmux := fun _ args =>
               match args with
               | c :: _ => if String.eqb c "capture-pane"
                           then Closed 0 lines "" else Closed 0 "" ""
               | [] => Closed 0 "" ""
               end;
     fs_error := fun _ _ => None;
     fs_size := fun _ _ => None;
     elapsed := fun _ => 5%N;
     uuidv4 := uuid;
     cwd := "/work";
     HOME := Some "/home/amp" |}.

Definition id0 : string := Eval vm_compute in uuid 0.

(** [{ requireApproval: true, commandAllowlist: ['git status'],
       ampSettings: { 'amp.commands.allowlist': ['git status'] } }] *)
Definition strict : InstanceConfig.t :=
  InstanceConfig.mk (Some "strict") None None None None None (Some true) None
    None None
    (Some (AmpSettings.mk None None None None (Some ["git status"])))
    (Some ["git status"]).

(** [{ name: 'plain' }] *)
Definition plain : InstanceConfig.t :=
  InstanceConfig.mk (Some "plain") None None None None None None None None None
    None None.

(** A manager at time 0, its session initialized. *)
Definition manager (host : Host) : TmuxManager.t :=
  snd (TmuxManager.initialize host (TmuxManager.new host "amp-manager" 0)).

(** The manager after it created one instance and the timer of the
    authentication check ran. *)
Definition with_instance (host : Host) (config : InstanceConfig.t)
    : TmuxManager.t :=
  Supervisor.run Reference.runtime host
    [Supervisor.CreateInstance (Some config); Supervisor.AuthTimer id0]
    (manager host).

(** The instance [id0] of a manager. *)
Definition instance0 (w : TmuxManager.t) : option AmpInstance.t :=
  JsMap.get id0 (TmuxManager.instances w).

Definition fresh : AmpInstance.t :=
  AmpInstance.mk id0 "fresh" "amp-manager:fresh" Status.idle 0 0 0 None None []
    None None AuthStatus.unknown None (Stats.mk 0 0 0 0 None)
    InstanceConfig.empty [] 120 None.

(** The two managers, evaluated. *)
Definition plain_world : TmuxManager.t :=
  Eval vm_compute in with_instance host_ok plain.
Definition strict_world : TmuxManager.t :=
  Eval vm_compute in with_instance host_ok strict.
Definition plain_instance : AmpInstance.t :=
  Eval vm_compute in or_else (instance0 plain_world) fresh.
Definition strict_instance : AmpInstance.t :=
  Eval vm_compute in or_else (instance0 strict_world) fresh.

(** The manager with the plain instance, 130 s after its creation: the
    instance has shown no activity for longer than its threshold of
    120 s. *)
Definition idle_world : TmuxManager.t :=
  Eval vm_compute in
    snd (Supervisor.step Reference.runtime host_ok (Supervisor.Elapse 130000)
           plain_world).

Definition idle_instance : AmpInstance.t :=
  Eval vm_compute in or_else (instance0 idle_world) fresh.

(** What happens between two sweeps of the watchdog, 30 s apart. *)
Definition busy : list Supervisor.Op :=
  [Supervisor.OutputTick id0;
   Supervisor.SendPrompt id0 "ls";
   Supervisor.Elapse 25000].

(** The manager with the plain instance after its pane showed an error
    and the output monitor read it. *)
Definition failed_world : TmuxManager.t :=
  Eval vm_compute in
    snd (Supervisor.step Reference.runtime
           (host_showing "Error: connection reset") (Supervisor.OutputTick id0)
           plain_world).

Definition failed_instance : AmpInstance.t :=
  Eval vm_compute in or_else (instance0 failed_world) fresh.

(** The plain instance as objects, the registry that holds it, and what
    [listInstances] returns for it. *)
Definition heap0 : Heap.heap :=
  Eval vm_compute in snd (Heap.store plain_instance []).
Definition registered : Heap.loc :=
  Eval vm_compute in
    match fst (Heap.store plain_instance []) with
    | Normal l => l
    | Thrown _ => 0%nat
    end.
Definition registry : list (string * Heap.loc) := [(id0, registered)].
Definition heap1 : Heap.heap :=
  Eval vm_compute in snd (Heap.listInstances registry heap0).
Definition listed : Heap.loc :=
  Eval vm_compute in
    match fst (Heap.listInstances registry heap0) with
    | Normal [r] => r
    | _ => 0%nat
    end.

(** What [createInstance] returns for [plain]. *)
Definition plain_created : AmpInstance.t :=
  Eval vm_compute in
    match fst (TmuxManager.createInstance host_ok (Some plain) (manager host_ok)) with
    | Normal i => i
    | Thrown _ => fresh
    end.

(** A line of the log of the agent. *)
Definition thinking : string :=
  Reference.text
    "{'timestamp': '1970-01-01T00:00:05.000Z', 'level': 'info', 'message': 'processing request'}".

(** [{ name: 'greeter', initialPrompt: 'hello' }] *)
Definition greeting : InstanceConfig.t :=
  InstanceConfig.mk (Some "greeter") None (Some "hello") None None None None None
    None None None None.

(** An instance that was restarted and holds a command, the heap with
    it and with the record [listInstances] returns for it. *)
Definition held_instance : AmpInstance.t :=
  Eval vm_compute in
    AmpInstance.set_pendingCommand
      (Some (PendingCommand.mk "rm -rf /" true 4000))
      (AmpInstance.set_stats (Stats.mk 1 0 0 1 (Some 3000)) strict_instance).
Definition heap2 : Heap.heap :=
  Eval vm_compute in snd (Heap.store held_instance []).
Definition held : Heap.loc :=
  Eval vm_compute in
    match fst (Heap.store held_instance []) with
    | Normal l => l
    | Thrown _ => 0%nat
    end.
Definition holding : list (string * Heap.loc) := [(id0, held)].
Definition heap3 : Heap.heap :=
  Eval vm_compute in snd (Heap.listInstances holding heap2).
Definition listed_held : Heap.loc :=
  Eval vm_compute in
    match fst (Heap.listInstances holding heap2) with
    | Normal [r] => r
    | _ => 0%nat
    end.

End Scenario.

(** ** The vocabulary of the properties *)

(** [steps R m]: the manager after the method [m] is related by [R] to
    the manager before, whether [m] returns or throws. *)
Definition steps {A} (R : relation TmuxManager.t) (m : M TmuxManager.t A) : Prop :=
  forall w, R w (snd (m w)).

(** A part of the manager stays as it is. *)
Definition same {X} (proj : TmuxManager.t -> X) : relation TmuxManager.t :=
  fun w w' => proj w' = proj w.

Abbreviation keeps proj := (steps (same proj)).

(** The clock does not go back. *)
Definition later : relation TmuxManager.t :=
  fun w w' => TmuxManager.clock w <= TmuxManager.clock w'.

(** A restart resets the instance, at a time not before the restart
    began, or throws and leaves the instances as they were. *)
Definition restarted_or_thrown (instanceId : string) (w : TmuxManager.t)
    (r : Completion unit * TmuxManager.t) : Prop :=
  (exists t, TmuxManager.clock w <= t /\
             TmuxManager.instances (snd r)
             = JsMap.update instanceId (TmuxManager.reset t) (TmuxManager.instances w))
  \/ ((exists e, fst r = Thrown e) /\
      TmuxManager.instances (snd r) = TmuxManager.instances w).

(** A host on which every tmux command exits with code 0 and every file
    operation succeeds. *)
Definition accepting (host : Host) : Prop :=
  (forall n args, exists out err, tmux host n args = Closed 0 out err)
  /\ (forall n c, fs_error host n c = None).

(** The method returns, it does not throw. *)
Definition returns {A} (m : M TmuxManager.t A) : Prop :=
  forall w, exists a, fst (m w) = Normal a.

(** A property of the manager is kept. *)
Definition preserves (I : TmuxManager.t -> Prop) : relation TmuxManager.t :=
  fun w w' => I w -> I w'.

(** Every registered instance has the property. *)
Definition all_instances (P : AmpInstance.t -> Prop) (w : TmuxManager.t) : Prop :=
  forall id i, JsMap.get id (TmuxManager.instances w) = Some i -> P i.

(** The two fields of the approval gate. *)
Definition pending_iff_waiting (i : AmpInstance.t) : Prop :=
  AmpInstance.pendingCommand i <> None
  <-> AmpInstance.status i = Status.waiting_approval.

Definition waiting_has_pending (i : AmpInstance.t) : Prop :=
  AmpInstance.status i = Status.waiting_approval ->
  AmpInstance.pendingCommand i <> None.

(** A command is pending only where the configuration asks for approval. *)
Definition pending_needs_approval (i : AmpInstance.t) : Prop :=
  AmpInstance.pendingCommand i <> None -> TmuxManager.requiresApproval i = true.

Definition gate_consistent (i : AmpInstance.t) : Prop :=
  pending_iff_waiting i /\ pending_needs_approval i.

(** The operations of the supervisor on the approval gate, and the
    updates that come from the log monitor. *)
Definition is_operation (op : Supervisor.Op) : bool :=
  match op with
  | Supervisor.SendPrompt _ _ | Supervisor.ApproveCommand _
  | Supervisor.CancelCommand _ | Supervisor.RestartInstance _ _ => true
  | _ => false
  end.

Definition is_log_update (op : Supervisor.Op) : bool :=
  match op with
  | Supervisor.LogRefresh _ _ | Supervisor.LogPoll _ _ _ => true
  | _ => false
  end.

(** What [parseLogContent] does with one line, and the lines
    [JSON.parse] accepts. *)
Definition line_step (rt : Runtime) (now : Date) (line : string)
    : M AmpLogMonitor.t unit :=
  try_catch (AmpLogMonitor.parseLine rt now line) (fun _ => ret tt).

Definition parses (rt : Runtime) (line : string) : bool :=
  match JSON_parse rt line with Some _ => true | None => false end.

(** Whatever the method returns is [x]. *)
Definition ends_with {A} (x : A) (m : M TmuxManager.t A) : Prop :=
  forall w a, fst (m w) = Normal a -> a = x.

(** Whatever the method returns satisfies [Q]. *)
Definition ensures {A} (Q : A -> Prop) (m : M TmuxManager.t A) : Prop :=
  forall w a, fst (m w) = Normal a -> Q a.

(** The inactivity check of an instance is throttled from [b] on: the
    clock has reached [b] and the last check of the instance is not before
    [b]. *)
Definition throttled (b : Date) (id : string) (w : TmuxManager.t) : Prop :=
  b <= TmuxManager.clock w
  /\ forall i, JsMap.get id (TmuxManager.instances w) = Some i ->
               b <= AmpInstance.lastInactivityCheck i.

(** The check of an instance without its inactivity part, and a sweep
    of the watchdog in which the inactivity check of [id] is left out. *)
Definition errorScanOnly (host : Host) (id : string) : M TmuxManager.t unit :=
  try_catch (TmuxManager.checkForErrorPatterns host id) (fun _ => ret tt).

Definition checkInstanceHealth_without (host : Host) (id : string)
    : M TmuxManager.t unit :=
  t0 <- TmuxManager.now ;;
  w <- get ;;
  for_each (JsMap.keys (TmuxManager.instances w))
    (fun k => if String.eqb k id then errorScanOnly host id
              else TmuxManager.checkInstance host t0 k).

(** Only the instance registered under [k] is written. *)
Definition only (k : string) : relation TmuxManager.t :=
  fun w w' => forall id, id <> k ->
    JsMap.get id (TmuxManager.instances w') = JsMap.get id (TmuxManager.instances w).

(** The events a method emitted: those of the manager after it that the
    manager before it did not have. *)
Definition new_events (w w' : TmuxManager.t) : list AgentEvent.t :=
  skipn (length (TmuxManager.events w)) (TmuxManager.events w').

Definition is_restart (e : AgentEvent.t) : bool :=
  bool_decide (AgentEvent.type e = AgentEvent.restart_triggered).

(** The number of restarts among events: every restart begins with a
    [restart_triggered] event. *)
Definition restarts (evs : list AgentEvent.t) : nat :=
  length (List.filter is_restart evs).

(** The events of [w'] are those of [w] and then events that satisfy
    [P]. *)
Definition emits (P : AgentEvent.t -> Prop) : relation TmuxManager.t :=
  fun w w' => exists new, TmuxManager.events w' = (TmuxManager.events w ++ new)%list
                          /\ Forall P new.

(** The window of the output that is scanned, and the event of a match. *)
Definition recentOutput (i : AmpInstance.t) : string :=
  Js.join " " (Js.slice_last 10 (AmpInstance.output i)).

Definition error_detected (id pattern recent : string) (t : Date) : AgentEvent.t :=
  AgentEvent.mk id t AgentEvent.error_detected
    [("pattern", VString pattern); ("output", VString (Js.slice0 200 recent))]
    Severity.error.

(** The restarts of one instance among events. *)
Definition restarts_of (id : string) (evs : list AgentEvent.t) : nat :=
  restarts
    (List.filter (fun e => bool_decide (AgentEvent.instanceId e = id)) evs).

(** Every object of [h] is in [h'], where it was. *)
Definition extends (h h' : Heap.heap) : Prop :=
  forall (l : Heap.loc) o, h !! l = Some o -> h' !! l = Some o.

(** [r] is a record made after the heap had [n] objects, and so are its
    [stats] and its [pendingCommand]. *)
Definition fresh_record (n : nat) (h : Heap.heap) (r : Heap.loc) : Prop :=
  (n <= r)%nat
  /\ exists i, h !! r = Some (Heap.OInstance i)
               /\ (n <= Heap.stats i)%nat
               /\ forall p, Heap.pendingCommand i = Some p -> (n <= p)%nat.

(** The [stats] at [l'] are other [stats] than those at [l] and hold the
    date of the last restart that those hold. *)
Definition shares_restart (h : Heap.heap) (l l' : Heap.loc) : Prop :=
  l' <> l
  /\ exists s s', h !! l = Some (Heap.OStats s)
                  /\ h !! l' = Some (Heap.OStats s')
                  /\ Heap.lastRestart s' = Heap.lastRestart s.

(** The pending command at [p'] is another one than that at [p] and
    holds the date that it holds; or there is none at either. *)
Definition shares_timestamp (h : Heap.heap) (p p' : option Heap.loc) : Prop :=
  match p, p' with
  | Some l, Some l' =>
      l' <> l
      /\ exists c c', h !! l = Some (Heap.OPending c)
                      /\ h !! l' = Some (Heap.OPending c')
                      /\ Heap.timestamp c' = Heap.timestamp c
  | None, None => True
  | _, _ => False
  end.

(** The record [i'] holds the objects that [i] holds: the same
    configuration, arrays, settings and dates, not copies of them; the
    dates include the two that its [stats] and its [pendingCommand]
    hold. *)
Definition shares (h : Heap.heap) (i i' : Heap.InstanceObj) : Prop :=
  Heap.config i' = Heap.config i
  /\ Heap.output i' = Heap.output i
  /\ Heap.errorPatterns i' = Heap.errorPatterns i
  /\ Heap.ampSettings i' = Heap.ampSettings i
  /\ Heap.createdAt i' = Heap.createdAt i
  /\ Heap.lastActivity i' = Heap.lastActivity i
  /\ Heap.lastInactivityCheck i' = Heap.lastInactivityCheck i
  /\ shares_restart h (Heap.stats i) (Heap.stats i')
  /\ shares_timestamp h (Heap.pendingCommand i) (Heap.pendingCommand i').

(** A specification of a method: from a state that satisfies [P] the
    method returns [a] in a state that satisfies [Q a], or throws [e] in a
    state that satisfies [E e]. *)
Definition triple {S A} (P : S -> Prop) (m : M S A) (Q : A -> S -> Prop)
    (E : JsError -> S -> Prop) : Prop :=
  forall s, P s ->
    match m s with
    | (Normal a, s') => Q a s'
    | (Thrown e, s') => E e s'
    end.

(** The method does not throw. *)
Definition never {S} (_ : JsError) (_ : S) : Prop := False.

(** The tmux calls that type the lines of a prompt into a pane: the
    line, then a continuation after every line but the last and [Enter]
    after the last. *)
Fixpoint keystrokes (target : string) (lines : list string) : list SysCall :=
  match lines with
  | [] => []
  | [line] =>
      [Tmux ["send-keys"; "-t"; target; line];
       Tmux ["send-keys"; "-t"; target; "Enter"]]
  | line :: rest =>
      Tmux ["send-keys"; "-t"; target; line]
      :: Tmux ["send-keys"; "-t"; target; " \"; "Enter"]
      :: keystrokes target rest
  end.

(** The keys of the registry, in the order of their insertion. *)
Definition roster (w : TmuxManager.t) : list string :=
  JsMap.keys (TmuxManager.instances w).

(** The watchdog finds nothing to do for an instance at [t0]: its
    inactivity check is not due and its output shows no error pattern. *)
Definition healthy (t0 : Date) (i : AmpInstance.t) : Prop :=
  TmuxManager.inactivityDue t0 i = false
  /\ (AmpInstance.output i = []
      \/ List.find (Js.includes (recentOutput i)) (AmpInstance.errorPatterns i) = None).

(** A tmux command that exited with code 0. *)
Definition accepted (x : TmuxExit) : bool :=
  match x with
  | Closed code _ _ => code =? 0
  | SpawnError _ => false
  end.

(** The registry keeps every instance under its own id. *)
Definition well_keyed (m : list (string * AmpInstance.t)) : Prop :=
  forall k i, In (k, i) m -> AmpInstance.id i = k.

(** Auto-restart as the watchdog reads it: [autoRestart !== false]. *)
Definition autoRestarts (i : AmpInstance.t) : bool :=
  negb (bool_decide (InstanceConfig.autoRestart (AmpInstance.config i) = Some false)).

(** The manager made the calls of [w] and then more. *)
Definition more_calls : relation TmuxManager.t :=
  fun w w' => exists rest, TmuxManager.calls w' = (TmuxManager.calls w ++ rest)%list.

(** Every character of a string satisfies [p]. *)
Fixpoint every (p : ascii -> bool) (s : string) : bool :=
  match s with
  | EmptyString => true
  | String c r => p c && every p r
  end.

(** The rules of [processLogEntry] on the state [s] for an entry with the
    message [message], each applied to what the rule before it left.  The
    rules end with the nested status when that cannot be converted. *)
Definition classify (message : string) (entry : Json) (s : AmpState.t)
    : Completion unit * AmpState.t :=
  match AmpLogMonitor.nestedStatus entry
          (AmpLogMonitor.promptMention message
             (AmpLogMonitor.directMention message
                (AmpLogMonitor.stateTransition message s))) with
  | (Normal _, s1) =>
      (Normal tt,
       AmpLogMonitor.completion message
         (AmpLogMonitor.userMessage message
            (AmpLogMonitor.workerState message entry s1)))
  | (Thrown e, s1) => (Thrown e, s1)
  end.

(** What [processLogEntry] hands to [emit] for a state [old] that became
    [new]. *)
Definition announced (now : Date) (old new : AmpState.t) (entry : Json)
    : list AmpLogMonitor.Emitted :=
  ((if AmpLogMonitor.hasStateChanged old new
    then [AmpLogMonitor.state_changed old new entry] else [])
   ++ (if negb (Bool.eqb (AmpLogMonitor.wasRunning new now)
                         (AmpLogMonitor.wasRunning old now))
       then [if AmpLogMonitor.wasRunning new now
             then AmpLogMonitor.amp_started else AmpLogMonitor.amp_idle]
       else []))%list.

(** Every capture is a part of [s0]. *)
Definition within (s0 : string) (caps : RegExp.Captures) : Prop :=
  Forall (fun c => Js.includes s0 (snd c) = true) caps.

(** The monitor [m'] is [m] but for its state and for what it emitted
    since. *)
Definition polled (m m' : AmpLogMonitor.t) : Prop :=
  AmpLogMonitor.logFile m' = AmpLogMonitor.logFile m
  /\ AmpLogMonitor.isMonitoring m' = AmpLogMonitor.isMonitoring m
  /\ AmpLogMonitor.lastLogPosition m' = AmpLogMonitor.lastLogPosition m
  /\ AmpLogMonitor.monitorInterval m' = AmpLogMonitor.monitorInterval m
  /\ exists events,
       AmpLogMonitor.emitted m' = (AmpLogMonitor.emitted m ++ events)%list.

(** The characters [formatPromptForNonInteractive] escapes. *)
Definition special (c : ascii) : bool :=
  Ascii.eqb c RegExp.dquote || Ascii.eqb c "`" || Ascii.eqb c "$".

(** How often a character of a class is in a string. *)
Fixpoint occurrences (p : ascii -> bool) (s : string) : nat :=
  match s with
  | EmptyString => O
  | String c r => ((if p c then 1 else 0) + occurrences p r)%nat
  end.

(** The requests the control socket answers without doing anything and
    without reading the payload. *)
Definition unimplemented (kind : ControlSocket.Kind) : bool :=
  match kind with
  | ControlSocket.fork_thread | ControlSocket.update_settings => true
  | _ => false
  end.

(** The requests that read a property of [message.payload] before they
    do anything else. *)
Definition reads_payload (kind : ControlSocket.Kind) : bool :=
  match kind with
  | ControlSocket.destroy_instance | ControlSocket.send_prompt
  | ControlSocket.approve_command | ControlSocket.cancel_command
  | ControlSocket.restart_instance | ControlSocket.create_thread
  | ControlSocket.switch_thread | ControlSocket.list_threads
  | ControlSocket.get_tools | ControlSocket.set_global_auto_restart
  | ControlSocket.get_agent_stream => true
  | _ => false
  end.

(** [message.payload] is [undefined] or [null]. *)
Definition without_payload (message : Json) : Prop :=
  JsonOps.prop "payload" message = None
  \/ JsonOps.prop "payload" message = Some JNull.

(** A step of a request that sends nothing. *)
Definition sends_nothing {A} (m : M ControlSocket.t A) : Prop :=
  forall s, ControlSocket.sent (snd (m s)) = ControlSocket.sent s.

(* ================================================================== *)
(** * Properties *)
(* ================================================================== *)

(** ** The string helpers on examples *)

Example toLowerCase_ex : Js.toLowerCase "Git STATUS -s" = "git status -s".
Proof. reflexivity. Qed.

Example includes_ex :
  Js.includes "please run git status now" "git status" = true /\
  Js.includes "rm -rf /" "git status" = false /\
  Js.includes "" "" = true.
Proof. repeat split; reflexivity. Qed.

Example split_ex :
  Js.split Js.newline (String "a" (String Js.newline "b")) = ["a"; "b"] /\
  Js.split Js.newline "" = [""].
Proof. split; reflexivity. Qed.

Example trim_ex : Js.trim "  ls -la  " = "ls -la".
Proof. reflexivity. Qed.

Example slice_last_ex :
  Js.slice_last 2 [1; 2; 3] = [2; 3] /\ Js.slice_last 10 [1; 2; 3] = [1; 2; 3].
Proof. split; reflexivity. Qed.

Example ofZ_ex : Js.ofZ 125 = "125" /\ Js.ofZ 0 = "0" /\ Js.ofZ (-7) = "-7".
Proof. repeat split; reflexivity. Qed.

Example stateTransition_ex :
  RegExp.exec RegExp.stateTransition
    "state: awaiting-user-message + submit -> awaiting-agent now"
  = Some [(2%nat, "awaiting-agent"); (1%nat, "awaiting-user-message")].
Proof. vm_compute. reflexivity. Qed.

Example stringify_ex :
  RegExp.exec RegExp.inferenceState
    (JsonOps.stringify
       (JObject [("message", JString "worker-state");
                 ("data", JObject [("inferenceState", JString "running")])]))
  = Some [(1%nat, "running")].
Proof. vm_compute. reflexivity. Qed.

Example JSON_parse_ex :
  Reference.JSON_parse
    (Reference.text
       "{ 'level': 'info', 'n': [1, -2.5e3, true, null], 'message': 'a\nb' }")
  = Some (JObject [("level", JString "info");
                   ("n", JArray [JNumber "1"; JNumber "-2.5e3"; JBool true; JNull]);
                   ("message", JString (String "a" (String Js.newline "b")))])
  /\ Reference.JSON_parse "invalid json {" = None
  /\ Reference.JSON_parse (Reference.text "{'a': 1} trailing") = None
  /\ Reference.JSON_parse "42" = Some (JNumber "42").
Proof. vm_compute. repeat split; reflexivity. Qed.

Example iso_ex :
  Reference.iso "1970-01-01T00:00:00.000Z" = Some 0
  /\ Reference.iso "2024-03-01T12:30:15.250Z" = Some 1709296215250
  /\ Reference.iso "yesterday" = None.
Proof. vm_compute. repeat split; reflexivity. Qed.

(** ** The map of instances *)

Lemma get_set_eq {V} (k : string) (v : V) m : JsMap.get k (JsMap.set k v m) = Some v.
Proof.
  induction m as [|[k' v'] m IH]; simpl.
  - now rewrite String.eqb_refl.
  - destruct (String.eqb k' k) eqn:E; simpl; rewrite E; auto.
Qed.

Lemma get_set_ne {V} (k k0 : string) (v : V) m :
  k <> k0 -> JsMap.get k0 (JsMap.set k v m) = JsMap.get k0 m.
Proof.
  intros Hne. induction m as [|[k' v'] m IH]; simpl.
  - destruct (String.eqb k k0) eqn:E; auto.
    apply String.eqb_eq in E. contradiction.
  - destruct (String.eqb k' k) eqn:E; simpl.
    + apply String.eqb_eq in E. subst k'.
      destruct (String.eqb k k0) eqn:E0; auto.
      apply String.eqb_eq in E0. contradiction.
    + destruct (String.eqb k' k0); auto.
Qed.

Lemma get_update_eq {V} (k : string) (f : V -> V) m :
  JsMap.get k (JsMap.update k f m) = option_map f (JsMap.get k m).
Proof.
  unfold JsMap.update. destruct (JsMap.get k m) eqn:E; simpl.
  - apply get_set_eq.
  - exact E.
Qed.

Lemma get_update_ne {V} (k k0 : string) (f : V -> V) m :
  k <> k0 -> JsMap.get k0 (JsMap.update k f m) = JsMap.get k0 m.
Proof.
  intros Hne. unfold JsMap.update. destruct (JsMap.get k m); auto.
  now apply get_set_ne.
Qed.

Lemma get_update {V} (k k0 : string) (f : V -> V) m :
  JsMap.get k0 (JsMap.update k f m)
  = if String.eqb k k0 then option_map f (JsMap.get k0 m) else JsMap.get k0 m.
Proof.
  destruct (String.eqb k k0) eqn:E.
  - apply String.eqb_eq in E. subst. apply get_update_eq.
  - apply String.eqb_neq in E. now apply get_update_ne.
Qed.

Lemma get_delete_ne {V} (k k0 : string) (m : list (string * V)) :
  k <> k0 -> JsMap.get k0 (JsMap.delete k m) = JsMap.get k0 m.
Proof.
  intros Hne. induction m as [|[k' v'] m IH]; simpl; auto.
  destruct (String.eqb k' k) eqn:E; simpl.
  - apply String.eqb_eq in E. subst k'.
    destruct (String.eqb k k0) eqn:E0; auto.
    apply String.eqb_eq in E0. contradiction.
  - destruct (String.eqb k' k0); auto.
Qed.

Lemma get_delete_eq {V} (k : string) (m : list (string * V)) :
  JsMap.get k (JsMap.delete k m) = None.
Proof.
  induction m as [|[k' v'] m IH]; simpl; auto.
  destruct (String.eqb k' k) eqn:E; simpl; auto. now rewrite E.
Qed.

Lemma get_keys {V} (k : string) (m : list (string * V)) v :
  JsMap.get k m = Some v -> In k (JsMap.keys m).
Proof.
  induction m as [|[k' v'] m IH]; simpl; [discriminate|].
  destruct (String.eqb k' k) eqn:E.
  - apply String.eqb_eq in E. auto.
  - auto.
Qed.

Lemma set_set {V} (k : string) (a b : V) m :
  JsMap.set k a (JsMap.set k b m) = JsMap.set k a m.
Proof.
  induction m as [|[k' v'] m IH]; simpl.
  - now rewrite String.eqb_refl.
  - destruct (String.eqb k' k) eqn:E; simpl; rewrite E; [reflexivity|].
    now rewrite IH.
Qed.

Lemma set_same {V} (k : string) (v : V) m :
  JsMap.get k m = Some v -> JsMap.set k v m = m.
Proof.
  induction m as [|[k' v'] m IH]; simpl; [discriminate|].
  destruct (String.eqb k' k) eqn:E.
  - intros [= ->]. reflexivity.
  - intros H. now rewrite IH.
Qed.

Lemma update_update {V} (k : string) (f g : V -> V) m :
  JsMap.update k g (JsMap.update k f m) = JsMap.update k (fun v => g (f v)) m.
Proof.
  destruct (JsMap.get k m) as [v|] eqn:E.
  - assert (H : JsMap.update k f m = JsMap.set k (f v) m)
      by (unfold JsMap.update; now rewrite E).
    rewrite H. unfold JsMap.update. rewrite get_set_eq, E. apply set_set.
  - assert (H : JsMap.update k f m = m) by (unfold JsMap.update; now rewrite E).
    rewrite H. unfold JsMap.update. now rewrite E.
Qed.

(** ** Relating the manager before and after a method

    [steps R m]: the manager after the method [m] is related by [R] to
    the manager before, whether [m] returns or throws.  For a reflexive and
    transitive [R] this follows the control structure of [m]. *)

Section Steps.

Context (R : relation TmuxManager.t) `{!PreOrder R}.

Lemma steps_ret {A} (a : A) : steps R (ret a).
Proof. intros w. simpl. reflexivity. Qed.

Lemma steps_throw {A} e : steps R (@throw _ A e).
Proof. intros w. simpl. reflexivity. Qed.

Lemma steps_bind {A B} (m : M TmuxManager.t A) (k : A -> M TmuxManager.t B) :
  steps R m -> (forall a, steps R (k a)) -> steps R (bind m k).
Proof.
  intros Hm Hk w. unfold bind. specialize (Hm w).
  destruct (m w) as [[a|e] w']; simpl in *.
  - etransitivity; [exact Hm|apply Hk].
  - exact Hm.
Qed.

Lemma steps_try_catch {A} (m : M TmuxManager.t A) (h : JsError -> M TmuxManager.t A) :
  steps R m -> (forall e, steps R (h e)) -> steps R (try_catch m h).
Proof.
  intros Hm Hh w. unfold try_catch. specialize (Hm w).
  destruct (m w) as [[a|e] w']; simpl in *.
  - exact Hm.
  - etransitivity; [exact Hm|apply Hh].
Qed.

Lemma steps_for_each {A} (l : list A) (body : A -> M TmuxManager.t unit) :
  (forall a, steps R (body a)) -> steps R (for_each l body).
Proof.
  intros Hb. induction l as [|a l IH]; simpl.
  - apply steps_ret.
  - apply steps_bind; auto.
Qed.

Lemma steps_modify f : (forall w, R w (f w)) -> steps R (modify f).
Proof. intros H w. apply H. Qed.

Lemma steps_pure {A} (f : TmuxManager.t -> A) :
  steps R (fun w => (Normal (f w), w)).
Proof. intros w. simpl. reflexivity. Qed.

End Steps.

(** The manager after a method that is followed by steps in [R]. *)
Lemma steps_after {A B} (R : relation TmuxManager.t) `{!PreOrder R}
    (m : M TmuxManager.t A) (k : A -> M TmuxManager.t B) w :
  (forall a, steps R (k a)) -> R (snd (m w)) (snd (bind m k w)).
Proof.
  intros Hk. unfold bind. destruct (m w) as [[a|e] w']; simpl.
  - apply Hk.
  - reflexivity.
Qed.

Create HintDb steps.

(** Splits a method along its control structure; [leaf] closes what is
    left. *)
Ltac steps_with leaf :=
  repeat match goal with
  | |- steps _ (bind _ _) => apply steps_bind; [typeclasses eauto| |intros]
  | |- steps _ (try_catch _ _) => apply steps_try_catch; [typeclasses eauto| |intros]
  | |- steps _ (for_each _ _) => apply steps_for_each; [typeclasses eauto|intros]
  | |- steps _ (ret _) => apply steps_ret; typeclasses eauto
  | |- steps _ (throw _) => apply steps_throw; typeclasses eauto
  | |- steps _ (match ?x with _ => _ end) => destruct x
  | |- steps _ _ => solve [auto with steps | intros ?; leaf]
  end.

(** *** A part of the manager that stays as it is *)

#[export] Instance same_preorder {X} (proj : TmuxManager.t -> X) : PreOrder (same proj).
Proof.
  split.
  - intros w. reflexivity.
  - intros a b c Hab Hbc. unfold same in *. congruence.
Qed.

Ltac keeps_tac := steps_with ltac:(reflexivity).

(** *** The clock does not go back *)

#[export] Instance later_preorder : PreOrder later.
Proof.
  split.
  - intros w. unfold later. lia.
  - intros a b c Hab Hbc. unfold later in *. lia.
Qed.

Ltac later_tac := steps_with ltac:(unfold later; simpl; lia).

Section Frames.

Variable host : Host.
Context {X : Type} (proj : TmuxManager.t -> X).

(** The parts a host call and a delay do not write. *)
Hypothesis proj_calls : forall v w, proj (TmuxManager.set_calls v w) = proj w.
Hypothesis proj_clock : forall v w, proj (TmuxManager.set_clock v w) = proj w.

Lemma keeps_call c : keeps proj (TmuxManager.call host c).
Proof.
  intros w. unfold same, TmuxManager.call. simpl.
  now rewrite proj_clock, proj_calls.
Qed.

Lemma keeps_sleep ms : keeps proj (TmuxManager.sleep ms).
Proof.
  intros w. unfold same, TmuxManager.sleep, modify. simpl. now rewrite proj_clock.
Qed.

Hint Resolve keeps_call keeps_sleep : steps.

Lemma keeps_runTmuxCommand args : keeps proj (TmuxManager.runTmuxCommand host args).
Proof. unfold TmuxManager.runTmuxCommand. keeps_tac. Qed.

Lemma keeps_fs_mkdir path : keeps proj (TmuxManager.fs_mkdir host path).
Proof. unfold TmuxManager.fs_mkdir. keeps_tac. Qed.

Lemma keeps_fs_writeFile path s : keeps proj (TmuxManager.fs_writeFile host path s).
Proof. unfold TmuxManager.fs_writeFile. keeps_tac. Qed.

Hint Resolve keeps_runTmuxCommand keeps_fs_mkdir keeps_fs_writeFile : steps.

Lemma keeps_send_keys i ks : keeps proj (TmuxManager.send_keys host i ks).
Proof. unfold TmuxManager.send_keys. keeps_tac. Qed.

Hint Resolve keeps_send_keys : steps.

Lemma keeps_setupInstanceEnvironment i :
  keeps proj (TmuxManager.setupInstanceEnvironment host i).
Proof. unfold TmuxManager.setupInstanceEnvironment. keeps_tac. Qed.

Lemma keeps_startAmpCLI i : keeps proj (TmuxManager.startAmpCLI host i).
Proof. unfold TmuxManager.startAmpCLI. keeps_tac. Qed.

Lemma sendLines_cons i l l' r :
  TmuxManager.sendLines host i (l :: l' :: r)
  = (TmuxManager.send_keys host i [l] ;;;
     TmuxManager.send_keys host i [" \"; "Enter"] ;;;
     TmuxManager.sleep 100 ;;;
     TmuxManager.sendLines host i (l' :: r)).
Proof. reflexivity. Qed.

Lemma keeps_sendLines i lines : keeps proj (TmuxManager.sendLines host i lines).
Proof.
  induction lines as [|l r IH]; [simpl; keeps_tac|].
  destruct r as [|l' r]; [simpl; keeps_tac|].
  rewrite sendLines_cons. keeps_tac.
Qed.

End Frames.

#[export] Hint Resolve keeps_call keeps_sleep keeps_runTmuxCommand keeps_fs_mkdir
  keeps_fs_writeFile keeps_send_keys keeps_setupInstanceEnvironment
  keeps_startAmpCLI keeps_sendLines : steps.

(** ** The approval gate *)

Section Approval.

Variable host : Host.

(** What a method does to the map of instances when all that follows a
    write leaves the map alone. *)
Lemma instances_bind_keeps {A B} (m : M TmuxManager.t A)
    (k : A -> M TmuxManager.t B) w :
  (forall a, keeps TmuxManager.instances (k a)) ->
  TmuxManager.instances (snd (bind m k w)) = TmuxManager.instances (snd (m w)).
Proof. intros Hk. apply (steps_after (same TmuxManager.instances)); auto. Qed.

(** The prompt that runs: the instance is marked running and the lines
    are typed; whatever the host answers, the map holds the marked
    instance. *)
Lemma executePrompt_instances instanceId prompt w :
  TmuxManager.instances (snd (TmuxManager.executePrompt host instanceId prompt w))
  = JsMap.update instanceId
      (fun i => if negb (TmuxManager.isAllowed i prompt)
                   && TmuxManager.requiresApproval i
                then TmuxManager.hold prompt (TmuxManager.clock w) i
                else TmuxManager.run prompt (TmuxManager.clock w) i)
      (TmuxManager.instances w).
Proof.
  unfold TmuxManager.executePrompt, bind at 1, TmuxManager.lookup. simpl.
  destruct (JsMap.get instanceId (TmuxManager.instances w)) as [i|] eqn:E.
  - destruct (negb (TmuxManager.isAllowed i prompt)
              && TmuxManager.requiresApproval i) eqn:C.
    + simpl. unfold JsMap.update. now rewrite E, C.
    + unfold bind at 1, TmuxManager.now. simpl.
      rewrite instances_bind_keeps by (intros; keeps_tac).
      simpl. unfold JsMap.update. now rewrite E, C.
  - simpl. unfold JsMap.update. now rewrite E.
Qed.

Lemma sendPrompt_instances instanceId prompt w :
  TmuxManager.instances (snd (TmuxManager.sendPrompt host instanceId prompt w))
  = JsMap.update instanceId
      (fun i => if TmuxManager.requiresApproval i
                then TmuxManager.hold prompt (TmuxManager.clock w) i
                else TmuxManager.run prompt (TmuxManager.clock w) i)
      (TmuxManager.instances w).
Proof.
  unfold TmuxManager.sendPrompt, bind at 1, TmuxManager.lookup. simpl.
  destruct (JsMap.get instanceId (TmuxManager.instances w)) as [i|] eqn:E.
  - destruct (TmuxManager.requiresApproval i) eqn:C.
    + simpl. unfold JsMap.update. now rewrite E, C.
    + rewrite executePrompt_instances. unfold JsMap.update.
      now rewrite E, C, andb_false_r.
  - simpl. unfold JsMap.update. now rewrite E.
Qed.

Lemma approveCommand_instances instanceId w :
  TmuxManager.instances (snd (TmuxManager.approveCommand host instanceId w))
  = JsMap.update instanceId
      (fun i => match AmpInstance.pendingCommand i with
                | Some pending =>
                    let prompt := PendingCommand.command pending in
                    let i' := AmpInstance.set_pendingCommand None i in
                    if negb (TmuxManager.isAllowed i' prompt)
                       && TmuxManager.requiresApproval i'
                    then TmuxManager.hold prompt (TmuxManager.clock w) i'
                    else TmuxManager.run prompt (TmuxManager.clock w) i'
                | None => i
                end)
      (TmuxManager.instances w).
Proof.
  unfold TmuxManager.approveCommand, bind at 1, TmuxManager.lookup. simpl.
  destruct (JsMap.get instanceId (TmuxManager.instances w)) as [i|] eqn:E.
  - destruct (AmpInstance.pendingCommand i) as [pending|] eqn:P.
    + unfold bind, TmuxManager.mutate, modify. simpl.
      rewrite executePrompt_instances. simpl.
      rewrite update_update. unfold JsMap.update. now rewrite E, P.
    + simpl. unfold JsMap.update. rewrite E, P. symmetry. now apply set_same.
  - simpl. unfold JsMap.update. now rewrite E.
Qed.

End Approval.

(** ** Host calls and the methods around them *)

Ltac clock_leaf :=
  unfold later, TmuxManager.sleep, TmuxManager.call, TmuxManager.emitEvent,
    TmuxManager.mutate, TmuxManager.now, TmuxManager.lookup,
    TmuxManager.stopOutputMonitoring, TmuxManager.stopLogMonitoring, modify, get;
  simpl; lia.
Ltac clock_tac := steps_with clock_leaf.

Section Calls.

Variable host : Host.

Lemma later_runTmuxCommand args : steps later (TmuxManager.runTmuxCommand host args).
Proof. unfold TmuxManager.runTmuxCommand. clock_tac. Qed.

Lemma later_fs_writeFile path s : steps later (TmuxManager.fs_writeFile host path s).
Proof. unfold TmuxManager.fs_writeFile. clock_tac. Qed.

Lemma later_fs_mkdir path : steps later (TmuxManager.fs_mkdir host path).
Proof. unfold TmuxManager.fs_mkdir. clock_tac. Qed.

Hint Resolve later_runTmuxCommand later_fs_writeFile later_fs_mkdir : steps.

Lemma later_send_keys i ks : steps later (TmuxManager.send_keys host i ks).
Proof. unfold TmuxManager.send_keys. clock_tac. Qed.

Hint Resolve later_send_keys : steps.

Lemma later_setupInstanceEnvironment i :
  steps later (TmuxManager.setupInstanceEnvironment host i).
Proof. unfold TmuxManager.setupInstanceEnvironment. clock_tac. Qed.

Lemma later_startAmpCLI i : steps later (TmuxManager.startAmpCLI host i).
Proof. unfold TmuxManager.startAmpCLI. clock_tac. Qed.

Lemma later_sendLines i lines : steps later (TmuxManager.sendLines host i lines).
Proof.
  induction lines as [|l r IH]; [simpl; clock_tac|].
  destruct r as [|l' r]; [simpl; clock_tac|].
  rewrite sendLines_cons. clock_tac.
Qed.

Lemma later_getInstanceOutput id : steps later (TmuxManager.getInstanceOutput host id).
Proof. unfold TmuxManager.getInstanceOutput. clock_tac. Qed.

Lemma later_startLogMonitoring id : steps later (TmuxManager.startLogMonitoring host id).
Proof. unfold TmuxManager.startLogMonitoring. clock_tac. Qed.

Lemma later_startOutputMonitoring id : steps later (TmuxManager.startOutputMonitoring id).
Proof. unfold TmuxManager.startOutputMonitoring. clock_tac. Qed.

Lemma keeps_instances_getInstanceOutput id :
  keeps TmuxManager.instances (TmuxManager.getInstanceOutput host id).
Proof. unfold TmuxManager.getInstanceOutput. keeps_tac. Qed.

Lemma keeps_instances_startLogMonitoring id :
  keeps TmuxManager.instances (TmuxManager.startLogMonitoring host id).
Proof. unfold TmuxManager.startLogMonitoring. keeps_tac. Qed.

Lemma keeps_instances_startOutputMonitoring id :
  keeps TmuxManager.instances (TmuxManager.startOutputMonitoring id).
Proof. unfold TmuxManager.startOutputMonitoring. keeps_tac. Qed.

(** One step of a sequence whose first method leaves the instances
    alone: what holds of the rest, and of a throw, holds of the whole. *)
Lemma peel {A B} (m : M TmuxManager.t A) (k : A -> M TmuxManager.t B) w
    (P : Completion B * TmuxManager.t -> Prop) :
  keeps TmuxManager.instances m -> steps later m ->
  (forall a w1, TmuxManager.instances w1 = TmuxManager.instances w ->
                TmuxManager.clock w <= TmuxManager.clock w1 -> P (k a w1)) ->
  (forall e w1, TmuxManager.instances w1 = TmuxManager.instances w ->
                TmuxManager.clock w <= TmuxManager.clock w1 -> P (Thrown e, w1)) ->
  P (bind m k w).
Proof.
  intros Hk Hl Hn Ht. unfold bind. specialize (Hk w). specialize (Hl w).
  unfold same, later in *. destruct (m w) as [[a|e] w1]; simpl in *; auto.
Qed.

End Calls.

#[export] Hint Resolve later_runTmuxCommand later_fs_writeFile later_fs_mkdir
  later_send_keys later_setupInstanceEnvironment later_startAmpCLI
  later_sendLines later_getInstanceOutput later_startLogMonitoring
  later_startOutputMonitoring keeps_instances_getInstanceOutput
  keeps_instances_startLogMonitoring keeps_instances_startOutputMonitoring
  : steps.

(** ** Restart *)

Section Restart.

Variable host : Host.

(** A restart of a registered instance either resets it, at a time not
    before the restart began, or throws and leaves the instances as they
    were. *)
Lemma restartInstance_found instanceId reason w i :
  JsMap.get instanceId (TmuxManager.instances w) = Some i ->
  restarted_or_thrown instanceId w
    (TmuxManager.restartInstance host instanceId reason w).
Proof.
  intros E. unfold TmuxManager.restartInstance, bind at 1, TmuxManager.lookup.
  simpl. rewrite E.
  assert (T : forall e w1,
             TmuxManager.instances w1 = TmuxManager.instances w ->
             restarted_or_thrown instanceId w (@Thrown unit e, w1)).
  { intros e w1 Hi. right. simpl. split; [eauto|exact Hi]. }
  apply peel; [keeps_tac | steps_with ltac:(unfold later; simpl; lia) | | ].
  2:{ intros; apply T; congruence. }
  intros _ w1 Hi1 Hc1.
  apply peel; [keeps_tac | steps_with ltac:(unfold later; simpl; lia) | | ].
  2:{ intros; apply T; congruence. }
  intros _ w2 Hi2 Hc2.
  apply peel; [keeps_tac | steps_with ltac:(unfold later; simpl; lia) | | ].
  2:{ intros; apply T; congruence. }
  intros _ w3 Hi3 Hc3.
  apply peel; [keeps_tac | auto with steps | | ].
  2:{ intros; apply T; congruence. }
  intros _ w4 Hi4 Hc4.
  apply peel; [keeps_tac | steps_with ltac:(unfold later; simpl; lia) | | ].
  2:{ intros; apply T; congruence. }
  intros _ w5 Hi5 Hc5.
  apply peel; [keeps_tac | auto with steps | | ].
  2:{ intros; apply T; congruence. }
  intros _ w6 Hi6 Hc6.
  left. exists (TmuxManager.clock w6). split; [lia|].
  unfold bind at 1, TmuxManager.now. simpl.
  rewrite instances_bind_keeps by (intros; keeps_tac).
  simpl. congruence.
Qed.

End Restart.

(** ** Methods that return *)

Lemma returns_ret {A} (a : A) : returns (ret a).
Proof. intros w. now exists a. Qed.

Lemma returns_bind {A B} (m : M TmuxManager.t A) (k : A -> M TmuxManager.t B) :
  returns m -> (forall a, returns (k a)) -> returns (bind m k).
Proof.
  intros Hm Hk w. unfold bind. destruct (Hm w) as [a Ha].
  destruct (m w) as [[a'|e] w']; simpl in *; [apply Hk|discriminate].
Qed.

Lemma returns_try_catch {A} (m : M TmuxManager.t A) (h : JsError -> M TmuxManager.t A) :
  (forall e, returns (h e)) -> returns (try_catch m h).
Proof.
  intros Hh w. unfold try_catch.
  destruct (m w) as [[a|e] w']; simpl; [now exists a|apply Hh].
Qed.

Lemma returns_for_each {A} (l : list A) (body : A -> M TmuxManager.t unit) :
  (forall a, returns (body a)) -> returns (for_each l body).
Proof.
  intros Hb. induction l as [|a l IH]; simpl.
  - apply returns_ret.
  - apply returns_bind; auto.
Qed.

Lemma returns_total {A} (f : TmuxManager.t -> A) (g : TmuxManager.t -> TmuxManager.t) :
  returns (fun w => (Normal (f w), g w)).
Proof. intros w. now exists (f w). Qed.

Ltac returns_tac :=
  repeat match goal with
  | |- returns (bind _ _) => apply returns_bind; [|intros]
  | |- returns (try_catch _ _) => apply returns_try_catch; intros
  | |- returns (for_each _ _) => apply returns_for_each; intros
  | |- returns (ret _) => apply returns_ret
  | |- returns (match ?x with _ => _ end) => destruct x
  | |- returns _ => solve [auto with steps | intros ?; eexists; reflexivity]
  end.

Section Accepting.

Variable host : Host.
Hypothesis host_accepts : accepting host.

Lemma returns_runTmuxCommand args : returns (TmuxManager.runTmuxCommand host args).
Proof.
  intros w. unfold TmuxManager.runTmuxCommand, bind, TmuxManager.call. simpl.
  destruct host_accepts as [Ht _].
  destruct (Ht (length (TmuxManager.calls w)) args) as (out & err & ->).
  simpl. eauto.
Qed.

Lemma returns_fs_writeFile path s : returns (TmuxManager.fs_writeFile host path s).
Proof.
  intros w. unfold TmuxManager.fs_writeFile, bind, TmuxManager.call. simpl.
  destruct host_accepts as [_ Hf]. rewrite Hf. simpl. eauto.
Qed.

Hint Resolve returns_runTmuxCommand returns_fs_writeFile : steps.

Lemma returns_send_keys i ks : returns (TmuxManager.send_keys host i ks).
Proof. unfold TmuxManager.send_keys. returns_tac. Qed.

Hint Resolve returns_send_keys : steps.

Lemma returns_setupInstanceEnvironment i :
  returns (TmuxManager.setupInstanceEnvironment host i).
Proof. unfold TmuxManager.setupInstanceEnvironment. returns_tac. Qed.

Lemma returns_startAmpCLI i : returns (TmuxManager.startAmpCLI host i).
Proof. unfold TmuxManager.startAmpCLI. returns_tac. Qed.

Lemma returns_startLogMonitoring id : returns (TmuxManager.startLogMonitoring host id).
Proof. unfold TmuxManager.startLogMonitoring. returns_tac. Qed.

Lemma returns_startOutputMonitoring id : returns (TmuxManager.startOutputMonitoring id).
Proof. unfold TmuxManager.startOutputMonitoring. returns_tac. Qed.

Hint Resolve returns_setupInstanceEnvironment returns_startAmpCLI
  returns_startLogMonitoring returns_startOutputMonitoring : steps.

(** On an accepting host the restart of a registered instance returns. *)
Lemma restartInstance_returns instanceId reason w i :
  JsMap.get instanceId (TmuxManager.instances w) = Some i ->
  fst (TmuxManager.restartInstance host instanceId reason w) = Normal tt.
Proof.
  intros E. unfold TmuxManager.restartInstance, bind at 1, TmuxManager.lookup.
  simpl. rewrite E.
  match goal with
  | |- fst (?m w) = _ => assert (R : returns m) by returns_tac
  end.
  destruct (R w) as [[] H]. exact H.
Qed.

End Accepting.

(** C4.  For a registered instance a restart that returns leaves the
    instance with status [idle], no pending command, no current prompt, an
    empty output and a restart count one above the count before; and on a
    host that accepts every command the restart returns. *)
Theorem restart_resets_the_instance host instanceId reason w i :
  JsMap.get instanceId (TmuxManager.instances w) = Some i ->
  (accepting host ->
   fst (TmuxManager.restartInstance host instanceId reason w) = Normal tt)
  /\ (fst (TmuxManager.restartInstance host instanceId reason w) = Normal tt ->
      exists i',
        JsMap.get instanceId
          (TmuxManager.instances
             (snd (TmuxManager.restartInstance host instanceId reason w)))
        = Some i'
        /\ AmpInstance.status i' = Status.idle
        /\ AmpInstance.pendingCommand i' = None
        /\ AmpInstance.currentPrompt i' = None
        /\ AmpInstance.output i' = []
        /\ Stats.restartCount (AmpInstance.stats i')
           = Stats.restartCount (AmpInstance.stats i) + 1).
Proof.
  intros E. split.
  - intros Ha. now apply restartInstance_returns with (i := i).
  - intros Hn.
    destruct (restartInstance_found host instanceId reason w i E)
      as [(t & _ & Hi) | ((e & He) & _)]; [|congruence].
    exists (TmuxManager.reset t i). rewrite Hi, get_update_eq, E. simpl.
    repeat split; reflexivity.
Qed.

Lemma host_ok_accepting : accepting Scenario.host_ok.
Proof. split; intros; simpl; eauto. Qed.

Lemma restart_resets_the_instance_witness :
  let w := Scenario.plain_world in
  let i := Scenario.plain_instance in
  Scenario.instance0 w = Some i
  /\ fst (TmuxManager.restartInstance Scenario.host_ok Scenario.id0 None w)
     = Normal tt
  /\ exists i',
       JsMap.get Scenario.id0
         (TmuxManager.instances
            (snd (TmuxManager.restartInstance Scenario.host_ok Scenario.id0 None w)))
       = Some i'
       /\ AmpInstance.status i' = Status.idle
       /\ AmpInstance.pendingCommand i' = None
       /\ AmpInstance.currentPrompt i' = None
       /\ AmpInstance.output i' = []
       /\ Stats.restartCount (AmpInstance.stats i')
          = Stats.restartCount (AmpInstance.stats i) + 1.
Proof.
  intros w i.
  assert (E : JsMap.get Scenario.id0 (TmuxManager.instances w) = Some i)
    by (vm_compute; reflexivity).
  split; [exact E|].
  pose proof (restart_resets_the_instance Scenario.host_ok Scenario.id0 None w i E)
    as [Hr Hp].
  specialize (Hr host_ok_accepting). split; [exact Hr|].
  exact (Hp Hr).
Defined.

(** ** The approval gate: what the methods do *)

(** C2.  An instance with [requireApproval] whose allowlists hold
    [git status] is sent the prompt [git status]: the prompt matches the
    allowlist, and the instance goes to [waiting_approval] with the prompt
    pending; nothing is typed into the session, no prompt is counted. *)
Theorem allowlisted_prompt_waits_for_approval :
  let w := Scenario.strict_world in
  let i := Scenario.strict_instance in
  let r := TmuxManager.sendPrompt Scenario.host_ok Scenario.id0 "git status" w in
  Scenario.instance0 w = Some i
  /\ InstanceConfig.requireApproval (AmpInstance.config i) = Some true
  /\ InstanceConfig.commandAllowlist (AmpInstance.config i) = Some ["git status"]
  /\ AmpCliHelpers.isCommandAllowed "git status" ["git status"] = true
  /\ TmuxManager.isAllowed i "git status" = true
  /\ AmpInstance.status i = Status.idle
  /\ fst r = Normal tt
  /\ option_map AmpInstance.status (Scenario.instance0 (snd r))
     = Some Status.waiting_approval
  /\ option_map AmpInstance.pendingCommand (Scenario.instance0 (snd r))
     = Some (Some (PendingCommand.mk "git status" true (TmuxManager.clock w)))
  /\ option_map (fun j => Stats.promptsExecuted (AmpInstance.stats j))
       (Scenario.instance0 (snd r)) = Some 0
  /\ TmuxManager.calls (snd r) = TmuxManager.calls w.
Proof. vm_compute. repeat split; reflexivity. Qed.

(** With [requireApproval] every prompt is held, whatever the
    allowlists say. *)
Lemma sendPrompt_holds_every_prompt host instanceId prompt w i :
  JsMap.get instanceId (TmuxManager.instances w) = Some i ->
  TmuxManager.requiresApproval i = true ->
  fst (TmuxManager.sendPrompt host instanceId prompt w) = Normal tt
  /\ JsMap.get instanceId
       (TmuxManager.instances (snd (TmuxManager.sendPrompt host instanceId prompt w)))
     = Some (TmuxManager.hold prompt (TmuxManager.clock w) i)
  /\ TmuxManager.calls (snd (TmuxManager.sendPrompt host instanceId prompt w))
     = TmuxManager.calls w.
Proof.
  intros E C. split; [|split].
  - unfold TmuxManager.sendPrompt, bind, TmuxManager.lookup. simpl.
    now rewrite E, C.
  - rewrite sendPrompt_instances, get_update_eq, E. simpl. now rewrite C.
  - unfold TmuxManager.sendPrompt, bind, TmuxManager.lookup. simpl.
    now rewrite E, C.
Qed.

(** C3.  The prompt [rm -rf /] is pending on an instance with
    [requireApproval] whose allowlist does not match it.  [approveCommand]
    returns, and the instance is in [waiting_approval] again with the same
    command pending: nothing is typed into the session, no prompt is
    counted, [currentPrompt] stays undefined, and a second
    [approval_required] event is emitted. *)
Theorem approved_command_is_held_again :
  let w0 := Scenario.strict_world in
  let w := snd (TmuxManager.sendPrompt Scenario.host_ok Scenario.id0 "rm -rf /" w0) in
  let r := TmuxManager.approveCommand Scenario.host_ok Scenario.id0 w in
  option_map AmpInstance.status (Scenario.instance0 w)
  = Some Status.waiting_approval
  /\ option_map AmpInstance.pendingCommand (Scenario.instance0 w)
     = Some (Some (PendingCommand.mk "rm -rf /" true (TmuxManager.clock w0)))
  /\ fst r = Normal tt
  /\ option_map AmpInstance.status (Scenario.instance0 (snd r))
     = Some Status.waiting_approval
  /\ option_map AmpInstance.pendingCommand (Scenario.instance0 (snd r))
     = Some (Some (PendingCommand.mk "rm -rf /" true (TmuxManager.clock w)))
  /\ option_map AmpInstance.currentPrompt (Scenario.instance0 (snd r)) = Some None
  /\ option_map (fun j => Stats.promptsExecuted (AmpInstance.stats j))
       (Scenario.instance0 (snd r)) = Some 0
  /\ TmuxManager.calls (snd r) = TmuxManager.calls w
  /\ map AgentEvent.type
       (skipn (length (TmuxManager.events w)) (TmuxManager.events (snd r)))
     = [AgentEvent.approval_required].
Proof. vm_compute. repeat split; reflexivity. Qed.

(** An approved command runs only if the allowlist matches it or the
    configuration stopped asking for approval: [approveCommand] decides
    again, with the allowlist. *)
Lemma approveCommand_decides_again host instanceId w i pending :
  JsMap.get instanceId (TmuxManager.instances w) = Some i ->
  AmpInstance.pendingCommand i = Some pending ->
  TmuxManager.requiresApproval i = true ->
  TmuxManager.isAllowed i (PendingCommand.command pending) = false ->
  JsMap.get instanceId
    (TmuxManager.instances (snd (TmuxManager.approveCommand host instanceId w)))
  = Some (TmuxManager.hold (PendingCommand.command pending) (TmuxManager.clock w)
            (AmpInstance.set_pendingCommand None i)).
Proof.
  intros E P C A. rewrite approveCommand_instances, get_update_eq, E. simpl.
  rewrite P. simpl.
  replace (TmuxManager.isAllowed (AmpInstance.set_pendingCommand None i)
             (PendingCommand.command pending)) with false by (now rewrite <- A).
  replace (TmuxManager.requiresApproval (AmpInstance.set_pendingCommand None i))
    with true by (now rewrite <- C).
  reflexivity.
Qed.

(** C5, as the code has it.  For a registered instance with no pending
    command [approveCommand] throws [No pending command for instance ...]
    and leaves the manager as it was.  The guard reads the pending command,
    not the status: with a command pending, [approveCommand] clears it and
    goes on to run it, whatever the status is. *)
Theorem approve_is_guarded_by_the_pending_command host instanceId w i :
  JsMap.get instanceId (TmuxManager.instances w) = Some i ->
  match AmpInstance.pendingCommand i with
  | None =>
      TmuxManager.approveCommand host instanceId w
      = (Thrown (Error ("No pending command for instance " +:+ instanceId)), w)
  | Some pending =>
      TmuxManager.approveCommand host instanceId w
      = TmuxManager.executePrompt host instanceId (PendingCommand.command pending)
          (TmuxManager.set_instances
             (JsMap.update instanceId (AmpInstance.set_pendingCommand None)
                (TmuxManager.instances w)) w)
  end.
Proof.
  intros E. destruct (AmpInstance.pendingCommand i) as [pending|] eqn:P.
  - unfold TmuxManager.approveCommand.
    unfold bind at 1. unfold TmuxManager.lookup. simpl. rewrite E, P.
    reflexivity.
  - unfold TmuxManager.approveCommand, bind, TmuxManager.lookup. simpl.
    now rewrite E, P.
Qed.

Lemma approve_is_guarded_by_the_pending_command_witness :
  Scenario.instance0 Scenario.plain_world = Some Scenario.plain_instance
  /\ AmpInstance.pendingCommand Scenario.plain_instance = None
  /\ TmuxManager.approveCommand Scenario.host_ok Scenario.id0 Scenario.plain_world
     = (Thrown (Error ("No pending command for instance " +:+ Scenario.id0)),
        Scenario.plain_world).
Proof.
  assert (E : JsMap.get Scenario.id0 (TmuxManager.instances Scenario.plain_world)
              = Some Scenario.plain_instance) by (vm_compute; reflexivity).
  split; [exact E|]. split; [reflexivity|].
  exact (approve_is_guarded_by_the_pending_command Scenario.host_ok Scenario.id0
           Scenario.plain_world Scenario.plain_instance E).
Defined.

(** C5 fails as it is stated: [approveCommand] succeeds on an instance
    whose status is [running].  The prompt [git status] is held, a line of
    the log moves the status to [running], and the approval runs the
    prompt. *)
Lemma approve_succeeds_outside_waiting_approval :
  let w :=
    Supervisor.run Reference.runtime Scenario.host_ok
      [Supervisor.SendPrompt Scenario.id0 "git status";
       Supervisor.LogPoll Scenario.id0 (Some 120) (AmpLogMonitor.Read Scenario.thinking)]
      Scenario.strict_world in
  let r := TmuxManager.approveCommand Scenario.host_ok Scenario.id0 w in
  option_map AmpInstance.status (Scenario.instance0 w) = Some Status.running
  /\ option_map AmpInstance.status (Scenario.instance0 w)
     <> Some Status.waiting_approval
  /\ fst r = Normal tt
  /\ option_map AmpInstance.currentPrompt (Scenario.instance0 (snd r))
     = Some (Some "git status")
  /\ option_map (fun j => Stats.promptsExecuted (AmpInstance.stats j))
       (Scenario.instance0 (snd r)) = Some 1.
Proof. vm_compute. repeat split; try reflexivity. discriminate. Qed.

(** [cancelCommand] has no such guard: on a registered instance it
    returns and sets the status to [idle]. *)
Lemma cancelCommand_instances instanceId w :
  TmuxManager.instances (snd (TmuxManager.cancelCommand instanceId w))
  = JsMap.update instanceId
      (fun i => AmpInstance.set_status Status.idle
                  (AmpInstance.set_pendingCommand None i))
      (TmuxManager.instances w).
Proof.
  unfold TmuxManager.cancelCommand, bind at 1, TmuxManager.lookup. simpl.
  destruct (JsMap.get instanceId (TmuxManager.instances w)) eqn:E; simpl;
    unfold JsMap.update; now rewrite E.
Qed.

Lemma cancelCommand_returns instanceId w i :
  JsMap.get instanceId (TmuxManager.instances w) = Some i ->
  fst (TmuxManager.cancelCommand instanceId w) = Normal tt.
Proof.
  intros E. unfold TmuxManager.cancelCommand, bind, TmuxManager.lookup. simpl.
  now rewrite E.
Qed.

Example cancel_without_pending_command :
  let w := snd (TmuxManager.sendPrompt Scenario.host_ok Scenario.id0 "ls"
                  Scenario.plain_world) in
  let r := TmuxManager.cancelCommand Scenario.id0 w in
  option_map AmpInstance.status (Scenario.instance0 w) = Some Status.running
  /\ option_map AmpInstance.pendingCommand (Scenario.instance0 w) = Some None
  /\ fst r = Normal tt
  /\ option_map AmpInstance.status (Scenario.instance0 (snd r)) = Some Status.idle.
Proof. vm_compute. repeat split; reflexivity. Qed.

(** ** The approval gate: the two fields together *)

#[export] Instance preserves_preorder (I : TmuxManager.t -> Prop) :
  PreOrder (preserves I).
Proof.
  split.
  - intros w H. exact H.
  - intros a b c Hab Hbc H. auto.
Qed.

Lemma all_instances_update (P : AmpInstance.t -> Prop) k f m :
  (forall id i, JsMap.get id m = Some i -> P i) ->
  (forall i, JsMap.get k m = Some i -> P i -> P (f i)) ->
  forall id i, JsMap.get id (JsMap.update k f m) = Some i -> P i.
Proof.
  intros Hall Hf id i. rewrite get_update.
  destruct (String.eqb k id) eqn:E.
  - apply String.eqb_eq in E. subst id.
    destruct (JsMap.get k m) as [j|] eqn:G; simpl; [|discriminate].
    intros [= <-]. eauto.
  - apply Hall.
Qed.

(** A method that leaves the instances alone keeps what holds of all
    instances; so does a write of an instance that keeps it. *)
Lemma preserves_keeps {A} (P : AmpInstance.t -> Prop) (m : M TmuxManager.t A) :
  keeps TmuxManager.instances m -> steps (preserves (all_instances P)) m.
Proof.
  intros Hk w Hall id i. rewrite (Hk w). apply Hall.
Qed.

Lemma preserves_mutate (P : AmpInstance.t -> Prop) k f :
  (forall i, P i -> P (f i)) ->
  steps (preserves (all_instances P)) (TmuxManager.mutate k f).
Proof.
  intros Hf w Hall. unfold TmuxManager.mutate, modify, all_instances. simpl.
  apply all_instances_update; auto.
Qed.

Section Gate.

Variable host : Host.

Lemma restartInstance_missing instanceId reason w :
  JsMap.get instanceId (TmuxManager.instances w) = None ->
  TmuxManager.restartInstance host instanceId reason w
  = (Thrown (TmuxManager.not_found instanceId), w).
Proof.
  intros E. unfold TmuxManager.restartInstance, bind, TmuxManager.lookup. simpl.
  now rewrite E.
Qed.

Lemma hold_consistent prompt t i :
  TmuxManager.requiresApproval i = true ->
  gate_consistent (TmuxManager.hold prompt t i).
Proof.
  intros C. split.
  - split; intros _; [reflexivity|discriminate].
  - intros _. exact C.
Qed.

Lemma run_consistent prompt t i :
  AmpInstance.pendingCommand i = None ->
  gate_consistent (TmuxManager.run prompt t i).
Proof.
  intros P. split.
  - split; simpl; [intros H; exfalso; exact (H P)|discriminate].
  - intros H. exfalso. exact (H P).
Qed.

Lemma operations_keep_the_gate (op : Supervisor.Op) rt w :
  is_operation op = true ->
  all_instances gate_consistent w ->
  all_instances gate_consistent (snd (Supervisor.step rt host op w)).
Proof.
  intros Hop Hall. unfold all_instances.
  destruct op; try discriminate; simpl.
  - (* restartInstance *)
    destruct (JsMap.get instanceId (TmuxManager.instances w)) as [i|] eqn:E.
    + destruct (restartInstance_found host instanceId reason w i E)
        as [(t & _ & ->) | (_ & ->)]; [|exact Hall].
      apply all_instances_update; [exact Hall|].
      intros j _ _. split.
      * split; simpl; [intros H; now contradiction H|discriminate].
      * simpl. intros H. now contradiction H.
    + rewrite restartInstance_missing by exact E. exact Hall.
  - (* sendPrompt *)
    rewrite sendPrompt_instances.
    apply all_instances_update; [exact Hall|].
    intros j _ [Hj1 Hj2].
    destruct (TmuxManager.requiresApproval j) eqn:C.
    + now apply hold_consistent.
    + apply run_consistent.
      destruct (AmpInstance.pendingCommand j) eqn:P; [|reflexivity].
      assert (H : TmuxManager.requiresApproval j = true)
        by (apply Hj2; rewrite P; discriminate).
      congruence.
  - (* approveCommand *)
    rewrite approveCommand_instances.
    apply all_instances_update; [exact Hall|].
    intros j _ Hj.
    destruct (AmpInstance.pendingCommand j) as [pending|] eqn:P; [|exact Hj].
    simpl.
    destruct (negb (TmuxManager.isAllowed (AmpInstance.set_pendingCommand None j)
                      (PendingCommand.command pending))
              && TmuxManager.requiresApproval (AmpInstance.set_pendingCommand None j))
      eqn:C.
    + apply hold_consistent. now apply andb_true_iff in C.
    + now apply run_consistent.
  - (* cancelCommand *)
    rewrite cancelCommand_instances.
    apply all_instances_update; [exact Hall|].
    intros j _ _. split.
    + split; simpl; [intros H; now contradiction H|discriminate].
    + simpl. intros H. now contradiction H.
Qed.

End Gate.

(** The listeners of the log monitor write the status, never the pending
    command, and never write [waiting_approval]. *)
Lemma listener_keeps_waiting_has_pending instanceId e :
  steps (preserves (all_instances waiting_has_pending))
        (TmuxManager.listener instanceId e).
Proof.
  destruct e; simpl;
    try (apply steps_ret; typeclasses eauto).
  - unfold TmuxManager.on_state_changed.
    apply steps_bind; [typeclasses eauto|apply preserves_keeps; keeps_tac|].
    intros [inst|]; [|apply steps_ret; typeclasses eauto].
    apply steps_bind; [typeclasses eauto|apply preserves_keeps; keeps_tac|].
    intros t0.
    apply steps_bind; [typeclasses eauto| |intros _].
    { apply preserves_mutate. intros i H. exact H. }
    destruct (negb _); [|apply steps_ret; typeclasses eauto].
    apply steps_bind; [typeclasses eauto| |intros _].
    { apply preserves_mutate. intros i _ H. simpl in H.
      destruct (AmpLogMonitor.wasRunning newState t0); discriminate. }
    apply steps_bind; [typeclasses eauto| |intros _].
    { destruct (bool_decide _); [|apply steps_ret; typeclasses eauto].
      apply preserves_mutate. intros i H. exact H. }
    apply preserves_keeps. keeps_tac.
  - unfold TmuxManager.on_amp_started.
    apply steps_bind; [typeclasses eauto|apply preserves_keeps; keeps_tac|].
    intros [inst|]; [|apply steps_ret; typeclasses eauto].
    destruct (negb _); [|apply steps_ret; typeclasses eauto].
    apply steps_bind; [typeclasses eauto| |intros _].
    { apply preserves_mutate. intros i _ H. discriminate. }
    apply preserves_keeps. keeps_tac.
  - unfold TmuxManager.on_amp_idle.
    apply steps_bind; [typeclasses eauto|apply preserves_keeps; keeps_tac|].
    intros [inst|]; [|apply steps_ret; typeclasses eauto].
    destruct (negb _); [|apply steps_ret; typeclasses eauto].
    apply steps_bind; [typeclasses eauto| |intros _].
    { apply preserves_mutate. intros i _ H. discriminate. }
    apply preserves_keeps. keeps_tac.
Qed.

Lemma withLogMonitor_keeps_waiting_has_pending instanceId method :
  steps (preserves (all_instances waiting_has_pending))
        (TmuxManager.withLogMonitor instanceId method).
Proof.
  unfold TmuxManager.withLogMonitor.
  apply steps_bind; [typeclasses eauto|apply preserves_keeps; keeps_tac|].
  intros w0. destruct (JsMap.get _ _); [|apply steps_ret; typeclasses eauto].
  apply steps_bind; [typeclasses eauto|apply preserves_keeps; keeps_tac|].
  intros _. apply steps_for_each; [typeclasses eauto|].
  intros e. apply listener_keeps_waiting_has_pending.
Qed.


Lemma strict_world_instances P :
  P Scenario.strict_instance -> all_instances P Scenario.strict_world.
Proof.
  intros H id i E.
  change (JsMap.get id [(Scenario.id0, Scenario.strict_instance)] = Some i) in E.
  unfold JsMap.get in E.
  destruct (String.eqb Scenario.id0 id); [|discriminate].
  injection E as <-. exact H.
Qed.

Lemma strict_instance_consistent : gate_consistent Scenario.strict_instance.
Proof.
  split.
  - split; simpl; [intros H; now contradiction H|discriminate].
  - simpl. intros H. now contradiction H.
Qed.



(** ** The log monitor: lines that are no JSON *)

Section Monitor.

Variable rt : Runtime.
Variable now : Date.

#[local] Abbreviation line_step := (line_step rt now).
#[local] Abbreviation parses := (parses rt).

Lemma line_step_returns line m : fst (line_step line m) = Normal tt.
Proof.
  unfold line_step, try_catch.
  destruct (AmpLogMonitor.parseLine rt now line m) as [[[]|e] m']; reflexivity.
Qed.

Lemma line_step_malformed line m :
  JSON_parse rt line = None -> line_step line m = (Normal tt, m).
Proof.
  intros H. unfold line_step, try_catch, AmpLogMonitor.parseLine.
  now rewrite H.
Qed.

Lemma for_each_returns (lines : list string) m :
  fst (for_each lines line_step m) = Normal tt.
Proof.
  revert m. induction lines as [|l r IH]; intros m; [reflexivity|].
  simpl. unfold bind. pose proof (line_step_returns l m) as H.
  destruct (line_step l m) as [[[]|e] m']; simpl in *; [apply IH|discriminate].
Qed.

Lemma for_each_malformed (lines : list string) m :
  (forall line, In line lines -> JSON_parse rt line = None) ->
  for_each lines line_step m = (Normal tt, m).
Proof.
  induction lines as [|l r IH]; intros H; [reflexivity|].
  simpl. unfold bind. rewrite line_step_malformed by (apply H; now left).
  apply IH. intros line Hl. apply H. now right.
Qed.

Lemma for_each_skips (lines : list string) m :
  for_each lines line_step m = for_each (List.filter parses lines) line_step m.
Proof.
  revert m. induction lines as [|l r IH]; intros m; [reflexivity|].
  simpl. unfold parses at 1. destruct (JSON_parse rt l) eqn:E.
  - simpl. unfold bind. destruct (line_step l m) as [[[]|e] m']; auto.
  - unfold bind. rewrite line_step_malformed by exact E. apply IH.
Qed.

Lemma checkForLogUpdates_returns size read m :
  fst (AmpLogMonitor.checkForLogUpdates rt now size read m) = Normal tt.
Proof.
  unfold AmpLogMonitor.checkForLogUpdates. destruct size as [sz|]; [|reflexivity].
  unfold try_catch.
  match goal with
  | |- fst (match ?x with _ => _ end) = _ => destruct x as [[[]|e] m']
  end; reflexivity.
Qed.

Lemma refreshState_returns content m :
  fst (AmpLogMonitor.refreshState rt now content m) = Normal tt.
Proof.
  unfold AmpLogMonitor.refreshState. destruct content as [text|]; [|reflexivity].
  unfold bind, modify. simpl. apply for_each_returns.
Qed.

(** A line that is JSON but no record with a string message is given up
    inside [processLogEntry]: nothing is emitted, and the state keeps all
    but [lastActivity], which was written before the message was read. *)
Lemma line_step_without_message line entry m :
  JSON_parse rt line = Some entry ->
  (forall s, JsonOps.prop "message" entry <> Some (JString s)) ->
  line_step line m
  = (Normal tt,
     match entry with
     | JNull => m
     | _ => AmpLogMonitor.set_currentState
              (AmpState.set_lastActivity
                 (Date_of rt (JsonOps.prop "timestamp" entry))
                 (AmpLogMonitor.currentState m)) m
     end).
Proof.
  intros E Hm. unfold line_step, try_catch, AmpLogMonitor.parseLine.
  rewrite E. unfold AmpLogMonitor.processLogEntry, bind, get. simpl.
  destruct entry; try reflexivity.
  unfold AmpLogMonitor.update_state, modify. simpl in *.
  destruct (JsonOps.lookup "message" props) as [[]|] eqn:P; try reflexivity.
  exfalso. eapply Hm. reflexivity.
Qed.

End Monitor.





(** ** Creation *)

Lemma bind_cases {S A B} (m : M S A) (k : A -> M S B) s
    (P : Completion B * S -> Prop) :
  (forall a s1, m s = (Normal a, s1) -> P (k a s1)) ->
  (forall e s1, m s = (Thrown e, s1) -> P (Thrown e, s1)) ->
  P (bind m k s).
Proof.
  intros Hn Ht. unfold bind. destruct (m s) as [[a|e] s1]; auto.
Qed.

Lemma ends_with_ret {A} (x : A) : ends_with x (ret x).
Proof. intros w a [= <-]. reflexivity. Qed.

Lemma ends_with_bind {A B} (x : B) (m : M TmuxManager.t A) k :
  (forall a, ends_with x (k a)) -> ends_with x (bind m k).
Proof.
  intros Hk w b. unfold bind. destruct (m w) as [[a|e] w1]; simpl.
  - apply Hk.
  - discriminate.
Qed.

Section Creation.

Variable host : Host.

(** The authentication check returns the instance marked
    [authenticating]; when a command of the check is rejected, it is marked
    [failed] as well. *)
Lemma checkAuthStatus_value instance w :
  fst (TmuxManager.checkAuthStatus host instance w)
  = Normal (AmpInstance.set_status Status.authenticating instance)
  \/ fst (TmuxManager.checkAuthStatus host instance w)
     = Normal (AmpInstance.set_authStatus AuthStatus.failed
                 (AmpInstance.set_status Status.authenticating instance)).
Proof.
  unfold TmuxManager.checkAuthStatus, try_catch.
  match goal with
  | |- context [match ?b w with _ => _ end] => destruct (b w) as [[a|e] w1] eqn:E
  end.
  - left. simpl. f_equal.
    assert (H : ends_with (AmpInstance.set_status Status.authenticating instance)
              (TmuxManager.emitEvent (AmpInstance.id instance)
                 AgentEvent.auth_status_changed [("status", VString "checking")]
                 Severity.info ;;;
               TmuxManager.sleep 2000 ;;;
               TmuxManager.send_keys host instance ["help"; "Enter"] ;;;
               ret (AmpInstance.set_status Status.authenticating instance)))
      by (repeat (apply ends_with_bind; intros); apply ends_with_ret).
    apply (H w). now rewrite E.
  - right. reflexivity.
Qed.

Lemma checkAuthStatus_accepted instance w :
  accepting host ->
  fst (TmuxManager.checkAuthStatus host instance w)
  = Normal (AmpInstance.set_status Status.authenticating instance).
Proof.
  intros Ha. unfold TmuxManager.checkAuthStatus, try_catch.
  match goal with
  | |- context [match ?b w with _ => _ end] =>
      assert (R : returns b) by (pose proof (returns_send_keys host Ha); returns_tac);
      assert (H : ends_with (AmpInstance.set_status Status.authenticating instance) b)
        by (repeat (apply ends_with_bind; intros); apply ends_with_ret);
      destruct (R w) as [a Hr]; specialize (H w a Hr);
      destruct (b w) as [[a'|e] w1]; simpl in *; [congruence|discriminate]
  end.
Qed.

Lemma ensures_bind {A B} (Q : B -> Prop) (m : M TmuxManager.t A) k :
  (forall a, ensures Q (k a)) -> ensures Q (bind m k).
Proof.
  intros Hk w b. unfold bind. destruct (m w) as [[a|e] w1]; simpl.
  - apply Hk.
  - discriminate.
Qed.

Lemma ensures_bind_value {A B} (R : A -> Prop) (Q : B -> Prop)
    (m : M TmuxManager.t A) k :
  ensures R m -> (forall a, R a -> ensures Q (k a)) -> ensures Q (bind m k).
Proof.
  intros Hm Hk w b. unfold bind. specialize (Hm w).
  destruct (m w) as [[a|e] w1]; simpl in *.
  - apply Hk. now apply Hm.
  - discriminate.
Qed.

Lemma ensures_ret {A} (Q : A -> Prop) (a : A) : Q a -> ensures Q (ret a).
Proof. intros H w b [= <-]. exact H. Qed.

Lemma ensures_throw {A} (Q : A -> Prop) e : ensures Q (@throw _ A e).
Proof. intros w b H. discriminate. Qed.

(** What [createInstance] returns, when it returns, is the record it
    built, as the authentication check left it. *)
Lemma createInstance_ensures (Q : AmpInstance.t -> Prop)
    (leaves : AmpInstance.t -> AmpInstance.t -> Prop) config :
  (forall i, ensures (leaves i) (TmuxManager.checkAuthStatus host i)) ->
  (forall id name pane t dir file settings j,
     let cfg := or_else config InstanceConfig.empty in
     leaves
       (AmpInstance.mk id name pane Status.idle t t t (Some dir) (Some file) []
          None (InstanceConfig.threadId cfg) AuthStatus.unknown None
          (Stats.mk 0 0 0 0 None) cfg
          (or_else (InstanceConfig.errorPatterns cfg) TmuxManager.defaultErrorPatterns)
          (match InstanceConfig.inactivityThreshold cfg with
           | Some 0 | None => 120
           | Some n => n
           end)
          (Some settings)) j ->
     Q j) ->
  ensures Q (TmuxManager.createInstance host config).
Proof.
  intros Hcheck HQ. unfold TmuxManager.createInstance.
  apply ensures_bind. intros w0.
  destruct (negb (TmuxManager.sessionExists w0)); [apply ensures_throw|].
  do 7 (apply ensures_bind; intros).
  eapply ensures_bind_value; [apply Hcheck|].
  intros j Hj. do 5 (apply ensures_bind; intros). apply ensures_ret.
  eapply HQ. exact Hj.
Qed.

End Creation.

(** C10, as the code has it.  [createInstance] with a configuration that
    gives no [inactivityThreshold] and no [errorPatterns] returns, when it
    returns, an instance with threshold 120, the built-in patterns, zero
    statistics, and [authStatus] [unknown] or, when a command of the
    authentication check was rejected, [failed]; on a host that accepts
    every command it is [unknown]. *)
Theorem created_instance_has_the_defaults host config w inst :
  InstanceConfig.inactivityThreshold (or_else config InstanceConfig.empty) = None ->
  InstanceConfig.errorPatterns (or_else config InstanceConfig.empty) = None ->
  fst (TmuxManager.createInstance host config w) = Normal inst ->
  AmpInstance.inactivityThreshold inst = 120
  /\ AmpInstance.errorPatterns inst = TmuxManager.defaultErrorPatterns
  /\ In "Error:" (AmpInstance.errorPatterns inst)
  /\ In "Out of free credits" (AmpInstance.errorPatterns inst)
  /\ In "authentication failed" (AmpInstance.errorPatterns inst)
  /\ AmpInstance.stats inst = Stats.mk 0 0 0 0 None
  /\ (AmpInstance.authStatus inst = AuthStatus.unknown
      \/ AmpInstance.authStatus inst = AuthStatus.failed)
  /\ (accepting host -> AmpInstance.authStatus inst = AuthStatus.unknown).
Proof.
  intros Ht Hp Hr.
  assert (H1 : ensures
                 (fun j => AmpInstance.inactivityThreshold j = 120
                           /\ AmpInstance.errorPatterns j = TmuxManager.defaultErrorPatterns
                           /\ AmpInstance.stats j = Stats.mk 0 0 0 0 None
                           /\ (AmpInstance.authStatus j = AuthStatus.unknown
                               \/ AmpInstance.authStatus j = AuthStatus.failed))
                 (TmuxManager.createInstance host config)).
  { apply createInstance_ensures with
      (leaves := fun i j =>
         j = AmpInstance.set_status Status.authenticating i
         \/ j = AmpInstance.set_authStatus AuthStatus.failed
                  (AmpInstance.set_status Status.authenticating i)).
    - intros i w0 j Hj.
      destruct (checkAuthStatus_value host i w0) as [H|H];
        rewrite H in Hj; injection Hj as <-; auto.
    - intros id name pane t dir file settings j cfg. unfold cfg.
      rewrite Ht, Hp. intros [-> | ->]; simpl; auto. }
  destruct (H1 w inst Hr) as (A & B & C & D).
  repeat split; auto.
  - rewrite B. simpl. tauto.
  - rewrite B. simpl. tauto.
  - rewrite B. simpl. tauto.
  - intros Ha.
    assert (H2 : ensures (fun j => AmpInstance.authStatus j = AuthStatus.unknown)
                   (TmuxManager.createInstance host config)).
    { apply createInstance_ensures with
        (leaves := fun i j => j = AmpInstance.set_status Status.authenticating i).
      - intros i w0 j Hj. rewrite (checkAuthStatus_accepted host i w0 Ha) in Hj.
        now injection Hj as <-.
      - intros id name pane t dir file settings j cfg ->. reflexivity. }
    exact (H2 w inst Hr).
Qed.

Lemma created_instance_has_the_defaults_witness :
  let w := Scenario.manager Scenario.host_ok in
  let inst := Scenario.plain_created in
  fst (TmuxManager.createInstance Scenario.host_ok (Some Scenario.plain) w)
  = Normal inst
  /\ AmpInstance.inactivityThreshold inst = 120
  /\ AmpInstance.errorPatterns inst = TmuxManager.defaultErrorPatterns
  /\ AmpInstance.stats inst = Stats.mk 0 0 0 0 None
  /\ AmpInstance.authStatus inst = AuthStatus.unknown.
Proof.
  intros w inst.
  assert (E : fst (TmuxManager.createInstance Scenario.host_ok
                     (Some Scenario.plain) w) = Normal inst)
    by (vm_compute; reflexivity).
  split; [exact E|].
  pose proof (created_instance_has_the_defaults Scenario.host_ok
                (Some Scenario.plain) w inst eq_refl eq_refl E)
    as (A & B & _ & _ & _ & C & _ & D).
  repeat split; auto; apply D, host_ok_accepting.
Defined.

(** C10 fails as it is stated.  The host rejects the [help] keystrokes of
    the authentication check: [createInstance] returns an instance whose
    configuration gave no threshold and no patterns, and its [authStatus]
    is [failed]. *)
Lemma rejected_probe_gives_failed :
  let host := Scenario.host_failing (Scenario.types "help") in
  let r := TmuxManager.createInstance host (Some Scenario.plain)
             (Scenario.manager host) in
  InstanceConfig.inactivityThreshold Scenario.plain = None
  /\ InstanceConfig.errorPatterns Scenario.plain = None
  /\ exists inst, fst r = Normal inst
                  /\ AmpInstance.authStatus inst = AuthStatus.failed
                  /\ AmpInstance.authStatus inst <> AuthStatus.unknown
                  /\ Scenario.instance0 (snd r) = Some inst.
Proof.
  intros host r. split; [reflexivity|]. split; [reflexivity|].
  eexists. split; [vm_compute; reflexivity|].
  split; [reflexivity|]. split; [discriminate|]. vm_compute. reflexivity.
Qed.

(** ** The watchdog: the throttle of the inactivity check *)

Lemma steps_bind_value {A B} (R : relation TmuxManager.t) `{!PreOrder R}
    (Q : A -> Prop) (m : M TmuxManager.t A) (k : A -> M TmuxManager.t B) :
  steps R m -> ensures Q m -> (forall a, Q a -> steps R (k a)) -> steps R (bind m k).
Proof.
  intros Hm Hq Hk w. unfold bind. specialize (Hm w). specialize (Hq w).
  destruct (m w) as [[a|e] w']; simpl in *.
  - etransitivity; [exact Hm|]. apply Hk. now apply Hq.
  - exact Hm.
Qed.

Lemma steps_after_try {A} (R : relation TmuxManager.t) `{!PreOrder R}
    (m : M TmuxManager.t A) (h : JsError -> M TmuxManager.t A) w :
  (forall e, steps R (h e)) -> R (snd (m w)) (snd (try_catch m h w)).
Proof.
  intros Hh. unfold try_catch. destruct (m w) as [[a|e] w']; simpl.
  - reflexivity.
  - apply Hh.
Qed.

(** A method that leaves the instances alone keeps the throttle, as the
    clock does not go back; a write of an instance keeps it when the last
    check stays at or after [b]. *)
Lemma thr_leaf {A} b id (m : M TmuxManager.t A) :
  keeps TmuxManager.instances m -> steps later m ->
  steps (preserves (throttled b id)) m.
Proof.
  intros Hk Hl w [Hc Hi]. split.
  - specialize (Hl w). unfold later in Hl. lia.
  - intros i. rewrite (Hk w). apply Hi.
Qed.

Lemma thr_mutate b id k f :
  (forall i, b <= AmpInstance.lastInactivityCheck i ->
             b <= AmpInstance.lastInactivityCheck (f i)) ->
  steps (preserves (throttled b id)) (TmuxManager.mutate k f).
Proof.
  intros Hf w [Hc Hi]. split; [exact Hc|].
  unfold TmuxManager.mutate, modify. simpl. intros i. rewrite get_update.
  destruct (String.eqb k id) eqn:E; [|apply Hi].
  destruct (JsMap.get id (TmuxManager.instances w)) as [j|]; simpl; [|discriminate].
  intros [= <-]. apply Hf, Hi. reflexivity.
Qed.

Lemma thr_now {A} b id (k : Date -> M TmuxManager.t A) :
  (forall t, b <= t -> steps (preserves (throttled b id)) (k t)) ->
  steps (preserves (throttled b id)) (bind TmuxManager.now k).
Proof.
  intros H w Hw. unfold bind, TmuxManager.now. simpl.
  apply H; [apply Hw|exact Hw].
Qed.

Lemma thr_set b id k inst :
  b <= AmpInstance.lastInactivityCheck inst ->
  steps (preserves (throttled b id))
    (modify (fun w => TmuxManager.set_instances
                        (JsMap.set k inst (TmuxManager.instances w)) w)).
Proof.
  intros Hb w [Hc Hi]. split; [exact Hc|]. unfold modify. simpl. intros i.
  destruct (String.eqb k id) eqn:E.
  - apply String.eqb_eq in E. subst k. rewrite get_set_eq. now intros [= <-].
  - apply String.eqb_neq in E. rewrite get_set_ne by exact E. apply Hi.
Qed.

Lemma thr_delete b id k :
  steps (preserves (throttled b id))
    (modify (fun w => TmuxManager.set_instances
                        (JsMap.delete k (TmuxManager.instances w)) w)).
Proof.
  intros w [Hc Hi]. split; [exact Hc|]. unfold modify. simpl. intros i.
  destruct (String.eqb k id) eqn:E.
  - apply String.eqb_eq in E. subst k. now rewrite get_delete_eq.
  - apply String.eqb_neq in E. rewrite get_delete_ne by exact E. apply Hi.
Qed.

Create HintDb thr.

Ltac thr_tac :=
  repeat match goal with
  | |- steps _ (bind TmuxManager.now _) => apply thr_now; intros
  | |- steps _ (bind _ _) => apply steps_bind; [typeclasses eauto| |intros]
  | |- steps _ (try_catch _ _) => apply steps_try_catch; [typeclasses eauto| |intros]
  | |- steps _ (for_each _ _) => apply steps_for_each; [typeclasses eauto|intros]
  | |- steps _ (ret _) => apply steps_ret; typeclasses eauto
  | |- steps _ (throw _) => apply steps_throw; typeclasses eauto
  | |- steps _ (match ?x with _ => _ end) => destruct x
  | |- steps _ (TmuxManager.mutate _ _) =>
      apply thr_mutate; intros; simpl; solve [lia | assumption]
  | |- steps _ _ =>
      solve [auto with thr | apply thr_leaf; [keeps_tac | clock_tac]]
  end.

Section Throttle.

Variable host : Host.
Variable b : Date.
Variable id : string.

Lemma thr_executePrompt k prompt :
  steps (preserves (throttled b id)) (TmuxManager.executePrompt host k prompt).
Proof. unfold TmuxManager.executePrompt. thr_tac. Qed.

Hint Resolve thr_executePrompt : thr.

Lemma thr_sendPrompt k prompt :
  steps (preserves (throttled b id)) (TmuxManager.sendPrompt host k prompt).
Proof. unfold TmuxManager.sendPrompt. thr_tac. Qed.

Lemma thr_approveCommand k :
  steps (preserves (throttled b id)) (TmuxManager.approveCommand host k).
Proof. unfold TmuxManager.approveCommand. thr_tac. Qed.

Lemma thr_cancelCommand k :
  steps (preserves (throttled b id)) (TmuxManager.cancelCommand k).
Proof. unfold TmuxManager.cancelCommand. thr_tac. Qed.

Lemma thr_restartInstance k reason :
  steps (preserves (throttled b id)) (TmuxManager.restartInstance host k reason).
Proof. unfold TmuxManager.restartInstance. thr_tac. Qed.

Hint Resolve thr_restartInstance : thr.

Lemma thr_scanErrorPatterns k instance recent patterns :
  steps (preserves (throttled b id))
    (TmuxManager.scanErrorPatterns host k instance recent patterns).
Proof.
  induction patterns as [|p r IH]; simpl; thr_tac.
Qed.

Hint Resolve thr_scanErrorPatterns : thr.

Lemma thr_checkForErrorPatterns k :
  steps (preserves (throttled b id)) (TmuxManager.checkForErrorPatterns host k).
Proof. unfold TmuxManager.checkForErrorPatterns. thr_tac. Qed.

Hint Resolve thr_checkForErrorPatterns : thr.

Lemma thr_checkInstance t0 k :
  b <= t0 ->
  steps (preserves (throttled b id)) (TmuxManager.checkInstance host t0 k).
Proof. intros Hb. unfold TmuxManager.checkInstance. thr_tac. Qed.

Lemma thr_checkInstanceHealth :
  steps (preserves (throttled b id)) (TmuxManager.checkInstanceHealth host).
Proof.
  unfold TmuxManager.checkInstanceHealth. thr_tac.
  now apply thr_checkInstance.
Qed.

Lemma thr_removeInstance k :
  steps (preserves (throttled b id)) (TmuxManager.removeInstance host k).
Proof.
  unfold TmuxManager.removeInstance. pose proof (thr_delete b id k). thr_tac.
Qed.

Lemma thr_toggleAutoRestart k :
  steps (preserves (throttled b id)) (TmuxManager.toggleAutoRestart k).
Proof. unfold TmuxManager.toggleAutoRestart, TmuxManager.listInstances. thr_tac. Qed.

Lemma thr_outputTick k :
  steps (preserves (throttled b id)) (TmuxManager.outputTick host k).
Proof. unfold TmuxManager.outputTick. thr_tac. Qed.

Lemma thr_updateAuthStatusFromOutput k :
  steps (preserves (throttled b id)) (TmuxManager.updateAuthStatusFromOutput host k).
Proof. unfold TmuxManager.updateAuthStatusFromOutput. thr_tac. Qed.

Lemma thr_listener k e :
  steps (preserves (throttled b id)) (TmuxManager.listener k e).
Proof.
  destruct e; simpl;
    unfold TmuxManager.on_amp_started, TmuxManager.on_amp_idle,
      TmuxManager.on_state_changed; thr_tac.
Qed.

Hint Resolve thr_listener : thr.

Lemma thr_withLogMonitor k method :
  steps (preserves (throttled b id)) (TmuxManager.withLogMonitor k method).
Proof. unfold TmuxManager.withLogMonitor. thr_tac. Qed.

Lemma thr_initialize :
  steps (preserves (throttled b id)) (TmuxManager.initialize host).
Proof. unfold TmuxManager.initialize. thr_tac. Qed.

End Throttle.

Section ThrottleRuns.

Variable rt : Runtime.
Variable host : Host.
Variable b : Date.
Variable id : string.

Lemma checkAuthStatus_keeps_the_check i :
  ensures (fun j => AmpInstance.lastInactivityCheck j
                    = AmpInstance.lastInactivityCheck i)
          (TmuxManager.checkAuthStatus host i).
Proof.
  intros w j Hj.
  destruct (checkAuthStatus_value host i w) as [H|H];
    rewrite H in Hj; injection Hj as <-; reflexivity.
Qed.

Lemma thr_checkAuthStatus i :
  steps (preserves (throttled b id)) (TmuxManager.checkAuthStatus host i).
Proof. unfold TmuxManager.checkAuthStatus. thr_tac. Qed.

Lemma thr_createInstance config :
  steps (preserves (throttled b id)) (TmuxManager.createInstance host config).
Proof.
  unfold TmuxManager.createInstance.
  apply steps_bind; [typeclasses eauto|thr_tac|]. intros w0.
  destruct (negb (TmuxManager.sessionExists w0)); [thr_tac|].
  apply steps_bind; [typeclasses eauto|thr_tac|]. intros _.
  apply steps_bind; [typeclasses eauto|thr_tac|]. intros _.
  apply steps_bind; [typeclasses eauto|thr_tac|]. intros _.
  apply thr_now. intros t0 Ht0.
  apply steps_bind; [typeclasses eauto|thr_tac|]. intros w1.
  apply steps_bind; [typeclasses eauto|thr_tac|]. intros _.
  apply steps_bind; [typeclasses eauto|thr_tac|]. intros _.
  eapply steps_bind_value;
    [typeclasses eauto|apply thr_checkAuthStatus
    |apply checkAuthStatus_keeps_the_check|].
  intros j Hj. simpl in Hj.
  apply steps_bind; [typeclasses eauto| |intros _].
  { pose proof (thr_sendPrompt host b id). thr_tac. }
  apply steps_bind; [typeclasses eauto| |intros _].
  { apply thr_set. lia. }
  thr_tac.
Qed.

(** Whatever happens to a manager keeps the throttle of an instance. *)
Lemma thr_step op :
  steps (preserves (throttled b id)) (Supervisor.step rt host op).
Proof.
  destruct op; simpl.
  - apply thr_initialize.
  - unfold Supervisor.discard. pose proof (thr_createInstance config). thr_tac.
  - apply thr_removeInstance.
  - apply thr_restartInstance.
  - apply thr_sendPrompt.
  - apply thr_approveCommand.
  - apply thr_cancelCommand.
  - apply thr_toggleAutoRestart.
  - apply thr_checkInstanceHealth.
  - apply thr_outputTick.
  - apply thr_updateAuthStatusFromOutput.
  - apply thr_withLogMonitor.
  - apply thr_withLogMonitor.
  - thr_tac.
Qed.

Lemma thr_run ops w :
  throttled b id w -> throttled b id (Supervisor.run rt host ops w).
Proof.
  revert w. induction ops as [|op r IH]; intros w Hw; [exact Hw|].
  simpl. apply IH. now apply thr_step.
Qed.

End ThrottleRuns.

(** *** A check writes one instance *)

#[export] Instance only_preorder k : PreOrder (only k).
Proof.
  split.
  - intros w id _. reflexivity.
  - intros a b c Hab Hbc id Hne. rewrite Hbc, Hab; auto.
Qed.

Lemma only_leaf {A} k (m : M TmuxManager.t A) :
  keeps TmuxManager.instances m -> steps (only k) m.
Proof. intros Hk w id _. now rewrite (Hk w). Qed.

Lemma only_mutate k f : steps (only k) (TmuxManager.mutate k f).
Proof.
  intros w id Hne. unfold TmuxManager.mutate, modify. simpl.
  apply get_update_ne. congruence.
Qed.

Create HintDb only.

Ltac only_tac :=
  repeat match goal with
  | |- steps _ (bind _ _) => apply steps_bind; [typeclasses eauto| |intros]
  | |- steps _ (try_catch _ _) => apply steps_try_catch; [typeclasses eauto| |intros]
  | |- steps _ (for_each _ _) => apply steps_for_each; [typeclasses eauto|intros]
  | |- steps _ (ret _) => apply steps_ret; typeclasses eauto
  | |- steps _ (throw _) => apply steps_throw; typeclasses eauto
  | |- steps _ (match ?x with _ => _ end) => destruct x
  | |- steps _ (TmuxManager.mutate _ _) => apply only_mutate
  | |- steps _ _ => solve [auto with only | apply only_leaf; keeps_tac]
  end.

Section Watchdog.

Variable host : Host.

Lemma only_restartInstance k reason :
  steps (only k) (TmuxManager.restartInstance host k reason).
Proof. unfold TmuxManager.restartInstance. only_tac. Qed.

Hint Resolve only_restartInstance : only.

Lemma only_scanErrorPatterns k instance recent patterns :
  steps (only k) (TmuxManager.scanErrorPatterns host k instance recent patterns).
Proof. induction patterns as [|p r IH]; simpl; only_tac. Qed.

Hint Resolve only_scanErrorPatterns : only.

Lemma only_checkForErrorPatterns k :
  steps (only k) (TmuxManager.checkForErrorPatterns host k).
Proof. unfold TmuxManager.checkForErrorPatterns. only_tac. Qed.

Hint Resolve only_checkForErrorPatterns : only.

Lemma only_checkInstance t0 k :
  steps (only k) (TmuxManager.checkInstance host t0 k).
Proof. unfold TmuxManager.checkInstance. only_tac. Qed.

Lemma later_restartInstance k reason :
  steps later (TmuxManager.restartInstance host k reason).
Proof. unfold TmuxManager.restartInstance. clock_tac. Qed.

Hint Resolve later_restartInstance : steps.

Lemma later_scanErrorPatterns k instance recent patterns :
  steps later (TmuxManager.scanErrorPatterns host k instance recent patterns).
Proof. induction patterns as [|p r IH]; simpl; clock_tac. Qed.

Hint Resolve later_scanErrorPatterns : steps.

Lemma later_checkInstance t0 k :
  steps later (TmuxManager.checkInstance host t0 k).
Proof.
  unfold TmuxManager.checkInstance, TmuxManager.checkForErrorPatterns. clock_tac.
Qed.

(** *** The inactivity check that is skipped *)

Lemma inactivityDue_within t0 i :
  t0 - AmpInstance.lastInactivityCheck i <= 1000 * 60 ->
  TmuxManager.inactivityDue t0 i = false.
Proof.
  intros H. unfold TmuxManager.inactivityDue.
  replace (1000 * 60 <? t0 - AmpInstance.lastInactivityCheck i) with false
    by (symmetry; apply Z.ltb_ge; exact H).
  reflexivity.
Qed.

Lemma checkInstance_skips t0 id w :
  (forall i, JsMap.get id (TmuxManager.instances w) = Some i ->
             TmuxManager.inactivityDue t0 i = false) ->
  TmuxManager.checkInstance host t0 id w = errorScanOnly host id w.
Proof.
  intros H. unfold TmuxManager.checkInstance, errorScanOnly, try_catch.
  unfold bind at 1. unfold TmuxManager.lookup. simpl.
  destruct (JsMap.get id (TmuxManager.instances w)) as [i|] eqn:E.
  - rewrite (H i eq_refl). reflexivity.
  - unfold TmuxManager.checkForErrorPatterns, bind, TmuxManager.lookup. simpl.
    now rewrite E.
Qed.

(** *** The inactivity check that acts *)

Lemma checkInstance_acts t0 id w i :
  t0 <= TmuxManager.clock w ->
  JsMap.get id (TmuxManager.instances w) = Some i ->
  TmuxManager.inactivityDue t0 i = true ->
  throttled t0 id (snd (TmuxManager.checkInstance host t0 id w)).
Proof.
  intros Hc E Hd. unfold TmuxManager.checkInstance.
  eapply (steps_after_try (preserves (throttled t0 id))).
  { intros e. thr_tac. }
  unfold bind at 1. unfold TmuxManager.lookup at 1. simpl. rewrite E, Hd.
  eapply (steps_after (preserves (throttled t0 id))).
  { intros _. apply thr_checkForErrorPatterns. }
  eapply (steps_after (preserves (throttled t0 id))).
  { intros _. pose proof (thr_restartInstance host t0 id). thr_tac. }
  split; [exact Hc|]. intros j.
  change (TmuxManager.instances
            (snd (TmuxManager.mutate id (AmpInstance.set_lastInactivityCheck t0) w)))
    with (JsMap.update id (AmpInstance.set_lastInactivityCheck t0)
            (TmuxManager.instances w)).
  rewrite get_update_eq, E. simpl. intros [= <-]. simpl. lia.
Qed.

Lemma checkInstance_returns t0 k w :
  fst (TmuxManager.checkInstance host t0 k w) = Normal tt.
Proof.
  unfold TmuxManager.checkInstance, try_catch.
  match goal with
  | |- fst (match ?x with _ => _ end) = _ => destruct x as [[[]|e] w1]
  end; reflexivity.
Qed.

(** A sweep in which the inactivity check of [id] is due leaves [id]
    throttled from the beginning of the sweep. *)
Lemma for_each_acts t1 id keys w :
  t1 <= TmuxManager.clock w ->
  (throttled t1 id w
   \/ In id keys /\ exists i, JsMap.get id (TmuxManager.instances w) = Some i
                              /\ TmuxManager.inactivityDue t1 i = true) ->
  throttled t1 id
    (snd (for_each keys (TmuxManager.checkInstance host t1) w)).
Proof.
  revert w. induction keys as [|k r IH]; intros w Hc H.
  - destruct H as [H|[[] _]]. exact H.
  - simpl. unfold bind.
    pose proof (checkInstance_returns t1 k w) as Hr.
    pose proof (later_checkInstance t1 k w) as Hl. unfold later in Hl.
    pose proof (only_checkInstance t1 k w) as Ho.
    pose proof (thr_checkInstance host t1 id t1 k (Z.le_refl t1) w) as Ht.
    assert (Ha : forall i, k = id ->
                  JsMap.get id (TmuxManager.instances w) = Some i ->
                  TmuxManager.inactivityDue t1 i = true ->
                  throttled t1 id (snd (TmuxManager.checkInstance host t1 k w))).
    { intros i -> E Hd. now apply checkInstance_acts with i. }
    destruct (TmuxManager.checkInstance host t1 k w) as [[[]|e] w1];
      simpl in *; [|discriminate].
    apply IH; [lia|].
    destruct H as [H|(Hin & i & E & Hd)]; [left; now apply Ht|].
    destruct (String.eqb k id) eqn:K.
    + apply String.eqb_eq in K. left. now apply Ha with i.
    + apply String.eqb_neq in K. right. split.
      * destruct Hin; [congruence|assumption].
      * exists i. split; [|exact Hd]. rewrite Ho; [exact E|congruence].
Qed.

Lemma sweep_acts id w i :
  JsMap.get id (TmuxManager.instances w) = Some i ->
  TmuxManager.inactivityDue (TmuxManager.clock w) i = true ->
  throttled (TmuxManager.clock w) id (snd (TmuxManager.checkInstanceHealth host w)).
Proof.
  intros E Hd. unfold TmuxManager.checkInstanceHealth, bind, TmuxManager.now, get.
  simpl. apply for_each_acts; [lia|]. right. split.
  - now apply get_keys with i.
  - eauto.
Qed.

(** A sweep on a manager in which [id] is throttled from a time within
    60 s of the sweep leaves the inactivity check of [id] out. *)
Lemma for_each_skips_throttled t1 t2 id keys w :
  t1 <= t2 -> t2 <= t1 + 1000 * 60 -> throttled t1 id w ->
  for_each keys (TmuxManager.checkInstance host t2) w
  = for_each keys
      (fun k => if String.eqb k id then errorScanOnly host id
                else TmuxManager.checkInstance host t2 k) w.
Proof.
  intros H12 H21. revert w. induction keys as [|k r IH]; intros w Hw; [reflexivity|].
  simpl. unfold bind.
  assert (Hk : (if String.eqb k id then errorScanOnly host id
                else TmuxManager.checkInstance host t2 k) w
               = TmuxManager.checkInstance host t2 k w).
  { destruct (String.eqb k id) eqn:K; [|reflexivity].
    apply String.eqb_eq in K. subst k. symmetry. apply checkInstance_skips.
    intros i E. apply inactivityDue_within.
    destruct Hw as [_ Hi]. specialize (Hi i E). lia. }
  rewrite Hk.
  pose proof (thr_checkInstance host t1 id t2 k H12 w Hw) as Ht.
  destruct (TmuxManager.checkInstance host t2 k w) as [[[]|e] w1]; simpl in *.
  - now apply IH.
  - reflexivity.
Qed.

Lemma sweep_skips_throttled t1 id w :
  throttled t1 id w -> TmuxManager.clock w <= t1 + 1000 * 60 ->
  TmuxManager.checkInstanceHealth host w = checkInstanceHealth_without host id w.
Proof.
  intros Hw Hc.
  unfold TmuxManager.checkInstanceHealth, checkInstanceHealth_without, bind,
    TmuxManager.now, get.
  simpl. apply for_each_skips_throttled with t1; auto. apply Hw.
Qed.

End Watchdog.

(** C6.  For a registered instance: a check at a time at most 60 s after
    its last inactivity check leaves the inactivity part out, it is the
    error scan alone; a check that finds the inactivity check due moves the
    last inactivity check to the beginning of its sweep or later; and so,
    after a sweep that acted on the inactivity of the instance, and whatever
    happens to the manager afterwards, a sweep that begins within 60 s of
    the beginning of the first is the sweep without the inactivity check of
    that instance: it issues no inactivity restart for it. *)
Theorem inactivity_check_is_throttled rt host id w i :
  JsMap.get id (TmuxManager.instances w) = Some i ->
  (forall t0,
     t0 - AmpInstance.lastInactivityCheck i <= 1000 * 60 ->
     TmuxManager.checkInstance host t0 id w = errorScanOnly host id w)
  /\ (forall t0,
        t0 <= TmuxManager.clock w ->
        TmuxManager.inactivityDue t0 i = true ->
        throttled t0 id (snd (TmuxManager.checkInstance host t0 id w)))
  /\ (TmuxManager.inactivityDue (TmuxManager.clock w) i = true ->
      forall ops,
        let w1 := snd (TmuxManager.checkInstanceHealth host w) in
        let w2 := Supervisor.run rt host ops w1 in
        TmuxManager.clock w2 <= TmuxManager.clock w + 1000 * 60 ->
        TmuxManager.checkInstanceHealth host w2
        = checkInstanceHealth_without host id w2).
Proof.
  intros E. split; [|split].
  - intros t0 H. apply checkInstance_skips. intros j Ej.
    rewrite E in Ej. injection Ej as <-. now apply inactivityDue_within.
  - intros t0 Hc Hd. now apply checkInstance_acts with i.
  - intros Hd ops w1 w2 Hc.
    apply sweep_skips_throttled with (TmuxManager.clock w); [|exact Hc].
    apply thr_run. now apply sweep_acts with i.
Qed.

Lemma inactivity_check_is_throttled_witness :
  let w := Scenario.idle_world in
  let i := Scenario.idle_instance in
  let w2 := Supervisor.run Reference.runtime Scenario.host_ok Scenario.busy
              (snd (TmuxManager.checkInstanceHealth Scenario.host_ok w)) in
  JsMap.get Scenario.id0 (TmuxManager.instances w) = Some i
  /\ TmuxManager.checkInstance Scenario.host_ok 60015 Scenario.id0 w
     = errorScanOnly Scenario.host_ok Scenario.id0 w
  /\ TmuxManager.inactivityDue (TmuxManager.clock w) i = true
  /\ throttled (TmuxManager.clock w) Scenario.id0
       (snd (TmuxManager.checkInstance Scenario.host_ok (TmuxManager.clock w)
               Scenario.id0 w))
  /\ TmuxManager.clock w2 <= TmuxManager.clock w + 1000 * 60
  /\ TmuxManager.checkInstanceHealth Scenario.host_ok w2
     = checkInstanceHealth_without Scenario.host_ok Scenario.id0 w2.
Proof.
  intros w i w2.
  assert (E : JsMap.get Scenario.id0 (TmuxManager.instances w) = Some i)
    by (vm_compute; reflexivity).
  assert (D : TmuxManager.inactivityDue (TmuxManager.clock w) i = true)
    by (vm_compute; reflexivity).
  assert (C : TmuxManager.clock w2 <= TmuxManager.clock w + 1000 * 60)
    by (vm_compute; discriminate).
  destruct (inactivity_check_is_throttled Reference.runtime Scenario.host_ok
              Scenario.id0 w i E) as (H1 & H2 & H3).
  split; [exact E|]. split.
  - apply H1. vm_compute. discriminate.
  - split; [exact D|]. split.
    + apply H2; [apply Z.le_refl|exact D].
    + split; [exact C|]. exact (H3 D Scenario.busy C).
Defined.

(** ** The watchdog: the scan for error patterns *)

#[export] Instance emits_preorder P : PreOrder (emits P).
Proof.
  split.
  - intros w. exists []. split; [now rewrite app_nil_r|constructor].
  - intros a b c (n1 & H1 & F1) (n2 & H2 & F2). exists (n1 ++ n2)%list. split.
    + now rewrite H2, H1, app_assoc.
    + apply Forall_app. split; assumption.
Qed.

Lemma emits_leaf {A} P (m : M TmuxManager.t A) :
  keeps TmuxManager.events m -> steps (emits P) m.
Proof.
  intros Hk w. exists []. split; [|constructor].
  rewrite (Hk w). now rewrite app_nil_r.
Qed.

Lemma emits_emitEvent P id type data severity :
  (forall t, P (AgentEvent.mk id t type data severity)) ->
  steps (emits P) (TmuxManager.emitEvent id type data severity).
Proof.
  intros H w. eexists. split; [reflexivity|]. constructor; [apply H|constructor].
Qed.

Lemma new_events_app w w' new :
  TmuxManager.events w' = (TmuxManager.events w ++ new)%list ->
  new_events w w' = new.
Proof.
  intros H. unfold new_events. rewrite H.
  rewrite skipn_app, skipn_all, Nat.sub_diag. reflexivity.
Qed.

Lemma restarts_app a b : restarts (a ++ b) = (restarts a + restarts b)%nat.
Proof. unfold restarts. now rewrite List.filter_app, length_app. Qed.

Lemma restarts_none evs :
  Forall (fun e => is_restart e = false) evs -> restarts evs = 0%nat.
Proof.
  unfold restarts. induction 1 as [|e r He _ IH]; simpl; [reflexivity|].
  now rewrite He.
Qed.

Lemma restarts_cons e evs :
  restarts (e :: evs) = ((if is_restart e then 1 else 0) + restarts evs)%nat.
Proof. unfold restarts. simpl. now destruct (is_restart e). Qed.

Create HintDb emits.

Ltac emits_tac :=
  repeat match goal with
  | |- steps _ (bind _ _) => apply steps_bind; [typeclasses eauto| |intros]
  | |- steps _ (try_catch _ _) => apply steps_try_catch; [typeclasses eauto| |intros]
  | |- steps _ (for_each _ _) => apply steps_for_each; [typeclasses eauto|intros]
  | |- steps _ (ret _) => apply steps_ret; typeclasses eauto
  | |- steps _ (throw _) => apply steps_throw; typeclasses eauto
  | |- steps _ (match ?x with _ => _ end) => destruct x
  | |- steps _ (TmuxManager.emitEvent _ _ _ _) =>
      apply emits_emitEvent; intros; first [reflexivity | exact I | solve [auto]]
  | |- steps _ _ => solve [auto with emits | apply emits_leaf; keeps_tac]
  end.

Section Scan.

Variable host : Host.

Lemma keeps_events_startLogMonitoring id :
  keeps TmuxManager.events (TmuxManager.startLogMonitoring host id).
Proof. unfold TmuxManager.startLogMonitoring. keeps_tac. Qed.

Lemma keeps_events_startOutputMonitoring id :
  keeps TmuxManager.events (TmuxManager.startOutputMonitoring id).
Proof. unfold TmuxManager.startOutputMonitoring. keeps_tac. Qed.

Hint Resolve keeps_events_startLogMonitoring keeps_events_startOutputMonitoring
  : steps.

(** A restart of a registered instance emits [restart_triggered], at the
    time it begins, and after it no further [restart_triggered]. *)
Lemma restartInstance_events id reason w i :
  JsMap.get id (TmuxManager.instances w) = Some i ->
  exists rest,
    TmuxManager.events (snd (TmuxManager.restartInstance host id reason w))
    = (TmuxManager.events w
       ++ AgentEvent.mk id (TmuxManager.clock w) AgentEvent.restart_triggered
            [("reason", match reason with Some r => VString r | None => VUndefined end)]
            Severity.warn
       :: rest)%list
    /\ Forall (fun e => is_restart e = false) rest.
Proof.
  intros E. unfold TmuxManager.restartInstance, bind at 1, TmuxManager.lookup.
  simpl. rewrite E.
  match goal with
  | |- context [bind ?m ?k w] =>
      destruct (steps_after (emits (fun e => is_restart e = false)) m k w)
        as (rest & Hr & Hf)
  end.
  { intros _. emits_tac. }
  exists rest. split; [|exact Hf]. rewrite Hr. simpl.
  now rewrite <- app_assoc.
Qed.

(** The scan emits its events one after the other, and at most one
    restart among them. *)
Lemma scanErrorPatterns_events id i recent patterns w :
  JsMap.get id (TmuxManager.instances w) = Some i ->
  exists new,
    TmuxManager.events
      (snd (TmuxManager.scanErrorPatterns host id i recent patterns w))
    = (TmuxManager.events w ++ new)%list
    /\ (restarts new <= 1)%nat.
Proof.
  intros E. revert w E. induction patterns as [|p r IH]; intros w E; simpl.
  - exists []. split; [now rewrite app_nil_r|unfold restarts; simpl; lia].
  - destruct (Js.includes recent p); [|now apply IH].
    unfold bind at 1. unfold TmuxManager.emitEvent at 1, modify. simpl.
    match goal with
    | |- context [TmuxManager.set_events ?evs w] =>
        set (w1 := TmuxManager.set_events evs w)
    end.
    assert (E1 : JsMap.get id (TmuxManager.instances w1) = Some i) by exact E.
    destruct (negb _).
    + destruct (restartInstance_events id
                  (Some ("Error pattern detected: " +:+ p)) w1 i E1)
        as (rest & Hr & Hf).
      eexists. split.
      * rewrite Hr. unfold w1. simpl. rewrite <- app_assoc. reflexivity.
      * simpl. rewrite !restarts_cons, (restarts_none rest Hf). simpl. lia.
    + destruct (IH w1 E1) as (new & Hn & Hc).
      eexists. split.
      * rewrite Hn. unfold w1. simpl. rewrite <- app_assoc. reflexivity.
      * simpl. rewrite restarts_cons. simpl. lia.
Qed.

Lemma scanErrorPatterns_no_match id i recent patterns w :
  List.find (Js.includes recent) patterns = None ->
  TmuxManager.scanErrorPatterns host id i recent patterns w = (Normal tt, w).
Proof.
  induction patterns as [|p r IH]; simpl; [reflexivity|].
  destruct (Js.includes recent p); [discriminate|exact IH].
Qed.

(** With auto-restart the scan is: the event of the first match, then
    the restart. *)
Lemma scanErrorPatterns_first_match id i recent patterns p w :
  List.find (Js.includes recent) patterns = Some p ->
  InstanceConfig.autoRestart (AmpInstance.config i) <> Some false ->
  TmuxManager.scanErrorPatterns host id i recent patterns w
  = (TmuxManager.emitEvent id AgentEvent.error_detected
       [("pattern", VString p); ("output", VString (Js.slice0 200 recent))]
       Severity.error ;;;
     TmuxManager.restartInstance host id (Some ("Error pattern detected: " +:+ p))) w.
Proof.
  intros Hf Ha. induction patterns as [|q r IH]; simpl in *; [discriminate|].
  destruct (Js.includes recent q).
  - injection Hf as ->. rewrite bool_decide_eq_false_2 by exact Ha. reflexivity.
  - now apply IH.
Qed.

(** The events of a restart and of a scan are events of the instance. *)
Lemma emits_restartInstance P id reason :
  (forall t type data severity, P (AgentEvent.mk id t type data severity)) ->
  steps (emits P) (TmuxManager.restartInstance host id reason).
Proof. intros HP. unfold TmuxManager.restartInstance. emits_tac. Qed.

Lemma emits_scanErrorPatterns P id i recent patterns :
  (forall t type data severity, P (AgentEvent.mk id t type data severity)) ->
  steps (emits P) (TmuxManager.scanErrorPatterns host id i recent patterns).
Proof.
  intros HP. induction patterns as [|p r IH]; simpl; [emits_tac|].
  destruct (Js.includes recent p); [|exact IH].
  apply steps_bind; [typeclasses eauto|emits_tac|intros _].
  destruct (negb _); [now apply emits_restartInstance|exact IH].
Qed.

Lemma emits_checkForErrorPatterns P id :
  (forall t type data severity, P (AgentEvent.mk id t type data severity)) ->
  steps (emits P) (TmuxManager.checkForErrorPatterns host id).
Proof.
  intros HP. unfold TmuxManager.checkForErrorPatterns.
  apply steps_bind; [typeclasses eauto|emits_tac|intros [i|]]; [|emits_tac].
  destruct (AmpInstance.output i); [emits_tac|].
  now apply emits_scanErrorPatterns.
Qed.

Lemma emits_checkInstance P t0 id :
  (forall t type data severity, P (AgentEvent.mk id t type data severity)) ->
  steps (emits P) (TmuxManager.checkInstance host t0 id).
Proof.
  intros HP. unfold TmuxManager.checkInstance.
  pose proof (emits_checkForErrorPatterns P id HP).
  pose proof (fun r => emits_restartInstance P id r HP).
  emits_tac.
Qed.

Lemma scanErrorPatterns_first_event id i recent patterns p w :
  List.find (Js.includes recent) patterns = Some p ->
  exists rest,
    TmuxManager.events
      (snd (TmuxManager.scanErrorPatterns host id i recent patterns w))
    = (TmuxManager.events w
       ++ error_detected id p recent (TmuxManager.clock w) :: rest)%list.
Proof.
  intros Hf. induction patterns as [|q r IH]; simpl in *; [discriminate|].
  destruct (Js.includes recent q); [|now apply IH].
  injection Hf as ->.
  match goal with
  | |- context [bind ?m ?k w] =>
      destruct (steps_after (emits (fun _ => True)) m k w) as (rest & Hr & _)
  end.
  { intros _. destruct (negb _);
      [now apply emits_restartInstance|now apply emits_scanErrorPatterns]. }
  exists rest. rewrite Hr. simpl. now rewrite <- app_assoc.
Qed.

End Scan.


Section Sweep.

Variable host : Host.

Lemma checkForErrorPatterns_events id w :
  exists new,
    TmuxManager.events (snd (TmuxManager.checkForErrorPatterns host id w))
    = (TmuxManager.events w ++ new)%list
    /\ (restarts new <= 1)%nat.
Proof.
  unfold TmuxManager.checkForErrorPatterns, bind, TmuxManager.lookup. simpl.
  destruct (JsMap.get id (TmuxManager.instances w)) as [i|] eqn:E.
  - destruct (AmpInstance.output i);
      [|now apply scanErrorPatterns_events].
    exists []. split; [now rewrite app_nil_r|unfold restarts; simpl; lia].
  - exists []. split; [now rewrite app_nil_r|unfold restarts; simpl; lia].
Qed.

(** After a restart there is no output to scan. *)
Lemma checkForErrorPatterns_without_output id w i :
  JsMap.get id (TmuxManager.instances w) = Some i ->
  AmpInstance.output i = [] ->
  TmuxManager.checkForErrorPatterns host id w = (Normal tt, w).
Proof.
  intros E O. unfold TmuxManager.checkForErrorPatterns, bind, TmuxManager.lookup.
  simpl. now rewrite E, O.
Qed.

Lemma snd_try_catch_ret (m : M TmuxManager.t unit) w :
  snd (try_catch m (fun _ => ret tt) w) = snd (m w).
Proof. unfold try_catch. now destruct (m w) as [[[]|e] w1]. Qed.

(** One instance is restarted at most once in a sweep: a restart for
    inactivity leaves no output for the scan of the same sweep. *)
Lemma checkInstance_events t0 id w :
  exists new,
    TmuxManager.events (snd (TmuxManager.checkInstance host t0 id w))
    = (TmuxManager.events w ++ new)%list
    /\ (restarts new <= 1)%nat.
Proof.
  unfold TmuxManager.checkInstance. rewrite snd_try_catch_ret.
  unfold bind at 1. unfold TmuxManager.lookup at 1. simpl.
  destruct (JsMap.get id (TmuxManager.instances w)) as [i|] eqn:E.
  2:{ exists []. split; [now rewrite app_nil_r|unfold restarts; simpl; lia]. }
  destruct (TmuxManager.inactivityDue t0 i) eqn:D.
  2:{ apply (checkForErrorPatterns_events id w). }
  unfold bind at 1. unfold bind at 1.
  unfold TmuxManager.mutate at 1, modify at 1.
  unfold bind at 1. unfold TmuxManager.emitEvent at 1, modify at 1.
  match goal with
  | |- context [TmuxManager.set_events ?evs ?w0] =>
      set (w2 := TmuxManager.set_events evs w0)
  end.
  assert (E2 : JsMap.get id (TmuxManager.instances w2)
               = Some (AmpInstance.set_lastInactivityCheck t0 i)).
  { unfold w2. simpl. now rewrite get_update_eq, E. }
  assert (V2 : exists e, TmuxManager.events w2 = (TmuxManager.events w ++ [e])%list
                         /\ is_restart e = false).
  { eexists. split; [reflexivity|reflexivity]. }
  destruct V2 as (e2 & V2 & N2). clearbody w2.
  destruct (negb _).
  - match goal with
    | |- context [TmuxManager.restartInstance host id ?r w2] =>
        pose proof (restartInstance_found host id r w2 _ E2) as F;
        destruct (restartInstance_events host id r w2 _ E2) as (rest & Hr & Hf);
        destruct (TmuxManager.restartInstance host id r w2) as [[[]|e] w3]
    end; simpl in Hr.
    + destruct F as [(t & _ & F)|((e & F) & _)]; [|discriminate].
      simpl in F.
      rewrite (checkForErrorPatterns_without_output id w3
                 (TmuxManager.reset t (AmpInstance.set_lastInactivityCheck t0 i))).
      * simpl. eexists. split.
        { rewrite Hr, V2, <- app_assoc. reflexivity. }
        simpl. rewrite !restarts_cons, N2, (restarts_none rest Hf). simpl. lia.
      * now rewrite F, get_update_eq, E2.
      * reflexivity.
    + simpl. eexists. split.
      { rewrite Hr, V2, <- app_assoc. reflexivity. }
      simpl. rewrite !restarts_cons, N2, (restarts_none rest Hf). simpl. lia.
  - change (ret tt w2) with (@Normal unit tt, w2).
    destruct (checkForErrorPatterns_events id w2) as (new & Hn & Hc).
    eexists. split.
    { rewrite Hn, V2, <- app_assoc. reflexivity. }
    simpl. rewrite restarts_cons, N2. simpl. lia.
Qed.

End Sweep.


Section SweepRestarts.

Variable host : Host.

Lemma restarts_of_app id a b :
  restarts_of id (a ++ b) = (restarts_of id a + restarts_of id b)%nat.
Proof. unfold restarts_of. now rewrite List.filter_app, restarts_app. Qed.

Lemma restarts_of_le id evs : (restarts_of id evs <= restarts evs)%nat.
Proof.
  unfold restarts_of. induction evs as [|e r IH]; simpl; [lia|].
  rewrite (restarts_cons e r). destruct (bool_decide _).
  - rewrite restarts_cons. lia.
  - lia.
Qed.

Lemma restarts_of_other id k evs :
  k <> id ->
  Forall (fun e => AgentEvent.instanceId e = k) evs ->
  restarts_of id evs = 0%nat.
Proof.
  intros Hne. unfold restarts_of. induction 1 as [|e r He _ IH]; simpl.
  - reflexivity.
  - rewrite bool_decide_eq_false_2 by congruence. exact IH.
Qed.

(** What one instance contributes to a sweep. *)
Lemma checkInstance_emits t0 k w :
  exists new,
    TmuxManager.checkInstance host t0 k w
    = (Normal tt, snd (TmuxManager.checkInstance host t0 k w))
    /\ TmuxManager.events (snd (TmuxManager.checkInstance host t0 k w))
       = (TmuxManager.events w ++ new)%list
    /\ Forall (fun e => AgentEvent.instanceId e = k) new
    /\ (restarts new <= 1)%nat.
Proof.
  destruct (checkInstance_events host t0 k w) as (new & Hn & Hc).
  destruct (emits_checkInstance host (fun e => AgentEvent.instanceId e = k) t0 k
              (fun _ _ _ _ => eq_refl) w) as (new' & Hn' & Hf).
  assert (new' = new) as -> by (rewrite Hn in Hn'; now apply app_inv_head in Hn').
  exists new. split; [|auto].
  pose proof (checkInstance_returns host t0 k w) as R.
  destruct (TmuxManager.checkInstance host t0 k w) as [c w1].
  simpl in *. now subst c.
Qed.

Lemma for_each_restarts t0 id keys w :
  NoDup keys ->
  exists new,
    TmuxManager.events (snd (for_each keys (TmuxManager.checkInstance host t0) w))
    = (TmuxManager.events w ++ new)%list
    /\ (restarts_of id new <= 1)%nat
    /\ (id ∉ keys -> restarts_of id new = 0%nat).
Proof.
  intros Hd. revert w. induction Hd as [|k r Hk Hd IH]; intros w; simpl.
  - exists []. rewrite app_nil_r.
    repeat split; unfold restarts_of, restarts; simpl; lia.
  - destruct (checkInstance_emits t0 k w) as (n1 & R & H1 & F1 & C1).
    unfold bind. rewrite R.
    destruct (IH (snd (TmuxManager.checkInstance host t0 k w)))
      as (n2 & H2 & C2 & Z2).
    exists (n1 ++ n2)%list. rewrite H2, H1, <- app_assoc.
    split; [reflexivity|]. rewrite restarts_of_app.
    destruct (decide (k = id)) as [->|Hne].
    + pose proof (restarts_of_le id n1). split.
      * rewrite (Z2 Hk). lia.
      * intros Hn. exfalso. apply Hn. now left.
    + rewrite (restarts_of_other id k n1 Hne F1). split; [exact C2|].
      intros Hn. rewrite Z2; [reflexivity|]. intros Hi. apply Hn. now right.
Qed.

(** In one sweep of the watchdog an instance is restarted at most once. *)
Lemma checkInstanceHealth_restarts id w :
  NoDup (JsMap.keys (TmuxManager.instances w)) ->
  (restarts_of id (new_events w (snd (TmuxManager.checkInstanceHealth host w)))
   <= 1)%nat.
Proof.
  intros Hd. unfold TmuxManager.checkInstanceHealth, bind, TmuxManager.now, get.
  destruct (for_each_restarts (TmuxManager.clock w) id _ w Hd) as (new & Hn & Hc & _).
  now rewrite (new_events_app _ _ new Hn).
Qed.

(** The registry is a [Map]: it holds a key once, whatever is set,
    updated or deleted. *)
Lemma elem_of_keys_set {V} x k (v : V) m :
  x ∈ JsMap.keys (JsMap.set k v m) -> x = k \/ x ∈ JsMap.keys m.
Proof.
  unfold JsMap.keys. induction m as [|[k' v'] m IH]; simpl.
  - intros ->%list_elem_of_singleton. now left.
  - destruct (String.eqb k' k); simpl; rewrite !elem_of_cons; [tauto|].
    intros [->|H]; [tauto|]. destruct (IH H); tauto.
Qed.

Lemma keys_set {V} k (v : V) m :
  NoDup (JsMap.keys m) -> NoDup (JsMap.keys (JsMap.set k v m)).
Proof.
  induction m as [|[k' v'] m IH]; simpl.
  - intros _. apply NoDup_singleton.
  - change (JsMap.keys ((k', v') :: m)) with (k' :: JsMap.keys m).
    rewrite NoDup_cons. intros [Hk Hr].
    destruct (String.eqb k' k) eqn:E.
    + change (JsMap.keys ((k', v) :: m)) with (k' :: JsMap.keys m).
      rewrite NoDup_cons. auto.
    + change (JsMap.keys ((k', v') :: JsMap.set k v m))
        with (k' :: JsMap.keys (JsMap.set k v m)).
      rewrite NoDup_cons. split; [|auto].
      intros Hx. destruct (elem_of_keys_set _ _ _ _ Hx) as [->|Hx'].
      * rewrite String.eqb_refl in E. discriminate.
      * exact (Hk Hx').
Qed.

Lemma keys_update {V} k (f : V -> V) m :
  NoDup (JsMap.keys m) -> NoDup (JsMap.keys (JsMap.update k f m)).
Proof.
  intros Hd. unfold JsMap.update. destruct (JsMap.get k m); [|exact Hd].
  now apply keys_set.
Qed.

Lemma keys_delete {V} k (m : list (string * V)) :
  NoDup (JsMap.keys m) -> NoDup (JsMap.keys (JsMap.delete k m)).
Proof.
  assert (Hin : forall x (m : list (string * V)),
             x ∈ JsMap.keys (JsMap.delete k m) -> x ∈ JsMap.keys m).
  { unfold JsMap.keys. intros x m0. induction m0 as [|[k' v'] m0 IH]; simpl; [auto|].
    destruct (String.eqb k' k); simpl; rewrite !elem_of_cons; [auto|].
    intros [->|H]; auto. }
  induction m as [|[k' v'] m IH]; simpl; [auto|].
  change (JsMap.keys ((k', v') :: m)) with (k' :: JsMap.keys m).
  rewrite NoDup_cons. intros [Hk Hr]. destruct (String.eqb k' k); [auto|].
  change (JsMap.keys ((k', v') :: JsMap.delete k m))
    with (k' :: JsMap.keys (JsMap.delete k m)).
  rewrite NoDup_cons. split; [|auto]. intros Hx. exact (Hk (Hin _ _ Hx)).
Qed.

End SweepRestarts.





(** ** The records [listInstances] returns *)

Lemma extends_refl h : extends h h.
Proof. intros l o H. exact H. Qed.

Lemma extends_trans a b c : extends a b -> extends b c -> extends a c.
Proof. intros H1 H2 l o H. auto. Qed.

Lemma extends_app h added : extends h (h ++ added)%list.
Proof. intros l o H. now apply lookup_app_l_Some. Qed.

Lemma fresh_record_app n h added r :
  fresh_record n h r -> fresh_record n (h ++ added)%list r.
Proof.
  intros (Hr & i & Hi & Hs & Hp). split; [exact Hr|].
  exists i. split; [now apply lookup_app_l_Some|auto].
Qed.

Lemma fresh_record_le n m h r :
  (n <= m)%nat -> fresh_record m h r -> fresh_record n h r.
Proof.
  intros Hle (Hr & i & Hi & Hs & Hp). split; [lia|].
  exists i. split; [exact Hi|]. split; [lia|].
  intros p E. specialize (Hp p E). lia.
Qed.

Lemma copyInstance_fresh l h r h1 :
  Heap.copyInstance l h = (Normal r, h1) ->
  exists added, h1 = (h ++ added)%list /\ fresh_record (length h) h1 r.
Proof.
  unfold Heap.copyInstance, Heap.readInstance, Heap.readStats, Heap.readPending,
    Heap.read, Heap.alloc, bind, ret, throw.
  destruct (h !! l) as [[]|]; try discriminate.
  destruct (h !! Heap.stats i) as [[]|]; try discriminate.
  destruct (Heap.pendingCommand i) as [pl|].
  - destruct (_ !! pl) as [[]|]; try discriminate.
    intros [= <- <-]. eexists. split; [rewrite <- !app_assoc; reflexivity|].
    split; [rewrite !length_app; simpl; lia|].
    eexists. split; [now apply list_lookup_middle|]. simpl.
    split; [lia|]. intros p0 [= <-]. rewrite length_app. simpl. lia.
  - intros [= <- <-]. eexists. split; [rewrite <- !app_assoc; reflexivity|].
    split; [rewrite !length_app; simpl; lia|].
    eexists. split; [now apply list_lookup_middle|]. simpl.
    split; [lia|]. discriminate.
Qed.

Lemma copyAll_fresh ls h rs h1 :
  Heap.copyAll ls h = (Normal rs, h1) ->
  exists added, h1 = (h ++ added)%list
                /\ forall r, r ∈ rs -> fresh_record (length h) h1 r.
Proof.
  revert h rs h1. induction ls as [|l rest IH]; intros h rs h1; simpl.
  - intros [= <- <-]. exists []. split; [now rewrite app_nil_r|].
    intros r Hr. inversion Hr.
  - unfold bind at 1.
    destruct (Heap.copyInstance l h) as [[r|e] ha] eqn:C; [|discriminate].
    unfold bind at 1.
    destruct (Heap.copyAll rest ha) as [[rs'|e] hb] eqn:A; [|discriminate].
    intros [= <- <-].
    destruct (copyInstance_fresh _ _ _ _ C) as (a1 & -> & F1).
    destruct (IH _ _ _ A) as (a2 & -> & F2).
    exists (a1 ++ a2)%list. split; [now rewrite app_assoc|].
    intros x [->|Hx]%elem_of_cons.
    + now apply fresh_record_app.
    + apply fresh_record_le with (length (h ++ a1)%list); [rewrite length_app; lia|].
      now apply F2.
Qed.

Lemma modify_at_other l f h k :
  k <> l -> Heap.modify_at l f h !! k = h !! k.
Proof.
  intros Hne. unfold Heap.modify_at. destruct (h !! l); [|reflexivity].
  now apply list_lookup_insert_ne.
Qed.

Lemma local_write_above n h r wr k :
  fresh_record n h r -> Heap.local wr = true -> (k < n)%nat ->
  Heap.apply_write r wr h !! k = h !! k.
Proof.
  intros (Hr & i & Hi & Hs & Hp) Hl Hk. unfold Heap.apply_write. rewrite Hi.
  destruct wr; try discriminate.
  - apply list_lookup_insert_ne. lia.
  - apply modify_at_other. lia.
  - destruct (Heap.pendingCommand i) as [pl|]; [|reflexivity].
    apply modify_at_other. specialize (Hp pl eq_refl). lia.
Qed.

Lemma date_at_extends h h' l t :
  extends h h' -> Heap.date_at h l = Some t -> Heap.date_at h' l = Some t.
Proof.
  intros He. unfold Heap.date_at. destruct (h !! l) as [o|] eqn:E; [|discriminate].
  now rewrite (He l o E).
Qed.

Lemma array_at_extends h h' l t :
  extends h h' -> Heap.array_at h l = Some t -> Heap.array_at h' l = Some t.
Proof.
  intros He. unfold Heap.array_at. destruct (h !! l) as [o|] eqn:E; [|discriminate].
  now rewrite (He l o E).
Qed.

Lemma config_at_extends h h' l t :
  extends h h' -> Heap.config_at h l = Some t -> Heap.config_at h' l = Some t.
Proof.
  intros He. unfold Heap.config_at. destruct (h !! l) as [o|] eqn:E; [|discriminate].
  now rewrite (He l o E).
Qed.

Lemma settings_at_extends h h' l t :
  extends h h' -> Heap.settings_at h l = Some t -> Heap.settings_at h' l = Some t.
Proof.
  intros He. unfold Heap.settings_at. destruct (h !! l) as [o|] eqn:E; [|discriminate].
  now rewrite (He l o E).
Qed.

Lemma stats_at_extends h h' l t :
  extends h h' -> Heap.stats_at h l = Some t -> Heap.stats_at h' l = Some t.
Proof.
  intros He. unfold Heap.stats_at. destruct (h !! l) as [o|] eqn:E; [|discriminate].
  rewrite (He l o E). destruct o; try discriminate.
  destruct (Heap.lastRestart s) as [d|]; [|auto].
  destruct (Heap.date_at h d) as [t'|] eqn:D; [|discriminate].
  now rewrite (date_at_extends h h' d t' He D).
Qed.

Lemma pending_at_extends h h' l t :
  extends h h' -> Heap.pending_at h l = Some t -> Heap.pending_at h' l = Some t.
Proof.
  intros He. unfold Heap.pending_at. destruct (h !! l) as [o|] eqn:E; [|discriminate].
  rewrite (He l o E). destruct o; try discriminate.
  destruct (Heap.date_at h (Heap.timestamp p)) as [t'|] eqn:D; [|discriminate].
  now rewrite (date_at_extends h h' _ t' He D).
Qed.

Lemma optional_extends {A} (at_ : Heap.heap -> Heap.loc -> option A) h h' l t :
  (forall x a, at_ h x = Some a -> at_ h' x = Some a) ->
  Heap.optional at_ h l = Some t -> Heap.optional at_ h' l = Some t.
Proof.
  intros Ha. unfold Heap.optional. destruct l as [x|]; [|auto].
  destruct (at_ h x) as [a|] eqn:E; [|discriminate].
  now rewrite (Ha x a E).
Qed.

Lemma deep_read_extends h h' l v :
  extends h h' -> Heap.deep_read h l = Some v -> Heap.deep_read h' l = Some v.
Proof.
  intros He. unfold Heap.deep_read.
  destruct (h !! l) as [o|] eqn:E; [|discriminate].
  rewrite (He l o E). destruct o; try discriminate.
  destruct (Heap.date_at h (Heap.createdAt i)) eqn:E1; [|discriminate].
  destruct (Heap.date_at h (Heap.lastActivity i)) eqn:E2; [|discriminate].
  destruct (Heap.date_at h (Heap.lastInactivityCheck i)) eqn:E3; [|discriminate].
  destruct (Heap.array_at h (Heap.output i)) eqn:E4; [|discriminate].
  destruct (Heap.optional Heap.pending_at h (Heap.pendingCommand i)) eqn:E5;
    [|discriminate].
  destruct (Heap.stats_at h (Heap.stats i)) eqn:E6; [|discriminate].
  destruct (Heap.config_at h (Heap.config i)) eqn:E7; [|discriminate].
  destruct (Heap.array_at h (Heap.errorPatterns i)) eqn:E8; [|discriminate].
  destruct (Heap.optional Heap.settings_at h (Heap.ampSettings i)) eqn:E9;
    [|discriminate].
  rewrite (date_at_extends _ _ _ _ He E1), (date_at_extends _ _ _ _ He E2),
    (date_at_extends _ _ _ _ He E3), (array_at_extends _ _ _ _ He E4),
    (optional_extends _ _ _ _ _ (fun x a => pending_at_extends h h' x a He) E5),
    (stats_at_extends _ _ _ _ He E6), (config_at_extends _ _ _ _ He E7),
    (array_at_extends _ _ _ _ He E8),
    (optional_extends _ _ _ _ _ (fun x a => settings_at_extends h h' x a He) E9).
  auto.
Qed.

Lemma shares_restart_extends h h' l l' :
  extends h h' -> shares_restart h l l' -> shares_restart h' l l'.
Proof.
  intros He (Hne & s & s' & H1 & H2 & H3). split; [exact Hne|].
  exists s, s'. split; [now apply He|]. split; [now apply He|exact H3].
Qed.

Lemma shares_timestamp_extends h h' p p' :
  extends h h' -> shares_timestamp h p p' -> shares_timestamp h' p p'.
Proof.
  intros He. unfold shares_timestamp. destruct p as [l|], p' as [l'|]; auto.
  intros (Hne & c & c' & H1 & H2 & H3). split; [exact Hne|].
  exists c, c'. split; [now apply He|]. split; [now apply He|exact H3].
Qed.

Lemma shares_extends h h' i i' : extends h h' -> shares h i i' -> shares h' i i'.
Proof.
  intros He (H1 & H2 & H3 & H4 & H5 & H6 & H7 & H8 & H9).
  repeat (split; [assumption|]). split.
  - now apply shares_restart_extends with h.
  - now apply shares_timestamp_extends with h.
Qed.

Lemma copyInstance_shares l h r h1 :
  Heap.copyInstance l h = (Normal r, h1) ->
  exists i i', h !! l = Some (Heap.OInstance i)
               /\ h1 !! r = Some (Heap.OInstance i')
               /\ r <> l
               /\ shares h1 i i'.
Proof.
  unfold Heap.copyInstance, Heap.readInstance, Heap.readStats, Heap.readPending,
    Heap.read, Heap.alloc, bind, ret, throw.
  destruct (h !! l) as [[]|] eqn:E; try discriminate.
  apply lookup_lt_Some in E.
  destruct (h !! Heap.stats i) as [[]|] eqn:Es; try discriminate.
  pose proof (lookup_lt_Some _ _ _ Es) as Ls.
  destruct (Heap.pendingCommand i) as [pl|] eqn:Ep.
  - destruct (_ !! pl) as [[]|] eqn:El; try discriminate.
    assert (Lp : (pl < length h)%nat).
    { pose proof (lookup_lt_Some _ _ _ El) as Lt.
      rewrite length_app in Lt. simpl in Lt.
      destruct (decide (pl < length h)%nat) as [?|Hge]; [assumption|].
      assert (pl = length h) as -> by lia.
      unfold Heap.loc, Heap.heap in El.
      rewrite lookup_app_r, Nat.sub_diag in El by lia. discriminate. }
    assert (Elh : h !! pl = Some (Heap.OPending p)).
    { unfold Heap.loc, Heap.heap in El.
      rewrite lookup_app_l in El by exact Lp. exact El. }
    intros [= <- <-]. eexists _, _. split; [reflexivity|].
    split; [now apply list_lookup_middle|].
    split; [rewrite !length_app; simpl; lia|].
    repeat (split; [reflexivity|]). simpl. split.
    + split; [lia|]. eexists _, _.
      split; [apply lookup_app_l_Some, lookup_app_l_Some, lookup_app_l_Some; eassumption|].
      split; [apply lookup_app_l_Some, lookup_app_l_Some;
              now apply list_lookup_middle|reflexivity].
    + rewrite Ep. split; [rewrite length_app; simpl; lia|]. eexists _, _.
      split; [apply lookup_app_l_Some, lookup_app_l_Some, lookup_app_l_Some; eassumption|].
      split; [apply lookup_app_l_Some; now apply list_lookup_middle
             |reflexivity].
  - intros [= <- <-]. eexists _, _. split; [reflexivity|].
    split; [now apply list_lookup_middle|].
    split; [rewrite !length_app; simpl; lia|].
    repeat (split; [reflexivity|]). simpl. split.
    + split; [lia|]. eexists _, _.
      split; [apply lookup_app_l_Some, lookup_app_l_Some; eassumption|].
      split; [apply lookup_app_l_Some; now apply list_lookup_middle
             |reflexivity].
    + now rewrite Ep.
Qed.

Lemma copyAll_shares ls h rs h1 :
  Heap.copyAll ls h = (Normal rs, h1) ->
  forall r, r ∈ rs ->
    exists l i i', l ∈ ls
                   /\ h1 !! l = Some (Heap.OInstance i)
                   /\ h1 !! r = Some (Heap.OInstance i')
                   /\ r <> l
                   /\ shares h1 i i'.
Proof.
  revert h rs h1. induction ls as [|l rest IH]; intros h rs h1; simpl.
  - intros [= <- <-] r Hr. inversion Hr.
  - unfold bind at 1.
    destruct (Heap.copyInstance l h) as [[r|e] ha] eqn:C; [|discriminate].
    unfold bind at 1.
    destruct (Heap.copyAll rest ha) as [[rs'|e] hb] eqn:A; [|discriminate].
    intros [= <- <-].
    destruct (copyInstance_fresh _ _ _ _ C) as (a1 & -> & _).
    destruct (copyAll_fresh _ _ _ _ A) as (a2 & -> & _).
    intros x [->|Hx]%elem_of_cons.
    + destruct (copyInstance_shares _ _ _ _ C) as (i & i' & Hi & Hi' & Hne & Hs).
      exists l, i, i'. split; [now left|].
      split; [now apply lookup_app_l_Some, lookup_app_l_Some|].
      split; [now apply lookup_app_l_Some|]. split; [exact Hne|].
      apply shares_extends with (h ++ a1)%list; [apply extends_app|exact Hs].
    + destruct (IH _ _ _ A x Hx) as (l' & i & i' & Hl & Hi & Hi' & Hne & Hs).
      exists l', i, i'. split; [now right|auto].
Qed.

(** A write to an object that the record shares with the registered
    instance is the write through the registered instance. *)
Lemma shared_write h (l r : Heap.loc) i i' wr :
  h !! l = Some (Heap.OInstance i) ->
  h !! r = Some (Heap.OInstance i') ->
  shares h i i' ->
  Heap.local wr = false ->
  Heap.apply_write r wr h = Heap.apply_write l wr h.
Proof.
  intros Hl Hr (H1 & H2 & H3 & H4 & H5 & H6 & H7 & H8 & H9) Hw.
  unfold Heap.apply_write. rewrite Hl, Hr.
  destruct wr; try discriminate; try congruence.
  - now rewrite H4.
  - destruct H8 as (_ & s & s' & E & E' & Er). now rewrite E, E', Er.
  - unfold shares_timestamp in H9.
    destruct (Heap.pendingCommand i) as [p|], (Heap.pendingCommand i') as [p'|];
      try destruct H9; try reflexivity.
    destruct H0 as (c & c' & E & E' & Et). now rewrite E, E', Et.
Qed.

(** C8 as amended.  [listInstances] changes no object.  Every record it
    returns is a new object for a registered one and holds the objects
    the registered one holds: its configuration, its output, its error
    patterns, its settings and its dates are shared, the date of the
    last restart in its [stats] and the time stamp of its
    [pendingCommand] among them, so that a write to one of these objects
    through the record is the write through the registered instance.  An
    assignment to a property of a returned record, of its [stats] or of
    its [pendingCommand] leaves every instance as it was stored. *)
Theorem listed_record_is_a_shallow_copy h registry rs h1 :
  Heap.listInstances registry h = (Normal rs, h1) ->
  extends h h1
  /\ (forall r, r ∈ rs ->
        exists l i i', l ∈ JsMap.values registry
                       /\ h1 !! l = Some (Heap.OInstance i)
                       /\ h1 !! r = Some (Heap.OInstance i')
                       /\ r <> l
                       /\ shares h1 i i'
                       /\ forall wr, Heap.local wr = false ->
                            Heap.apply_write r wr h1
                            = Heap.apply_write l wr h1)
  /\ (forall r wr, r ∈ rs -> Heap.local wr = true ->
        forall l v, Heap.deep_read h l = Some v ->
                    Heap.deep_read (Heap.apply_write r wr h1) l = Some v).
Proof.
  unfold Heap.listInstances. intros L.
  destruct (copyAll_fresh _ _ _ _ L) as (added & -> & F).
  split; [apply extends_app|]. split.
  - intros r Hr.
    destruct (copyAll_shares _ _ _ _ L r Hr)
      as (l & i & i' & Hl & Hi & Hi' & Hne & Hs).
    exists l, i, i'. split; [exact Hl|]. split; [exact Hi|].
    split; [exact Hi'|]. split; [exact Hne|]. split; [exact Hs|].
    intros wr Hw. now apply shared_write with i i'.
  - intros r wr Hr Hw l v Hv. apply deep_read_extends with h; [|exact Hv].
    intros k o Hk.
    assert (Hlt : (k < length h)%nat) by (now apply lookup_lt_Some in Hk).
    etransitivity; [exact (local_write_above _ _ r wr k (F r Hr) Hw Hlt)|].
    now apply lookup_app_l_Some.
Qed.


Lemma listed_record_is_a_shallow_copy_witness :
  let h := Scenario.heap0 in
  let h1 := Scenario.heap1 in
  let r := Scenario.listed in
  Heap.listInstances Scenario.registry h = (Normal [r], h1)
  /\ Heap.deep_read h Scenario.registered = Some Scenario.plain_instance
  /\ Heap.deep_read h1 r = Some Scenario.plain_instance
  /\ Heap.deep_read (Heap.apply_write r (Heap.Top (Heap.set_status Status.error)) h1)
       Scenario.registered
     = Some Scenario.plain_instance
  /\ Heap.deep_read
       (Heap.apply_write r (Heap.InStats (fun _ => Heap.mkStats 7 7 7 7 None)) h1)
       Scenario.registered
     = Some Scenario.plain_instance
  /\ Heap.deep_read
       (Heap.apply_write r (Heap.InStats (fun _ => Heap.mkStats 7 7 7 7 None)) h1) r
     <> Some Scenario.plain_instance.
Proof.
  intros h h1 r.
  assert (L : Heap.listInstances Scenario.registry h = (Normal [r], h1))
    by (vm_compute; reflexivity).
  assert (V : Heap.deep_read h Scenario.registered = Some Scenario.plain_instance)
    by (vm_compute; reflexivity).
  assert (R : r ∈ [r]) by (now left).
  destruct (listed_record_is_a_shallow_copy h Scenario.registry [r] h1 L)
    as (_ & _ & W).
  split; [exact L|]. split; [exact V|].
  split; [vm_compute; reflexivity|].
  split; [exact (W r (Heap.Top (Heap.set_status Status.error)) R eq_refl _ _ V)|].
  split; [exact (W r (Heap.InStats (fun _ => Heap.mkStats 7 7 7 7 None)) R eq_refl
                   _ _ V)|].
  vm_compute. discriminate.
Defined.

(** C8 fails as it is stated.  The registry holds the plain instance and
    [listInstances] returns one record for it.  An assignment to
    [autoRestart] of the configuration of the record, the one the control
    socket makes to toggle auto-restart, a [push] on its output and a
    [push] on its error patterns, an assignment to a setting and a
    [setTime] on its date of creation each change the registered
    instance.  For an instance that was restarted and holds a command, a
    [setTime] on the date of the last restart in the [stats] of the
    record, and one on the time stamp of its [pendingCommand], change
    the registered instance as well. *)
Lemma nested_write_reaches_the_registry :
  let h := Scenario.heap0 in
  let h1 := Scenario.heap1 in
  let r := Scenario.listed in
  let stored h' := Heap.deep_read h' Scenario.registered in
  let toggle c :=
    InstanceConfig.set_autoRestart
      (Some (negb (bool_decide (InstanceConfig.autoRestart c = Some true)))) c in
  let push (a : list string) := (a ++ ["x"])%list in
  let held h' := Heap.deep_read h' Scenario.held in
  Heap.listInstances Scenario.registry h = (Normal [r], h1)
  /\ stored h = Some Scenario.plain_instance
  /\ stored h1 = Some Scenario.plain_instance
  /\ stored (Heap.apply_write r (Heap.InConfig toggle) h1)
     = Some (AmpInstance.set_config
               (toggle (AmpInstance.config Scenario.plain_instance))
               Scenario.plain_instance)
  /\ stored (Heap.apply_write r (Heap.InConfig toggle) h1)
     <> Some Scenario.plain_instance
  /\ stored (Heap.apply_write r (Heap.InOutput push) h1)
     = Some (AmpInstance.set_output
               (push (AmpInstance.output Scenario.plain_instance))
               Scenario.plain_instance)
  /\ stored (Heap.apply_write r (Heap.InOutput push) h1)
     <> Some Scenario.plain_instance
  /\ stored (Heap.apply_write r (Heap.InErrorPatterns push) h1)
     <> Some Scenario.plain_instance
  /\ stored (Heap.apply_write r (Heap.InAmpSettings
                            (fun _ => AmpSettings.mk (Some false) None None None
                                        (Some ["rm"]))) h1)
     <> Some Scenario.plain_instance
  /\ stored (Heap.apply_write r (Heap.InCreatedAt 9000) h1)
     <> Some Scenario.plain_instance
  /\ Heap.listInstances Scenario.holding Scenario.heap2
     = (Normal [Scenario.listed_held], Scenario.heap3)
  /\ held Scenario.heap2 = Some Scenario.held_instance
  /\ held Scenario.heap3 = Some Scenario.held_instance
  /\ held (Heap.apply_write Scenario.listed_held (Heap.InLastRestart 9000)
             Scenario.heap3)
     = Some (AmpInstance.set_stats (Stats.mk 1 0 0 1 (Some 9000))
               Scenario.held_instance)
  /\ held (Heap.apply_write Scenario.listed_held (Heap.InLastRestart 9000)
             Scenario.heap3)
     <> Some Scenario.held_instance
  /\ held (Heap.apply_write Scenario.listed_held (Heap.InPendingTimestamp 9000)
             Scenario.heap3)
     = Some (AmpInstance.set_pendingCommand
               (Some (PendingCommand.mk "rm -rf /" true 9000))
               Scenario.held_instance)
  /\ held (Heap.apply_write Scenario.listed_held (Heap.InPendingTimestamp 9000)
             Scenario.heap3)
     <> Some Scenario.held_instance.
Proof.
  intros h h1 r stored toggle push held.
  repeat split; try (vm_compute; reflexivity); vm_compute; discriminate.
Qed.

(* ================================================================== *)
(** * Further properties of the manager *)

(** ** Specifications of methods *)

Section Triples.

Context {S : Type}.

Lemma triple_ret {A} (P : S -> Prop) (a : A) Q E :
  (forall s, P s -> Q a s) -> triple P (ret a) Q E.
Proof. intros H s Hs. simpl. auto. Qed.

Lemma triple_throw {A} (P : S -> Prop) e (Q : A -> S -> Prop) E :
  (forall s, P s -> E e s) -> triple P (throw e) Q E.
Proof. intros H s Hs. simpl. auto. Qed.

Lemma triple_bind {A B} (P : S -> Prop) (m : M S A) (k : A -> M S B) R Q E :
  triple P m R E -> (forall a, triple (R a) (k a) Q E) -> triple P (bind m k) Q E.
Proof.
  intros Hm Hk s Hs. unfold bind. specialize (Hm s Hs).
  destruct (m s) as [[a|e] s1]; [now apply Hk|exact Hm].
Qed.

Lemma triple_try_catch {A} (P : S -> Prop) (m : M S A) h (Q : A -> S -> Prop) E' E :
  triple P m Q E' -> (forall e, triple (E' e) (h e) Q E) ->
  triple P (try_catch m h) Q E.
Proof.
  intros Hm Hh s Hs. unfold try_catch. specialize (Hm s Hs).
  destruct (m s) as [[a|e] s1]; [exact Hm|now apply Hh].
Qed.

Lemma triple_conseq {A} (P P' : S -> Prop) (m : M S A) (Q Q' : A -> S -> Prop)
    (E E' : JsError -> S -> Prop) :
  triple P' m Q' E' ->
  (forall s, P s -> P' s) -> (forall a s, Q' a s -> Q a s) ->
  (forall e s, E' e s -> E e s) ->
  triple P m Q E.
Proof.
  intros Hm HP HQ HE s Hs. specialize (Hm s (HP s Hs)).
  destruct (m s) as [[a|e] s1]; auto.
Qed.

Lemma triple_get (P : S -> Prop) Q E :
  (forall s, P s -> Q s s) -> triple P get Q E.
Proof. intros H s Hs. simpl. auto. Qed.

Lemma triple_modify (P : S -> Prop) f Q E :
  (forall s, P s -> Q tt (f s)) -> triple P (modify f) Q E.
Proof. intros H s Hs. simpl. auto. Qed.

Lemma triple_for_each {A} (I : S -> Prop) (l : list A) body E :
  (forall a, triple I (body a) (fun _ => I) E) ->
  triple I (for_each l body) (fun _ => I) E.
Proof.
  intros Hb. induction l as [|a r IH]; simpl.
  - now apply triple_ret.
  - eapply triple_bind; [apply Hb|intros ?; exact IH].
Qed.

Lemma triple_and {A} (P : S -> Prop) (m : M S A) Q1 Q2 E1 E2 :
  triple P m Q1 E1 -> triple P m Q2 E2 ->
  triple P m (fun a s => Q1 a s /\ Q2 a s) (fun e s => E1 e s /\ E2 e s).
Proof.
  intros H1 H2 s Hs. specialize (H1 s Hs). specialize (H2 s Hs).
  destruct (m s) as [[a|e] s1]; auto.
Qed.

End Triples.

(** What [steps] and [returns] say, as specifications. *)
Lemma triple_steps {A} (R : relation TmuxManager.t) (m : M TmuxManager.t A) w0 :
  steps R m ->
  triple (fun w => w = w0) m (fun _ w' => R w0 w') (fun _ w' => R w0 w').
Proof.
  intros H w ->. specialize (H w0). destruct (m w0) as [[a|e] w1]; exact H.
Qed.

Lemma triple_keeps {A X} (proj : TmuxManager.t -> X) (m : M TmuxManager.t A) x :
  keeps proj m ->
  triple (fun w => proj w = x) m (fun _ w' => proj w' = x) (fun _ w' => proj w' = x).
Proof.
  intros H w Hw. specialize (H w). unfold same in H.
  destruct (m w) as [[a|e] w1]; simpl in H; congruence.
Qed.

Lemma triple_returns {A} (P : TmuxManager.t -> Prop) (m : M TmuxManager.t A) Q E :
  returns m -> triple P m Q E -> triple P m Q never.
Proof.
  intros Hr Hm w Hw. specialize (Hm w Hw). destruct (Hr w) as [a Ha].
  destruct (m w) as [[a'|e] w1]; [exact Hm|discriminate].
Qed.

(** A step that leaves the instances alone and, under [G], returns. *)
Lemma triple_quiet {A} (m : M TmuxManager.t A) I0 (G : Prop) (Bad : JsError -> Prop) :
  keeps TmuxManager.instances m -> (G -> returns m) ->
  triple (fun w => TmuxManager.instances w = I0) m
    (fun _ w' => TmuxManager.instances w' = I0)
    (fun e w' => TmuxManager.instances w' = I0 /\ (G -> Bad e)).
Proof.
  intros Hk Hr w Hw. specialize (Hk w). unfold same in Hk.
  destruct (m w) as [[a|e] w1] eqn:Em; simpl in Hk; [congruence|].
  split; [congruence|]. intros g. destruct (Hr g w) as [a Ha].
  rewrite Em in Ha. discriminate.
Qed.

Lemma returns_fs_mkdir host path :
  accepting host -> returns (TmuxManager.fs_mkdir host path).
Proof.
  intros [_ Hf] w. unfold TmuxManager.fs_mkdir, bind, TmuxManager.call. simpl.
  rewrite Hf. simpl. eauto.
Qed.

Lemma keeps_instances_checkAuthStatus host i :
  keeps TmuxManager.instances (TmuxManager.checkAuthStatus host i).
Proof. unfold TmuxManager.checkAuthStatus. keeps_tac. Qed.

Lemma returns_checkAuthStatus host i : returns (TmuxManager.checkAuthStatus host i).
Proof. unfold TmuxManager.checkAuthStatus. returns_tac. Qed.

(** [createInstance] with a non-empty [initialPrompt] throws and leaves
    the registry as it was: it sends the prompt to the new id before the
    instance is registered. *)
Lemma initial_prompt_throws host config prompt w :
  InstanceConfig.initialPrompt config = Some prompt -> prompt <> "" ->
  JsMap.get (uuidv4 host (TmuxManager.drawn w)) (TmuxManager.instances w) = None ->
  let r := TmuxManager.createInstance host (Some config) w in
  (exists e, fst r = Thrown e)
  /\ TmuxManager.instances (snd r) = TmuxManager.instances w
  /\ (accepting host -> TmuxManager.sessionExists w = true ->
      fst r = Thrown (TmuxManager.not_found (uuidv4 host (TmuxManager.drawn w)))).
Proof.
  intros Hp Hne Hfresh r. subst r.
  set (id := uuidv4 host (TmuxManager.drawn w)) in *.
  assert (H : match TmuxManager.createInstance host (Some config) w with
              | (Normal _, _) => False
              | (Thrown e, w1) =>
                  TmuxManager.instances w1 = TmuxManager.instances w
                  /\ (accepting host -> TmuxManager.sessionExists w = true ->
                      e = TmuxManager.not_found id)
              end).
  { unfold TmuxManager.createInstance. unfold bind at 1, get.
    destruct (TmuxManager.sessionExists w) eqn:SE; simpl negb; cbv iota.
    2:{ simpl. split; [reflexivity|]. intros _ [=]. }
    match goal with
    | |- match ?body w with _ => _ end => set (b := body)
    end.
    assert (T : triple (fun w' => TmuxManager.instances w' = TmuxManager.instances w)
                  b (fun _ _ => False)
                  (fun e w' => TmuxManager.instances w' = TmuxManager.instances w
                               /\ (accepting host -> e = TmuxManager.not_found id))).
    { unfold b. cbv zeta. simpl or_else. rewrite Hp.
      destruct prompt as [|c p]; [congruence|].
      eapply triple_bind;
        [apply triple_quiet; [keeps_tac|intros Ha; returns_tac]|intros ?].
      eapply triple_bind;
        [apply triple_quiet; [keeps_tac|intros Ha; now apply returns_fs_mkdir]|intros ?].
      eapply triple_bind;
        [apply triple_quiet;
         [keeps_tac|intros Ha; now apply returns_runTmuxCommand]|intros ?].
      eapply triple_bind;
        [apply triple_quiet; [keeps_tac|intros Ha; returns_tac]|intros ?].
      eapply triple_bind;
        [apply triple_quiet; [keeps_tac|intros Ha; returns_tac]|intros ?].
      eapply triple_bind;
        [apply triple_quiet;
         [keeps_tac|intros Ha; now apply returns_setupInstanceEnvironment]|intros ?].
      eapply triple_bind;
        [apply triple_quiet;
         [keeps_tac|intros Ha; now apply returns_startAmpCLI]|intros ?].
      eapply triple_bind;
        [apply triple_quiet;
         [apply keeps_instances_checkAuthStatus
         |intros Ha; apply returns_checkAuthStatus]|intros ?].
      eapply triple_bind with (R := fun _ _ => False); [|intros ? ? []].
      intros w' Hw'. unfold TmuxManager.sendPrompt, bind, TmuxManager.lookup. simpl.
      fold id. rewrite Hw', Hfresh. simpl. auto. }
    specialize (T w eq_refl).
    destruct (b w) as [[a|e] w1]; [destruct T|]. destruct T as [Hi He].
    split; [exact Hi|]. intros Ha _. exact (He Ha). }
  destruct (TmuxManager.createInstance host (Some config) w) as [[a|e] w1];
    [destruct H|]. destruct H as [Hi He]. simpl.
  split; [eauto|]. split; [exact Hi|]. intros Ha Hs. now rewrite (He Ha Hs).
Qed.

(** X3.  [removeInstance] of an id that is not registered throws [not
    found] and changes nothing.  For a registered instance it returns,
    whether or not tmux could kill the window: the instance is gone from
    the registry, the other instances are as they were, its two monitors
    are stopped, one [kill-window] was issued and one event, [status_changed]
    to [stopped], was emitted. *)
Theorem removing_an_instance_forgets_it host id w :
  let r := TmuxManager.removeInstance host id w in
  match JsMap.get id (TmuxManager.instances w) with
  | None => r = (Thrown (TmuxManager.not_found id), w)
  | Some i =>
      fst r = Normal tt
      /\ JsMap.get id (TmuxManager.instances (snd r)) = None
      /\ (forall k, k <> id ->
            JsMap.get k (TmuxManager.instances (snd r))
            = JsMap.get k (TmuxManager.instances w))
      /\ (id ∉ TmuxManager.outputMonitors (snd r))
      /\ JsMap.get id (TmuxManager.logMonitors (snd r)) = None
      /\ TmuxManager.calls (snd r)
         = (TmuxManager.calls w
            ++ [Tmux ["kill-window"; "-t"; TmuxManager.target i w]])%list
      /\ new_events w (snd r)
         = [AgentEvent.mk id (TmuxManager.clock w) AgentEvent.status_changed
              [("status", VStatus Status.stopped)] Severity.info]
  end.
Proof.
  intros r. subst r.
  unfold TmuxManager.removeInstance, TmuxManager.lookup,
    TmuxManager.emitEvent, TmuxManager.stopOutputMonitoring,
    TmuxManager.stopLogMonitoring, TmuxManager.runTmuxCommand, TmuxManager.call,
    TmuxManager.target.
  unfold bind, try_catch, modify, get, ret, throw.
  destruct (JsMap.get id (TmuxManager.instances w)) as [i|] eqn:E;
    [|reflexivity].
  simpl.
  match goal with
  | |- context [tmux host ?n ?args] => destruct (tmux host n args) as [code out err|e]
  end; [destruct (code =? 0)|]; simpl.
  all: repeat split; try reflexivity.
  all: try apply get_delete_eq.
  all: try (intros k Hk; apply get_delete_ne; congruence).
  all: try (intros [Hp _]%list_elem_of_filter; rewrite String.eqb_refl in Hp;
            exact Hp).
  all: try (unfold new_events; simpl; rewrite skipn_app, skipn_all, Nat.sub_diag;
            reflexivity).
Qed.

Lemma bind_normal {S A B} (m : M S A) (k : A -> M S B) s a s1 :
  m s = (Normal a, s1) -> bind m k s = k a s1.
Proof. intros H. unfold bind. now rewrite H. Qed.

Lemma bind_thrown {S A B} (m : M S A) (k : A -> M S B) s e s1 :
  m s = (Thrown e, s1) -> bind m k s = (Thrown e, s1).
Proof. intros H. unfold bind. now rewrite H. Qed.

Section Typing.

Variable host : Host.
Hypothesis host_accepts : accepting host.

(** On an accepting host a tmux command returns and is the next call. *)
Lemma runTmuxCommand_accepted args w :
  exists out,
    TmuxManager.runTmuxCommand host args w
    = (Normal out,
       TmuxManager.set_clock
         (TmuxManager.clock w + Z.of_N (elapsed host (length (TmuxManager.calls w))))
         (TmuxManager.set_calls (TmuxManager.calls w ++ [Tmux args]) w)).
Proof.
  unfold TmuxManager.runTmuxCommand, bind, TmuxManager.call. simpl.
  destruct host_accepts as [Ht _].
  destruct (Ht (length (TmuxManager.calls w)) args) as (out & err & ->).
  simpl. eauto.
Qed.

Lemma send_keys_accepted i keys w :
  exists w1,
    TmuxManager.send_keys host i keys w = (Normal tt, w1)
    /\ TmuxManager.calls w1
       = (TmuxManager.calls w
          ++ [Tmux (["send-keys"; "-t"; TmuxManager.target i w] ++ keys)])%list
    /\ TmuxManager.sessionName w1 = TmuxManager.sessionName w.
Proof.
  unfold TmuxManager.send_keys. unfold bind at 1, get.
  destruct (runTmuxCommand_accepted
              (["send-keys"; "-t"; TmuxManager.target i w] ++ keys)%list w)
    as (out & H).
  rewrite (bind_normal _ _ _ _ _ H). simpl. eexists. split; [reflexivity|].
  split; reflexivity.
Qed.

Lemma sendLines_accepted i lines w :
  exists w1,
    TmuxManager.sendLines host i lines w = (Normal tt, w1)
    /\ TmuxManager.calls w1
       = (TmuxManager.calls w ++ keystrokes (TmuxManager.target i w) lines)%list
    /\ TmuxManager.sessionName w1 = TmuxManager.sessionName w.
Proof.
  revert w. induction lines as [|l r IH]; intros w.
  - simpl. exists w. rewrite app_nil_r. auto.
  - destruct r as [|l' r].
    + simpl.
      destruct (send_keys_accepted i [l] w) as (w1 & H1 & C1 & S1).
      rewrite (bind_normal _ _ _ _ _ H1).
      destruct (send_keys_accepted i ["Enter"] w1) as (w2 & H2 & C2 & S2).
      exists w2. split; [exact H2|]. split; [|congruence].
      rewrite C2, C1. unfold TmuxManager.target. rewrite S1.
      now rewrite <- app_assoc.
    + rewrite sendLines_cons.
      destruct (send_keys_accepted i [l] w) as (w1 & H1 & C1 & S1).
      rewrite (bind_normal _ _ _ _ _ H1).
      destruct (send_keys_accepted i [" \"; "Enter"] w1) as (w2 & H2 & C2 & S2).
      rewrite (bind_normal _ _ _ _ _ H2).
      unfold bind at 1, TmuxManager.sleep, modify.
      match goal with
      | |- context [TmuxManager.sendLines host i (l' :: r) ?w3] =>
          destruct (IH w3) as (w4 & H4 & C4 & S4)
      end.
      exists w4. split; [exact H4|]. split.
      * rewrite C4. simpl TmuxManager.calls. rewrite C2, C1.
        unfold TmuxManager.target. simpl TmuxManager.sessionName.
        rewrite S2, S1. change (keystrokes ?t (l :: l' :: r))
          with (Tmux ["send-keys"; "-t"; t; l]
                :: Tmux ["send-keys"; "-t"; t; " \"; "Enter"]
                :: keystrokes t (l' :: r)).
        rewrite <- !app_assoc. reflexivity.
      * rewrite S4. simpl. congruence.
Qed.

End Typing.

Lemma keystrokes_length target lines :
  length (keystrokes target lines) = (2 * length lines)%nat.
Proof.
  induction lines as [|l r IH]; [reflexivity|].
  destruct r as [|l' r]; [reflexivity|].
  change (keystrokes target (l :: l' :: r))
    with (Tmux ["send-keys"; "-t"; target; l]
          :: Tmux ["send-keys"; "-t"; target; " \"; "Enter"]
          :: keystrokes target (l' :: r)).
  simpl length in *. rewrite IH. lia.
Qed.

(** X4.  [sendPrompt] on an instance that does not require approval marks
    the instance [running] with the prompt as [currentPrompt] and counts
    the prompt before it types anything: the registry holds the marked
    instance also when a keystroke was rejected and the method threw.  On
    a host that accepts every command the method returns and has issued
    exactly the keystrokes of the lines of the prompt, two tmux calls a
    line. *)
Theorem prompt_is_counted_before_it_is_typed host id prompt w i :
  JsMap.get id (TmuxManager.instances w) = Some i ->
  TmuxManager.requiresApproval i = false ->
  let r := TmuxManager.sendPrompt host id prompt w in
  (exists i', JsMap.get id (TmuxManager.instances (snd r)) = Some i'
              /\ i' = TmuxManager.run prompt (TmuxManager.clock w) i
              /\ AmpInstance.status i' = Status.running
              /\ AmpInstance.currentPrompt i' = Some prompt
              /\ Stats.promptsExecuted (AmpInstance.stats i')
                 = Stats.promptsExecuted (AmpInstance.stats i) + 1)
  /\ (accepting host ->
      fst r = Normal tt
      /\ TmuxManager.calls (snd r)
         = (TmuxManager.calls w
            ++ keystrokes (TmuxManager.target i w) (Js.split Js.newline prompt))%list
      /\ length (TmuxManager.calls (snd r))
         = (length (TmuxManager.calls w)
            + 2 * length (Js.split Js.newline prompt))%nat).
Proof.
  intros E C r. subst r. split.
  - rewrite sendPrompt_instances, get_update_eq, E. simpl. rewrite C.
    eexists. split; [reflexivity|]. repeat split.
  - intros Ha.
    assert (H : exists w1,
               TmuxManager.sendPrompt host id prompt w = (Normal tt, w1)
               /\ TmuxManager.calls w1
                  = (TmuxManager.calls w
                     ++ keystrokes (TmuxManager.target i w)
                          (Js.split Js.newline prompt))%list).
    { unfold TmuxManager.sendPrompt, bind at 1, TmuxManager.lookup. simpl.
      rewrite E, C. unfold TmuxManager.executePrompt, bind at 1, TmuxManager.lookup.
      simpl. rewrite E, C, andb_false_r.
      unfold bind at 1, TmuxManager.now. unfold bind at 1, TmuxManager.mutate, modify.
      unfold bind at 1, TmuxManager.emitEvent at 1, modify.
      match goal with
      | |- context [bind (TmuxManager.sendLines host i ?ls) _ ?w3] =>
          destruct (sendLines_accepted host Ha i ls w3) as (w4 & H4 & C4 & S4)
      end.
      rewrite (bind_normal _ _ _ _ _ H4). simpl.
      eexists. split; [reflexivity|]. simpl. exact C4. }
    destruct H as (w1 & -> & Hc). simpl. split; [reflexivity|]. split; [exact Hc|].
    rewrite Hc, length_app, keystrokes_length. reflexivity.
Qed.

Lemma prompt_is_counted_before_it_is_typed_witness :
  let w := Scenario.plain_world in
  let r := TmuxManager.sendPrompt Scenario.host_ok Scenario.id0 "ls" w in
  JsMap.get Scenario.id0 (TmuxManager.instances w) = Some Scenario.plain_instance
  /\ TmuxManager.requiresApproval Scenario.plain_instance = false
  /\ fst r = Normal tt
  /\ length (TmuxManager.calls (snd r))
     = (length (TmuxManager.calls w) + 2 * length (Js.split Js.newline "ls"))%nat.
Proof.
  intros w r.
  assert (E : JsMap.get Scenario.id0 (TmuxManager.instances w)
              = Some Scenario.plain_instance) by (vm_compute; reflexivity).
  assert (C : TmuxManager.requiresApproval Scenario.plain_instance = false)
    by (vm_compute; reflexivity).
  destruct (prompt_is_counted_before_it_is_typed Scenario.host_ok Scenario.id0 "ls"
              w Scenario.plain_instance E C) as (_ & H).
  destruct (H host_ok_accepting) as (H1 & _ & H3).
  split; [exact E|]. split; [exact C|]. split; [exact H1|exact H3].
Defined.

(** X5.  [cancelCommand] on a registered instance returns, whatever the
    status of the instance and whether or not a command is pending: the
    instance is [idle] with no pending command and is otherwise as before
    (its [currentPrompt] stays), no other instance changed, nothing was
    sent to tmux, and one [status_changed] event was emitted. *)
Theorem cancel_needs_no_pending_command id w i :
  JsMap.get id (TmuxManager.instances w) = Some i ->
  let r := TmuxManager.cancelCommand id w in
  fst r = Normal tt
  /\ JsMap.get id (TmuxManager.instances (snd r))
     = Some (AmpInstance.set_status Status.idle
               (AmpInstance.set_pendingCommand None i))
  /\ (forall k, k <> id ->
        JsMap.get k (TmuxManager.instances (snd r))
        = JsMap.get k (TmuxManager.instances w))
  /\ TmuxManager.calls (snd r) = TmuxManager.calls w
  /\ new_events w (snd r)
     = [AgentEvent.mk id (TmuxManager.clock w) AgentEvent.status_changed
          [("status", VStatus Status.idle)] Severity.info].
Proof.
  intros E r. subst r.
  unfold TmuxManager.cancelCommand, TmuxManager.lookup, TmuxManager.mutate,
    TmuxManager.emitEvent.
  unfold bind, modify. rewrite E. simpl.
  split; [reflexivity|]. split; [now rewrite get_update_eq, E|].
  split; [intros k Hk; apply get_update_ne; congruence|].
  split; [reflexivity|].
  unfold new_events. simpl. now rewrite skipn_app, skipn_all, Nat.sub_diag.
Qed.

Lemma cancel_needs_no_pending_command_witness :
  let w := Scenario.plain_world in
  let r := TmuxManager.cancelCommand Scenario.id0 w in
  AmpInstance.pendingCommand Scenario.plain_instance = None
  /\ fst r = Normal tt
  /\ TmuxManager.calls (snd r) = TmuxManager.calls w.
Proof.
  intros w r.
  assert (E : JsMap.get Scenario.id0 (TmuxManager.instances w)
              = Some Scenario.plain_instance) by (vm_compute; reflexivity).
  destruct (cancel_needs_no_pending_command Scenario.id0 w Scenario.plain_instance E)
    as (H1 & _ & _ & H4 & _).
  split; [reflexivity|]. split; [exact H1|exact H4].
Defined.

(** X6.  [getInstanceOutput] of a registered instance does not throw and
    does not touch the registry.  When [capture-pane] exits with code 0 it
    returns the lines of the trimmed capture that are not blank, otherwise
    the empty list; no line it returns is blank. *)
Theorem captured_output_has_no_blank_line host id w i :
  JsMap.get id (TmuxManager.instances w) = Some i ->
  let r := TmuxManager.getInstanceOutput host id w in
  let answer :=
    tmux host (length (TmuxManager.calls w))
      ["capture-pane"; "-t"; TmuxManager.target i w; "-S"; "-50"; "-p"] in
  exists lines,
    fst r = Normal lines
    /\ Forall (fun line => Js.trim line <> "") lines
    /\ lines = match answer with
               | Closed 0 stdout _ =>
                   filter (fun line => negb (String.eqb (Js.trim line) ""))
                     (Js.split Js.newline (Js.trim stdout))
               | _ => []
               end
    /\ TmuxManager.instances (snd r) = TmuxManager.instances w.
Proof.
  intros E r answer. subst r answer.
  unfold TmuxManager.getInstanceOutput, TmuxManager.lookup,
    TmuxManager.runTmuxCommand, TmuxManager.call.
  unfold bind, try_catch, get, ret, throw. rewrite E. simpl.
  destruct (tmux host _ _) as [code out err|e]; simpl.
  - destruct code as [|p|p]; simpl.
    + eexists. split; [reflexivity|]. split; [|split; reflexivity].
      apply List.Forall_forall. intros x Hx. apply list_elem_of_In in Hx.
      apply list_elem_of_filter in Hx as [Hp _].
      intros Hz. rewrite Hz in Hp. exact Hp.
    + exists []. repeat split. constructor.
    + exists []. repeat split. constructor.
  - exists []. repeat split. constructor.
Qed.

Lemma captured_output_has_no_blank_line_witness :
  let w := Scenario.plain_world in
  let r := TmuxManager.getInstanceOutput
             (Scenario.host_showing "Error: connection reset") Scenario.id0 w in
  exists lines,
    fst r = Normal lines
    /\ Forall (fun line => Js.trim line <> "") lines
    /\ TmuxManager.instances (snd r) = TmuxManager.instances w.
Proof.
  intros w r.
  assert (E : JsMap.get Scenario.id0 (TmuxManager.instances w)
              = Some Scenario.plain_instance) by (vm_compute; reflexivity).
  destruct (captured_output_has_no_blank_line
              (Scenario.host_showing "Error: connection reset") Scenario.id0 w
              Scenario.plain_instance E) as (lines & H1 & H2 & _ & H4).
  exists lines. split; [exact H1|]. split; [exact H2|exact H4].
Defined.

Lemma getInstanceOutput_found host id w i :
  JsMap.get id (TmuxManager.instances w) = Some i ->
  exists lines w1,
    TmuxManager.getInstanceOutput host id w = (Normal lines, w1)
    /\ TmuxManager.instances w1 = TmuxManager.instances w
    /\ TmuxManager.outputMonitors w1 = TmuxManager.outputMonitors w
    /\ TmuxManager.events w1 = TmuxManager.events w
    /\ TmuxManager.clock w <= TmuxManager.clock w1.
Proof.
  intros E.
  unfold TmuxManager.getInstanceOutput, TmuxManager.lookup,
    TmuxManager.runTmuxCommand, TmuxManager.call.
  unfold bind, try_catch, get, ret, throw. rewrite E. simpl.
  destruct (tmux host _ _) as [code out err|e]; simpl;
    [destruct (code =? 0); simpl|];
    eexists _, _; (split; [reflexivity|]); simpl; repeat split; lia.
Qed.

(** X7.  A tick of the output timer never throws.  For a registered
    instance it replaces the stored output, and stamps [lastActivity], only
    when the capture has more lines than the stored output; a capture with
    as many lines or fewer, whatever its content, leaves the instance as it
    was.  For an id that is no longer registered the timer stops itself. *)
Theorem output_monitor_keeps_the_longer_output host id w :
  let r := TmuxManager.outputTick host id w in
  fst r = Normal tt
  /\ match JsMap.get id (TmuxManager.instances w) with
     | None =>
         TmuxManager.instances (snd r) = TmuxManager.instances w
         /\ (id ∉ TmuxManager.outputMonitors (snd r))
     | Some i =>
         exists lines t,
           fst (TmuxManager.getInstanceOutput host id w) = Normal lines
           /\ TmuxManager.clock w <= t
           /\ TmuxManager.outputMonitors (snd r) = TmuxManager.outputMonitors w
           /\ JsMap.get id (TmuxManager.instances (snd r))
              = Some (if (length (AmpInstance.output i) <? length lines)%nat
                      then AmpInstance.set_lastActivity t
                             (AmpInstance.set_output lines i)
                      else i)
     end.
Proof.
  intros r. subst r.
  destruct (TmuxManager.outputTick host id w) as [c w2] eqn:R. revert R.
  unfold TmuxManager.outputTick, try_catch.
  destruct (JsMap.get id (TmuxManager.instances w)) as [i|] eqn:E.
  - destruct (getInstanceOutput_found host id w i E)
      as (lines & w1 & H & Hi & Hm & _ & Hc).
    rewrite (bind_normal _ _ _ _ _ H). rewrite H.
    unfold bind at 1, TmuxManager.lookup. rewrite Hi, E.
    destruct (length (AmpInstance.output i) <? length lines)%nat eqn:L.
    + unfold bind, TmuxManager.now, TmuxManager.mutate, modify.
      intros [= <- <-]. simpl.
      split; [reflexivity|]. exists lines, (TmuxManager.clock w1).
      split; [reflexivity|]. split; [exact Hc|]. split; [exact Hm|].
      now rewrite L, Hi, get_update_eq, E.
    + intros [= <- <-]. simpl. split; [reflexivity|].
      exists lines, (TmuxManager.clock w).
      split; [reflexivity|]. split; [lia|]. split; [exact Hm|].
      now rewrite L, Hi, E.
  - unfold TmuxManager.getInstanceOutput, bind, TmuxManager.lookup. rewrite E.
    intros [= <- <-]. simpl. split; [reflexivity|]. split; [reflexivity|].
    intros [Hp _]%list_elem_of_filter. rewrite String.eqb_refl in Hp. exact Hp.
Qed.

(** X8.  The timer of the authentication check, on a registered
    instance, never throws and leaves the instance either [failed] and
    [error] or [authenticated] and [idle], all its other fields, a pending
    command included, as they were: it is [failed] exactly when the last
    ten captured lines mention, in any case, one of the five failure
    phrases. *)
Theorem auth_timer_overwrites_the_status host id w i :
  JsMap.get id (TmuxManager.instances w) = Some i ->
  let r := TmuxManager.updateAuthStatusFromOutput host id w in
  fst r = Normal tt
  /\ (JsMap.get id (TmuxManager.instances (snd r))
      = Some (TmuxManager.set_auth AuthStatus.failed Status.error i)
      \/ JsMap.get id (TmuxManager.instances (snd r))
         = Some (TmuxManager.set_auth AuthStatus.authenticated Status.idle i))
  /\ (forall lines,
        fst (TmuxManager.getInstanceOutput host id w) = Normal lines ->
        let recent := Js.toLowerCase (Js.join " " (Js.slice_last 10 lines)) in
        JsMap.get id (TmuxManager.instances (snd r))
        = Some (if Js.includes recent "authentication failed"
                   || Js.includes recent "not authenticated"
                   || Js.includes recent "please authenticate"
                   || Js.includes recent "out of free credits"
                   || Js.includes recent "insufficient credits"
                then TmuxManager.set_auth AuthStatus.failed Status.error i
                else TmuxManager.set_auth AuthStatus.authenticated Status.idle i)).
Proof.
  intros E r. subst r.
  destruct (TmuxManager.updateAuthStatusFromOutput host id w) as [c w2] eqn:R.
  revert R.
  unfold TmuxManager.updateAuthStatusFromOutput. unfold bind at 1, TmuxManager.lookup.
  rewrite E. unfold try_catch.
  destruct (getInstanceOutput_found host id w i E)
    as (lines & w1 & H & Hi & _ & _ & _).
  rewrite (bind_normal _ _ _ _ _ H). rewrite H. simpl fst.
  set (recent := Js.toLowerCase (Js.join " " (Js.slice_last 10 lines))).
  assert (G : forall a s, JsMap.get id
                 (JsMap.update id (TmuxManager.set_auth a s)
                    (TmuxManager.instances w1))
               = Some (TmuxManager.set_auth a s i)).
  { intros a s. now rewrite Hi, get_update_eq, E. }
  destruct (Js.includes recent "authentication failed"
            || Js.includes recent "not authenticated"
            || Js.includes recent "please authenticate") eqn:F1.
  - unfold bind, TmuxManager.mutate, TmuxManager.emitEvent, modify.
    intros [= <- <-]. simpl.
    split; [reflexivity|]. split; [left; apply G|].
    intros lines' [= <-]. fold recent. rewrite F1. simpl. apply G.
  - destruct (Js.includes recent "out of free credits"
              || Js.includes recent "insufficient credits") eqn:F2.
    + unfold bind, TmuxManager.mutate, TmuxManager.emitEvent, modify.
      intros [= <- <-]. simpl.
      split; [reflexivity|]. split; [left; apply G|].
      intros lines' [= <-]. fold recent.
      apply orb_false_iff in F1 as [F1 Fc]. apply orb_false_iff in F1 as [Fa Fb].
      rewrite Fa, Fb, Fc. simpl. rewrite F2. apply G.
    + unfold bind, TmuxManager.mutate, TmuxManager.emitEvent, modify.
      intros [= <- <-]. simpl.
      split; [reflexivity|]. split; [right; apply G|].
      intros lines' [= <-]. fold recent.
      apply orb_false_iff in F1 as [F1 Fc]. apply orb_false_iff in F1 as [Fa Fb].
      apply orb_false_iff in F2 as [Fd Fe].
      rewrite Fa, Fb, Fc, Fd, Fe. simpl. apply G.
Qed.

Lemma auth_timer_overwrites_the_status_witness :
  let w := Scenario.plain_world in
  let r := TmuxManager.updateAuthStatusFromOutput
             (Scenario.host_showing "Please authenticate first") Scenario.id0 w in
  fst r = Normal tt
  /\ (JsMap.get Scenario.id0 (TmuxManager.instances (snd r))
      = Some (TmuxManager.set_auth AuthStatus.failed Status.error
                Scenario.plain_instance)
      \/ JsMap.get Scenario.id0 (TmuxManager.instances (snd r))
         = Some (TmuxManager.set_auth AuthStatus.authenticated Status.idle
                   Scenario.plain_instance)).
Proof.
  intros w r.
  assert (E : JsMap.get Scenario.id0 (TmuxManager.instances w)
              = Some Scenario.plain_instance) by (vm_compute; reflexivity).
  destruct (auth_timer_overwrites_the_status
              (Scenario.host_showing "Please authenticate first") Scenario.id0 w
              Scenario.plain_instance E) as (H1 & H2 & _).
  split; [exact H1|exact H2].
Defined.

Lemma keys_set_found {V} k (v v' : V) m :
  JsMap.get k m = Some v -> JsMap.keys (JsMap.set k v' m) = JsMap.keys m.
Proof.
  unfold JsMap.keys. induction m as [|[k0 v0] m IH]; simpl; [discriminate|].
  destruct (String.eqb k0 k); simpl; [reflexivity|].
  intros H. now rewrite IH.
Qed.

Lemma keys_update_eq {V} k (f : V -> V) m :
  JsMap.keys (JsMap.update k f m) = JsMap.keys m.
Proof.
  unfold JsMap.update. destruct (JsMap.get k m) eqn:E; [|reflexivity].
  now apply keys_set_found with v.
Qed.

Lemma registered_leaf {A} (m : M TmuxManager.t A) :
  keeps TmuxManager.instances m -> keeps roster m.
Proof. intros Hk w. unfold same, roster. now rewrite (Hk w). Qed.

Lemma registered_mutate k f : keeps roster (TmuxManager.mutate k f).
Proof.
  intros w. unfold same, roster, TmuxManager.mutate, modify. simpl.
  apply keys_update_eq.
Qed.

Create HintDb roster.

Ltac registered_tac :=
  repeat match goal with
  | |- steps _ (bind _ _) => apply steps_bind; [typeclasses eauto| |intros]
  | |- steps _ (try_catch _ _) => apply steps_try_catch; [typeclasses eauto| |intros]
  | |- steps _ (for_each _ _) => apply steps_for_each; [typeclasses eauto|intros]
  | |- steps _ (ret _) => apply steps_ret; typeclasses eauto
  | |- steps _ (throw _) => apply steps_throw; typeclasses eauto
  | |- steps _ (match ?x with _ => _ end) => destruct x
  | |- steps _ (TmuxManager.mutate _ _) => apply registered_mutate
  | |- steps _ _ => solve [auto with roster | apply registered_leaf; keeps_tac]
  end.

Section Registered.

Variable host : Host.

Lemma registered_restartInstance k reason :
  keeps roster (TmuxManager.restartInstance host k reason).
Proof.
  unfold TmuxManager.restartInstance.
  pose proof (keeps_instances_startLogMonitoring host).
  pose proof keeps_instances_startOutputMonitoring.
  registered_tac.
Qed.

Lemma registered_scanErrorPatterns k i recent patterns :
  keeps roster (TmuxManager.scanErrorPatterns host k i recent patterns).
Proof.
  pose proof registered_restartInstance.
  induction patterns as [|p r IH]; simpl; registered_tac.
Qed.

Lemma registered_checkInstance t0 k :
  keeps roster (TmuxManager.checkInstance host t0 k).
Proof.
  unfold TmuxManager.checkInstance, TmuxManager.checkForErrorPatterns.
  pose proof registered_restartInstance. pose proof registered_scanErrorPatterns.
  registered_tac.
Qed.

Lemma for_each_fixed {A} (l : list A) (body : A -> M TmuxManager.t unit) w :
  (forall a, body a w = (Normal tt, w)) -> for_each l body w = (Normal tt, w).
Proof.
  intros Hb. induction l as [|a r IH]; [reflexivity|].
  simpl. unfold bind. now rewrite Hb.
Qed.

End Registered.

(** X9.  A sweep of the watchdog never throws and leaves the keys of the
    registry as they were; when every registered instance is healthy it
    changes nothing at all, and calls tmux not once. *)
Theorem watchdog_sweep_returns host w :
  let r := TmuxManager.checkInstanceHealth host w in
  fst r = Normal tt
  /\ JsMap.keys (TmuxManager.instances (snd r)) = JsMap.keys (TmuxManager.instances w)
  /\ ((forall id i, JsMap.get id (TmuxManager.instances w) = Some i ->
                    healthy (TmuxManager.clock w) i) ->
      r = (Normal tt, w)).
Proof.
  intros r. subst r. split; [|split].
  - unfold TmuxManager.checkInstanceHealth, bind, TmuxManager.now, get.
    assert (R : returns (for_each (JsMap.keys (TmuxManager.instances w))
                           (TmuxManager.checkInstance host (TmuxManager.clock w)))).
    { apply returns_for_each. intros k w1. exists tt.
      apply checkInstance_returns. }
    destruct (R w) as [[] H]. exact H.
  - assert (K : keeps roster (TmuxManager.checkInstanceHealth host)).
    { unfold TmuxManager.checkInstanceHealth.
      pose proof (registered_checkInstance host). registered_tac. }
    exact (K w).
  - intros Hq.
    unfold TmuxManager.checkInstanceHealth, bind, TmuxManager.now, get.
    apply for_each_fixed. intros k.
    rewrite checkInstance_skips.
    + unfold errorScanOnly, try_catch, TmuxManager.checkForErrorPatterns, bind,
        TmuxManager.lookup.
      destruct (JsMap.get k (TmuxManager.instances w)) as [i|] eqn:E;
        [|reflexivity].
      destruct (Hq k i E) as [_ [Ho|Hn]].
      * now rewrite Ho.
      * destruct (AmpInstance.output i) eqn:O; [reflexivity|].
        unfold recentOutput in Hn. rewrite O in Hn.
        now rewrite scanErrorPatterns_no_match.
    + intros i E. now destruct (Hq k i E).
Qed.

(** X10.  [initialize] asks tmux for the session and creates it only when
    that fails.  When [has-session] is accepted it is the only call and the
    session exists; otherwise [new-session] follows, and the method returns
    with the session existing when that is accepted and throws, with
    [sessionExists] as it was, when it is not.  The registry is untouched. *)
Theorem initialize_finds_or_creates_the_session host w :
  let n := length (TmuxManager.calls w) in
  let found := tmux host n ["has-session"; "-t"; TmuxManager.sessionName w] in
  let created :=
    tmux host (S n) ["new-session"; "-d"; "-s"; TmuxManager.sessionName w] in
  let r := TmuxManager.initialize host w in
  TmuxManager.instances (snd r) = TmuxManager.instances w
  /\ (if accepted found then
        fst r = Normal tt
        /\ TmuxManager.sessionExists (snd r) = true
        /\ TmuxManager.calls (snd r)
           = (TmuxManager.calls w
              ++ [Tmux ["has-session"; "-t"; TmuxManager.sessionName w]])%list
      else
        TmuxManager.calls (snd r)
        = (TmuxManager.calls w
           ++ [Tmux ["has-session"; "-t"; TmuxManager.sessionName w];
               Tmux ["new-session"; "-d"; "-s"; TmuxManager.sessionName w]])%list
        /\ if accepted created then
             fst r = Normal tt /\ TmuxManager.sessionExists (snd r) = true
           else
             (exists e, fst r = Thrown e)
             /\ TmuxManager.sessionExists (snd r) = TmuxManager.sessionExists w).
Proof.
  intros n found created r. subst n found created r.
  destruct (TmuxManager.initialize host w) as [c w2] eqn:R. revert R.
  unfold TmuxManager.initialize, TmuxManager.runTmuxCommand, TmuxManager.call.
  unfold bind, try_catch, get, modify, ret, throw. simpl.
  destruct (tmux host (length (TmuxManager.calls w)) _) as [code out err|e]; simpl.
  - destruct (code =? 0); simpl.
    + intros [= <- <-]. simpl. auto.
    + rewrite length_app, Nat.add_1_r. simpl.
      destruct (tmux host (S (length (TmuxManager.calls w))) _)
        as [code' out' err'|e']; simpl.
      * destruct (code' =? 0); simpl; intros [= <- <-]; simpl;
          rewrite <- app_assoc; eauto.
      * intros [= <- <-]. simpl. rewrite <- app_assoc. eauto.
  - rewrite length_app, Nat.add_1_r. simpl.
    destruct (tmux host (S (length (TmuxManager.calls w))) _)
      as [code' out' err'|e']; simpl.
    + destruct (code' =? 0); simpl; intros [= <- <-]; simpl;
        rewrite <- app_assoc; eauto.
    + intros [= <- <-]. simpl. rewrite <- app_assoc. eauto.
Qed.

Lemma find_by_id id m i :
  well_keyed m -> JsMap.get id m = Some i ->
  List.find (fun j => String.eqb (AmpInstance.id j) id) (JsMap.values m) = Some i.
Proof.
  unfold JsMap.values. induction m as [|[k0 v0] m IH]; simpl; [discriminate|].
  intros Hk. rewrite (Hk k0 v0) by now left.
  destruct (String.eqb k0 id); [auto|].
  apply IH. intros k j Hj. apply Hk. now right.
Qed.

(** X11.  The [toggle_auto_restart] request writes [!autoRestart] into the
    configuration of the registered instance.  The watchdog restarts
    unless [autoRestart] is [false]: when the flag was set, the toggle
    inverts what the watchdog does; when it was not set, auto-restart was
    on and is still on after the toggle. *)
Theorem toggle_of_an_unset_flag_keeps_auto_restart id w i :
  well_keyed (TmuxManager.instances w) ->
  JsMap.get id (TmuxManager.instances w) = Some i ->
  let r := TmuxManager.toggleAutoRestart id w in
  let flipped :=
    negb (bool_decide (InstanceConfig.autoRestart (AmpInstance.config i) = Some true)) in
  let i' := AmpInstance.set_config
              (InstanceConfig.set_autoRestart (Some flipped) (AmpInstance.config i)) i in
  fst r = Normal tt
  /\ JsMap.get id (TmuxManager.instances (snd r)) = Some i'
  /\ (InstanceConfig.autoRestart (AmpInstance.config i) <> None ->
      autoRestarts i' = negb (autoRestarts i))
  /\ (InstanceConfig.autoRestart (AmpInstance.config i) = None ->
      autoRestarts i = true /\ autoRestarts i' = true).
Proof.
  intros Hk E r flipped i'. subst r.
  destruct (TmuxManager.toggleAutoRestart id w) as [c w2] eqn:R. revert R.
  unfold TmuxManager.toggleAutoRestart, TmuxManager.listInstances.
  unfold bind at 1. unfold bind at 1, get, ret.
  rewrite (find_by_id id _ i Hk E).
  assert (Hid : AmpInstance.id i = id).
  { apply Hk. clear -E. induction (TmuxManager.instances w) as [|[k0 v0] m IH];
      simpl in *; [discriminate|].
    destruct (String.eqb k0 id) eqn:Q.
    - apply String.eqb_eq in Q. left. congruence.
    - right. auto. }
  rewrite Hid. unfold TmuxManager.mutate, modify. intros [= <- <-]. simpl.
  split; [reflexivity|]. split; [now rewrite get_update_eq, E|].
  unfold autoRestarts, i', flipped.
  destruct i as [? ? ? ? ? ? ? ? ? ? ? ? ? ? ? cfg ? ? ?]. simpl.
  destruct cfg. simpl.
  split.
  - intros Hn. destruct autoRestart as [[|]|]; [reflexivity|reflexivity|congruence].
  - intros ->. split; reflexivity.
Qed.

Lemma toggle_of_an_unset_flag_keeps_auto_restart_witness :
  let w := Scenario.plain_world in
  let r := TmuxManager.toggleAutoRestart Scenario.id0 w in
  InstanceConfig.autoRestart (AmpInstance.config Scenario.plain_instance) = None
  /\ fst r = Normal tt
  /\ autoRestarts Scenario.plain_instance = true
  /\ option_map autoRestarts (Scenario.instance0 (snd r)) = Some true.
Proof.
  intros w r.
  assert (K : well_keyed (TmuxManager.instances w)).
  { intros k i [[= <- <-]|[]]. reflexivity. }
  assert (E : JsMap.get Scenario.id0 (TmuxManager.instances w)
              = Some Scenario.plain_instance) by (vm_compute; reflexivity).
  destruct (toggle_of_an_unset_flag_keeps_auto_restart Scenario.id0 w
              Scenario.plain_instance K E) as (H1 & H2 & _ & H4).
  destruct (H4 eq_refl) as [H5 H6].
  split; [reflexivity|]. split; [exact H1|]. split; [exact H5|].
  unfold Scenario.instance0. unfold r. rewrite H2. cbn [option_map].
  exact (f_equal Some H6).
Defined.

Lemma triple_only {A} (m : M TmuxManager.t A) id w :
  steps (only id) m ->
  triple (fun w1 => only id w w1) m (fun _ w2 => only id w w2) (fun _ _ => True).
Proof.
  intros H w1 H1. specialize (H w1).
  destruct (m w1) as [[a|e] w2]; [|exact I]. simpl in H.
  intros k Hk. rewrite (H k Hk). now apply H1.
Qed.

Lemma only_sendPrompt host id prompt :
  steps (only id) (TmuxManager.sendPrompt host id prompt).
Proof.
  unfold TmuxManager.sendPrompt, TmuxManager.executePrompt. only_tac.
Qed.

Lemma checkAuthStatus_id host i :
  ensures (fun j => AmpInstance.id j = AmpInstance.id i
                    /\ AmpInstance.logFile j = AmpInstance.logFile i)
    (TmuxManager.checkAuthStatus host i).
Proof.
  intros w a H.
  destruct (checkAuthStatus_value host i w) as [E|E]; rewrite E in H;
    injection H as <-; split; reflexivity.
Qed.



(** ** Threads and tools *)

(** X12.  [switchThread] on a registered instance never throws and writes
    no other instance.  It sets [threadId] and emits [thread_switched]
    exactly when tmux accepted both the interrupt and the command that
    starts amp on the thread; otherwise the instance is as it was and the
    one event is [error_detected]. *)
Theorem switching_needs_both_keystrokes host id threadId w i :
  JsMap.get id (TmuxManager.instances w) = Some i ->
  let n := length (TmuxManager.calls w) in
  let pane := TmuxManager.target i w in
  let interrupted := tmux host n ["send-keys"; "-t"; pane; "C-c"] in
  let started :=
    tmux host (S n)
      ["send-keys"; "-t"; pane; "amp --thread-id " +:+ threadId; "Enter"] in
  let r := TmuxManager.switchThread host id threadId w in
  fst r = Normal tt
  /\ (forall k, k <> id ->
        JsMap.get k (TmuxManager.instances (snd r))
        = JsMap.get k (TmuxManager.instances w))
  /\ (if accepted interrupted && accepted started then
        JsMap.get id (TmuxManager.instances (snd r))
        = Some (AmpInstance.set_threadId (Some threadId) i)
        /\ exists t, new_events w (snd r)
                     = [AgentEvent.mk id t AgentEvent.thread_switched
                          [("threadId", VString threadId)] Severity.info]
      else
        JsMap.get id (TmuxManager.instances (snd r)) = Some i
        /\ exists t, new_events w (snd r)
                     = [AgentEvent.mk id t AgentEvent.error_detected
                          [("error", VString "Failed to switch thread")]
                          Severity.error]).
Proof.
  intros E n pane interrupted started r. subst n pane interrupted started r.
  destruct (TmuxManager.switchThread host id threadId w) as [c w2] eqn:R. revert R.
  unfold TmuxManager.switchThread, TmuxManager.lookup, TmuxManager.send_keys,
    TmuxManager.runTmuxCommand, TmuxManager.call, TmuxManager.sleep,
    TmuxManager.mutate, TmuxManager.emitEvent, TmuxManager.target.
  unfold bind, try_catch, modify, get, ret, throw. rewrite E. simpl.
  assert (Ev : forall (l : list AgentEvent.t) e, skipn (length l) (l ++ [e]) = [e]).
  { intros l e. now rewrite skipn_app, skipn_all, Nat.sub_diag. }
  destruct (tmux host (length (TmuxManager.calls w)) _) as [c1 o1 e1|x1]; simpl.
  - destruct (c1 =? 0); simpl.
    + rewrite length_app, Nat.add_1_r. simpl.
      destruct (tmux host (S (length (TmuxManager.calls w))) _)
        as [c2 o2 e2|x2]; simpl.
      * destruct (c2 =? 0); simpl; intros [= <- <-]; simpl;
          (split; [reflexivity|]);
          (split; [intros k Hk; first [apply get_update_ne; congruence|reflexivity]|]);
          unfold new_events; simpl; rewrite Ev;
          (split; [first [now rewrite get_update_eq, E|exact E]|eauto]).
      * intros [= <- <-]. simpl. split; [reflexivity|]. split; [reflexivity|].
        unfold new_events. simpl. rewrite Ev. eauto.
    + intros [= <- <-]. simpl. split; [reflexivity|]. split; [reflexivity|].
      unfold new_events. simpl. rewrite Ev. eauto.
  - intros [= <- <-]. simpl. split; [reflexivity|]. split; [reflexivity|].
    unfold new_events. simpl. rewrite Ev. eauto.
Qed.

Lemma switching_needs_both_keystrokes_witness :
  let w := Scenario.plain_world in
  let r := TmuxManager.switchThread Scenario.host_ok Scenario.id0 "T-5f3a9c1e" w in
  fst r = Normal tt
  /\ JsMap.get Scenario.id0 (TmuxManager.instances (snd r))
     = Some (AmpInstance.set_threadId (Some "T-5f3a9c1e") Scenario.plain_instance).
Proof.
  intros w r.
  assert (E : JsMap.get Scenario.id0 (TmuxManager.instances w)
              = Some Scenario.plain_instance) by (vm_compute; reflexivity).
  destruct (switching_needs_both_keystrokes Scenario.host_ok Scenario.id0
              "T-5f3a9c1e" w Scenario.plain_instance E) as (H1 & _ & H3).
  split; [exact H1|]. exact (proj1 H3).
Defined.

#[export] Instance more_calls_preorder : PreOrder more_calls.
Proof.
  split.
  - intros w. exists []. now rewrite app_nil_r.
  - intros a b c [r1 H1] [r2 H2]. exists (r1 ++ r2)%list.
    now rewrite H2, H1, app_assoc.
Qed.

Lemma more_calls_call host c : steps more_calls (TmuxManager.call host c).
Proof. intros w. exists [c]. reflexivity. Qed.

#[export] Hint Resolve more_calls_call : steps.

Ltac calls_tac :=
  steps_with ltac:(unfold more_calls; simpl; exists []; now rewrite app_nil_r).

Lemma ends_with_try_catch {A} (x : A) (m : M TmuxManager.t A) h :
  ends_with x m -> (forall e, ends_with x (h e)) -> ends_with x (try_catch m h).
Proof.
  intros Hm Hh w a. unfold try_catch. specialize (Hm w).
  destruct (m w) as [[b|e] w1]; simpl.
  - intros [= <-]. now apply Hm.
  - apply Hh.
Qed.

Section Interrupt.

Variable host : Host.

Lemma send_keys_calls i keys w :
  TmuxManager.calls (snd (TmuxManager.send_keys host i keys w))
  = (TmuxManager.calls w
     ++ [Tmux (["send-keys"; "-t"; TmuxManager.target i w] ++ keys)])%list.
Proof.
  unfold TmuxManager.send_keys, TmuxManager.runTmuxCommand, TmuxManager.call.
  unfold bind, get, ret, throw. simpl.
  destruct (tmux host _ _) as [c o e|x]; [destruct (c =? 0)|]; reflexivity.
Qed.

Lemma more_calls_send_keys i keys : steps more_calls (TmuxManager.send_keys host i keys).
Proof. intros w. eexists. apply send_keys_calls. Qed.

Lemma more_calls_getInstanceOutput id :
  steps more_calls (TmuxManager.getInstanceOutput host id).
Proof.
  unfold TmuxManager.getInstanceOutput, TmuxManager.runTmuxCommand. calls_tac.
Qed.

(** A method that begins with the interrupt and returns [x] whatever
    happens. *)
Lemma interrupting {A} (x : A) i (k : unit -> M TmuxManager.t A) h w :
  (forall u, ends_with x (k u)) -> (forall e, ends_with x (h e)) ->
  (forall e, returns (h e)) ->
  (forall u, keeps TmuxManager.instances (k u)) ->
  (forall e, keeps TmuxManager.instances (h e)) ->
  (forall u, steps more_calls (k u)) -> (forall e, steps more_calls (h e)) ->
  exists w1 rest,
    try_catch (bind (TmuxManager.send_keys host i ["C-c"]) k) h w = (Normal x, w1)
    /\ TmuxManager.instances w1 = TmuxManager.instances w
    /\ TmuxManager.calls w1
       = (TmuxManager.calls w
          ++ Tmux ["send-keys"; "-t"; TmuxManager.target i w; "C-c"] :: rest)%list.
Proof.
  intros Ek Eh Rh Kk Kh Ck Ch.
  set (m := try_catch (bind (TmuxManager.send_keys host i ["C-c"]) k) h).
  assert (R : returns m) by (apply returns_try_catch; exact Rh).
  assert (X : ends_with x m).
  { apply ends_with_try_catch; [apply ends_with_bind; exact Ek|exact Eh]. }
  assert (K : keeps TmuxManager.instances m) by (unfold m; keeps_tac).
  destruct (R w) as [a Ha]. pose proof (X w a Ha) as ->.
  assert (C : exists rest,
             TmuxManager.calls (snd (m w))
             = (TmuxManager.calls w
                ++ Tmux ["send-keys"; "-t"; TmuxManager.target i w; "C-c"]
                :: rest)%list).
  { unfold m, try_catch, bind.
    pose proof (send_keys_calls i ["C-c"] w) as S0.
    destruct (TmuxManager.send_keys host i ["C-c"] w) as [[u|e] w0]; simpl in S0.
    - assert (S1 : steps more_calls (try_catch (k u) h))
        by (apply steps_try_catch; [typeclasses eauto|apply Ck|exact Ch]).
      destruct (S1 w0) as [rest Hrest]. unfold try_catch in Hrest.
      exists rest. rewrite Hrest, S0, <- app_assoc. reflexivity.
    - destruct (Ch e w0) as [rest Hrest].
      exists rest. rewrite Hrest, S0, <- app_assoc. reflexivity. }
  destruct C as [rest Hc]. specialize (K w). unfold same in K.
  destruct (m w) as [c w1]. simpl in *. subst c.
  exists w1, rest. auto.
Qed.

End Interrupt.

(** X13.  [listThreads] and [getTools] on a registered instance return
    the empty list, whatever the pane shows and whatever tmux answers:
    the list they build is never filled.  They leave the registry alone,
    and the first thing they do is to send the interrupt to the pane. *)
Theorem listing_returns_nothing host id w i :
  JsMap.get id (TmuxManager.instances w) = Some i ->
  let interrupt := Tmux ["send-keys"; "-t"; TmuxManager.target i w; "C-c"] in
  (exists w1 rest,
     TmuxManager.listThreads host id w = (Normal [], w1)
     /\ TmuxManager.instances w1 = TmuxManager.instances w
     /\ TmuxManager.calls w1 = (TmuxManager.calls w ++ interrupt :: rest)%list)
  /\ (exists w1 rest,
        TmuxManager.getTools host id w = (Normal [], w1)
        /\ TmuxManager.instances w1 = TmuxManager.instances w
        /\ TmuxManager.calls w1 = (TmuxManager.calls w ++ interrupt :: rest)%list).
Proof.
  intros E interrupt. subst interrupt.
  pose proof (more_calls_send_keys host) as Hs.
  pose proof (more_calls_getInstanceOutput host) as Ho.
  pose proof (keeps_instances_getInstanceOutput host) as Hi.
  split.
  - unfold TmuxManager.listThreads. unfold bind at 1, TmuxManager.lookup. rewrite E.
    apply interrupting; intros.
    + repeat (apply ends_with_bind; intros). apply ends_with_ret.
    + apply ends_with_ret.
    + apply returns_ret.
    + keeps_tac.
    + keeps_tac.
    + calls_tac.
    + calls_tac.
  - unfold TmuxManager.getTools. unfold bind at 1, TmuxManager.lookup. rewrite E.
    apply interrupting; intros.
    + repeat (apply ends_with_bind; intros). apply ends_with_ret.
    + apply ends_with_ret.
    + apply returns_ret.
    + keeps_tac.
    + keeps_tac.
    + calls_tac.
    + calls_tac.
Qed.

Lemma listing_returns_nothing_witness :
  let w := Scenario.plain_world in
  let host := Scenario.host_showing "T-5f3a9c1e  refactor the parser" in
  fst (TmuxManager.listThreads host Scenario.id0 w) = Normal []
  /\ fst (TmuxManager.getTools host Scenario.id0 w) = Normal [].
Proof.
  intros w host.
  assert (E : JsMap.get Scenario.id0 (TmuxManager.instances w)
              = Some Scenario.plain_instance) by (vm_compute; reflexivity).
  destruct (listing_returns_nothing host Scenario.id0 w Scenario.plain_instance E)
    as ((w1 & r1 & H1 & _) & (w2 & r2 & H2 & _)).
  rewrite H1, H2. split; reflexivity.
Defined.

(** ** The pattern of a thread id *)

Lemma every_app p a b : every p (a +:+ b) = every p a && every p b.
Proof. induction a as [|c a IH]; simpl; [reflexivity|]. now rewrite IH, andb_assoc. Qed.

Lemma string_length_app a b :
  String.length (a +:+ b) = (String.length a + String.length b)%nat.
Proof. induction a as [|c a IH]; simpl; [reflexivity|]. now rewrite IH. Qed.

Lemma append_assoc_s (a b c : string) : (a +:+ b) +:+ c = a +:+ b +:+ c.
Proof.
  induction a as [|x a IH]; [reflexivity|].
  change (String x ((a +:+ b) +:+ c) = String x (a +:+ b +:+ c)). now rewrite IH.
Qed.

Lemma substring_prefix a b : String.substring 0 (String.length a) (a +:+ b) = a.
Proof.
  induction a as [|c a IH]; simpl.
  - now destruct b.
  - now rewrite IH.
Qed.

Lemma consumed_app a b : RegExp.consumed (a +:+ b) b = a.
Proof.
  unfold RegExp.consumed. rewrite string_length_app.
  replace (String.length a + String.length b - String.length b)%nat
    with (String.length a) by lia.
  apply substring_prefix.
Qed.

Lemma star_sound p s k c :
  RegExp.star p s k = Some c ->
  exists pre rest, s = pre +:+ rest /\ every p pre = true /\ k rest = Some c.
Proof.
  revert c. induction s as [|a s IH]; simpl; intros c H.
  - exists "", "". auto.
  - destruct (p a) eqn:Pa.
    + destruct (RegExp.star p s k) as [m|] eqn:S.
      * injection H as <-. destruct (IH m eq_refl) as (pre & rest & -> & Hp & Hk).
        exists (String a pre), rest. simpl. rewrite Pa, Hp. auto.
      * exists "", (String a s). auto.
    + exists "", (String a s). auto.
Qed.

Lemma times_sound n p R s caps k c :
  RegExp.exec_at (RegExp.times n p R) s caps k = Some c ->
  exists pre rest,
    s = pre +:+ rest /\ String.length pre = n /\ every p pre = true
    /\ RegExp.exec_at R rest caps k = Some c.
Proof.
  revert s. induction n as [|n IH]; simpl; intros s H.
  - exists "", s. auto.
  - destruct s as [|a s]; [discriminate|].
    destruct (p a) eqn:Pa; [|discriminate].
    destruct (IH s H) as (pre & rest & -> & Hl & Hp & He).
    exists (String a pre), rest. simpl. rewrite Pa, Hp, Hl. auto.
Qed.

Lemma exec_sound r s caps :
  RegExp.exec r s = Some caps ->
  exists skipped rest,
    s = skipped +:+ rest
    /\ RegExp.exec_at r rest [] (fun _ caps => Some caps) = Some caps.
Proof.
  induction s as [|a s IH]; simpl.
  - destruct (RegExp.exec_at r "" [] _) eqn:E; [|discriminate].
    intros [= <-]. exists "", "". auto.
  - destruct (RegExp.exec_at r (String a s) [] _) eqn:E.
    + intros [= <-]. exists "", (String a s). auto.
    + intros H. destruct (IH H) as (sk & rest & -> & He).
      exists (String a sk), rest. auto.
Qed.

(** The thread id [createThread] reads: eight or more hexadecimal digits
    and dashes that stand in the text. *)
Lemma threadId_sound text caps :
  RegExp.exec RegExp.threadId text = Some caps ->
  exists t before after,
    RegExp.group 1 caps = Some t
    /\ text = before +:+ t +:+ after
    /\ every RegExp.hex_or_dash t = true
    /\ (8 <= String.length t)%nat.
Proof.
  intros H. destruct (exec_sound _ _ _ H) as (before & s & -> & He).
  unfold RegExp.threadId in He.
  change (RegExp.exec_at
            (RegExp.times 8 RegExp.hex_or_dash (RegExp.Star RegExp.hex_or_dash))
            s []
            (fun rest caps' => Some ((1%nat, RegExp.consumed s rest) :: caps'))
          = Some caps) in He.
  destruct (times_sound _ _ _ _ _ _ _ He) as (pre & rest & -> & Hl & Hp & Hs).
  simpl in Hs. destruct (star_sound _ _ _ _ Hs) as (more & after & -> & Hm & Hk).
  injection Hk as <-.
  exists (pre +:+ more), before, after.
  rewrite <- (append_assoc_s pre more after). rewrite consumed_app.
  split; [reflexivity|]. split; [reflexivity|].
  split; [now rewrite every_app, Hp, Hm|].
  rewrite string_length_app. lia.
Qed.

(** [createThread] on a registered instance returns; the thread id it
    returns is a run of hexadecimal digits and dashes and is then the
    [threadId] of the instance. *)
Lemma created_thread_is_written host id w i :
  JsMap.get id (TmuxManager.instances w) = Some i ->
  let r := TmuxManager.createThread host id w in
  (exists answer, fst r = Normal answer)
  /\ (forall k, k <> id ->
        JsMap.get k (TmuxManager.instances (snd r))
        = JsMap.get k (TmuxManager.instances w))
  /\ (forall t, fst r = Normal (Some t) ->
        every RegExp.hex_or_dash t = true
        /\ (8 <= String.length t)%nat
        /\ JsMap.get id (TmuxManager.instances (snd r))
           = Some (AmpInstance.set_threadId (Some t) i)).
Proof.
  intros E r. subst r.
  assert (H : match TmuxManager.createThread host id w with
              | (Normal a, w') =>
                  only id w w'
                  /\ forall t, a = Some t ->
                       every RegExp.hex_or_dash t = true
                       /\ (8 <= String.length t)%nat
                       /\ JsMap.get id (TmuxManager.instances w')
                          = Some (AmpInstance.set_threadId (Some t) i)
              | (Thrown _, _) => False
              end).
  { unfold TmuxManager.createThread. unfold bind at 1, TmuxManager.lookup.
    rewrite E.
    match goal with
    | |- match ?body w with _ => _ end => set (b := body)
    end.
    assert (T : triple (fun w' => TmuxManager.instances w' = TmuxManager.instances w)
                  b
                  (fun a w' =>
                     only id w w'
                     /\ forall t, a = Some t ->
                          every RegExp.hex_or_dash t = true
                          /\ (8 <= String.length t)%nat
                          /\ JsMap.get id (TmuxManager.instances w')
                             = Some (AmpInstance.set_threadId (Some t) i))
                  never).
    { unfold b. eapply triple_try_catch with
        (E' := fun _ w' => only id w w').
      - do 4 (eapply triple_bind;
              [eapply triple_conseq;
               [apply (triple_keeps TmuxManager.instances _ (TmuxManager.instances w));
                keeps_tac
               |auto|intros ? ? Hs; exact Hs
               |intros ? s Hs k _; simpl in Hs; now rewrite Hs]|intros ?]).
        eapply triple_bind;
          [eapply triple_conseq;
           [apply (triple_keeps TmuxManager.instances _ (TmuxManager.instances w));
            apply keeps_instances_getInstanceOutput
           |auto|intros ? ? Hs; exact Hs
           |intros ? s Hs k _; simpl in Hs; now rewrite Hs]|intros output].
        destruct (RegExp.exec RegExp.threadId (Js.join " " output)) as [caps|] eqn:X.
        + destruct (threadId_sound _ _ X) as (t & before & after & G & _ & Hp & Hl).
          rewrite G.
          intros s Hs.
          unfold bind at 1, TmuxManager.mutate, modify.
          match goal with
          | |- match bind ?m ?k ?s1 with _ => _ end =>
              assert (K : keeps TmuxManager.instances (bind m k)) by keeps_tac;
              pose proof (K s1) as K1; unfold same in K1;
              assert (V : ensures (fun a => a = Some t) (bind m k))
                by (do 2 (apply ensures_bind; intros); now apply ensures_ret);
              pose proof (V s1) as V1;
              destruct (bind m k s1) as [[res|err] s2]
          end; simpl in K1.
          * split.
            { intros k Hk. rewrite K1. simpl. rewrite Hs.
              apply get_update_ne. congruence. }
            intros t' ->. specialize (V1 _ eq_refl). injection V1 as ->.
            split; [exact Hp|]. split; [exact Hl|].
            rewrite K1. simpl. now rewrite Hs, get_update_eq, E.
          * intros k Hk. rewrite K1. simpl. rewrite Hs.
            apply get_update_ne. congruence.
        + eapply triple_bind;
            [eapply triple_conseq;
             [apply (triple_keeps TmuxManager.instances _ (TmuxManager.instances w));
              keeps_tac
             |auto|intros ? ? Hs; exact Hs
             |intros ? s Hs k _; simpl in Hs; now rewrite Hs]|intros ?].
          apply triple_ret. intros s Hs. split; [|discriminate].
          intros k _. now rewrite Hs.
      - intros e s Hs. simpl. split; [exact Hs|discriminate]. }
    specialize (T w eq_refl). destruct (b w) as [[a|e] w1]; exact T. }
  destruct (TmuxManager.createThread host id w) as [[a|e] w1]; [|destruct H].
  destruct H as [H1 H2]. simpl. split; [eauto|]. split; [exact H1|].
  intros t [= ->]. now apply H2.
Qed.

(** X15.  For an id that is not registered the methods of the manager
    that take an id throw [Instance <id> not found] and change nothing;
    [approveCommand] throws [No pending command for instance <id>]
    instead, and [executePrompt] and the timer of the authentication check
    return without a word. *)
Theorem unknown_instance_is_rejected host id prompt threadId reason w :
  JsMap.get id (TmuxManager.instances w) = None ->
  let missing {A} : Completion A * TmuxManager.t :=
    (Thrown (TmuxManager.not_found id), w) in
  TmuxManager.sendPrompt host id prompt w = missing
  /\ TmuxManager.cancelCommand id w = missing
  /\ TmuxManager.restartInstance host id reason w = missing
  /\ TmuxManager.getInstanceOutput host id w = missing
  /\ TmuxManager.createThread host id w = missing
  /\ TmuxManager.switchThread host id threadId w = missing
  /\ TmuxManager.listThreads host id w = missing
  /\ TmuxManager.getTools host id w = missing
  /\ TmuxManager.approveCommand host id w
     = (Thrown (TmuxManager.no_pending id), w)
  /\ TmuxManager.executePrompt host id prompt w = (Normal tt, w)
  /\ TmuxManager.updateAuthStatusFromOutput host id w = (Normal tt, w).
Proof.
  intros E missing. subst missing.
  unfold TmuxManager.sendPrompt, TmuxManager.cancelCommand,
    TmuxManager.restartInstance, TmuxManager.getInstanceOutput,
    TmuxManager.createThread, TmuxManager.switchThread, TmuxManager.listThreads,
    TmuxManager.getTools, TmuxManager.approveCommand, TmuxManager.executePrompt,
    TmuxManager.updateAuthStatusFromOutput, TmuxManager.lookup.
  unfold bind. rewrite E. repeat split.
Qed.

Lemma unknown_instance_is_rejected_witness :
  let w := Scenario.plain_world in
  TmuxManager.sendPrompt Scenario.host_ok "nobody" "ls" w
  = (Thrown (Error "Instance nobody not found"), w)
  /\ TmuxManager.approveCommand Scenario.host_ok "nobody" w
     = (Thrown (Error "No pending command for instance nobody"), w).
Proof.
  intros w.
  assert (E : JsMap.get "nobody" (TmuxManager.instances w) = None)
    by (vm_compute; reflexivity).
  destruct (unknown_instance_is_rejected Scenario.host_ok "nobody" "ls" "" None w E)
    as (H1 & _ & _ & _ & _ & _ & _ & _ & H9 & _).
  split; [exact H1|exact H9].
Defined.

(** ** The status report of the control socket *)

Lemma counts_partition (l : list AmpInstance.t) :
  (ControlSocket.count Status.running l + ControlSocket.count Status.idle l
   + ControlSocket.count Status.error l
   + ControlSocket.count Status.waiting_approval l
   + ControlSocket.count Status.authenticating l
   + ControlSocket.count Status.stopped l = length l)%nat.
Proof.
  unfold ControlSocket.count. induction l as [|i l IH]; [reflexivity|].
  simpl. destruct (AmpInstance.status i); simpl; lia.
Qed.

Lemma slice0_length n s : (String.length (Js.slice0 n s) <= n)%nat.
Proof.
  unfold Js.slice0. revert s. induction n as [|n IH]; intros s.
  - destruct s; simpl; lia.
  - destruct s as [|c s]; simpl; [lia|]. specialize (IH s). lia.
Qed.

(** X16.  The [get_status] request returns without touching the manager.
    Its report has one entry per registered instance, a pending command
    is cut to a hundred characters, and the five counts it gives add up
    to [instanceCount] only together with the instances that are
    [stopped], for which the report has no count. *)
Theorem status_counts_leave_out_the_stopped w :
  exists report,
    ControlSocket.get_status w = (Normal report, w)
    /\ ControlSocket.instanceCount report = length (TmuxManager.instances w)
    /\ length (ControlSocket.instances report) = ControlSocket.instanceCount report
    /\ (ControlSocket.runningCount report + ControlSocket.idleCount report
        + ControlSocket.errorCount report
        + ControlSocket.waitingApprovalCount report
        + ControlSocket.authenticatingCount report
        + ControlSocket.count Status.stopped
            (JsMap.values (TmuxManager.instances w))
        = ControlSocket.instanceCount report)%nat
    /\ Forall (fun entry =>
                 forall command t,
                   ControlSocket.pendingCommand entry = Some (command, t) ->
                   (String.length command <= 100)%nat)
         (ControlSocket.instances report).
Proof.
  eexists. split; [reflexivity|]. simpl.
  unfold JsMap.values. rewrite !length_map.
  split; [reflexivity|]. split; [reflexivity|]. split.
  - rewrite counts_partition. now rewrite length_map.
  - apply List.Forall_forall. intros entry Hin.
    apply in_map_iff in Hin as (i & <- & _). simpl.
    destruct (AmpInstance.pendingCommand i) as [pc|]; [|discriminate].
    intros command t [= <- <-]. apply slice0_length.
Qed.

(** ** The calls of a creation *)

Lemma more_calls_sendLines host i lines :
  steps more_calls (TmuxManager.sendLines host i lines).
Proof.
  pose proof (more_calls_send_keys host).
  induction lines as [|l r IH]; [simpl; calls_tac|].
  destruct r as [|l' r]; [simpl; calls_tac|].
  rewrite sendLines_cons. unfold TmuxManager.sleep. calls_tac.
Qed.

Lemma more_calls_after_start host id (instance : AmpInstance.t) cfg name :
  steps more_calls
    (instance' <- TmuxManager.checkAuthStatus host instance ;;
     match InstanceConfig.initialPrompt cfg with
     | Some "" | None => ret tt
     | Some prompt => TmuxManager.sendPrompt host id prompt
     end ;;;
     modify (fun w => TmuxManager.set_instances
                        (JsMap.set id instance' (TmuxManager.instances w)) w) ;;;
     TmuxManager.startOutputMonitoring id ;;;
     TmuxManager.startLogMonitoring host id ;;;
     TmuxManager.emitEvent id AgentEvent.status_changed
       [("status", VStatus Status.idle); ("name", VString name)] Severity.info ;;;
     ret instance').
Proof.
  pose proof (more_calls_send_keys host).
  pose proof (more_calls_sendLines host).
  unfold TmuxManager.checkAuthStatus, TmuxManager.sendPrompt,
    TmuxManager.executePrompt, TmuxManager.startOutputMonitoring,
    TmuxManager.startLogMonitoring, TmuxManager.emitEvent, TmuxManager.sleep.
  calls_tac.
Qed.

Lemma more_calls_setupInstanceEnvironment host i :
  steps more_calls (TmuxManager.setupInstanceEnvironment host i).
Proof.
  pose proof (more_calls_send_keys host).
  unfold TmuxManager.setupInstanceEnvironment, TmuxManager.fs_writeFile,
    TmuxManager.sleep.
  calls_tac.
Qed.

(** On a host that accepts every command [createInstance] makes the
    window and starts amp in it, whatever happens afterwards. *)
Lemma createInstance_calls host config w :
  accepting host -> TmuxManager.sessionExists w = true ->
  let id := uuidv4 host (TmuxManager.drawn w) in
  let cfg := or_else config InstanceConfig.empty in
  let name :=
    TmuxManager.or_string (InstanceConfig.name cfg) ("amp-" +:+ Js.slice0 8 id) in
  let workingDir :=
    TmuxManager.or_string (InstanceConfig.workingDirectory cfg) (cwd host) in
  exists instance before between after,
    AmpInstance.id instance = id
    /\ AmpInstance.name instance = name
    /\ TmuxManager.calls (snd (TmuxManager.createInstance host config w))
       = (TmuxManager.calls w ++ before
          ++ [Tmux ["new-window"; "-t"; TmuxManager.sessionName w; "-n"; name;
                    "-c"; workingDir]]
          ++ between
          ++ [Tmux ["send-keys"; "-t"; TmuxManager.sessionName w +:+ ":" +:+ name;
                    TmuxManager.buildAmpCommand instance; "Enter"]]
          ++ after)%list.
Proof.
  intros Ha S id cfg name workingDir.
  unfold TmuxManager.createInstance. unfold bind at 1, get. rewrite S.
  cbn [negb]. cbv zeta. fold id. fold cfg. fold name. fold workingDir.
  unfold bind at 1, modify.
  set (w1 := TmuxManager.set_drawn _ w).
  (* the directory of the logs *)
  assert (M : exists w2, TmuxManager.fs_mkdir host "/tmp/amp-manager" w1
                         = (Normal tt, w2)
                         /\ TmuxManager.calls w2
                            = (TmuxManager.calls w ++ [Mkdir "/tmp/amp-manager"])%list
                         /\ TmuxManager.sessionName w2 = TmuxManager.sessionName w).
  { unfold TmuxManager.fs_mkdir, bind, TmuxManager.call. simpl.
    destruct Ha as [_ Hf]. rewrite Hf. eexists. split; [reflexivity|].
    split; reflexivity. }
  destruct M as (w2 & M & C2 & N2). rewrite (bind_normal _ _ _ _ _ M).
  (* the window *)
  destruct (runTmuxCommand_accepted host Ha
              ["new-window"; "-t"; TmuxManager.sessionName w; "-n"; name;
               "-c"; workingDir] w2) as (out & W).
  rewrite (bind_normal _ _ _ _ _ W).
  set (w3 := TmuxManager.set_clock _ _).
  unfold bind at 1, TmuxManager.now. unfold bind at 1, get.
  cbn [fst snd].
  match goal with
  | |- context [TmuxManager.setupInstanceEnvironment host ?i] => set (instance := i)
  end.
  (* the environment *)
  destruct (returns_setupInstanceEnvironment host Ha instance w3) as [[] R].
  pose proof (more_calls_setupInstanceEnvironment host instance w3) as [c4 C4].
  pose proof (keeps_setupInstanceEnvironment host TmuxManager.sessionName
                (fun _ _ => eq_refl) (fun _ _ => eq_refl) instance w3) as N4.
  destruct (TmuxManager.setupInstanceEnvironment host instance w3)
    as [[[]|e] w4] eqn:E4; [|discriminate].
  rewrite (bind_normal _ _ _ _ _ E4). unfold same in N4. cbn [fst snd] in *.
  (* amp *)
  destruct (send_keys_accepted host Ha instance
              [TmuxManager.buildAmpCommand instance; "Enter"] w4)
    as (w5 & K & C5 & N5).
  assert (A5 : TmuxManager.startAmpCLI host instance w4
               = (Normal tt, TmuxManager.set_clock (TmuxManager.clock w5 + 1000) w5)).
  { unfold TmuxManager.startAmpCLI. rewrite (bind_normal _ _ _ _ _ K).
    reflexivity. }
  rewrite (bind_normal _ _ _ _ _ A5).
  set (w6 := TmuxManager.set_clock _ w5).
  match goal with
  | |- context [snd (?rest w6)] =>
      assert (Hrest : steps more_calls rest)
        by apply (more_calls_after_start host id instance cfg name);
      destruct (Hrest w6) as [after C6]
  end.
  exists instance, [Mkdir "/tmp/amp-manager"], c4, after.
  split; [reflexivity|]. split; [reflexivity|].
  assert (Nm : TmuxManager.sessionName w4 = TmuxManager.sessionName w).
  { rewrite N4. subst w3. simpl. exact N2. }
  rewrite C6. subst w6. cbn [TmuxManager.calls TmuxManager.set_clock].
  rewrite C5, C4. subst w3. cbn [TmuxManager.calls TmuxManager.set_clock
    TmuxManager.set_calls]. rewrite C2.
  unfold TmuxManager.target. rewrite Nm. rewrite <- !app_assoc. reflexivity.
Qed.

(** X1.  [createInstance] with a non-empty [initialPrompt] never returns:
    it sends the prompt to the new id before the instance is put into the
    registry, so [sendPrompt] does not find it.  The registry is left as
    it was; on a host that accepts every command, with the session
    initialized, the error is the [not found] of [sendPrompt], and it is
    thrown after the window was created and amp was started in it: the
    calls made include [new-window] for the name of the instance and,
    after it, the keys that start amp in that window. *)
Theorem initial_prompt_fails_the_creation host config prompt w :
  InstanceConfig.initialPrompt config = Some prompt -> prompt <> "" ->
  JsMap.get (uuidv4 host (TmuxManager.drawn w)) (TmuxManager.instances w) = None ->
  let id := uuidv4 host (TmuxManager.drawn w) in
  let name :=
    TmuxManager.or_string (InstanceConfig.name config)
      ("amp-" +:+ Js.slice0 8 id) in
  let workingDir :=
    TmuxManager.or_string (InstanceConfig.workingDirectory config) (cwd host) in
  let r := TmuxManager.createInstance host (Some config) w in
  (exists e, fst r = Thrown e)
  /\ TmuxManager.instances (snd r) = TmuxManager.instances w
  /\ (accepting host -> TmuxManager.sessionExists w = true ->
      fst r = Thrown (TmuxManager.not_found id)
      /\ exists instance before between after,
           AmpInstance.id instance = id
           /\ AmpInstance.name instance = name
           /\ TmuxManager.calls (snd r)
              = (TmuxManager.calls w ++ before
                 ++ [Tmux ["new-window"; "-t"; TmuxManager.sessionName w;
                           "-n"; name; "-c"; workingDir]]
                 ++ between
                 ++ [Tmux ["send-keys"; "-t";
                           TmuxManager.sessionName w +:+ ":" +:+ name;
                           TmuxManager.buildAmpCommand instance; "Enter"]]
                 ++ after)%list).
Proof.
  intros Hp Hne Hfresh id name workingDir r.
  destruct (initial_prompt_throws host config prompt w Hp Hne Hfresh)
    as (H1 & H2 & H3).
  split; [exact H1|]. split; [exact H2|]. intros Ha Hs.
  split; [exact (H3 Ha Hs)|].
  exact (createInstance_calls host (Some config) w Ha Hs).
Qed.

Lemma initial_prompt_fails_the_creation_witness :
  let w := Scenario.manager Scenario.host_ok in
  let r := TmuxManager.createInstance Scenario.host_ok (Some Scenario.greeting) w in
  fst r = Thrown (TmuxManager.not_found Scenario.id0)
  /\ TmuxManager.instances (snd r) = TmuxManager.instances w
  /\ In (Tmux ["new-window"; "-t"; "amp-manager"; "-n"; "greeter"; "-c";
               cwd Scenario.host_ok])
        (TmuxManager.calls (snd r)).
Proof.
  intros w r.
  assert (F : JsMap.get (uuidv4 Scenario.host_ok (TmuxManager.drawn w))
                (TmuxManager.instances w) = None) by (vm_compute; reflexivity).
  assert (N : "hello" <> "") by discriminate.
  assert (S : TmuxManager.sessionExists w = true) by (vm_compute; reflexivity).
  destruct (initial_prompt_fails_the_creation Scenario.host_ok Scenario.greeting
              "hello" w eq_refl N F) as (_ & H2 & H3).
  split; [exact (proj1 (H3 host_ok_accepting S))|]. split; [exact H2|].
  vm_compute. tauto.
Defined.

(** ** The log monitor *)

Lemma processLogEntry_message rt now entry message m :
  JsonOps.prop "message" entry = Some (JString message) ->
  let old := AmpLogMonitor.currentState m in
  let seen :=
    AmpState.set_lastActivity (Date_of rt (JsonOps.prop "timestamp" entry)) old in
  AmpLogMonitor.processLogEntry rt now entry m
  = match classify message entry seen with
    | (Normal _, new) =>
        (Normal tt,
         AmpLogMonitor.mk (AmpLogMonitor.logFile m) (AmpLogMonitor.isMonitoring m)
           new (AmpLogMonitor.lastLogPosition m) (AmpLogMonitor.monitorInterval m)
           (AmpLogMonitor.emitted m ++ announced now old new entry))
    | (Thrown e, s) =>
        (Thrown e,
         AmpLogMonitor.mk (AmpLogMonitor.logFile m) (AmpLogMonitor.isMonitoring m)
           s (AmpLogMonitor.lastLogPosition m) (AmpLogMonitor.monitorInterval m)
           (AmpLogMonitor.emitted m))
    end.
Proof.
  intros H old seen. subst old seen.
  destruct entry; try discriminate.
  unfold AmpLogMonitor.processLogEntry. rewrite H.
  unfold AmpLogMonitor.update_state, AmpLogMonitor.on_state, AmpLogMonitor.emit.
  unfold bind, modify, get, ret. simpl.
  unfold classify.
  destruct (AmpLogMonitor.nestedStatus (JObject props) _) as [[[]|e] s1];
    [|destruct m; reflexivity].
  unfold announced, AmpLogMonitor.isRunning, AmpLogMonitor.wasRunning.
  simpl.
  destruct m as [file mon st pos int em]. simpl.
  destruct (AmpLogMonitor.hasStateChanged _ _); simpl.
  - match goal with
    | |- context [negb (Bool.eqb ?a ?b)] => destruct (negb (Bool.eqb a b))
    end; simpl; rewrite <- ?app_assoc; reflexivity.
  - match goal with
    | |- context [negb (Bool.eqb ?a ?b)] => destruct (negb (Bool.eqb a b))
    end; simpl; rewrite ?app_nil_r; reflexivity.
Qed.

(** The nested status throws on the entry or not, whatever the state, and
    what it throws is a [TypeError]. *)
Lemma setStatusMessage_cases v s :
  AmpLogMonitor.setStatusMessage v s
  = match JsonOps.toString v with
    | Some text => (Normal tt, AmpState.set_statusMessage (Some text) s)
    | None => (Thrown TypeError, s)
    end.
Proof. unfold AmpLogMonitor.setStatusMessage. now destruct (JsonOps.toString v). Qed.

Lemma nestedStatus_fst entry s s' :
  fst (AmpLogMonitor.nestedStatus entry s) = fst (AmpLogMonitor.nestedStatus entry s').
Proof.
  unfold AmpLogMonitor.nestedStatus.
  destruct (JsonOps.prop "data" entry) as [data|]; [|reflexivity].
  destruct (JsonOps.is_object data); [|reflexivity].
  unfold bind.
  destruct (JsonOps.prop "statusMessage" data) as [v|].
  - rewrite !setStatusMessage_cases. destruct (JsonOps.toString v); [|reflexivity].
    destruct (JsonOps.prop "event" data) as [ev|]; [|reflexivity].
    destruct (JsonOps.is_object ev); [|reflexivity].
    destruct (JsonOps.prop "statusMessage" ev) as [v'|]; [|reflexivity].
    rewrite !setStatusMessage_cases. now destruct (JsonOps.toString v').
  - simpl. destruct (JsonOps.prop "event" data) as [ev|]; [|reflexivity].
    destruct (JsonOps.is_object ev); [|reflexivity].
    destruct (JsonOps.prop "statusMessage" ev) as [v'|]; [|reflexivity].
    rewrite !setStatusMessage_cases. now destruct (JsonOps.toString v').
Qed.

Lemma nestedStatus_throws entry s e s1 :
  AmpLogMonitor.nestedStatus entry s = (Thrown e, s1) -> e = TypeError.
Proof.
  unfold AmpLogMonitor.nestedStatus.
  destruct (JsonOps.prop "data" entry) as [data|]; [|discriminate].
  destruct (JsonOps.is_object data); [|discriminate].
  unfold bind.
  destruct (JsonOps.prop "statusMessage" data) as [v|].
  - rewrite setStatusMessage_cases. destruct (JsonOps.toString v);
      [|now intros [= <- _]].
    destruct (JsonOps.prop "event" data) as [ev|]; [|discriminate].
    destruct (JsonOps.is_object ev); [|discriminate].
    destruct (JsonOps.prop "statusMessage" ev) as [v'|]; [|discriminate].
    rewrite setStatusMessage_cases. destruct (JsonOps.toString v');
      [discriminate|now intros [= <- _]].
  - simpl. destruct (JsonOps.prop "event" data) as [ev|]; [|discriminate].
    destruct (JsonOps.is_object ev); [|discriminate].
    destruct (JsonOps.prop "statusMessage" ev) as [v'|]; [|discriminate].
    rewrite setStatusMessage_cases. destruct (JsonOps.toString v');
      [discriminate|now intros [= <- _]].
Qed.

Lemma nestedStatus_without_data entry s :
  JsonOps.prop "data" entry = None ->
  AmpLogMonitor.nestedStatus entry s = (Normal tt, s).
Proof. intros H. unfold AmpLogMonitor.nestedStatus. now rewrite H. Qed.

(** ** Substrings *)

Lemma includes_nil sub : Js.includes "" sub = true -> sub = "".
Proof. unfold Js.includes. simpl. destruct sub; [reflexivity|discriminate]. Qed.

Lemma includes_cons c s sub :
  Js.includes (String c s) sub = String.prefix sub (String c s) || Js.includes s sub.
Proof.
  unfold Js.includes. cbn [String.index].
  destruct (String.prefix sub (String c s)); [reflexivity|].
  simpl. now destruct (String.index 0 sub s).
Qed.

Lemma prefix_app g post : String.prefix g (g +:+ post) = true.
Proof.
  induction g as [|c g IH]; [now destruct post|].
  change (String c g +:+ post) with (String c (g +:+ post)). simpl.
  destruct (ascii_dec c c); [exact IH|congruence].
Qed.

Lemma prefix_includes s p : String.prefix p s = true -> Js.includes s p = true.
Proof.
  destruct s as [|c s].
  - destruct p; [reflexivity|discriminate].
  - intros H. now rewrite includes_cons, H.
Qed.

Lemma includes_app pre g post : Js.includes (pre +:+ g +:+ post) g = true.
Proof.
  induction pre as [|c pre IH].
  - change ("" +:+ g +:+ post) with (g +:+ post).
    apply prefix_includes, prefix_app.
  - change (String c pre +:+ g +:+ post) with (String c (pre +:+ g +:+ post)).
    rewrite includes_cons, IH. apply orb_true_r.
Qed.

Lemma prefix_split p s : String.prefix p s = true -> exists post, s = p +:+ post.
Proof.
  revert s. induction p as [|c p IH]; intros s H.
  - now exists s.
  - destruct s as [|d s]; [discriminate|]. simpl in H.
    destruct (ascii_dec c d) as [->|]; [|discriminate].
    destruct (IH s H) as [post ->]. now exists post.
Qed.

Lemma includes_split s g :
  Js.includes s g = true -> exists pre post, s = pre +:+ g +:+ post.
Proof.
  induction s as [|c s IH]; intros H.
  - apply includes_nil in H as ->. now exists "", "".
  - rewrite includes_cons in H. apply orb_true_iff in H as [H|H].
    + destruct (prefix_split _ _ H) as [post Hp]. exists "", post. exact Hp.
    + destruct (IH H) as (pre & post & ->). now exists (String c pre), post.
Qed.

(** A substring of a substring. *)
Lemma includes_trans s g h :
  Js.includes s g = true -> Js.includes g h = true -> Js.includes s h = true.
Proof.
  intros H1 H2. destruct (includes_split _ _ H1) as (a & b & ->).
  destruct (includes_split _ _ H2) as (c & d & ->).
  rewrite !append_assoc_s. rewrite <- (append_assoc_s a c).
  apply includes_app.
Qed.

(** ** What a pattern captures *)

Lemma exec_at_within s0 r : forall before s caps k c,
  s0 = before +:+ s -> within s0 caps ->
  RegExp.exec_at r s caps k = Some c ->
  exists mid rest caps',
    s = mid +:+ rest /\ within s0 caps' /\ k rest caps' = Some c.
Proof.
  induction r as [p|p|a IHa b IHb|i a IHa]; intros before s caps k c Hs Hw H; simpl in H.
  - destruct s as [|x rest]; [discriminate|].
    destruct (p x); [|discriminate].
    exists (String x ""), rest, caps. auto.
  - destruct (star_sound _ _ _ _ H) as (pre & rest & -> & _ & Hk).
    exists pre, rest, caps. auto.
  - destruct (IHa _ _ _ _ _ Hs Hw H) as (mid1 & rest1 & caps1 & -> & Hw1 & H1).
    assert (Hs1 : s0 = (before +:+ mid1) +:+ rest1)
      by (now rewrite append_assoc_s).
    destruct (IHb _ _ _ _ _ Hs1 Hw1 H1) as (mid2 & rest2 & caps2 & -> & Hw2 & H2).
    exists (mid1 +:+ mid2), rest2, caps2. rewrite append_assoc_s. auto.
  - destruct (IHa _ _ _ _ _ Hs Hw H) as (mid & rest & caps1 & -> & Hw1 & H1).
    rewrite consumed_app in H1.
    exists mid, rest, ((i, mid) :: caps1). split; [reflexivity|]. split; [|exact H1].
    constructor; [|exact Hw1]. simpl. rewrite Hs. apply includes_app.
Qed.

Lemma exec_within r s caps : RegExp.exec r s = Some caps -> within s caps.
Proof.
  intros H. destruct (exec_sound _ _ _ H) as (skipped & rest & -> & He).
  destruct (exec_at_within _ r skipped rest [] _ _ eq_refl (List.Forall_nil _) He)
    as (_ & _ & caps' & _ & Hw & [= <-]).
  exact Hw.
Qed.

Lemma group_within s caps i g :
  within s caps -> RegExp.group i caps = Some g -> Js.includes s g = true.
Proof.
  induction 1 as [|[j h] caps Hh _ IH]; simpl; [discriminate|].
  destruct (i =? j)%nat; [intros [= <-]; exact Hh|exact IH].
Qed.

(** The name a state transition leads to is in the message. *)
Lemma transition_target_is_mentioned message caps g :
  RegExp.exec RegExp.stateTransition message = Some caps ->
  RegExp.group 2 caps = Some g ->
  Js.includes message g = true.
Proof. intros H. apply group_within. exact (exec_within _ _ _ H). Qed.

Lemma directMention_stateTransition message s :
  AmpLogMonitor.directMention message (AmpLogMonitor.stateTransition message s)
  = AmpLogMonitor.directMention message s.
Proof.
  unfold AmpLogMonitor.stateTransition.
  destruct (RegExp.exec RegExp.stateTransition message) as [caps|] eqn:E;
    [|reflexivity].
  destruct (RegExp.group 2 caps) as [g|] eqn:G; [|reflexivity].
  pose proof (transition_target_is_mentioned _ _ _ E G) as Hg.
  unfold AmpLogMonitor.directMention.
  destruct (String.eqb_spec g "awaiting-user-message") as [->|_].
  { rewrite Hg. reflexivity. }
  destruct (String.eqb_spec g "awaiting-agent") as [->|_].
  { rewrite Hg. simpl.
    destruct (Js.includes message "awaiting-user-message"
              || Js.includes message "ready for input"); reflexivity. }
  destruct (String.eqb_spec g "checking-agent-file") as [->|_]; [|reflexivity].
  rewrite Hg.
  destruct (Js.includes message "awaiting-user-message"
            || Js.includes message "ready for input"); [reflexivity|].
  destruct (Js.includes message "awaiting-agent"
            || Js.includes message "processing"); reflexivity.
Qed.

(** ** The entries of the log *)

Lemma processLogEntry_without_message rt now entry m :
  (forall s, JsonOps.prop "message" entry <> Some (JString s)) ->
  AmpLogMonitor.processLogEntry rt now entry m
  = (Thrown TypeError,
     match entry with
     | JNull => m
     | _ => AmpLogMonitor.set_currentState
              (AmpState.set_lastActivity
                 (Date_of rt (JsonOps.prop "timestamp" entry))
                 (AmpLogMonitor.currentState m)) m
     end).
Proof.
  intros Hm. unfold AmpLogMonitor.processLogEntry, bind, get. simpl.
  destruct entry; try reflexivity.
  unfold AmpLogMonitor.update_state, modify. simpl in *.
  destruct (JsonOps.lookup "message" props) as [[]|] eqn:P; try reflexivity.
  exfalso. eapply Hm. reflexivity.
Qed.

Lemma message_or_not entry :
  (exists message, JsonOps.prop "message" entry = Some (JString message))
  \/ (forall s, JsonOps.prop "message" entry <> Some (JString s)).
Proof.
  destruct (JsonOps.prop "message" entry) as [[]|]; try (right; congruence).
  left. eauto.
Qed.

Lemma polled_refl m : polled m m.
Proof. repeat split. exists []. now rewrite app_nil_r. Qed.

Lemma polled_trans a b c : polled a b -> polled b c -> polled a c.
Proof.
  intros (H1 & H2 & H3 & H4 & e1 & H5) (K1 & K2 & K3 & K4 & e2 & K5).
  repeat split; try congruence.
  exists (e1 ++ e2)%list. rewrite K5, H5. now rewrite app_assoc.
Qed.

Lemma polled_processLogEntry rt now entry m :
  polled m (snd (AmpLogMonitor.processLogEntry rt now entry m)).
Proof.
  destruct (message_or_not entry) as [[message H]|H].
  - rewrite (processLogEntry_message rt now entry message m H).
    destruct (classify message entry _) as [[[]|e] s1]; simpl.
    + repeat split. eauto.
    + repeat split. exists []. now rewrite app_nil_r.
  - rewrite (processLogEntry_without_message rt now entry m H). simpl.
    destruct entry; simpl; repeat split; exists []; now rewrite app_nil_r.
Qed.

Lemma polled_line_step rt now line m : polled m (snd (line_step rt now line m)).
Proof.
  unfold line_step, try_catch, AmpLogMonitor.parseLine.
  destruct (JSON_parse rt line) as [entry|]; [|apply polled_refl].
  pose proof (polled_processLogEntry rt now entry m) as H.
  destruct (AmpLogMonitor.processLogEntry rt now entry m) as [[[]|e] m']; exact H.
Qed.

Lemma polled_lines rt now lines : forall m,
  polled m (snd (for_each lines (line_step rt now) m)).
Proof.
  induction lines as [|l r IH]; intros m; [apply polled_refl|].
  simpl. unfold bind.
  pose proof (polled_line_step rt now l m) as H.
  destruct (line_step rt now l m) as [[[]|e] m1]; simpl in *; [|exact H].
  eapply polled_trans; [exact H|apply IH].
Qed.

Lemma polled_parseLogContent rt now content m :
  polled m (snd (AmpLogMonitor.parseLogContent rt now content m)).
Proof. apply polled_lines. Qed.

(** X17.  The rule of [processLogEntry] for a state transition never
    decides the state: the name it reads is in the message, so the rule
    for the names mentioned in the message, which comes next, writes the
    state again, and the state after an entry is what the other six rules
    give without it, also when the entry is given up at the nested
    status. *)
Theorem transition_rule_never_decides rt now entry message m :
  JsonOps.prop "message" entry = Some (JString message) ->
  let seen :=
    AmpState.set_lastActivity (Date_of rt (JsonOps.prop "timestamp" entry))
      (AmpLogMonitor.currentState m) in
  AmpLogMonitor.currentState
    (snd (AmpLogMonitor.processLogEntry rt now entry m))
  = match AmpLogMonitor.nestedStatus entry
            (AmpLogMonitor.promptMention message
               (AmpLogMonitor.directMention message seen)) with
    | (Normal _, nested) =>
        AmpLogMonitor.completion message
          (AmpLogMonitor.userMessage message
             (AmpLogMonitor.workerState message entry nested))
    | (Thrown _, nested) => nested
    end.
Proof.
  intros H seen. rewrite (processLogEntry_message rt now entry message m H).
  unfold classify. rewrite directMention_stateTransition. fold seen.
  destruct (AmpLogMonitor.nestedStatus entry _) as [[[]|e] s1]; reflexivity.
Qed.

Lemma transition_rule_never_decides_witness :
  let entry :=
    JObject [("timestamp", JString "2025-01-01T00:00:00.000Z");
             ("message", JString "awaiting-user-message + submit -> awaiting-agent")] in
  let m := AmpLogMonitor.new "/tmp/amp-manager/plain.log" 0 in
  AmpState.type
    (AmpLogMonitor.currentState
       (snd (AmpLogMonitor.processLogEntry Reference.runtime 1000 entry m)))
  = AmpState.awaiting_user_message.
Proof.
  intros entry m.
  rewrite (transition_rule_never_decides Reference.runtime 1000 entry
             "awaiting-user-message + submit -> awaiting-agent" m eq_refl).
  vm_compute. reflexivity.
Defined.



(** X19.  [processLogEntry] writes the state of the monitor and nothing
    else of it, and emits at most two events: [state-changed], with the
    state before and the state after, exactly when type, status message
    or inference state differ, and then [amp-started] or [amp-idle]
    exactly when running became different.  An entry it gives up on
    emits nothing. *)
Theorem an_entry_is_announced_at_most_twice rt now entry m :
  let r := AmpLogMonitor.processLogEntry rt now entry m in
  let old := AmpLogMonitor.currentState m in
  let new := AmpLogMonitor.currentState (snd r) in
  AmpLogMonitor.logFile (snd r) = AmpLogMonitor.logFile m
  /\ AmpLogMonitor.isMonitoring (snd r) = AmpLogMonitor.isMonitoring m
  /\ AmpLogMonitor.lastLogPosition (snd r) = AmpLogMonitor.lastLogPosition m
  /\ exists events,
       AmpLogMonitor.emitted (snd r) = (AmpLogMonitor.emitted m ++ events)%list
       /\ (length events <= 2)%nat
       /\ (fst r <> Normal tt -> events = [])
       /\ (fst r = Normal tt ->
           (In (AmpLogMonitor.state_changed old new entry) events
            <-> AmpLogMonitor.hasStateChanged old new = true)
           /\ (In AmpLogMonitor.amp_started events
               <-> AmpLogMonitor.wasRunning old now = false
                   /\ AmpLogMonitor.isRunning (snd r) now = true)
           /\ (In AmpLogMonitor.amp_idle events
               <-> AmpLogMonitor.wasRunning old now = true
                   /\ AmpLogMonitor.isRunning (snd r) now = false)
           /\ forall e, In e events ->
                e = AmpLogMonitor.state_changed old new entry
                \/ e = AmpLogMonitor.amp_started \/ e = AmpLogMonitor.amp_idle).
Proof.
  intros r old new. subst r old new.
  destruct (message_or_not entry) as [[message H]|H].
  - rewrite (processLogEntry_message rt now entry message m H).
    set (old := AmpLogMonitor.currentState m).
    destruct (classify message entry _) as [[[]|e] new]; simpl.
    2:{ repeat split; try reflexivity.
        exists []. split; [now rewrite app_nil_r|].
        split; [simpl; lia|]. split; [reflexivity|discriminate]. }
    repeat split; try reflexivity.
    exists (announced now old new entry).
    split; [reflexivity|]. unfold announced, AmpLogMonitor.isRunning. simpl.
    change (bool_decide (AmpState.type new = AmpState.awaiting_agent)
            || bool_decide (AmpState.statusMessage new = Some "Thinking...")
            || AmpLogMonitor.recent (AmpState.lastActivity new) now
               && negb (bool_decide
                          (AmpState.type new = AmpState.awaiting_user_message)))
      with (AmpLogMonitor.wasRunning new now).
    destruct (AmpLogMonitor.hasStateChanged old new),
      (AmpLogMonitor.wasRunning new now), (AmpLogMonitor.wasRunning old now);
      simpl; (split; [lia|]); (split; [congruence|]); intros _;
      repeat split; intros; intuition (try discriminate; try congruence; auto).
  - rewrite (processLogEntry_without_message rt now entry m H). simpl.
    repeat split; try (destruct entry; reflexivity).
    exists []. split; [destruct entry; simpl; now rewrite app_nil_r|].
    split; [simpl; lia|]. split; [reflexivity|discriminate].
Qed.

Lemma isRunning_seen seen m t :
  AmpLogMonitor.isRunning
    (AmpLogMonitor.set_currentState
       (AmpState.set_lastActivity seen (AmpLogMonitor.currentState m)) m) t
  = bool_decide (AmpState.type (AmpLogMonitor.currentState m)
                 = AmpState.awaiting_agent)
    || bool_decide (AmpState.statusMessage (AmpLogMonitor.currentState m)
                    = Some "Thinking...")
    || AmpLogMonitor.recent seen t
       && negb (bool_decide (AmpState.type (AmpLogMonitor.currentState m)
                             = AmpState.awaiting_user_message)).
Proof. reflexivity. Qed.



(** ** The polling of the log *)

Lemma snd_try_catch_silent {S} (body : M S unit) s :
  snd (try_catch body (fun _ => ret tt) s) = snd (body s).
Proof. unfold try_catch. destruct (body s) as [[a|e] s1]; reflexivity. Qed.

Lemma snd_bind_modify {S A} (f : S -> S) (k : M S A) s :
  snd (bind (modify f) (fun _ => k) s) = snd (k (f s)).
Proof. reflexivity. Qed.

Lemma checkForLogUpdates_state rt now size read m :
  snd (AmpLogMonitor.checkForLogUpdates rt now size read m)
  = match size with
    | Some sz =>
        if AmpLogMonitor.lastLogPosition m <? sz
        then match read with
             | AmpLogMonitor.Read text =>
                 snd (AmpLogMonitor.parseLogContent rt now text
                        (AmpLogMonitor.set_lastLogPosition sz m))
             | AmpLogMonitor.CloseFailed =>
                 AmpLogMonitor.set_lastLogPosition sz m
             | AmpLogMonitor.ReadFailed => m
             end
        else m
    | None => m
    end.
Proof.
  unfold AmpLogMonitor.checkForLogUpdates.
  destruct size as [sz|]; [|reflexivity].
  rewrite snd_try_catch_silent. unfold bind, get.
  destruct (AmpLogMonitor.lastLogPosition m <? sz); [|reflexivity].
  destruct read as [|text|]; try reflexivity.
  unfold AmpLogMonitor.readNewLogContent, bind, modify, ret.
  destruct (String.eqb_spec text "") as [->|_]; reflexivity.
Qed.

(** X21.  A tick of the polling timer reads the log only when the file
    is larger than the position the monitor holds: a file that is
    missing, that did not grow or that became shorter, and a file that
    cannot be opened or read, leave the monitor as it is.  The position
    never goes back.  When the bytes were read it moves to the size of
    the file, and the new text is parsed from the monitor with that
    position; but when closing the file fails after the read, the
    position has moved and the text is dropped, and with it what it
    would have told. *)
Theorem log_is_read_only_when_it_grew rt now size read m :
  let r := AmpLogMonitor.checkForLogUpdates rt now size read m in
  AmpLogMonitor.logFile (snd r) = AmpLogMonitor.logFile m
  /\ AmpLogMonitor.isMonitoring (snd r) = AmpLogMonitor.isMonitoring m
  /\ AmpLogMonitor.lastLogPosition m <= AmpLogMonitor.lastLogPosition (snd r)
  /\ (size = None -> snd r = m)
  /\ (read = AmpLogMonitor.ReadFailed -> snd r = m)
  /\ (forall sz, size = Some sz -> sz <= AmpLogMonitor.lastLogPosition m ->
                 snd r = m)
  /\ (forall sz text,
        size = Some sz -> AmpLogMonitor.lastLogPosition m < sz ->
        read = AmpLogMonitor.Read text ->
        AmpLogMonitor.lastLogPosition (snd r) = sz
        /\ snd r
           = snd (AmpLogMonitor.parseLogContent rt now text
                    (AmpLogMonitor.set_lastLogPosition sz m)))
  /\ (forall sz,
        size = Some sz -> AmpLogMonitor.lastLogPosition m < sz ->
        read = AmpLogMonitor.CloseFailed ->
        snd r = AmpLogMonitor.set_lastLogPosition sz m
        /\ forall again,
             snd (AmpLogMonitor.checkForLogUpdates rt now size again (snd r))
             = snd r).
Proof.
  intros r. subst r. rewrite !checkForLogUpdates_state.
  destruct size as [sz|].
  2: { split; [reflexivity|]. split; [reflexivity|]. split; [lia|].
       split; [reflexivity|]. split; [reflexivity|].
       split; [intros; discriminate|]. split; intros; discriminate. }
  destruct (Z.ltb_spec (AmpLogMonitor.lastLogPosition m) sz) as [Hlt|Hge].
  2: { split; [reflexivity|]. split; [reflexivity|]. split; [lia|].
       split; [discriminate|]. split; [reflexivity|].
       split; [reflexivity|].
       split; [intros sz' text [= <-]; lia|intros sz' [= <-]; lia]. }
  destruct read as [|text|].
  - split; [reflexivity|]. split; [reflexivity|]. split; [lia|].
    split; [discriminate|]. split; [reflexivity|].
    split; [intros sz' [= <-]; lia|]. split; intros; discriminate.
  - destruct (polled_parseLogContent rt now text
                (AmpLogMonitor.set_lastLogPosition sz m)) as (H1 & H2 & H3 & _).
    rewrite H1, H2, H3. simpl.
    split; [reflexivity|]. split; [reflexivity|]. split; [lia|].
    split; [discriminate|]. split; [discriminate|].
    split; [intros sz' [= <-]; lia|]. split.
    + intros sz' text' [= <-] _ [= <-]. split; reflexivity.
    + intros; discriminate.
  - simpl. split; [reflexivity|]. split; [reflexivity|]. split; [lia|].
    split; [discriminate|]. split; [discriminate|].
    split; [intros sz' [= <-]; lia|]. split; [intros; discriminate|].
    intros sz' [= <-] _ _. split; [reflexivity|]. intros again.
    rewrite snd_try_catch_silent. unfold bind, get. simpl.
    now rewrite Z.ltb_irrefl.
Qed.



(** ** The end of the manager *)

Lemma stop_all_output_timers l : forall w,
  for_each l TmuxManager.stopOutputMonitoring w
  = (Normal tt,
     TmuxManager.set_outputMonitors
       (filter (fun k => negb (existsb (fun x => String.eqb x k) l))
          (TmuxManager.outputMonitors w)) w).
Proof.
  induction l as [|a l IH]; intros w.
  - simpl. f_equal. destruct w as [? ? ? om ? ? ? ? ? ? ? ?]. unfold TmuxManager.set_outputMonitors.
    simpl. f_equal. induction om as [|x om IHo]; [reflexivity|].
    rewrite filter_cons. simpl. now rewrite <- IHo.
  - simpl. unfold bind. unfold TmuxManager.stopOutputMonitoring at 1, modify.
    rewrite IH. f_equal. unfold TmuxManager.set_outputMonitors. simpl. f_equal.
    induction (TmuxManager.outputMonitors w) as [|x om IHo]; [reflexivity|].
    rewrite !filter_cons. destruct (String.eqb a x) eqn:E; simpl.
    + exact IHo.
    + rewrite filter_cons. destruct (existsb _ l); simpl; [exact IHo|now rewrite IHo].
Qed.

Lemma filter_none_left (l : list string) :
  filter (fun k => negb (existsb (fun x => String.eqb x k) l)) l = [].
Proof.
  assert (G : forall m, (forall k, k ∈ m -> k ∈ l) ->
            filter (fun k => negb (existsb (fun x => String.eqb x k) l)) m = []).
  { induction m as [|a m IH]; intros H; [reflexivity|].
    rewrite filter_cons.
    assert (E : existsb (fun x => String.eqb x a) l = true).
    { apply existsb_exists. exists a. split.
      - apply list_elem_of_In, H. now left.
      - apply String.eqb_refl. }
    rewrite E. simpl. apply IH. intros k Hk. apply H. now right. }
  apply G. auto.
Qed.

Lemma stop_all_log_monitors l : forall w,
  for_each l TmuxManager.stopLogMonitoring w
  = (Normal tt,
     TmuxManager.set_logMonitors
       (fold_left (fun m k => JsMap.delete k m) l (TmuxManager.logMonitors w)) w).
Proof.
  induction l as [|a l IH]; intros w.
  - simpl. now destruct w.
  - simpl. unfold bind. unfold TmuxManager.stopLogMonitoring at 1, modify.
    rewrite IH. reflexivity.
Qed.

Lemma delete_nil {V} l : fold_left (fun m k => @JsMap.delete V k m) l [] = [].
Proof. induction l as [|a l IH]; [reflexivity|exact IH]. Qed.

Lemma delete_all_keys {V} (m : list (string * V)) : forall l,
  (forall k, In k (JsMap.keys m) -> In k l) ->
  fold_left (fun m k => JsMap.delete k m) l m = [].
Proof.
  intros l. revert m. induction l as [|a l IH]; intros m H.
  - destruct m as [|[k v] m]; [reflexivity|]. destruct (H k). now left.
  - simpl. apply IH. intros k Hk.
    assert (Hd : In k (JsMap.keys m) /\ k <> a).
    { clear -Hk. induction m as [|[k' v'] m IHm]; [destruct Hk|].
      simpl in Hk. destruct (String.eqb_spec k' a) as [->|Hne].
      - destruct (IHm Hk) as [H1 H2]. split; [now right|exact H2].
      - destruct Hk as [<-|Hk]; [split; [now left|exact Hne]|].
        destruct (IHm Hk) as [H1 H2]. split; [now right|exact H2]. }
    destruct Hd as [Hin Hne]. destruct (H k Hin) as [->|Hl]; [congruence|exact Hl].
Qed.

Lemma cleanup_result host w :
  let w1 :=
    TmuxManager.set_logMonitors []
      (TmuxManager.set_outputMonitors []
         (TmuxManager.set_watchdogInterval false w)) in
  let n := length (TmuxManager.calls w) in
  TmuxManager.cleanup host w
  = (Normal tt,
     if TmuxManager.sessionExists w
     then TmuxManager.set_clock
            (TmuxManager.clock w + Z.of_N (elapsed host n))
            (TmuxManager.set_calls
               (TmuxManager.calls w
                ++ [Tmux ["kill-session"; "-t"; TmuxManager.sessionName w]])
               w1)
     else w1).
Proof.
  intros w1 n. unfold TmuxManager.cleanup.
  unfold bind at 1, modify. unfold bind at 1, get.
  unfold bind at 1. rewrite stop_all_output_timers.
  unfold bind at 1, get. unfold bind at 1. rewrite stop_all_log_monitors.
  unfold bind at 1, get. cbn [TmuxManager.sessionExists
    TmuxManager.set_logMonitors TmuxManager.set_outputMonitors
    TmuxManager.set_watchdogInterval TmuxManager.outputMonitors
    TmuxManager.logMonitors TmuxManager.sessionName].
  rewrite filter_none_left, delete_all_keys by auto.
  fold (TmuxManager.set_watchdogInterval false w).
  destruct (TmuxManager.sessionExists w) eqn:S; [|reflexivity].
  unfold try_catch, bind, TmuxManager.runTmuxCommand, TmuxManager.call, bind.
  cbn [fst snd TmuxManager.calls TmuxManager.clock].
  destruct (tmux host _ _) as [code out err|e]; [destruct (code =? 0)|];
    reflexivity.
Qed.

(** X23.  [cleanup] never throws, whatever tmux answers to
    [kill-session], which is its one call and is made only when the
    session is marked as existing.  Afterwards no timer is left: watchdog,
    output timers and log monitors are gone.  The instances stay
    registered as they were, no event is emitted, and the session is
    still marked as existing. *)
Theorem cleanup_keeps_the_registry host w :
  let r := TmuxManager.cleanup host w in
  fst r = Normal tt
  /\ TmuxManager.watchdogInterval (snd r) = false
  /\ TmuxManager.outputMonitors (snd r) = []
  /\ TmuxManager.logMonitors (snd r) = []
  /\ TmuxManager.instances (snd r) = TmuxManager.instances w
  /\ TmuxManager.sessionExists (snd r) = TmuxManager.sessionExists w
  /\ TmuxManager.events (snd r) = TmuxManager.events w
  /\ TmuxManager.calls (snd r)
     = (TmuxManager.calls w
        ++ if TmuxManager.sessionExists w
           then [Tmux ["kill-session"; "-t"; TmuxManager.sessionName w]]
           else [])%list.
Proof.
  intros r. subst r. rewrite cleanup_result.
  destruct (TmuxManager.sessionExists w) eqn:S; simpl; rewrite ?S, ?app_nil_r;
    repeat split.
Qed.

(** ** The helpers of the command line *)

Lemma escape_app c a b :
  AmpCliHelpers.escape c (a +:+ b)
  = AmpCliHelpers.escape c a +:+ AmpCliHelpers.escape c b.
Proof.
  induction a as [|x a IH]; [reflexivity|].
  change (String x a +:+ b) with (String x (a +:+ b)). simpl.
  destruct (Ascii.eqb x c); rewrite IH; reflexivity.
Qed.

Lemma format_app a b :
  AmpCliHelpers.formatPromptForNonInteractive (a +:+ b)
  = AmpCliHelpers.formatPromptForNonInteractive a
    +:+ AmpCliHelpers.formatPromptForNonInteractive b.
Proof.
  unfold AmpCliHelpers.formatPromptForNonInteractive.
  now rewrite !escape_app.
Qed.

Lemma format_char c :
  AmpCliHelpers.formatPromptForNonInteractive (String c "")
  = if special c then String "\" (String c "") else String c "".
Proof.
  unfold AmpCliHelpers.formatPromptForNonInteractive, special.
  destruct (Ascii.eqb_spec c RegExp.dquote) as [->|H1]; [reflexivity|].
  destruct (Ascii.eqb_spec c "`") as [->|H2]; [reflexivity|].
  destruct (Ascii.eqb_spec c "$") as [->|H3]; [reflexivity|].
  simpl.
  rewrite (proj2 (Ascii.eqb_neq _ _) H1). simpl.
  rewrite (proj2 (Ascii.eqb_neq _ _) H2). simpl.
  rewrite (proj2 (Ascii.eqb_neq _ _) H3). reflexivity.
Qed.

Lemma format_cons c r :
  AmpCliHelpers.formatPromptForNonInteractive (String c r)
  = (if special c then String "\" (String c "") else String c "")
    +:+ AmpCliHelpers.formatPromptForNonInteractive r.
Proof.
  change (String c r) with (String c "" +:+ r).
  now rewrite format_app, format_char.
Qed.

(** X24.  [formatPromptForNonInteractive] works character by character:
    a double quote, a back quote and a dollar get a backslash in front,
    every other character is copied, a backslash included.  So the result
    is longer by the number of escaped characters, a prompt without them
    is returned as it is, and a backslash of the prompt that stands
    before an escaped character is followed by the new backslash. *)
Theorem prompt_is_escaped_character_by_character prompt :
  (forall a b,
     AmpCliHelpers.formatPromptForNonInteractive (a +:+ b)
     = AmpCliHelpers.formatPromptForNonInteractive a
       +:+ AmpCliHelpers.formatPromptForNonInteractive b)
  /\ (forall c,
        AmpCliHelpers.formatPromptForNonInteractive (String c "")
        = if special c then String "\" (String c "") else String c "")
  /\ String.length (AmpCliHelpers.formatPromptForNonInteractive prompt)
     = (String.length prompt + occurrences special prompt)%nat
  /\ (occurrences special prompt = O ->
      AmpCliHelpers.formatPromptForNonInteractive prompt = prompt)
  /\ (forall c, special c = true ->
        AmpCliHelpers.formatPromptForNonInteractive
          (String "\" (String c prompt))
        = String "\" (String "\" (String c
            (AmpCliHelpers.formatPromptForNonInteractive prompt)))).
Proof.
  split; [exact format_app|]. split; [exact format_char|]. split; [|split].
  - induction prompt as [|c r IH]; [reflexivity|].
    rewrite format_cons, string_length_app, IH. simpl.
    destruct (special c); simpl; lia.
  - induction prompt as [|c r IH]; [reflexivity|].
    rewrite format_cons. simpl. destruct (special c); [discriminate|].
    intros H. simpl in H. now rewrite (IH H).
  - intros c Hc. rewrite format_cons. change (special "\") with false.
    rewrite format_cons, Hc. reflexivity.
Qed.

(** *** Trimming *)

Lemma trimStart_head s :
  Js.trimStart s = ""
  \/ exists c r, Js.trimStart s = String c r /\ Js.is_space c = false.
Proof.
  induction s as [|c r IH]; [now left|]. simpl.
  destruct (Js.is_space c) eqn:E; [exact IH|]. right. eauto.
Qed.

Lemma trimEnd_trimEnd s : Js.trimEnd (Js.trimEnd s) = Js.trimEnd s.
Proof.
  induction s as [|c r IH]; [reflexivity|]. simpl.
  destruct (Js.trimEnd r) as [|d r1] eqn:E.
  - destruct (Js.is_space c) eqn:S; [reflexivity|]. simpl. now rewrite S.
  - simpl in *. now rewrite IH.
Qed.

Lemma trimEnd_head c r :
  Js.is_space c = false -> exists r', Js.trimEnd (String c r) = String c r'.
Proof.
  intros S. simpl. destruct (Js.trimEnd r); [rewrite S|]; eauto.
Qed.

Lemma trim_trim s : Js.trim (Js.trim s) = Js.trim s.
Proof.
  unfold Js.trim. destruct (trimStart_head s) as [->|(c & r & -> & S)];
    [reflexivity|].
  destruct (trimEnd_head c r S) as [r' E]. rewrite E at 1.
  simpl Js.trimStart. rewrite S, <- E. apply trimEnd_trimEnd.
Qed.

Lemma trimStart_suffix s : exists pre, s = pre +:+ Js.trimStart s.
Proof.
  induction s as [|c r [pre IH]]; [now exists ""|]. simpl.
  destruct (Js.is_space c).
  - exists (String c pre).
    change (String c r = String c (pre +:+ Js.trimStart r)). now rewrite <- IH.
  - now exists "".
Qed.

Lemma trimEnd_prefix s : exists post, s = Js.trimEnd s +:+ post.
Proof.
  induction s as [|c r [post IH]]; [now exists ""|]. simpl.
  destruct (Js.trimEnd r) as [|d r1].
  - destruct (Js.is_space c).
    + now exists (String c r).
    + exists r. reflexivity.
  - exists post.
    change (String c r = String c (String d r1 +:+ post)). now rewrite <- IH.
Qed.

(** What [trim] leaves is a part of the string. *)
Lemma includes_trim s : Js.includes s (Js.trim s) = true.
Proof.
  unfold Js.trim. destruct (trimStart_suffix s) as [pre H1].
  destruct (trimEnd_prefix (Js.trimStart s)) as [post H2].
  rewrite H1 at 1. rewrite H2 at 1. apply includes_app.
Qed.

Lemma includes_empty s : Js.includes s "" = true.
Proof. unfold Js.includes. now destruct s. Qed.

(** *** The error lines *)

Lemma extractErrors_filter output :
  AmpCliHelpers.extractErrors output
  = List.filter AmpCliHelpers.isErrorLine
      (map Js.trim (Js.split Js.newline output)).
Proof.
  unfold AmpCliHelpers.extractErrors.
  assert (G : forall lines acc,
            fold_left
              (fun errors line =>
                 let trimmed := Js.trim line in
                 if AmpCliHelpers.isErrorLine trimmed
                 then (errors ++ [trimmed])%list else errors) lines acc
            = (acc ++ List.filter AmpCliHelpers.isErrorLine (map Js.trim lines))%list).
  { induction lines as [|l r IH]; intros acc; simpl.
    - now rewrite app_nil_r.
    - rewrite IH. destruct (AmpCliHelpers.isErrorLine (Js.trim l)); simpl;
        [now rewrite <- app_assoc|reflexivity]. }
  apply G.
Qed.

(** X25.  [extractErrors] returns, in their order, the trimmed lines of
    the output that start with [error:] or [fatal:] in either case or
    contain one of the three phrases as written.  A returned line is not
    empty and has no white space at its ends. *)
Theorem errors_are_trimmed_lines output :
  AmpCliHelpers.extractErrors output
  = List.filter AmpCliHelpers.isErrorLine
      (map Js.trim (Js.split Js.newline output))
  /\ (forall e, In e (AmpCliHelpers.extractErrors output) ->
        e <> "" /\ Js.trim e = e
        /\ exists line, In line (Js.split Js.newline output) /\ e = Js.trim line)
  /\ (AmpCliHelpers.extractErrors "" = []).
Proof.
  split; [apply extractErrors_filter|]. split; [|reflexivity].
  intros e. rewrite extractErrors_filter. intros H.
  apply filter_In in H as [H He]. apply in_map_iff in H as (line & <- & Hl).
  split; [|split].
  - intros E. rewrite E in He. discriminate.
  - apply trim_trim.
  - eauto.
Qed.

(** *** The allowlist *)

Lemma isCommandAllowed_includes prompt allowlist :
  AmpCliHelpers.isCommandAllowed prompt allowlist
  = Js.some (fun allowed =>
               Js.includes (Js.trim (Js.toLowerCase prompt))
                 (Js.toLowerCase allowed)) allowlist.
Proof.
  unfold AmpCliHelpers.isCommandAllowed, Js.some.
  induction allowlist as [|a l IH]; [reflexivity|]. simpl. rewrite IH. f_equal.
  destruct (Js.includes _ _) eqn:E; [reflexivity|]. simpl.
  unfold Js.startsWith.
  destruct (String.prefix _ _) eqn:P; [|reflexivity].
  apply prefix_includes in P. congruence.
Qed.

(** X26.  [isCommandAllowed] allows a prompt exactly when the lower-case
    trimmed prompt contains a lower-case entry of the allowlist somewhere;
    the test for the start of the prompt adds nothing.  An empty entry
    allows every prompt, no entry allows none, more entries never forbid
    what was allowed, and what the helper allows the test of
    [executePrompt] allows as well. *)
Theorem allowlist_matches_anywhere prompt allowlist :
  AmpCliHelpers.isCommandAllowed prompt allowlist
  = Js.some (fun allowed =>
               Js.includes (Js.trim (Js.toLowerCase prompt))
                 (Js.toLowerCase allowed)) allowlist
  /\ AmpCliHelpers.isCommandAllowed prompt [] = false
  /\ (In "" allowlist -> AmpCliHelpers.isCommandAllowed prompt allowlist = true)
  /\ (forall more,
        AmpCliHelpers.isCommandAllowed prompt allowlist = true ->
        (forall a, In a allowlist -> In a more) ->
        AmpCliHelpers.isCommandAllowed prompt more = true)
  /\ (forall instance settings,
        AmpCliHelpers.isCommandAllowed prompt allowlist = true ->
        AmpInstance.ampSettings instance = Some settings ->
        AmpSettings.commands_allowlist settings = Some allowlist ->
        TmuxManager.isAllowed instance prompt = true).
Proof.
  split; [apply isCommandAllowed_includes|]. split; [reflexivity|].
  rewrite !isCommandAllowed_includes. unfold Js.some. split; [|split].
  - intros H. apply existsb_exists. exists "". split; [exact H|].
    apply includes_empty.
  - intros more H Hsub. rewrite isCommandAllowed_includes. unfold Js.some.
    apply existsb_exists in H as (a & Ha & Hi). apply existsb_exists. eauto.
  - intros instance settings H Hs Ha. unfold TmuxManager.isAllowed.
    rewrite Hs, Ha. simpl. unfold Js.some.
    apply existsb_exists in H as (a & Hin & Hi). apply existsb_exists.
    exists a. split; [exact Hin|].
    eapply includes_trans; [apply includes_trim|exact Hi].
Qed.

(** *** The thread id in the output *)

Lemma threadId_at s caps0 caps :
  RegExp.exec_at RegExp.threadId s caps0 (fun _ caps => Some caps) = Some caps ->
  exists t after,
    caps = (1%nat, t) :: caps0 /\ s = t +:+ after
    /\ every RegExp.hex_or_dash t = true /\ (8 <= String.length t)%nat.
Proof.
  intros He. unfold RegExp.threadId in He.
  change (RegExp.exec_at
            (RegExp.times 8 RegExp.hex_or_dash (RegExp.Star RegExp.hex_or_dash))
            s caps0
            (fun rest caps' => Some ((1%nat, RegExp.consumed s rest) :: caps'))
          = Some caps) in He.
  destruct (times_sound _ _ _ _ _ _ _ He) as (pre & rest & -> & Hl & Hp & Hs).
  simpl in Hs. destruct (star_sound _ _ _ _ Hs) as (more & after & -> & Hm & Hk).
  injection Hk as <-.
  exists (pre +:+ more), after.
  rewrite <- (append_assoc_s pre more after). rewrite consumed_app.
  split; [reflexivity|]. split; [reflexivity|].
  split; [now rewrite every_app, Hp, Hm|].
  rewrite string_length_app. lia.
Qed.

Lemma letters_sound words R : forall s caps k c,
  RegExp.exec_at (RegExp.letters words R) s caps k = Some c ->
  exists pre rest, s = pre +:+ rest /\ RegExp.exec_at R rest caps k = Some c.
Proof.
  induction words as [|x words IH]; intros s caps k c H.
  - exists "", s. auto.
  - simpl in H. destruct s as [|a s]; [discriminate|].
    destruct (RegExp.letter x a); [|discriminate].
    destruct (IH _ _ _ _ H) as (pre & rest & -> & He).
    exists (String a pre), rest. auto.
Qed.

Lemma exec_complete r : forall skipped rest caps,
  RegExp.exec_at r rest [] (fun _ caps => Some caps) = Some caps ->
  RegExp.exec r (skipped +:+ rest) <> None.
Proof.
  assert (B : forall rest caps,
            RegExp.exec_at r rest [] (fun _ caps => Some caps) = Some caps ->
            RegExp.exec r rest <> None).
  { intros rest caps H. destruct rest; simpl; rewrite H; discriminate. }
  induction skipped as [|a skipped IH]; intros rest caps H.
  - exact (B _ _ H).
  - change (String a skipped +:+ rest) with (String a (skipped +:+ rest)).
    cbn [RegExp.exec].
    destruct (RegExp.exec_at r (String a (skipped +:+ rest)) [] _);
      [discriminate|].
    exact (IH _ _ H).
Qed.

Lemma threadAfter_sound words output caps :
  RegExp.exec (RegExp.threadAfter words) output = Some caps ->
  exists t,
    RegExp.group 1 caps = Some t
    /\ every RegExp.hex_or_dash t = true /\ (8 <= String.length t)%nat
    /\ Js.includes output t = true.
Proof.
  intros H. destruct (exec_sound _ _ _ H) as (sk & s & -> & He).
  unfold RegExp.threadAfter in He.
  destruct (letters_sound _ _ _ _ _ _ He) as (pre & s1 & -> & H1).
  simpl in H1. destruct s1 as [|x s1]; [discriminate|].
  destruct (RegExp.colon_or_space x); [|discriminate].
  destruct (star_sound _ _ _ _ H1) as (sp & s2 & -> & _ & H2).
  destruct (threadId_at _ _ _ H2) as (t & after & -> & -> & Ht & Hl).
  exists t. split; [reflexivity|]. split; [exact Ht|]. split; [exact Hl|].
  change (String x (sp +:+ t +:+ after)) with (String x sp +:+ t +:+ after).
  rewrite <- (append_assoc_s pre), <- (append_assoc_s sk).
  apply includes_app.
Qed.

(** A match of the second pattern has a match of the first inside. *)
Lemma created_thread_is_a_thread output caps :
  RegExp.exec (RegExp.threadAfter "created thread") output = Some caps ->
  RegExp.exec (RegExp.threadAfter "thread") output <> None.
Proof.
  intros H. destruct (exec_sound _ _ _ H) as (sk & s & -> & He).
  change (RegExp.threadAfter "created thread")
    with (RegExp.letters "created " (RegExp.threadAfter "thread")) in He.
  destruct (letters_sound _ _ _ _ _ _ He) as (pre & rest & -> & H1).
  rewrite <- append_assoc_s. exact (exec_complete _ _ _ _ H1).
Qed.

(** X27.  Of the three patterns of [parseThreadId] the second never
    decides: an output with [created thread] and an id has [thread] and
    the id, which the first pattern finds.  A thread id that is returned
    is a run of eight or more hexadecimal digits and dashes of the
    output. *)
Theorem second_thread_pattern_never_decides output :
  AmpCliHelpers.parseThreadId output
  = AmpCliHelpers.firstMatch
      [RegExp.threadAfter "thread"; RegExp.threadAfter "thread id"] output
  /\ (forall t, AmpCliHelpers.parseThreadId output = Some t ->
        every RegExp.hex_or_dash t = true
        /\ (8 <= String.length t)%nat
        /\ Js.includes output t = true).
Proof.
  assert (E : AmpCliHelpers.parseThreadId output
              = AmpCliHelpers.firstMatch
                  [RegExp.threadAfter "thread"; RegExp.threadAfter "thread id"]
                  output).
  { unfold AmpCliHelpers.parseThreadId. cbn [AmpCliHelpers.firstMatch].
    destruct (RegExp.exec (RegExp.threadAfter "thread") output) as [c1|] eqn:E1;
      [reflexivity|].
    destruct (RegExp.exec (RegExp.threadAfter "created thread") output)
      as [c2|] eqn:E2; [|reflexivity].
    destruct (created_thread_is_a_thread _ _ E2 E1). }
  split; [exact E|]. rewrite E. cbn [AmpCliHelpers.firstMatch]. intros t.
  destruct (RegExp.exec (RegExp.threadAfter "thread") output) as [c1|] eqn:E1.
  - destruct (threadAfter_sound _ _ _ E1) as (t1 & G & H). rewrite G.
    intros [= <-]. exact H.
  - destruct (RegExp.exec (RegExp.threadAfter "thread id") output) as [c3|] eqn:E3;
      [|discriminate].
    destruct (threadAfter_sound _ _ _ E3) as (t1 & G & H). rewrite G.
    intros [= <-]. exact H.
Qed.

(** *** The file mentions *)

Lemma mentioned_app s :
  s = fst (AmpCliHelpers.mentioned s) +:+ snd (AmpCliHelpers.mentioned s).
Proof.
  induction s as [|c r IH]; [reflexivity|]. simpl.
  destruct (Js.is_space c); [reflexivity|].
  destruct (AmpCliHelpers.mentioned r) as [name rest]. simpl in *.
  change (String c r = String c (name +:+ rest)). now rewrite <- IH.
Qed.

Lemma replaceMentions_same f :
  (forall name, f name = "@" +:+ name) ->
  forall fuel s, AmpCliHelpers.replaceMentions f fuel s = s.
Proof.
  intros Hf. induction fuel as [|fuel IH]; intros s; [reflexivity|].
  destruct s as [|c r]; [reflexivity|]. simpl.
  destruct (Ascii.eqb_spec c "@") as [->|_]; [|now rewrite IH].
  pose proof (mentioned_app r) as Hr.
  destruct (AmpCliHelpers.mentioned r) as [[|d name] rest]; simpl in Hr.
  - now rewrite IH.
  - rewrite Hf, IH, Hr. reflexivity.
Qed.

(** X28.  [formatFileMentions] returns the prompt as it is, whatever the
    working directory: what it puts for a mention is the mention, with
    and without a slash in the name. *)
Theorem file_mentions_are_left_as_they_are prompt workingDir :
  AmpCliHelpers.formatFileMentions prompt workingDir = prompt.
Proof.
  unfold AmpCliHelpers.formatFileMentions. apply replaceMentions_same.
  intros name. now destruct (Js.includes name "/").
Qed.

(** ** The requests of the control socket *)

Section Answers.

Variable host : Host.
Variable foreign : forall A : Type, string -> list (option Json) -> M TmuxManager.t A.
Variable configOf : Json -> option InstanceConfig.t.
Variable ws : nat.

Lemma sends_nothing_ret {A} (a : A) : sends_nothing (ret a).
Proof. now intros s. Qed.

Lemma sends_nothing_throw {A} e : sends_nothing (throw (A:=A) e).
Proof. now intros s. Qed.

Lemma sends_nothing_get : sends_nothing get.
Proof. now intros s. Qed.

Lemma sends_nothing_bind {A B} (m : M ControlSocket.t A) (k : A -> M ControlSocket.t B) :
  sends_nothing m -> (forall a, sends_nothing (k a)) -> sends_nothing (bind m k).
Proof.
  intros Hm Hk s. unfold bind. specialize (Hm s).
  destruct (m s) as [[a|e] s1]; simpl in *; [|exact Hm].
  now rewrite Hk.
Qed.

Lemma sends_nothing_manager {A} (method : M TmuxManager.t A) :
  sends_nothing (ControlSocket.manager method).
Proof.
  intros s. unfold ControlSocket.manager.
  destruct (ControlSocket.tmuxManager s) as [w|]; [|reflexivity].
  now destruct (method w).
Qed.

Lemma sends_nothing_member key v : sends_nothing (ControlSocket.member key v).
Proof. now destruct v. Qed.

Lemma sends_nothing_member_of key v : sends_nothing (ControlSocket.member_of key v).
Proof. destruct v as [v|]; [apply sends_nothing_member|apply sends_nothing_throw]. Qed.

Lemma sends_nothing_text_of v : sends_nothing (ControlSocket.text_of v).
Proof.
  unfold ControlSocket.text_of.
  destruct (ControlSocket.interpolate v); [apply sends_nothing_ret|apply sends_nothing_throw].
Qed.

Lemma sends_nothing_streams f :
  sends_nothing (modify (fun s => ControlSocket.set_eventStreams (f s) s)).
Proof. now intros s. Qed.

Ltac sends_nothing_tac :=
  repeat first
    [ apply sends_nothing_ret | apply sends_nothing_throw | apply sends_nothing_get
    | apply sends_nothing_manager | apply sends_nothing_member | apply sends_nothing_member_of
    | apply sends_nothing_text_of | apply sends_nothing_streams
    | apply sends_nothing_bind; [|intros ?]
    | match goal with
      | |- sends_nothing (match ?x with _ => _ end) => destruct x
      | |- sends_nothing (if ?x then _ else _) => destruct x
      end ].

Lemma sends_nothing_with_instance {A} name message (method : string -> M TmuxManager.t A) :
  sends_nothing (ControlSocket.with_instance foreign name message method).
Proof. unfold ControlSocket.with_instance. sends_nothing_tac. Qed.

(** The [switch] sends nothing. *)
Lemma dispatch_sent message :
  sends_nothing (ControlSocket.dispatch host foreign configOf ws message).
Proof.
  unfold ControlSocket.dispatch. apply sends_nothing_bind; [apply sends_nothing_member|].
  intros type. destruct (ControlSocket.kind_of type) as [[]|];
    pose proof @sends_nothing_with_instance; sends_nothing_tac.
Qed.

(** A frame that is not [null] has properties to read. *)
Lemma member_of_a_frame key message :
  message <> JNull ->
  ControlSocket.member key message = ret (JsonOps.prop key message).
Proof. now destruct message. Qed.

Lemma handleMessage_null open s :
  ControlSocket.handleMessage host foreign configOf ws open JNull s
  = (Thrown TypeError, s).
Proof.
  unfold ControlSocket.handleMessage, bind, get, try_catch. simpl.
  now destruct (ControlSocket.tmuxManager s).
Qed.

Lemma handleMessage_result open message s :
  message <> JNull ->
  ControlSocket.handleMessage host foreign configOf ws open message s
  = match ControlSocket.tmuxManager s with
    | None =>
        ControlSocket.sendResponse ws open
          (ControlSocket.mkResponse false None
             (Some (ControlSocket.Text "TmuxManager not available"))
             (JsonOps.prop "requestId" message)) s
    | Some _ =>
        match ControlSocket.dispatch host foreign configOf ws message s with
        | (Normal result, s1) =>
            ControlSocket.sendResponse ws open
              (ControlSocket.mkResponse true (Some result) None
                 (JsonOps.prop "requestId" message)) s1
        | (Thrown e, s1) =>
            ControlSocket.sendResponse ws open
              (ControlSocket.mkResponse false None
                 (Some (ControlSocket.MessageOf e))
                 (JsonOps.prop "requestId" message)) s1
        end
    end.
Proof.
  intros N. unfold ControlSocket.handleMessage.
  rewrite (member_of_a_frame "requestId" message N).
  unfold bind at 1, get.
  destruct (ControlSocket.tmuxManager s); [|reflexivity].
  unfold try_catch, bind at 1.
  destruct (ControlSocket.dispatch host foreign configOf ws message s)
    as [[result|e] s1]; [|reflexivity].
  unfold bind, ret, ControlSocket.sendResponse. destruct open; reflexivity.
Qed.

(** A request that is not implemented reads nothing and does nothing. *)
Lemma dispatch_unimplemented message k s :
  message <> JNull ->
  ControlSocket.kind_of (JsonOps.prop "type" message) = Some k ->
  unimplemented k = true ->
  exists text,
    ControlSocket.dispatch host foreign configOf ws message s
    = (Normal (ControlSocket.Failure text), s).
Proof.
  intros N K U. unfold ControlSocket.dispatch.
  rewrite (member_of_a_frame "type" message N). unfold bind at 1, ret at 1.
  rewrite K. destruct k; try discriminate; eexists; reflexivity.
Qed.

(** A request that reads [message.payload.x] first throws when there is
    no payload. *)
Lemma dispatch_without_payload message k s :
  message <> JNull ->
  ControlSocket.kind_of (JsonOps.prop "type" message) = Some k ->
  reads_payload k = true ->
  without_payload message ->
  ControlSocket.dispatch host foreign configOf ws message s
  = (Thrown TypeError, s).
Proof.
  intros N K U W. unfold ControlSocket.dispatch, ControlSocket.with_instance.
  rewrite !(member_of_a_frame _ message N). unfold bind at 1, ret at 1.
  rewrite K. destruct k; try discriminate; destruct W as [-> | ->]; reflexivity.
Qed.

Lemma dispatch_unknown message s :
  message <> JNull ->
  ControlSocket.kind_of (JsonOps.prop "type" message) = None ->
  ControlSocket.dispatch host foreign configOf ws message s
  = (Thrown
       match ControlSocket.interpolate (JsonOps.prop "type" message) with
       | Some text => Error ("Unknown command type: " +:+ text)
       | None => TypeError
       end, s).
Proof.
  intros N K. unfold ControlSocket.dispatch.
  rewrite (member_of_a_frame "type" message N). unfold bind at 1, ret at 1.
  rewrite K. unfold ControlSocket.text_of, bind.
  now destruct (ControlSocket.interpolate _).
Qed.

(** [toggle_auto_restart] reads the payload when it compares an
    instance. *)
Lemma dispatch_toggle_without_payload message w s :
  message <> JNull ->
  ControlSocket.kind_of (JsonOps.prop "type" message)
  = Some ControlSocket.toggle_auto_restart ->
  without_payload message ->
  ControlSocket.tmuxManager s = Some w ->
  ControlSocket.dispatch host foreign configOf ws message s
  = (match JsMap.values (TmuxManager.instances w) with
     | [] => Normal (ControlSocket.Failure "Instance not found")
     | _ :: _ => Thrown TypeError
     end, ControlSocket.set_tmuxManager (Some w) s).
Proof.
  intros N K W M. unfold ControlSocket.dispatch.
  rewrite !(member_of_a_frame _ message N). unfold bind at 1, ret at 1.
  rewrite K. unfold bind at 1, ControlSocket.manager at 1. rewrite M.
  unfold TmuxManager.listInstances, bind at 1, get at 1, ret at 1.
  destruct (JsMap.values (TmuxManager.instances w)); [reflexivity|].
  destruct W as [-> | ->]; reflexivity.
Qed.

(** [create_instance] without a payload creates an instance from no
    configuration. *)
Lemma dispatch_create_without_payload message s :
  message <> JNull ->
  ControlSocket.kind_of (JsonOps.prop "type" message)
  = Some ControlSocket.create_instance ->
  without_payload message ->
  ControlSocket.dispatch host foreign configOf ws message s
  = (instance <-
       ControlSocket.manager (TmuxManager.createInstance host None) ;;
     ret (ControlSocket.Created instance)) s.
Proof.
  intros N K W. unfold ControlSocket.dispatch.
  rewrite !(member_of_a_frame _ message N). unfold bind at 1, ret at 1.
  rewrite K. unfold bind at 1, ret at 1.
  destruct W as [-> | ->]; reflexivity.
Qed.

(** X29.  [handleMessage] on a frame as [JSON.parse] returned it.  On
    the frame [null] it throws a [TypeError], which nothing catches, and
    sends nothing.  On every other frame it returns; to an open client it
    sends one response, to a closed one none, and the request is carried
    out either way.  The response has [message.requestId]; without a
    manager it says no [success] and [TmuxManager not available];
    with one it says [success] and has the result when the [switch]
    returned, and says no [success] and has the message of the error when
    the [switch] threw.  The [switch] returns [{ error }] for [fork_thread]
    and [update_settings], which so are answered with [success], and does
    nothing; it throws a [TypeError] and does nothing for a request that
    reads a field of the payload when the frame has none
    ([set_global_auto_restart] is one of these); it throws
    [Unknown command type] for a type that is none of the cases;
    [toggle_auto_restart] without a payload finds no instance when there
    is none and throws otherwise; and [create_instance] without a payload
    creates an instance from no configuration. *)
Theorem every_request_is_answered open message s :
  let handle := ControlSocket.handleMessage host foreign configOf ws in
  let r := handle open message s in
  let answer := ControlSocket.dispatch host foreign configOf ws message s in
  let type := JsonOps.prop "type" message in
  (message = JNull -> r = (Thrown TypeError, s))
  /\ (message <> JNull ->
      fst r = Normal tt
      /\ ControlSocket.tmuxManager (snd r)
         = ControlSocket.tmuxManager (snd (handle (negb open) message s))
      /\ ControlSocket.eventStreams (snd r)
         = ControlSocket.eventStreams (snd (handle (negb open) message s))
      /\ (ControlSocket.tmuxManager s <> None ->
          ControlSocket.tmuxManager (snd r)
          = ControlSocket.tmuxManager (snd answer)
          /\ ControlSocket.eventStreams (snd r)
             = ControlSocket.eventStreams (snd answer))
      /\ (ControlSocket.tmuxManager s = None ->
          ControlSocket.tmuxManager (snd r) = None
          /\ ControlSocket.eventStreams (snd r) = ControlSocket.eventStreams s)
      /\ ControlSocket.sent (snd r)
         = (ControlSocket.sent s
            ++ (if open
                then [(ws,
                       match ControlSocket.tmuxManager s, fst answer with
                       | None, _ =>
                           ControlSocket.mkResponse false None
                             (Some (ControlSocket.Text "TmuxManager not available"))
                             (JsonOps.prop "requestId" message)
                       | Some _, Normal result =>
                           ControlSocket.mkResponse true (Some result) None
                             (JsonOps.prop "requestId" message)
                       | Some _, Thrown e =>
                           ControlSocket.mkResponse false None
                             (Some (ControlSocket.MessageOf e))
                             (JsonOps.prop "requestId" message)
                       end)]
                else []))%list
      /\ (forall k,
            ControlSocket.kind_of type = Some k -> unimplemented k = true ->
            exists text, answer = (Normal (ControlSocket.Failure text), s))
      /\ (forall k,
            ControlSocket.kind_of type = Some k -> reads_payload k = true ->
            without_payload message ->
            answer = (Thrown TypeError, s))
      /\ (ControlSocket.kind_of type = None ->
          answer
          = (Thrown
               match ControlSocket.interpolate type with
               | Some text => Error ("Unknown command type: " +:+ text)
               | None => TypeError
               end, s))
      /\ (forall w,
            ControlSocket.kind_of type = Some ControlSocket.toggle_auto_restart ->
            without_payload message ->
            ControlSocket.tmuxManager s = Some w ->
            fst answer
            = match JsMap.values (TmuxManager.instances w) with
              | [] => Normal (ControlSocket.Failure "Instance not found")
              | _ :: _ => Thrown TypeError
              end
            /\ ControlSocket.tmuxManager (snd answer) = Some w)
      /\ (ControlSocket.kind_of type = Some ControlSocket.create_instance ->
          without_payload message ->
          answer
          = (instance <-
               ControlSocket.manager (TmuxManager.createInstance host None) ;;
             ret (ControlSocket.Created instance)) s)).
Proof.
  intros handle r answer type. subst handle r answer type.
  split; [intros ->; apply handleMessage_null|]. intros N.
  rewrite !(handleMessage_result _ _ _ N).
  pose proof (dispatch_sent message s) as Hs.
  unfold ControlSocket.sendResponse.
  split; [|split; [|split; [|split; [|split; [|split; [|split;
    [|split; [|split; [|split]]]]]]]]].
  - destruct (ControlSocket.tmuxManager s);
      [destruct (ControlSocket.dispatch _ _ _ _ _ _) as [[]]|]; now destruct open.
  - destruct (ControlSocket.tmuxManager s);
      [destruct (ControlSocket.dispatch _ _ _ _ _ _) as [[]]|]; now destruct open.
  - destruct (ControlSocket.tmuxManager s);
      [destruct (ControlSocket.dispatch _ _ _ _ _ _) as [[]]|]; now destruct open.
  - destruct (ControlSocket.tmuxManager s); [intros _|congruence].
    destruct (ControlSocket.dispatch _ _ _ _ _ _) as [[]]; now destruct open.
  - intros M. rewrite M. now destruct open.
  - destruct (ControlSocket.tmuxManager s).
    + destruct (ControlSocket.dispatch _ _ _ _ _ _) as [[]]; simpl in Hs;
        destruct open; simpl; rewrite ?Hs, ?app_nil_r; reflexivity.
    + destruct open; simpl; now rewrite ?app_nil_r.
  - intros k. apply dispatch_unimplemented, N.
  - intros k. apply dispatch_without_payload, N.
  - apply dispatch_unknown, N.
  - intros w K W M.
    rewrite (dispatch_toggle_without_payload _ w _ N K W M). now split.
  - apply dispatch_create_without_payload, N.
Qed.

End Answers.

(** ** What the pane shows *)

(** A text without the separator that begins a string which has the
    separator begins what is before the separator. *)
Lemma prefix_before c t : forall a b,
  every (fun x => negb (Ascii.eqb x c)) t = true ->
  String.prefix t (a +:+ String c b) = true -> String.prefix t a = true.
Proof.
  induction t as [|y t IH]; intros a b Ht H.
  - now destruct a.
  - simpl in Ht. apply andb_true_iff in Ht as [Hy Ht].
    destruct a as [|x a].
    + change ("" +:+ String c b) with (String c b) in H. simpl in H.
      destruct (ascii_dec y c) as [->|]; [|discriminate].
      rewrite Ascii.eqb_refl in Hy. discriminate.
    + change (String x a +:+ String c b) with (String x (a +:+ String c b)) in H.
      simpl in *. destruct (ascii_dec y x); [|discriminate]. now apply IH with b.
Qed.

Lemma includes_before_or_after c t : forall a b,
  every (fun x => negb (Ascii.eqb x c)) t = true -> t <> "" ->
  Js.includes (a +:+ String c b) t = true ->
  Js.includes a t = true \/ Js.includes b t = true.
Proof.
  induction a as [|x a IH]; intros b Ht Hne H.
  - change ("" +:+ String c b) with (String c b) in H.
    rewrite includes_cons in H. apply orb_true_iff in H as [H|H]; [|now right].
    destruct t as [|y t]; [congruence|]. simpl in H, Ht.
    destruct (ascii_dec y c) as [->|]; [|discriminate].
    rewrite Ascii.eqb_refl in Ht. discriminate.
  - change (String x a +:+ String c b) with (String x (a +:+ String c b)) in H.
    rewrite includes_cons in H. apply orb_true_iff in H as [H|H].
    + left. apply prefix_includes.
      apply (prefix_before c t (String x a) b Ht H).
    + destruct (IH b Ht Hne H) as [K|K]; [left|now right].
      rewrite includes_cons, K. apply orb_true_r.
Qed.

(** A text without a blank that is in the lines joined by blanks is in
    one of the lines. *)
Lemma includes_join t : forall lines,
  every (fun x => negb (Ascii.eqb x " ")) t = true -> t <> "" ->
  Js.includes (Js.join " " lines) t = true ->
  exists line, In line lines /\ Js.includes line t = true.
Proof.
  induction lines as [|l r IH]; intros Ht Hne H.
  - simpl in H. apply includes_nil in H. congruence.
  - destruct r as [|l' r].
    + exists l. split; [now left|exact H].
    + change (Js.join " " (l :: l' :: r))
        with (l +:+ String " " (Js.join " " (l' :: r))) in H.
      destruct (includes_before_or_after " " t l _ Ht Hne H) as [K|K].
      * exists l. split; [now left|exact K].
      * destruct (IH Ht Hne K) as (line & Hin & Hl).
        exists line. split; [now right|exact Hl].
Qed.

(** The pieces of a string are parts of it, the first piece its start. *)
Lemma split_pieces c s :
  match Js.split c s with
  | [] => False
  | p :: ps =>
      String.prefix p s = true
      /\ forall l, In l ps -> Js.includes s l = true
  end.
Proof.
  induction s as [|a r IH]; simpl.
  - split; [reflexivity|]. intros l [].
  - destruct (Ascii.eqb a c).
    + split; [reflexivity|]. intros l Hl.
      rewrite includes_cons. apply orb_true_iff. right.
      destruct (Js.split c r) as [|p ps]; [destruct IH|].
      destruct IH as [Hp Hps]. destruct Hl as [<-|Hl]; [|now apply Hps].
      now apply prefix_includes.
    + destruct (Js.split c r) as [|p ps]; [destruct IH|].
      destruct IH as [Hp Hps]. split.
      * simpl. destruct (ascii_dec a a); [exact Hp|congruence].
      * intros l Hl. rewrite includes_cons, (Hps l Hl). apply orb_true_r.
Qed.

Lemma split_includes c s l : In l (Js.split c s) -> Js.includes s l = true.
Proof.
  pose proof (split_pieces c s) as H.
  destruct (Js.split c s) as [|p ps]; [destruct H|].
  destruct H as [Hp Hps]. intros [<-|Hl]; [now apply prefix_includes|now apply Hps].
Qed.

Lemma hex_or_dash_no_blank t :
  every RegExp.hex_or_dash t = true ->
  every (fun x => negb (Ascii.eqb x " ")) t = true.
Proof.
  induction t as [|c t IH]; [reflexivity|]. simpl. intros H.
  apply andb_true_iff in H as [Hc Ht]. rewrite (IH Ht), andb_true_r.
  destruct (Ascii.eqb_spec c " ") as [->|]; [discriminate|reflexivity].
Qed.

Lemma getInstanceOutput_pane host id w i lines w1 :
  JsMap.get id (TmuxManager.instances w) = Some i ->
  TmuxManager.getInstanceOutput host id w = (Normal lines, w1) ->
  lines = []
  \/ exists out err,
       tmux host (length (TmuxManager.calls w))
         ["capture-pane"; "-t"; TmuxManager.target i w; "-S"; "-50"; "-p"]
       = Closed 0 out err
       /\ forall l, In l lines -> Js.includes out l = true.
Proof.
  intros E.
  unfold TmuxManager.getInstanceOutput, TmuxManager.lookup,
    TmuxManager.runTmuxCommand, TmuxManager.call.
  unfold bind, try_catch, get, ret, throw. rewrite E. simpl.
  destruct (tmux host _ _) as [code out err|e] eqn:T; simpl;
    [destruct (Z.eqb_spec code 0) as [->|]; simpl|];
    intros [= <- <-]; [|now left..].
  right. exists out, err. split; [reflexivity|]. intros l Hl.
  apply list_elem_of_In, list_elem_of_filter in Hl as [_ Hl].
  apply list_elem_of_In, split_includes in Hl.
  eapply includes_trans; [apply includes_trim|exact Hl].
Qed.

Lemma bind_inv {S A B} (m : M S A) (k : A -> M S B) s b s' :
  bind m k s = (Normal b, s') ->
  exists a s1, m s = (Normal a, s1) /\ k a s1 = (Normal b, s').
Proof.
  unfold bind. destruct (m s) as [[a|e] s1]; [eauto|discriminate].
Qed.

(** The thread id that [createThread] returns is in what the pane
    showed when it was captured, after the two commands were typed. *)
Lemma createThread_pane host id w i t :
  JsMap.get id (TmuxManager.instances w) = Some i ->
  fst (TmuxManager.createThread host id w) = Normal (Some t) ->
  exists out err,
    tmux host (S (S (length (TmuxManager.calls w))))
      ["capture-pane"; "-t"; TmuxManager.target i w; "-S"; "-50"; "-p"]
    = Closed 0 out err
    /\ Js.includes out t = true.
Proof.
  intros E. unfold TmuxManager.createThread. unfold bind at 1, TmuxManager.lookup.
  rewrite E. unfold try_catch.
  match goal with
  | |- fst (let (c, s') := ?body w in _) = _ -> _ =>
      destruct (body w) as [[a|e] w9] eqn:B
  end.
  2:{ unfold bind, TmuxManager.emitEvent, modify. simpl. discriminate. }
  simpl. intros [= ->].
  apply bind_inv in B as ([] & w1 & B1 & B).
  apply bind_inv in B as ([] & w2 & B2 & B).
  apply bind_inv in B as ([] & w3 & B3 & B).
  apply bind_inv in B as ([] & w4 & B4 & B).
  apply bind_inv in B as (output & w5 & B5 & B).
  (* the manager when the pane is captured *)
  pose proof (send_keys_calls host i ["C-c"] w) as C1. rewrite B1 in C1. simpl in C1.
  pose proof (keeps_send_keys host TmuxManager.instances
                (fun _ _ => eq_refl) (fun _ _ => eq_refl) i ["C-c"] w) as I1.
  pose proof (keeps_send_keys host TmuxManager.sessionName
                (fun _ _ => eq_refl) (fun _ _ => eq_refl) i ["C-c"] w) as N1.
  rewrite B1 in I1, N1. unfold same in I1, N1. simpl in I1, N1.
  unfold TmuxManager.sleep, modify in B2, B4.
  injection B2 as <-. injection B4 as <-.
  set (w2 := TmuxManager.set_clock _ w1) in *.
  pose proof (send_keys_calls host i ["amp threads new"; "Enter"] w2) as C3.
  pose proof (keeps_send_keys host TmuxManager.instances
                (fun _ _ => eq_refl) (fun _ _ => eq_refl) i
                ["amp threads new"; "Enter"] w2) as I3.
  pose proof (keeps_send_keys host TmuxManager.sessionName
                (fun _ _ => eq_refl) (fun _ _ => eq_refl) i
                ["amp threads new"; "Enter"] w2) as N3.
  rewrite B3 in C3, I3, N3. unfold same in I3, N3. simpl in C3, I3, N3.
  set (w4 := TmuxManager.set_clock _ w3) in *.
  assert (E4 : JsMap.get id (TmuxManager.instances w4) = Some i)
    by (subst w4 w2; simpl; now rewrite I3, I1).
  assert (L4 : length (TmuxManager.calls w4) = S (S (length (TmuxManager.calls w))))
    by (subst w4 w2; simpl; rewrite C3; simpl; rewrite C1, !length_app; simpl; lia).
  assert (T4 : TmuxManager.target i w4 = TmuxManager.target i w)
    by (unfold TmuxManager.target; subst w4 w2; simpl; now rewrite N3, N1).
  (* the id *)
  destruct (RegExp.exec RegExp.threadId (Js.join " " output)) as [caps|] eqn:X.
  2:{ apply bind_inv in B as (? & ? & _ & B). discriminate. }
  destruct (threadId_sound _ _ X) as (t' & before & after & G & Ho & Hp & Hl).
  rewrite G in B.
  apply bind_inv in B as (? & ? & _ & B).
  apply bind_inv in B as (? & ? & _ & B).
  apply bind_inv in B as (? & ? & _ & B).
  injection B as -> _.
  assert (Hne : t <> "") by (intros ->; simpl in Hl; lia).
  assert (Hin : Js.includes (Js.join " " output) t = true)
    by (rewrite Ho; apply includes_app).
  destruct (includes_join t output (hex_or_dash_no_blank t Hp) Hne Hin)
    as (line & Hline & Ht).
  destruct (getInstanceOutput_pane host id w4 i output w5 E4 B5)
    as [->|(out & err & Hc & Hall)]; [destruct Hline|].
  exists out, err. rewrite <- L4, <- T4. split; [exact Hc|].
  eapply includes_trans; [exact (Hall line Hline)|exact Ht].
Qed.

(** X14.  [createThread] on a registered instance never throws and writes
    no other instance.  A thread id it returns is a run of eight or more
    hexadecimal digits and dashes that is in what the pane showed when it
    was captured, after the interrupt and the command were typed, and is
    then the [threadId] of the instance. *)
Theorem thread_id_is_read_off_the_pane host id w i :
  JsMap.get id (TmuxManager.instances w) = Some i ->
  let r := TmuxManager.createThread host id w in
  (exists answer, fst r = Normal answer)
  /\ (forall k, k <> id ->
        JsMap.get k (TmuxManager.instances (snd r))
        = JsMap.get k (TmuxManager.instances w))
  /\ (forall t, fst r = Normal (Some t) ->
        every RegExp.hex_or_dash t = true
        /\ (8 <= String.length t)%nat
        /\ JsMap.get id (TmuxManager.instances (snd r))
           = Some (AmpInstance.set_threadId (Some t) i)
        /\ exists out err,
             tmux host (S (S (length (TmuxManager.calls w))))
               ["capture-pane"; "-t"; TmuxManager.target i w; "-S"; "-50"; "-p"]
             = Closed 0 out err
             /\ Js.includes out t = true).
Proof.
  intros E r.
  destruct (created_thread_is_written host id w i E) as (H1 & H2 & H3).
  split; [exact H1|]. split; [exact H2|]. intros t Ht.
  destruct (H3 t Ht) as (Ha & Hb & Hc).
  split; [exact Ha|]. split; [exact Hb|]. split; [exact Hc|].
  exact (createThread_pane host id w i t E Ht).
Qed.

Lemma thread_id_is_read_off_the_pane_witness :
  let w := Scenario.plain_world in
  let host := Scenario.host_showing "Created thread T-5f3a9c1e-77" in
  let r := TmuxManager.createThread host Scenario.id0 w in
  fst r = Normal (Some "-5f3a9c1e-77")
  /\ JsMap.get Scenario.id0 (TmuxManager.instances (snd r))
     = Some (AmpInstance.set_threadId (Some "-5f3a9c1e-77") Scenario.plain_instance).
Proof.
  intros w host r.
  assert (E : JsMap.get Scenario.id0 (TmuxManager.instances w)
              = Some Scenario.plain_instance) by (vm_compute; reflexivity).
  assert (R : fst r = Normal (Some "-5f3a9c1e-77")) by (vm_compute; reflexivity).
  destruct (thread_id_is_read_off_the_pane host Scenario.id0 w
              Scenario.plain_instance E) as (_ & _ & H3).
  split; [exact R|]. exact (proj1 (proj2 (proj2 (H3 _ R)))).
Defined.
